(* ===== verification/_CoqProject ===== *)
-Q . S2P
Prelude.v
CStd.v
Json.v
Message.v
PacketCodec.v
Wire.v
SessionManager.v
SqlTables.v
MySqlClient.v
MySqlTables.v
ToyServer.v
UserStore.v
GroupStore.v
MessageStore.v
ServerConfig.v
ThreadPool.v
Log.v
MySqlConnectionPool.v
PoolSpec.v
UserStoreDb.v
GroupStoreDb.v
MessageStoreDb.v
PoolServe.v
PoolTheorems.v
DbSpec.v
TableRefinement.v
MessageRefinement.v
Logger.v
LogThreads.v
Storage.v
StorageDb.v
StorageRefinement.v
Startup.v
ChatService.v
ChatSpec.v
ChatTheorems.v
ChatDb.v
TcpServer.v
TcpSpec.v
TcpTheorems.v
Orphans.v
ServerLife.v
ServerCalls.v
ServiceRefinement.v
Program.v
