(* ===== verification/Prelude.v ===== *)
(** * cpp_chat: a verification development

    cpp_chat is an epoll chat server in C++17.  Clients send JSON requests in
    length-prefixed frames over TCP; one reactor thread owns the connections, a
    pool of worker threads runs the requests, and the responses travel back
    through a queue.  This library models the server's own logic and proves
    what makes it correct.  Paths below are relative to the repository; the
    implementation is in [src/src] and [src/include/cpp_chat].

    ** The parts and the files that model them

    - [Prelude.v] (this file): byte strings, machine integers, the result
      monad [Res] (a C++ value or exception), the state monad [ST] with its
      weakest precondition [wp], tables of sets, list lemmas and tactics.
    - [CStd.v]: the C and C++ library functions the program calls (character
      classes, [std::to_string], [strtol], [std::stoi], [std::getline]).
    - [Json.v] and [Message.v]: [protocol/message.cpp], the JSON reader and
      writer and the commands and responses made of it.  A parser's position is
      the unread suffix of the input.
    - [PacketCodec.v]: [network/packet_codec.cpp].  The kernel is a script of
      answers of [recv] and [send].  [Wire.v] joins it to [Message.v].
    - [SessionManager.v]: [session/session_manager.cpp], the record of the
      three indexes and the group table, one function per method.
    - [UserStore.v], [GroupStore.v], [MessageStore.v]: the stores of
      [storage/] in memory mode.  OpenSSL is the class [OpenSSL], a parameter.
    - [SqlTables.v]: the SQL texts of the program, the tables they describe,
      and the documented meaning of each text; [MySqlClient.v]: the C API of
      MySQL as the class [MySql], with the life cycle of its objects as laws
      ([MySqlProtocol]); [MySqlTables.v]: what the calls answer while library,
      network and server work ([MySqlTablesSpec]); [ToyServer.v]: two concrete
      servers with all these laws, for the witnesses.
    - [MySqlConnectionPool.v]: [storage/mysql_connection_pool.cpp], one function
      per critical section, with the pooled objects in a store of their own;
      [PoolSpec.v]: the invariant [pool_ok] and that every operation keeps it;
      [PoolServe.v]: that a live pool hands out a working connection;
      [PoolTheorems.v]: callers that interleave ([pool_step]) and the properties.
    - [UserStoreDb.v], [GroupStoreDb.v], [MessageStoreDb.v]: the MySQL mode of
      the stores, one function per query and per method; [DbSpec.v]: what each
      does to the tables; [TableRefinement.v] and [MessageRefinement.v]: that
      the tables represent the stores of the memory mode.
    - [Log.v] and [Logger.v]: [logging/logger.cpp], one thread at a time;
      [LogThreads.v]: the parts of the calls of several threads, interleaved
      with each other and with the pool's other users.
    - [ServerConfig.v]: [core/server_config.cpp]; the content of the file and
      the environment are arguments.
    - [ThreadPool.v]: [core/thread_pool.cpp] and its header, one function per
      critical section.
    - [Storage.v]: the methods [ChatService] calls on the stores, as the class
      [Storage]; its contract [StorageSpec], stated on views of the stored
      data; the instance made of the memory modes.  [StorageDb.v]: the instance
      made of the MySQL modes, sequences of store calls, and their resources;
      [StorageRefinement.v]: the simulation of one instance by the other.
    - [Startup.v]: [app/chat_server_app.cpp], from the configuration to the
      stores.
    - [ChatService.v]: [chat/chat_service.cpp], one definition per command of
      [handle_client_line]; [ChatSpec.v]: the abstract transitions, the
      invariant, and a lemma per branch; [ChatTheorems.v]: the properties;
      [ChatDb.v]: the service on the MySQL stores.
    - [TcpServer.v]: [network/tcp_server.cpp], one definition per handler of
      the event loop and the worker side, over a [Kernel] that says what [send]
      and [epoll_ctl] answer; [TcpSpec.v]: the invariant of the connections and
      queues, kept by every handler; [TcpTheorems.v]: the interleavings and the
      properties; [Orphans.v]: sessions whose connection is gone;
      [ServerLife.v]: [setup_listener], the loop, [start] and [stop], over the
      socket calls as the class [Sockets]; [ServerCalls.v]: that all of it
      reaches the stores through their calls only.
    - [ServiceRefinement.v]: the service on one instance of [Storage] against
      the service on another.
    - [Program.v]: [main.cpp], from the start of the pool to its destructor,
      with the workers that outlive the event loop; [outcome] says how a run
      ends: still in the loop, with tasks that [~ThreadPool] would run on the
      destroyed server ([Dangling], undefined behaviour, where the model stops),
      or returned.

    ** How the parts interact

    [TcpServer] decodes frames with [PacketCodec], submits the packets of a
    read as one task to [ThreadPool], and runs each through
    [ChatService.handle_client_line]; the responses are tagged with connection
    id and generation, queued, and written by the reactor.  [ChatService] is
    proved against the interface [StorageSpec] only, and [memory_storage_spec]
    discharges it for the memory modes; [TcpTheorems.v] is proved for any such
    storage and any kernel with [KernelSpec].  The MySQL modes are a second
    instance of [Storage]; every method runs in the scope of a connection of
    the pool ([using_connection]).  That instance is tied to the first by
    [database_refines_memory]: on [admissible] calls (names that are not another
    spelling of a name in use, values the columns hold, no reference to users
    that do not exist, ids below 2^32 in direct conversations) both give the
    same answers.  [service_on_database] carries this through the service: what
    [ChatTheorems.v] says of the responses in memory mode holds in production.
    On other calls the modes differ, and [spelling_takes_session] shows one way
    that reaches the clients.

    ** What the theorems show

    - Codec: parsing terminates on every input ([parse_json_object_total]);
      what is written is read back ([responses_parse_back],
      [requests_over_the_wire], [frames_delivered]); no byte is lost or made up
      ([received_bytes_accounted], [send_all_sound]); and a limit of the
      protocol ([direct_message_outgrows_frame]).
    - Stores and sessions: refinement of the session indexes to one abstract
      map, history pages against a reference definition and complete paging,
      password hashes verified through their printed form, registration and
      membership on every branch.
    - Database: the MySQL mode refines the memory mode, as stores
      ([database_refines_memory]) and as a service ([service_on_database]);
      statements and connections are given back whatever the library answers
      ([stores_keep_pool], [console_always]), by the program as a whole too
      when it returns ([program_leaves_nothing]); what the service does without
      a connection ([degraded_service], [failed_start]); tables of older
      versions are brought up to date ([schema_migration]).
    - Log: in one thread the log table follows the console
      ([log_follows_console]); among threads each one's rows follow its lines,
      and every row has its line ([rows_follow_lines]), but rows of different
      threads can be in another order than their lines ([rows_out_of_order]).
    - Connection pool: one owner for every connection, in every interleaving
      in which [shutdown] is called while nothing is lent
      ([connections_have_one_owner], [holders_bounded]); [acquire] as the stores
      use it is a run of that system ([acquire_is_a_run]) and serves while a
      connection is left ([acquire_serves]); [init] and [shutdown]
      ([init_all_or_nothing], [shutdown_releases_all]), and what a [shutdown]
      with connections lent does ([shutdown_frees_lent_connections]).
    - Service: every line is a transition of [service_step]
      ([client_line_refines]); the exact effect and answer of each request; no
      request needing a session is served without one; nobody reads messages of
      others ([history_confidential]).
    - Server: in every reachable interleaving the output stream of a connection
      is the frames of its responses, in order ([client_reads_responses]), with
      bounded buffers and exact descriptor tables; responses go where they are
      addressed ([request_answered], [drain_delivers]); reads, closes and
      heartbeats do exactly what they should; [start] sets up its descriptors
      ([listener_set_up]) and returns with all of them closed
      ([start_releases_all]); and a session can outlive its connection, which
      no later event mends ([session_outlives_connection]).
    - Configuration and pool: precedence of the sources for the settings that
      are read, the others keeping their defaults, and first-in first-out
      execution of accepted tasks.

    ** Bounds and fuel

    The loops over the JSON members, the password's digits and the buffered
    frames take fuel; the length of the input is enough ([parse_members_some],
    [decode_frames_some]), so no theorem depends on a default.  The loops over
    result sets take the size of the result set; [fetch_rows_enough] shows that
    more changes nothing, because every row read leaves fewer.  The receive and
    send loops recurse on the kernel's script and return [None] when it ends
    while they still wait; [recv_returns] says when they return, and
    [KernelSpec] asks that [send] does not answer [EINTR] for ever.  The event
    loop recurses on the script of [epoll_wait] in the same way; it returns
    when the script has a failure other than [EINTR] ([run_event_loop_spec]).
    The 64-bit counters of ids wrap around; [room] and [ids_left] state that an
    operation stays below 2^64, and [reachable] carries the former.

    ** What is not modelled

    The texts printed on [std::cerr], and with them [mysql_error] and
    [mysql_stmt_error].  The SQL server and its client library are parameters:
    what they do is stated as laws, only for the texts the program sends.  A
    failure of the server in the middle of a sequence of calls is covered by
    the resource theorems and not by the refinement.  The log calls of the
    service and the network layer are recorded in the state; that each of them
    also prints and inserts is [Logger.v], and the two are not composed.
    Threads are modelled by interleaving whole events: one event of the loop,
    one drain, one packet of a worker, for the connection pool one critical
    section, for the logger the line, the steps of [acquire], the statement and
    the guard's destructor.  In [Program.v] the workers' steps after the loop
    are taken between [stop] and the last line of [run], and between that line
    and the destructors, and not in the middle of [stop] or of the line; what
    happens once [~ThreadPool] runs a task on destroyed objects is undefined in
    C++, and so in the model.  [shutdown] of the pool has no guard against lent
    connections; [pool_step] considers only the histories in which nothing is
    lent, as when the program calls it.  In the program a packet's store operations can interleave with
    those of another worker; their own atomicity is that of the methods'
    mutexes, or of the database.  The wait of [acquire] is its outcome:
    [take_available] finds a connection or not. *)

From stdpp Require Export base list gmap strings numbers sorting.
From Stdlib Require Export Ascii.
From Stdlib Require Export ZifyBool ZifyN ZifyNat.

(** ** Byte strings

    A C++ [std::string] is a sequence of 8-bit bytes.  It is modelled as a
    list of [ascii], so the list lemmas apply; string literals are coerced. *)

Declare Scope chat_scope.
Delimit Scope chat_scope with chat.

Abbreviation bytes := (list ascii).

Definition bs (s : string) : bytes := String.list_ascii_of_string s.
Coercion bs : string >-> list.

(** Characters that cannot be written as plain one-character literals. *)
Definition dquote : ascii := "034"%char.
Definition backslash : ascii := "092"%char.
Definition nl : ascii := "010"%char.
Definition cr : ascii := "013"%char.
Definition tab : ascii := "009"%char.
Definition nul : ascii := "000"%char.

(** The unsigned code of a character ([static_cast<unsigned char>]). *)
Abbreviation code c := (N_of_ascii c).

(** ** Machine integers *)

(** One past the largest [std::uint64_t], [std::uint32_t] and [std::uint16_t]. *)
Definition u64_modulus : N := 2 ^ 64.
Definition u32_modulus : N := 2 ^ 32.
Definition u16_modulus : N := 2 ^ 16.

(** Conversion to an unsigned type keeps the low bits. *)
Definition to_u64 (n : N) : N := n mod u64_modulus.
Definition to_u32 (n : N) : N := n mod u32_modulus.
Definition to_u16 (n : N) : N := n mod u16_modulus.

(** [x++] on a [std::uint64_t]. *)
Definition u64_succ (n : N) : N := to_u64 (n + 1).

Lemma u64_succ_small (n : N) : (n + 1 < u64_modulus)%N -> u64_succ n = (n + 1)%N.
Proof. apply N.mod_small. Qed.

(** ** Results: a value, or a thrown [std::exception] with its [what()] *)

Inductive Res (A : Type) : Type :=
  | Ok (a : A)
  | Throw (what : bytes).
Arguments Ok {A} a.
Arguments Throw {A} what.

#[export] Instance Res_ret : MRet Res := @Ok.
#[export] Instance Res_bind : MBind Res := fun A B f r =>
  match r with
  | Ok a => f a
  | Throw w => Throw w
  end.

#[export] Instance Res_eq_dec `{EqDecision A} : EqDecision (Res A).
Proof. solve_decision. Defined.

(** ** State passing: a computation that reads and updates a state [S] *)

Definition ST (S A : Type) : Type := S -> A * S.

#[export] Instance ST_ret {S} : MRet (ST S) := fun A a s => (a, s).
#[export] Instance ST_bind {S} : MBind (ST S) := fun A B f m s =>
  let '(a, s') := m s in f a s'.

Definition gets {S A} (f : S -> A) : ST S A := fun s => (f s, s).
Definition modify {S} (f : S -> S) : ST S unit := fun s => (tt, f s).

(** The monad laws; the two unit laws are rewriting hints. *)
Lemma Res_bind_Ok {A B} (a : A) (f : A -> Res B) : (Ok a ≫= f) = f a.
Proof. reflexivity. Qed.

Lemma Res_bind_Throw {A B} (w : bytes) (f : A -> Res B) : (Throw w ≫= f) = Throw w.
Proof. reflexivity. Qed.

Lemma Res_bind_Ok_inv {A B} (m : Res A) (f : A -> Res B) (b : B) :
  (m ≫= f) = Ok b -> exists a, m = Ok a /\ f a = Ok b.
Proof. destruct m as [a|w]; [|discriminate]. intros H. by exists a. Qed.

Lemma Res_bind_assoc {A B C} (m : Res A) (f : A -> Res B) (g : B -> Res C) :
  ((m ≫= f) ≫= g) = (m ≫= fun a => f a ≫= g).
Proof. by destruct m. Qed.

(** Weakest preconditions: [wp m Q s] says that running [m] from [s] gives a
    result and a state with [Q]. *)
Definition wp {S A} (m : ST S A) (Q : A -> S -> Prop) (s : S) : Prop := Q (m s).1 (m s).2.

Lemma wp_ret {S A} (a : A) (Q : A -> S -> Prop) s : Q a s -> wp (mret a) Q s.
Proof. done. Qed.

Lemma wp_bind {S A B} (m : ST S A) (f : A -> ST S B) Q s :
  wp m (fun a => wp (f a) Q) s -> wp (m ≫= f) Q s.
Proof. unfold wp, mbind, ST_bind. by destruct (m s). Qed.

Lemma gets_wp {S A} (f : S -> A) (Q : A -> S -> Prop) s : Q (f s) s -> wp (gets f) Q s.
Proof. done. Qed.

Lemma wp_and {S A} (m : ST S A) (P Q : A -> S -> Prop) s :
  wp m P s -> wp m Q s -> wp m (fun a s' => P a s' /\ Q a s') s.
Proof. by split. Qed.

Lemma wp_bind_assoc {S A B C} (m : ST S A) (f : A -> ST S B) (g : B -> ST S C) Q s :
  wp (m ≫= fun a => f a ≫= g) Q s -> wp ((m ≫= f) ≫= g) Q s.
Proof. unfold wp, mbind, ST_bind. by destruct (m s). Qed.

Lemma wp_mono {S A} (m : ST S A) (P Q : A -> S -> Prop) s :
  wp m P s -> (forall a s', P a s' -> Q a s') -> wp m Q s.
Proof. unfold wp. auto. Qed.

Lemma wp_run {S A} (m : ST S A) (Q : A -> S -> Prop) s a s' :
  wp m Q s -> m s = (a, s') -> Q a s'.
Proof. intros H E. unfold wp in H. by rewrite E in H. Qed.

(** ** Generic list lemmas *)

(** The longest prefix of [l] that satisfies [p], and what follows it: a
    [while (pos < size && p(input[pos])) ++pos] loop. *)
Fixpoint span {A} (p : A -> bool) (l : list A) : list A * list A :=
  match l with
  | [] => ([], [])
  | x :: l' => if p x then let '(a, b) := span p l' in (x :: a, b) else ([], l)
  end.

Lemma span_app {A} (p : A -> bool) (l : list A) : (span p l).1 ++ (span p l).2 = l.
Proof.
  induction l as [|x l IH]; [done|]. simpl.
  destruct (p x); [|done]. destruct (span p l) as [a b]; simpl in *. by rewrite IH.
Qed.

Lemma span_fst_all {A} (p : A -> bool) (l : list A) : Forall (fun x => p x = true) (span p l).1.
Proof.
  induction l as [|x l IH]; simpl; [constructor|].
  destruct (p x) eqn:E; [|constructor]. destruct (span p l); simpl in *. by constructor.
Qed.

(** The head of [l], if any, fails [p]: the scan stops in front of [l]. *)
Definition stops {A} (p : A -> bool) (l : list A) : Prop :=
  match l with [] => True | x :: _ => p x = false end.

Lemma span_stop {A} (p : A -> bool) (l r : list A) :
  Forall (fun x => p x = true) l -> stops p r -> span p (l ++ r) = (l, r).
Proof.
  intros Hl Hr. induction Hl as [|x l Hx Hl IH]; simpl.
  - destruct r as [|y r]; simpl in *; [done|]. by rewrite Hr.
  - by rewrite Hx, IH.
Qed.

Lemma span_snd_length {A} (p : A -> bool) (l : list A) : (length (span p l).2 <= length l)%nat.
Proof. rewrite <- (span_app p l) at 2. rewrite length_app. lia. Qed.

Lemma replicate_concat_nil {A} n : concat (replicate n (@nil A)) = [].
Proof. by induction n. Qed.

(** ** Tables of sets

    Group membership is kept as a map from group to member set that never
    stores an empty set; the session manager and the member store share it. *)

Abbreviation table := (gmap N (gset N)).

Definition in_table (m : table) (g u : N) : bool :=
  match m !! g with
  | None => false
  | Some members => bool_decide (u ∈ members)
  end.

Definition table_add (m : table) (g u : N) : table :=
  <[g := {[u]} ∪ default ∅ (m !! g)]> m.

Definition table_store (m : table) (g : N) (members : gset N) : table :=
  if bool_decide (members = ∅) then delete g m else <[g := members]> m.

Definition inhabited_table (m : table) : Prop :=
  forall g (members : gset N), m !! g = Some members -> members <> ∅.

Lemma in_table_add (m : table) g u g' u' :
  in_table (table_add m g u) g' u' = bool_decide (g' = g /\ u' = u) || in_table m g' u'.
Proof.
  unfold in_table, table_add. rewrite lookup_insert. case_decide as Hg.
  - subst. apply eq_true_iff_eq. rewrite orb_true_iff, !bool_decide_eq_true.
    destruct (m !! g') as [ms|]; simpl; rewrite ?bool_decide_eq_true; set_solver.
  - rewrite bool_decide_eq_false_2 by (intros [-> _]; done). done.
Qed.

Lemma in_table_remove (m : table) g u (members : gset N) g' u' :
  m !! g = Some members ->
  in_table (table_store m g (members ∖ {[u]})) g' u' =
    negb (bool_decide (g' = g /\ u' = u)) && in_table m g' u'.
Proof.
  intros E. unfold in_table, table_store. apply eq_true_iff_eq.
  rewrite andb_true_iff, negb_true_iff, bool_decide_eq_false.
  case_bool_decide as He; rewrite ?lookup_delete, ?lookup_insert; case_decide as Hg;
    [subst; rewrite E| |subst; rewrite E|];
    rewrite ?bool_decide_eq_true; try set_solver; naive_solver.
Qed.

Lemma in_table_absent (m : table) g u g' u' :
  in_table m g u = false ->
  in_table m g' u' = negb (bool_decide (g' = g /\ u' = u)) && in_table m g' u'.
Proof.
  intros H. case_bool_decide as E; [|done]. destruct E as [-> ->]. by rewrite H.
Qed.

Lemma inhabited_table_add m g u : inhabited_table m -> inhabited_table (table_add m g u).
Proof.
  intros H g' ms. unfold table_add. rewrite lookup_insert. case_decide; [|apply H].
  intros [= <-]. set_solver.
Qed.

Lemma inhabited_table_store m g members :
  inhabited_table m -> inhabited_table (table_store m g members).
Proof.
  intros H. unfold table_store. case_bool_decide as He; intros g' ms'.
  - rewrite lookup_delete. case_decide; [discriminate|apply H].
  - rewrite lookup_insert. case_decide; [by intros [= <-]|apply H].
Qed.

(** ** Automation

    [chat] collects the side conditions the components share; [res_inv]
    unpacks a successful run of a [Res] computation. *)
Create HintDb chat discriminated.
Create Rewrite HintDb chat.

#[export] Hint Rewrite @Res_bind_Ok @Res_bind_Throw : chat.

Ltac res_inv :=
  repeat match goal with
  | H : (_ ≫= _) = Ok _ |- _ =>
      let a := fresh "a" in let E := fresh "E" in
      apply Res_bind_Ok_inv in H as (a & E & H)
  | H : Throw _ = Ok _ |- _ => discriminate H
  | H : Ok _ = Throw _ |- _ => discriminate H
  | H : Ok _ = Ok _ |- _ => injection H as H
  end.

(** Case analysis on the scrutinee of the innermost conditional in sight. *)
Ltac case_if :=
  match goal with
  | |- context [if ?b then _ else _] =>
      lazymatch b with
      | context [if _ then _ else _] => fail
      | _ => let E := fresh "E" in destruct b eqn:E
      end
  end.
Ltac case_if_in H :=
  match type of H with
  | context [if ?b then _ else _] =>
      lazymatch b with
      | context [if _ then _ else _] => fail
      | _ => let E := fresh "E" in destruct b eqn:E
      end
  end.
