(* ===== verification/CStd.v ===== *)
(** * CStd: the C and C++ library functions the program calls

    Character classes of the C locale, the decimal printing of
    [std::to_string], and the number scanners [strtol], [std::stoi] and
    [std::stoull] with the exceptions they raise.  The exception texts are
    those of libstdc++, whose [what()] is the function's own name. *)

From S2P Require Import Prelude.
Open Scope N_scope.

(** ** Character classes (C locale) *)

Definition isspace (c : ascii) : bool := (code c =? 32) || ((9 <=? code c) && (code c <=? 13)).
Definition isdigit (c : ascii) : bool := (48 <=? code c) && (code c <=? 57).

(** The value of a digit in bases up to 16; 255 when [c] is not one. *)
Definition digit_value (c : ascii) : N :=
  if isdigit c then code c - 48
  else if (97 <=? code c) && (code c <=? 102) then code c - 87
  else if (65 <=? code c) && (code c <=? 70) then code c - 55
  else 255.

Definition is_digit_in (base : N) (c : ascii) : bool := digit_value c <? base.

(** The number a run of digits denotes. *)
Definition digits_value (base : N) (ds : bytes) : N :=
  foldl (fun acc c => base * acc + digit_value c) 0 ds.

(** ** Printing *)

Definition digit_char (d : N) : ascii := ascii_of_N (48 + d).

(** Most significant digit first; [fuel] bounds the number of digits. *)
Fixpoint decimal (fuel : nat) (n : N) : bytes :=
  match fuel with
  | O => []
  | S fuel' =>
      if n <? 10 then [digit_char n]
      else decimal fuel' (n / 10) ++ [digit_char (n mod 10)]
  end.

(** [std::to_string] on an unsigned integer: a number has at most as many
    decimal digits as binary ones, so the fuel is enough. *)
Definition to_string (n : N) : bytes := decimal (S (N.size_nat n)) n.

(** [std::to_string] on a signed integer. *)
Definition to_string_int (z : Z) : bytes :=
  if (z <? 0)%Z then "-"%char :: to_string (Z.to_N (- z)) else to_string (Z.to_N z).

(** ** Scanning *)

(** [strtol]'s scan: blanks, a sign, an optional [0x] in base 16 (taken only
    when a digit follows it), then a non-empty run of digits.  The result is
    the sign, the magnitude and what follows; [None] is "no conversion". *)
Definition skip_base_prefix (base : N) (s : bytes) : bytes :=
  match s with
  | z :: x :: d :: _ =>
      if (base =? 16) && bool_decide (z = "0"%char) &&
         (bool_decide (x = "x"%char) || bool_decide (x = "X"%char)) && is_digit_in 16 d
      then drop 2 s else s
  | _ => s
  end.

Definition scan_sign (s : bytes) : bool * bytes :=
  match s with
  | c :: s' =>
      if bool_decide (c = "-"%char) then (true, s')
      else if bool_decide (c = "+"%char) then (false, s')
      else (false, s)
  | [] => (false, s)
  end.

Definition scan_int (base : N) (s : bytes) : option (bool * N * bytes) :=
  let '(neg, s) := scan_sign (span isspace s).2 in
  let '(ds, rest) := span (is_digit_in base) (skip_base_prefix base s) in
  match ds with
  | [] => None
  | _ => Some (neg, digits_value base ds, rest)
  end.

Definition signed (neg : bool) (m : N) : Z := if neg then - Z.of_N m else Z.of_N m.

Definition long_min : Z := - 2 ^ 63.
Definition long_max : Z := 2 ^ 63 - 1.
Definition int_min : Z := - 2 ^ 31.
Definition int_max : Z := 2 ^ 31 - 1.

(** [strtol(s, &end, base)]: the value, clamped to [long], and the suffix
    [end] points at, which is [s] itself when there is no conversion. *)
Definition strtol (base : N) (s : bytes) : Z * bytes :=
  match scan_int base s with
  | None => (0%Z, s)
  | Some (neg, m, rest) => (Z.max long_min (Z.min long_max (signed neg m)), rest)
  end.

(** [std::stoi] throws [invalid_argument] without a conversion and
    [out_of_range] outside [int]; text after the number is ignored. *)
Definition stoi (s : bytes) : Res Z :=
  match scan_int 10 s with
  | None => Throw "stoi"
  | Some (neg, m, _) =>
      let v := signed neg m in
      if (int_min <=? v)%Z && (v <=? int_max)%Z then Ok v else Throw "stoi"
  end.

(** [std::stoull]: a magnitude above [2^64 - 1] is out of range; a minus sign
    negates modulo [2^64]. *)
Definition stoull (s : bytes) : Res N :=
  match scan_int 10 s with
  | None => Throw "stoull"
  | Some (neg, m, _) =>
      if m <? u64_modulus then Ok (if neg then to_u64 (u64_modulus - m) else m)
      else Throw "stoull"
  end.

(** ** [std::getline]

    The loop [while (std::getline(stream, line, delimiter))]: a line per
    delimiter, and the rest unless the text ends there. *)

Fixpoint getlines_from (delimiter : ascii) (current text : bytes) : list bytes :=
  match text with
  | [] => [current]
  | c :: text =>
      if bool_decide (c = delimiter) then
        current :: match text with [] => [] | _ => getlines_from delimiter [] text end
      else getlines_from delimiter (current ++ [c]) text
  end.

Definition getlines (delimiter : ascii) (text : bytes) : list bytes :=
  match text with [] => [] | _ => getlines_from delimiter [] text end.

(** ** Lemmas: classes *)
Lemma code_digit_char (d : N) : d < 10 -> code (digit_char d) = 48 + d.
Proof. intros H. apply N_ascii_embedding. lia. Qed.

Lemma digit_value_digit_char (d : N) : d < 10 -> digit_value (digit_char d) = d.
Proof.
  intros H. unfold digit_value, isdigit. rewrite code_digit_char by done.
  replace ((48 <=? 48 + d) && (48 + d <=? 57)) with true; lia.
Qed.

Lemma isdigit_digit_char (d : N) : d < 10 -> isdigit (digit_char d) = true.
Proof. intros H. unfold isdigit. rewrite code_digit_char by done. lia. Qed.

Lemma is_digit_in_10 (c : ascii) : is_digit_in 10 c = isdigit c.
Proof.
  unfold is_digit_in, digit_value, isdigit.
  destruct ((48 <=? code c) && (code c <=? 57)) eqn:E; [lia|].
  repeat case_if; lia.
Qed.

Lemma isdigit_not_space (c : ascii) : isdigit c = true -> isspace c = false.
Proof. unfold isdigit, isspace. lia. Qed.

Lemma isdigit_sign (c : ascii) (s : bytes) : isdigit c = true -> scan_sign (c :: s) = (false, c :: s).
Proof.
  intros H. simpl. repeat case_bool_decide; subst; vm_compute in H; try discriminate; done.
Qed.

(** ** Lemmas: printing *)
Lemma decimal_digits (fuel : nat) (n : N) : Forall (fun c => isdigit c = true) (decimal fuel n).
Proof.
  revert n. induction fuel as [|fuel IH]; intros n; simpl; [constructor|].
  case_if.
  - constructor; [|constructor]. apply isdigit_digit_char. lia.
  - apply Forall_app. split; [apply IH|]. constructor; [|constructor].
    apply isdigit_digit_char. apply N.mod_lt. lia.
Qed.

Lemma digits_value_snoc (base : N) (ds : bytes) (c : ascii) :
  digits_value base (ds ++ [c]) = base * digits_value base ds + digit_value c.
Proof. unfold digits_value. by rewrite foldl_snoc. Qed.

Lemma decimal_value (fuel : nat) (n : N) :
  n < 10 ^ N.of_nat fuel -> digits_value 10 (decimal fuel n) = n.
Proof.
  revert n. induction fuel as [|fuel IH]; intros n Hn.
  - simpl in *. change (10 ^ N.of_nat 0) with 1 in Hn. unfold digits_value. simpl. lia.
  - cbn [decimal]. case_if.
    + unfold digits_value. simpl. rewrite digit_value_digit_char; lia.
    + rewrite digits_value_snoc, IH, digit_value_digit_char.
      * rewrite (N.div_mod n 10) at 3; lia.
      * apply N.mod_lt. lia.
      * apply N.Div0.div_lt_upper_bound.
        rewrite Nat2N.inj_succ, N.pow_succ_r' in Hn. lia.
Qed.

Lemma size_nat_bound (n : N) : n < 10 ^ N.of_nat (S (N.size_nat n)).
Proof.
  assert (H : n < 2 ^ N.of_nat (N.size_nat n)).
  { destruct n as [|p]; [vm_compute; done|].
    simpl N.size_nat. induction p as [p IH|p IH|]; simpl Pos.size_nat;
      rewrite ?Nat2N.inj_succ, ?N.pow_succ_r'; [lia|lia|vm_compute; done]. }
  eapply N.lt_le_trans; [exact H|].
  etransitivity; [apply N.pow_le_mono_l with (b := 10); lia|].
  apply N.pow_le_mono_r; lia.
Qed.

Lemma to_string_value (n : N) : digits_value 10 (to_string n) = n.
Proof. apply decimal_value, size_nat_bound. Qed.

Lemma to_string_digits (n : N) : Forall (fun c => isdigit c = true) (to_string n).
Proof. apply decimal_digits. Qed.

Lemma to_string_nonempty (n : N) : to_string n <> [].
Proof.
  unfold to_string. cbn [decimal]. case_if; [discriminate|].
  intros H%app_nil. by destruct H.
Qed.

Lemma to_string_cons (n : N) : exists c s, to_string n = c :: s /\ isdigit c = true.
Proof.
  destruct (to_string n) as [|c s] eqn:E; [by destruct (to_string_nonempty n)|].
  exists c, s. split; [done|]. pose proof (to_string_digits n) as H.
  rewrite E in H. by inversion H.
Qed.

Lemma to_string_inj (m n : N) : to_string m = to_string n -> m = n.
Proof. intros H. by rewrite <- (to_string_value m), <- (to_string_value n), H. Qed.

(** ** Lemmas: scanning *)
Lemma is_digit_in_10_all (ds : bytes) :
  Forall (fun c => isdigit c = true) ds -> Forall (fun c => is_digit_in 10 c = true) ds.
Proof. intros H. eapply Forall_impl; [exact H|]. intros c. by rewrite is_digit_in_10. Qed.

Lemma skip_base_prefix_10 (s : bytes) : skip_base_prefix 10 s = s.
Proof. by destruct s as [|a [|b [|c s]]]. Qed.

(** A run of digits scans to its value. *)
Lemma scan_int_digits (ds rest : bytes) :
  Forall (fun c => isdigit c = true) ds -> ds <> [] -> stops isdigit rest ->
  scan_int 10 (ds ++ rest) = Some (false, digits_value 10 ds, rest).
Proof.
  intros Hds Hne Hrest. destruct ds as [|c ds]; [done|].
  inversion Hds as [|? ? Hc _]; subst. unfold scan_int. simpl app.
  replace (span isspace (c :: ds ++ rest)) with (@nil ascii, c :: ds ++ rest)
    by (simpl; by rewrite isdigit_not_space).
  cbn [snd]. rewrite isdigit_sign by done. rewrite skip_base_prefix_10.
  replace (c :: ds ++ rest) with ((c :: ds) ++ rest) by done.
  rewrite span_stop; [done|by apply is_digit_in_10_all|].
  destruct rest as [|r rest]; [done|]. simpl in *. by rewrite is_digit_in_10.
Qed.

Lemma stoull_to_string (n : N) : n < u64_modulus -> stoull (to_string n) = Ok n.
Proof.
  intros Hn. unfold stoull. rewrite <- (app_nil_r (to_string n)).
  rewrite scan_int_digits, to_string_value;
    auto using to_string_digits, to_string_nonempty; [|done].
  by replace (n <? u64_modulus) with true by lia.
Qed.

Lemma stoi_to_string (n : N) :
  (Z.of_N n <= int_max)%Z -> stoi (to_string n) = Ok (Z.of_N n).
Proof.
  intros Hn. unfold stoi. rewrite <- (app_nil_r (to_string n)).
  rewrite scan_int_digits, to_string_value;
    auto using to_string_digits, to_string_nonempty; [|done].
  unfold signed. replace ((int_min <=? Z.of_N n)%Z && (Z.of_N n <=? int_max)%Z) with true; [done|].
  unfold int_min, int_max in *. lia.
Qed.

Lemma stoi_range (s : bytes) (v : Z) : stoi s = Ok v -> (int_min <= v <= int_max)%Z.
Proof.
  unfold stoi. destruct (scan_int 10 s) as [[[neg m] rest]|]; [|discriminate].
  case_if; [|discriminate]. intros H. injection H as <-. lia.
Qed.

Lemma stoull_range (s : bytes) (v : N) : stoull s = Ok v -> v < u64_modulus.
Proof.
  unfold stoull. destruct (scan_int 10 s) as [[[neg m] rest]|]; [|discriminate].
  case_if; [|discriminate]. intros H. injection H as <-.
  destruct neg; [|lia]. apply N.mod_lt. discriminate.
Qed.

Lemma to_string_int_pos (z : Z) : (0 <= z)%Z -> to_string_int z = to_string (Z.to_N z).
Proof. intros H. unfold to_string_int. by replace (z <? 0)%Z with false by lia. Qed.

#[export] Hint Resolve to_string_digits to_string_nonempty : chat.

(** ** Lemmas: lines *)
Lemma getlines_from_line (d : ascii) (p cur v : bytes) :
  d ∉ p -> getlines_from d cur (p ++ d :: v) = (cur ++ p) :: getlines d v.
Proof.
  revert cur. induction p as [|c p IH]; intros cur Hp; cbn [app getlines_from].
  - rewrite bool_decide_eq_true_2, app_nil_r; done.
  - rewrite not_elem_of_cons in Hp. destruct Hp as [Hc Hp].
    rewrite bool_decide_eq_false_2 by done. rewrite IH by done. by rewrite <- app_assoc.
Qed.

Lemma getlines_from_last (d : ascii) (p cur : bytes) : d ∉ p -> getlines_from d cur p = [cur ++ p].
Proof.
  revert cur. induction p as [|c p IH]; intros cur Hp; cbn [getlines_from]; [by rewrite app_nil_r|].
  rewrite not_elem_of_cons in Hp. destruct Hp as [Hc Hp].
  rewrite bool_decide_eq_false_2 by done. rewrite IH by done. by rewrite <- app_assoc.
Qed.

(** A terminated line comes first; an unterminated one is the last. *)
Lemma getlines_line (d : ascii) (p v : bytes) :
  d ∉ p -> getlines d (p ++ d :: v) = p :: getlines d v.
Proof.
  intros Hp. unfold getlines at 1.
  assert (E : exists x y, p ++ d :: v = x :: y) by (destruct p; simpl; eauto).
  destruct E as (x & y & E). by rewrite E, <- E, getlines_from_line.
Qed.

Lemma getlines_last (d : ascii) (p : bytes) : d ∉ p -> p <> [] -> getlines d p = [p].
Proof.
  intros Hp Hv. unfold getlines. destruct p as [|c p]; [done|]. by rewrite getlines_from_last.
Qed.
