(* ===== verification/Json.v ===== *)
(** * Json: the flat-object JSON reader and writer of [protocol/message.cpp]

    The anonymous namespace of [src/src/protocol/message.cpp].  The C++ parser
    walks an index [pos] over a fixed input; here [pos] is the unread suffix
    [input.substr(pos)], so [pos >= input.size()] reads [pos = []] and
    [input[pos]] is the head.  A thrown [std::runtime_error] is [Throw] with
    its text.  The member loop of [parse_json_object] takes fuel;
    [parse_members_some] shows that the length of the input is enough. *)

From S2P Require Import Prelude.
From S2P Require Import CStd.
Open Scope N_scope.

(** ** Data *)

Inductive JsonValue : Type :=
  | JsonString (string_value : bytes)
  | JsonNumber (number_value : N)
  | JsonBool (bool_value : bool).

#[export] Instance JsonValue_eq_dec : EqDecision JsonValue.
Proof. solve_decision. Defined.

Abbreviation JsonObject := (gmap bytes JsonValue).

(** ** Reading *)

Definition trim_trailing_cr (value : bytes) : bytes :=
  match last value with
  | Some c => if bool_decide (c = cr) then removelast value else value
  | None => value
  end.

Definition skip_ws (pos : bytes) : bytes := (span isspace pos).2.

Definition expect_char (pos : bytes) (expected : ascii) : Res bytes :=
  match skip_ws pos with
  | c :: pos => if bool_decide (c = expected) then Ok pos else Throw "malformed json"
  | [] => Throw "malformed json"
  end.

(** The [while] loop of [parse_string], after the opening quote. *)
Fixpoint parse_string_chars (pos value : bytes) : Res (bytes * bytes) :=
  match pos with
  | [] => Throw "unterminated json string"
  | ch :: pos =>
      if bool_decide (ch = dquote) then Ok (value, pos)
      else if negb (bool_decide (ch = backslash)) then parse_string_chars pos (value ++ [ch])
      else
        match pos with
        | [] => Throw "malformed json escape"
        | escaped :: pos =>
            if bool_decide (escaped = dquote) || bool_decide (escaped = backslash) ||
               bool_decide (escaped = "/"%char)
            then parse_string_chars pos (value ++ [escaped])
            else if bool_decide (escaped = "n"%char) then parse_string_chars pos (value ++ [nl])
            else if bool_decide (escaped = "r"%char) then parse_string_chars pos (value ++ [cr])
            else if bool_decide (escaped = "t"%char) then parse_string_chars pos (value ++ [tab])
            else Throw "unsupported json escape"
        end
  end.

Definition parse_string (pos : bytes) : Res (bytes * bytes) :=
  match skip_ws pos with
  | c :: pos =>
      if bool_decide (c = dquote) then parse_string_chars pos []
      else Throw "malformed json string"
  | [] => Throw "malformed json string"
  end.

Definition parse_number (pos : bytes) : Res (N * bytes) :=
  let '(digits, pos) := span isdigit (skip_ws pos) in
  match digits with
  | [] => Throw "malformed json number"
  | _ => v ← stoull digits; mret (v, pos)
  end.

(** [input.compare(pos, n, text) == 0] compares at most [n] bytes. *)
Definition parse_bool (pos : bytes) : Res (bool * bytes) :=
  let pos := skip_ws pos in
  if bool_decide (take 4 pos = bs "true") then Ok (true, drop 4 pos)
  else if bool_decide (take 5 pos = bs "false") then Ok (false, drop 5 pos)
  else Throw "malformed json bool".

Definition parse_value (pos : bytes) : Res (JsonValue * bytes) :=
  match pos with
  | [] => Throw "missing json value"
  | c :: _ =>
      if bool_decide (c = dquote) then
        '(s, pos) ← parse_string pos; mret (JsonString s, pos)
      else if isdigit c then
        '(n, pos) ← parse_number pos; mret (JsonNumber n, pos)
      else if bool_decide (take 4 pos = bs "true") || bool_decide (take 5 pos = bs "false") then
        '(b, pos) ← parse_bool pos; mret (JsonBool b, pos)
      else Throw "unsupported json value"
  end.

(** The start of a loop iteration: key, colon and value. *)
Definition parse_member (pos : bytes) : Res (bytes * JsonValue * bytes) :=
  '(key, pos) ← parse_string pos;
  pos ← expect_char pos ":"%char;
  '(value, pos) ← parse_value (skip_ws pos);
  mret (key, value, pos).

(** The [while (true)] loop; [None] means the fuel ran out. *)
Fixpoint parse_members (fuel : nat) (pos : bytes) (object : JsonObject)
    : option (Res (JsonObject * bytes)) :=
  match fuel with
  | O => None
  | S fuel =>
      match parse_member pos with
      | Throw w => Some (Throw w)
      | Ok (key, value, pos) =>
          let object := <[key := value]> object in
          match skip_ws pos with
          | c :: pos =>
              if bool_decide (c = ","%char) then parse_members fuel pos object
              else if bool_decide (c = "}"%char) then Some (Ok (object, pos))
              else Some (Throw "malformed json object")
          | [] => Some (Throw "malformed json object")
          end
      end
  end.

Definition expect_end (pos : bytes) (object : JsonObject) : Res JsonObject :=
  match skip_ws pos with
  | [] => Ok object
  | _ => Throw "trailing json content"
  end.

(** The text of the exception [parse_json_object] would raise if the loop ran
    out of fuel; [parse_members_some] shows that it never does. *)
Definition out_of_fuel : bytes := [].

Definition parse_json_object (line : bytes) : Res JsonObject :=
  pos ← expect_char line "{"%char;
  let members (pos : bytes) :=
    match parse_members (S (length pos)) pos ∅ with
    | Some r => '(object, pos) ← r; expect_end pos object
    | None => Throw out_of_fuel
    end in
  match skip_ws pos with
  | c :: rest => if bool_decide (c = "}"%char) then expect_end rest ∅ else members (c :: rest)
  | [] => members []
  end.

(** ** Field access *)

Definition get_string (object : JsonObject) (name : bytes) : Res bytes :=
  match object !! name with
  | Some (JsonString s) => Ok s
  | _ => Throw (bs "missing string field: " ++ name)
  end.

Definition get_uint64 (object : JsonObject) (name : bytes) : Res N :=
  match object !! name with
  | Some (JsonNumber n) => Ok n
  | _ => Throw (bs "missing number field: " ++ name)
  end.

Definition get_uint64_or (object : JsonObject) (name : bytes) (default_value : N) : Res N :=
  match object !! name with
  | None => Ok default_value
  | Some (JsonNumber n) => Ok n
  | Some _ => Throw (bs "invalid number field: " ++ name)
  end.

(** ** Writing *)

Definition escape_char (ch : ascii) : bytes :=
  if bool_decide (ch = dquote) then [backslash; dquote]
  else if bool_decide (ch = backslash) then [backslash; backslash]
  else if bool_decide (ch = nl) then [backslash; "n"%char]
  else if bool_decide (ch = cr) then [backslash; "r"%char]
  else if bool_decide (ch = tab) then [backslash; "t"%char]
  else [ch].

Definition escape_json (value : bytes) : bytes :=
  foldl (fun escaped ch => escaped ++ escape_char ch) [] value.

(** The quoted name and the colon, the prefix of every field. *)
Definition json_name (name : bytes) : bytes := [dquote] ++ name ++ [dquote; ":"%char].

Definition json_string_field (name value : bytes) : bytes :=
  json_name name ++ [dquote] ++ escape_json value ++ [dquote].

Definition json_number_field (name : bytes) (value : N) : bytes :=
  json_name name ++ to_string value.

Definition json_bool_field (name : bytes) (value : bool) : bytes :=
  json_name name ++ (if value then bs "true" else bs "false").

Definition json_type (type : bytes) : bytes :=
  ["{"%char] ++ json_name "type" ++ [dquote] ++ type ++ [dquote].

Definition finish_json (value : bytes) : bytes := value ++ ["}"%char].

(** ** Specification: the text of an object, and the object of a field list *)

(** A field as the writer prints it. *)
Definition render_field (f : bytes * JsonValue) : bytes :=
  match f.2 with
  | JsonString s => json_string_field f.1 s
  | JsonNumber n => json_number_field f.1 n
  | JsonBool b => json_bool_field f.1 b
  end.

(** [finish_json(json_type(type) + "," + field + "," + field ...)] *)
Definition render_object (type : bytes) (fields : list (bytes * JsonValue)) : bytes :=
  finish_json (foldl (fun acc f => (acc ++ bs ",") ++ render_field f) (json_type type) fields).

(** The object the reader builds: later fields replace earlier ones. *)
Definition add_fields (object : JsonObject) (fields : list (bytes * JsonValue)) : JsonObject :=
  foldl (fun m f => <[f.1 := f.2]> m) object fields.

Definition fields_object (type : bytes) (fields : list (bytes * JsonValue)) : JsonObject :=
  add_fields ∅ (("type" : bytes, JsonString type) :: fields).

(** A text that needs no escaping: what the writer's names and type tags are. *)
Definition plain (s : bytes) : bool :=
  forallb (fun c => bool_decide (escape_char c = [c])) s.

(** A field the writer can print and the reader accept. *)
Definition field_ok (f : bytes * JsonValue) : bool :=
  plain f.1 && match f.2 with JsonNumber n => n <? u64_modulus | _ => true end.

(** ** Lemmas: the reader consumes input *)
Lemma skip_ws_length (pos : bytes) : (length (skip_ws pos) <= length pos)%nat.
Proof. apply span_snd_length. Qed.

Lemma expect_char_length (pos pos' : bytes) (c : ascii) :
  expect_char pos c = Ok pos' -> (length pos' < length pos)%nat.
Proof.
  unfold expect_char. pose proof (skip_ws_length pos) as H.
  destruct (skip_ws pos) as [|d r]; [discriminate|]. case_if; [|discriminate].
  intros E'. injection E' as <-. simpl in H. lia.
Qed.

Lemma parse_string_chars_length (n : nat) (pos v s pos' : bytes) :
  (length pos <= n)%nat -> parse_string_chars pos v = Ok (s, pos') ->
  (length pos' < length pos)%nat.
Proof.
  revert pos v. induction n as [|n IH]; intros [|c pos] v Hn; simpl in *;
    try discriminate; [lia|].
  case_if; [intros E'; injection E' as <- <-; lia|].
  case_if; [intros H%IH; lia|].
  destruct pos as [|d pos]; [discriminate|]. simpl in Hn.
  repeat case_if; try discriminate; intros H%IH; simpl; lia.
Qed.

Lemma parse_string_length (pos s pos' : bytes) :
  parse_string pos = Ok (s, pos') -> (length pos' < length pos)%nat.
Proof.
  unfold parse_string. pose proof (skip_ws_length pos) as H.
  destruct (skip_ws pos) as [|c r]; [discriminate|]. case_if; [|discriminate].
  simpl in H. intros Hr%(parse_string_chars_length (length r)); lia.
Qed.

Lemma parse_number_length (pos pos' : bytes) (n : N) :
  parse_number pos = Ok (n, pos') -> (length pos' <= length pos)%nat.
Proof.
  unfold parse_number. pose proof (span_snd_length isdigit (skip_ws pos)) as H.
  pose proof (skip_ws_length pos) as H'.
  destruct (span isdigit (skip_ws pos)) as [[|d ds] r]; [discriminate|].
  intros E. res_inv. simpl in H. injection E as _ <-. lia.
Qed.

Lemma parse_bool_length (pos pos' : bytes) (b : bool) :
  parse_bool pos = Ok (b, pos') -> (length pos' <= length pos)%nat.
Proof.
  unfold parse_bool. pose proof (skip_ws_length pos) as H'.
  repeat case_if; try discriminate; intros E'; injection E' as _ <-;
    rewrite length_drop; lia.
Qed.

Lemma parse_value_length (pos pos' : bytes) (v : JsonValue) :
  parse_value pos = Ok (v, pos') -> (length pos' <= length pos)%nat.
Proof.
  destruct pos as [|c pos]; [discriminate|]. unfold parse_value.
  repeat case_if; try discriminate; intros H; res_inv; destruct a as [x r]; res_inv;
    injection H as _ <-.
  - apply parse_string_length in E0. lia.
  - by apply parse_number_length in E1.
  - by apply parse_bool_length in E2.
Qed.

Lemma parse_member_length (pos pos' key : bytes) (v : JsonValue) :
  parse_member pos = Ok (key, v, pos') -> (length pos' < length pos)%nat.
Proof.
  unfold parse_member. intros H. res_inv. destruct a as [k p1]. res_inv.
  destruct a0 as [x p3]. res_inv. injection H as _ _ <-.
  apply parse_string_length in E. apply expect_char_length in E0.
  apply parse_value_length in E1. pose proof (skip_ws_length a). lia.
Qed.

(** The member loop returns: the length of its input is enough fuel. *)
Lemma parse_members_some (fuel : nat) (pos : bytes) (object : JsonObject) :
  (length pos < fuel)%nat -> is_Some (parse_members fuel pos object).
Proof.
  revert pos object. induction fuel as [|fuel IH]; intros pos object Hf; [lia|]. simpl.
  destruct (parse_member pos) as [[[k v] p]|w] eqn:E; [|done].
  apply parse_member_length in E. pose proof (skip_ws_length p) as H.
  destruct (skip_ws p) as [|c r]; [done|]. simpl in H.
  repeat case_if; try done. apply IH. lia.
Qed.

(** More fuel does not change the answer. *)
Lemma parse_members_mono (fuel fuel' : nat) (pos : bytes) (object : JsonObject) r :
  parse_members fuel pos object = Some r -> (fuel <= fuel')%nat ->
  parse_members fuel' pos object = Some r.
Proof.
  revert fuel' pos object. induction fuel as [|fuel IH]; intros [|fuel'] pos object;
    simpl; try discriminate; [lia|].
  intros H Hle. destruct (parse_member pos) as [[[k v] p]|w]; [|done].
  destruct (skip_ws p) as [|c q]; [done|].
  repeat case_if; try done. apply IH; [done|lia].
Qed.

(** ** Lemmas: errors always carry a text *)

Ltac throw_text :=
  let H := fresh in intros H; first [discriminate H | injection H as <-; discriminate].

Lemma parse_string_chars_throw (n : nat) (pos v w : bytes) :
  (length pos <= n)%nat -> parse_string_chars pos v = Throw w -> w <> [].
Proof.
  revert pos v. induction n as [|n IH]; intros [|c pos] v Hn; simpl in *;
    [throw_text|lia|
     throw_text|].
  case_if; [discriminate|]. case_if; [apply IH; lia|].
  destruct pos as [|d pos]; [throw_text|]. simpl in Hn.
  repeat case_if; try (apply IH; lia). throw_text.
Qed.

Lemma parse_string_throw (pos w : bytes) : parse_string pos = Throw w -> w <> [].
Proof.
  unfold parse_string. destruct (skip_ws pos) as [|c r];
    [throw_text|].
  case_if; [by apply (parse_string_chars_throw (length r))|].
  throw_text.
Qed.

Lemma expect_char_throw (pos w : bytes) (c : ascii) : expect_char pos c = Throw w -> w <> [].
Proof.
  unfold expect_char. destruct (skip_ws pos); [|case_if]; throw_text.
Qed.

Lemma stoull_throw (s w : bytes) : stoull s = Throw w -> w <> [].
Proof.
  unfold stoull. destruct (scan_int 10 s) as [[[neg m] r]|]; [case_if|];
    try discriminate; throw_text.
Qed.

Lemma Res_bind_Throw_inv {A B} (m : Res A) (f : A -> Res B) (w : bytes) :
  (m ≫= f) = Throw w -> m = Throw w \/ exists a, m = Ok a /\ f a = Throw w.
Proof. destruct m as [a|w']; intros H; [right; by exists a|left; by injection H as ->]. Qed.

Lemma parse_value_throw (pos w : bytes) : parse_value pos = Throw w -> w <> [].
Proof.
  destruct pos as [|c pos]; [throw_text|]. unfold parse_value.
  repeat case_if; try throw_text;
    intros [H|([x r] & _ & H)]%Res_bind_Throw_inv; try discriminate.
  - by apply parse_string_throw in H.
  - unfold parse_number in H. destruct (span isdigit _) as [[|d ds] r]; revert H; [throw_text|].
    intros [H|(x & _ & H)]%Res_bind_Throw_inv; [by apply stoull_throw in H|discriminate].
  - unfold parse_bool in H. revert H. repeat case_if; try discriminate; throw_text.
Qed.

Lemma parse_member_throw (pos w : bytes) : parse_member pos = Throw w -> w <> [].
Proof.
  unfold parse_member.
  intros [H|([k p] & _ & H)]%Res_bind_Throw_inv; [by apply parse_string_throw in H|].
  apply Res_bind_Throw_inv in H as [H|(p1 & _ & H)]; [by apply expect_char_throw in H|].
  apply Res_bind_Throw_inv in H as [H|([v p2] & _ & H)]; [|discriminate].
  by apply parse_value_throw in H.
Qed.

Lemma parse_members_throw (fuel : nat) (pos w : bytes) (object : JsonObject) :
  parse_members fuel pos object = Some (Throw w) -> w <> [].
Proof.
  revert pos object. induction fuel as [|fuel IH]; intros pos object; simpl; [discriminate|].
  destruct (parse_member pos) as [[[k v] p]|w'] eqn:E.
  - destruct (skip_ws p) as [|c r]; [throw_text|].
    repeat case_if; [apply IH|discriminate|throw_text].
  - intros H. injection H as ->. by apply parse_member_throw in E.
Qed.

Lemma expect_end_throw (pos w : bytes) (object : JsonObject) :
  expect_end pos object = Throw w -> w <> [].
Proof. unfold expect_end. destruct (skip_ws pos); [discriminate|throw_text]. Qed.

Lemma parse_json_object_throw (line w : bytes) : parse_json_object line = Throw w -> w <> [].
Proof.
  unfold parse_json_object.
  intros [H|(p & _ & H)]%Res_bind_Throw_inv; [by apply expect_char_throw in H|].
  assert (Hm : forall q, match parse_members (S (length q)) q ∅ with
     | Some r => '(object, pos) ← r; expect_end pos object
     | None => Throw out_of_fuel end = Throw w -> w <> []).
  { intros q Hq. destruct (parse_members_some (S (length q)) q ∅) as [r Hr]; [lia|].
    rewrite Hr in Hq. apply Res_bind_Throw_inv in Hq as [->|([o e] & _ & He)].
    - by apply parse_members_throw in Hr.
    - by apply expect_end_throw in He. }
  destruct (skip_ws p) as [|c r]; [by apply Hm in H|].
  case_if_in H; [by apply expect_end_throw in H|by apply Hm in H].
Qed.

(** ** Lemmas: the reader inverts the writer *)
Lemma escape_json_cons (c : ascii) (s : bytes) :
  escape_json (c :: s) = escape_char c ++ escape_json s.
Proof.
  assert (G : forall s acc, foldl (fun e ch => e ++ escape_char ch) acc s =
                            acc ++ escape_json s).
  { clear. unfold escape_json. induction s as [|c s IH]; intros acc; simpl; [by rewrite app_nil_r|].
    rewrite IH, (IH (escape_char c)). by rewrite app_assoc. }
  unfold escape_json at 1. simpl. apply G.
Qed.

Lemma escape_json_app (s t : bytes) : escape_json (s ++ t) = escape_json s ++ escape_json t.
Proof.
  induction s as [|c s IH]; [done|]. simpl app. by rewrite !escape_json_cons, IH, app_assoc.
Qed.

Lemma escape_char_length (c : ascii) : (1 <= length (escape_char c) <= 2)%nat.
Proof. unfold escape_char. repeat case_if; simpl; lia. Qed.

Lemma escape_json_length (s : bytes) : (length s <= length (escape_json s) <= 2 * length s)%nat.
Proof.
  induction s as [|c s IH]; [simpl; lia|]. rewrite escape_json_cons, length_app. simpl length.
  pose proof (escape_char_length c). lia.
Qed.

Lemma plain_escape (s : bytes) : plain s = true -> escape_json s = s.
Proof.
  induction s as [|c s IH]; [done|]. unfold plain. simpl. intros [Hc Hs]%andb_prop.
  apply bool_decide_eq_true in Hc. rewrite escape_json_cons, Hc. simpl. f_equal. by apply IH.
Qed.

(** Reading one escaped character. *)
Lemma parse_escape_char (c : ascii) (pos v : bytes) :
  parse_string_chars (escape_char c ++ pos) v = parse_string_chars pos (v ++ [c]).
Proof.
  unfold escape_char.
  case_bool_decide as H1; [subst; reflexivity|].
  case_bool_decide as H2; [subst; reflexivity|].
  case_bool_decide as H3; [subst; reflexivity|].
  case_bool_decide as H4; [subst; reflexivity|].
  case_bool_decide as H5; [subst; reflexivity|].
  simpl. by rewrite bool_decide_eq_false_2, bool_decide_eq_false_2.
Qed.

Lemma parse_string_chars_escape (s v rest : bytes) :
  parse_string_chars (escape_json s ++ dquote :: rest) v = Ok (v ++ s, rest).
Proof.
  revert v. induction s as [|c s IH]; intros v; [by rewrite app_nil_r|].
  rewrite escape_json_cons, <- app_assoc, parse_escape_char, IH. by rewrite <- app_assoc.
Qed.

Lemma parse_string_escape (s rest : bytes) :
  parse_string (dquote :: escape_json s ++ dquote :: rest) = Ok (s, rest).
Proof. apply (parse_string_chars_escape s []). Qed.

Lemma skip_ws_nonspace (c : ascii) (pos : bytes) :
  isspace c = false -> skip_ws (c :: pos) = c :: pos.
Proof. intros H. unfold skip_ws. simpl. by rewrite H. Qed.

Lemma parse_number_to_string (n : N) (rest : bytes) :
  n < u64_modulus -> stops isdigit rest -> parse_number (to_string n ++ rest) = Ok (n, rest).
Proof.
  intros Hn Hr. unfold parse_number.
  destruct (to_string_cons n) as (c & s & E & Hc).
  assert (Hw : skip_ws (to_string n ++ rest) = to_string n ++ rest).
  { rewrite E. apply skip_ws_nonspace. by apply isdigit_not_space. }
  rewrite Hw, span_stop by auto with chat.
  rewrite E. rewrite <- E, stoull_to_string by done. done.
Qed.

Lemma isdigit_not_dquote (c : ascii) : isdigit c = true -> c <> dquote.
Proof. by intros H ->. Qed.

(** A separator or the closing brace: what follows a value. *)
Definition value_end (rest : bytes) : Prop :=
  exists c r, rest = c :: r /\ (c = ","%char \/ c = "}"%char).

(** The text of a value, as printed after [json_name]. *)
Definition render_value (v : JsonValue) : bytes :=
  match v with
  | JsonString s => [dquote] ++ escape_json s ++ [dquote]
  | JsonNumber n => to_string n
  | JsonBool b => if b then bs "true" else bs "false"
  end.

Lemma render_field_value (f : bytes * JsonValue) :
  render_field f = json_name f.1 ++ render_value f.2.
Proof. by destruct f as [k [s|n|b]]. Qed.

Lemma parse_value_render (v : JsonValue) (rest : bytes) :
  match v with JsonNumber n => n < u64_modulus | _ => True end -> value_end rest ->
  parse_value (skip_ws (render_value v ++ rest)) = Ok (v, rest).
Proof.
  intros Hv (e & r & -> & He). destruct v as [s|n|b].
  - change (render_value (JsonString s)) with ([dquote] ++ escape_json s ++ [dquote]).
    rewrite <- !app_assoc. simpl app. rewrite skip_ws_nonspace by done. unfold parse_value.
    rewrite bool_decide_eq_true_2 by done. by rewrite parse_string_escape.
  - destruct (to_string_cons n) as (c & t & E & Hc). simpl render_value.
    rewrite E. simpl app. rewrite skip_ws_nonspace by (by apply isdigit_not_space).
    unfold parse_value.
    rewrite bool_decide_eq_false_2 by (by apply isdigit_not_dquote). rewrite Hc.
    replace (c :: t ++ e :: r) with (to_string n ++ e :: r) by (by rewrite E).
    rewrite parse_number_to_string; [done|done|]. by destruct He as [-> | ->].
  - destruct b; reflexivity.
Qed.

Lemma parse_member_render (f : bytes * JsonValue) (rest : bytes) :
  field_ok f = true -> value_end rest ->
  parse_member (render_field f ++ rest) = Ok (f.1, f.2, rest).
Proof.
  destruct f as [k v]. unfold field_ok. simpl. intros [Hk Hv]%andb_prop Hr.
  rewrite render_field_value. simpl. unfold json_name, parse_member.
  rewrite <- !app_assoc. simpl app. rewrite <- (plain_escape k) at 1 by done.
  rewrite parse_string_escape, Res_bind_Ok. simpl.
  rewrite parse_value_render; [done| |done]. destruct v; [done|lia|done].
Qed.

(** The text of the members after the opening brace. *)
Definition render_tail (fields : list (bytes * JsonValue)) : bytes :=
  concat (map (fun f => bs "," ++ render_field f) fields).

Lemma render_foldl (acc : bytes) (fields : list (bytes * JsonValue)) :
  foldl (fun acc f => (acc ++ bs ",") ++ render_field f) acc fields = acc ++ render_tail fields.
Proof.
  revert acc. induction fields as [|f fields IH]; intros acc; unfold render_tail; simpl;
    [by rewrite app_nil_r|].
  rewrite IH. unfold render_tail. by rewrite <- !app_assoc.
Qed.

Lemma parse_members_render (fields : list (bytes * JsonValue)) (f : bytes * JsonValue)
    (fuel : nat) (object : JsonObject) (rest : bytes) :
  field_ok f = true -> Forall (fun f => field_ok f = true) fields ->
  (length fields < fuel)%nat ->
  parse_members fuel (render_field f ++ render_tail fields ++ "}"%char :: rest) object =
    Some (Ok (add_fields object (f :: fields), rest)).
Proof.
  revert f fuel object.
  induction fields as [|g fields IH]; intros f [|fuel] object Hf Hfs Hlen; try (simpl in Hlen; lia).
  - cbn [parse_members]. rewrite parse_member_render; [reflexivity|done|].
    eexists _, _. split; [reflexivity|by right].
  - inversion Hfs as [|? ? Hg Hfs']; subst.
    change (render_tail (g :: fields)) with ((bs "," ++ render_field g) ++ render_tail fields).
    rewrite <- !app_assoc. cbn [parse_members]. rewrite parse_member_render; [|done|].
    + simpl. rewrite IH; [reflexivity|done|done|simpl in Hlen; lia].
    + eexists _, _. split; [reflexivity|by left].
Qed.

Lemma render_tail_length (fields : list (bytes * JsonValue)) :
  (length fields <= length (render_tail fields))%nat.
Proof.
  induction fields as [|f fields IH]; [done|].
  change (render_tail (f :: fields)) with ((bs "," ++ render_field f) ++ render_tail fields).
  rewrite !length_app. simpl length. lia.
Qed.

Lemma render_object_text (type : bytes) (fields : list (bytes * JsonValue)) :
  plain type = true ->
  render_object type fields =
    "{"%char :: render_field (bs "type", JsonString type) ++ render_tail fields ++ ["}"%char].
Proof.
  intros Ht. unfold render_object, finish_json. rewrite render_foldl.
  unfold json_type, render_field, json_string_field. cbn [fst snd].
  rewrite (plain_escape type) by done. rewrite <- !app_assoc. reflexivity.
Qed.

(** Reading what the writer wrote, with anything blank after it. *)
Lemma parse_render_object (type : bytes) (fields : list (bytes * JsonValue)) :
  plain type = true -> Forall (fun f => field_ok f = true) fields ->
  parse_json_object (render_object type fields) = Ok (fields_object type fields).
Proof.
  intros Ht Hf. rewrite render_object_text by done. unfold parse_json_object.
  replace (expect_char _ _) with
    (Ok (render_field (bs "type", JsonString type) ++ render_tail fields ++ ["}"%char])) by done.
  rewrite Res_bind_Ok. set (text := render_field _ ++ _).
  assert (Hw : exists r, text = dquote :: r) by (by eexists). destruct Hw as [r Hw].
  rewrite Hw, skip_ws_nonspace by done. rewrite bool_decide_eq_false_2 by done. rewrite <- Hw.
  unfold text at 2. rewrite parse_members_render; [done| |done|].
  - unfold field_ok. simpl. done.
  - unfold text. rewrite !length_app. pose proof (render_tail_length fields). lia.
Qed.

(** ** Theorems *)

(** C37: The parser returns on every input: its member loop never runs out of
    the fuel the input length provides, more fuel gives the same answer, and
    the outcome is an object or an exception with a text. *)
Theorem parse_json_object_total (line : bytes) :
  (forall object fuel, (S (length line) <= fuel)%nat ->
     is_Some (parse_members fuel line object) /\
     parse_members fuel line object = parse_members (S (length line)) line object) /\
  match parse_json_object line with Ok _ => True | Throw w => w <> out_of_fuel end.
Proof.
  split.
  - intros object fuel Hf. destruct (parse_members_some (S (length line)) line object) as [r Hr];
      [lia|]. rewrite Hr. by rewrite (parse_members_mono _ fuel line object r Hr).
  - destruct (parse_json_object line) as [o|w] eqn:E; [done|]. by apply parse_json_object_throw in E.
Qed.

(** Only five bytes are escaped on output: every other control character is
    copied into the JSON text as it is, which JSON does not allow. *)
Theorem control_characters_unescaped (c : ascii) :
  code c < 32 -> c <> nl -> c <> cr -> c <> tab -> escape_json [c] = [c].
Proof.
  intros Hc H1 H2 H3. unfold escape_json. simpl. unfold escape_char.
  rewrite !bool_decide_eq_false_2; try done; intros ->; by vm_compute in Hc.
Qed.

Lemma control_characters_unescaped_witness : escape_json ["001"%char] = ["001"%char].
Proof.
  apply (control_characters_unescaped "001"%char); [reflexivity| | |]; discriminate.
Defined.
