(* ===== verification/Message.v ===== *)
(** * Message: client commands and server payloads

    The rest of [src/src/protocol/message.cpp] and its header: the message
    types, [ClientCommand], [parse_client_command] and the [format_*] family.

    [parse_client_command] fills [command] field by field and may return false
    or throw after it has already stored something, so its body runs in [Cmd],
    state passing with exceptions in which a throw keeps the updates. *)

From S2P Require Import Prelude.
From S2P Require Import CStd.
From S2P Require Import Json.
Open Scope N_scope.

(** ** Data *)

Inductive MessageType : Type :=
  | Register | Login | Logout | DirectChat | GroupChat | CreateGroup
  | GroupJoin | GroupLeave | HistoryQuery | UnreadQuery | Ping | System.

#[export] Instance MessageType_eq_dec : EqDecision MessageType.
Proof. solve_decision. Defined.

Record Message : Type := mkMessage {
  msg_type : MessageType;
  msg_sender_id : N;
  msg_receiver_id : N;
  msg_body : bytes;
}.

#[export] Instance Message_eq_dec : EqDecision Message.
Proof. solve_decision. Defined.

Record ClientCommand : Type := mkClientCommand {
  cmd_type : MessageType;
  cmd_user_id : N;
  cmd_receiver_id : N;
  cmd_group_id : N;
  cmd_last_seen_message_id : N;
  cmd_limit : N;
  cmd_before_id : N;
  cmd_username : bytes;
  cmd_password : bytes;
  cmd_target_username : bytes;
  cmd_group_name : bytes;
  cmd_body : bytes;
  cmd_group_history : bool;
}.

(** The default member initialisers of [ClientCommand]. *)
Definition default_command : ClientCommand :=
  mkClientCommand System 0 0 0 0 20 0 [] [] [] [] [] false.

(** Assignments to the members of [command]. *)
Definition set_type t c :=
  mkClientCommand t (cmd_user_id c) (cmd_receiver_id c) (cmd_group_id c)
    (cmd_last_seen_message_id c) (cmd_limit c) (cmd_before_id c) (cmd_username c)
    (cmd_password c) (cmd_target_username c) (cmd_group_name c) (cmd_body c) (cmd_group_history c).
Definition set_receiver_id v c :=
  mkClientCommand (cmd_type c) (cmd_user_id c) v (cmd_group_id c)
    (cmd_last_seen_message_id c) (cmd_limit c) (cmd_before_id c) (cmd_username c)
    (cmd_password c) (cmd_target_username c) (cmd_group_name c) (cmd_body c) (cmd_group_history c).
Definition set_group_id v c :=
  mkClientCommand (cmd_type c) (cmd_user_id c) (cmd_receiver_id c) v
    (cmd_last_seen_message_id c) (cmd_limit c) (cmd_before_id c) (cmd_username c)
    (cmd_password c) (cmd_target_username c) (cmd_group_name c) (cmd_body c) (cmd_group_history c).
Definition set_last_seen_message_id v c :=
  mkClientCommand (cmd_type c) (cmd_user_id c) (cmd_receiver_id c) (cmd_group_id c)
    v (cmd_limit c) (cmd_before_id c) (cmd_username c)
    (cmd_password c) (cmd_target_username c) (cmd_group_name c) (cmd_body c) (cmd_group_history c).
Definition set_limit v c :=
  mkClientCommand (cmd_type c) (cmd_user_id c) (cmd_receiver_id c) (cmd_group_id c)
    (cmd_last_seen_message_id c) v (cmd_before_id c) (cmd_username c)
    (cmd_password c) (cmd_target_username c) (cmd_group_name c) (cmd_body c) (cmd_group_history c).
Definition set_before_id v c :=
  mkClientCommand (cmd_type c) (cmd_user_id c) (cmd_receiver_id c) (cmd_group_id c)
    (cmd_last_seen_message_id c) (cmd_limit c) v (cmd_username c)
    (cmd_password c) (cmd_target_username c) (cmd_group_name c) (cmd_body c) (cmd_group_history c).
Definition set_username v c :=
  mkClientCommand (cmd_type c) (cmd_user_id c) (cmd_receiver_id c) (cmd_group_id c)
    (cmd_last_seen_message_id c) (cmd_limit c) (cmd_before_id c) v
    (cmd_password c) (cmd_target_username c) (cmd_group_name c) (cmd_body c) (cmd_group_history c).
Definition set_password v c :=
  mkClientCommand (cmd_type c) (cmd_user_id c) (cmd_receiver_id c) (cmd_group_id c)
    (cmd_last_seen_message_id c) (cmd_limit c) (cmd_before_id c) (cmd_username c)
    v (cmd_target_username c) (cmd_group_name c) (cmd_body c) (cmd_group_history c).
Definition set_target_username v c :=
  mkClientCommand (cmd_type c) (cmd_user_id c) (cmd_receiver_id c) (cmd_group_id c)
    (cmd_last_seen_message_id c) (cmd_limit c) (cmd_before_id c) (cmd_username c)
    (cmd_password c) v (cmd_group_name c) (cmd_body c) (cmd_group_history c).
Definition set_group_name v c :=
  mkClientCommand (cmd_type c) (cmd_user_id c) (cmd_receiver_id c) (cmd_group_id c)
    (cmd_last_seen_message_id c) (cmd_limit c) (cmd_before_id c) (cmd_username c)
    (cmd_password c) (cmd_target_username c) v (cmd_body c) (cmd_group_history c).
Definition set_body v c :=
  mkClientCommand (cmd_type c) (cmd_user_id c) (cmd_receiver_id c) (cmd_group_id c)
    (cmd_last_seen_message_id c) (cmd_limit c) (cmd_before_id c) (cmd_username c)
    (cmd_password c) (cmd_target_username c) (cmd_group_name c) v (cmd_group_history c).
Definition set_group_history v c :=
  mkClientCommand (cmd_type c) (cmd_user_id c) (cmd_receiver_id c) (cmd_group_id c)
    (cmd_last_seen_message_id c) (cmd_limit c) (cmd_before_id c) (cmd_username c)
    (cmd_password c) (cmd_target_username c) (cmd_group_name c) (cmd_body c) v.

(** ** [to_string(MessageType)] *)

Definition type_to_string (t : MessageType) : bytes :=
  match t with
  | Register => "register"
  | Login => "login"
  | Logout => "logout"
  | DirectChat => "direct_chat"
  | GroupChat => "group_chat"
  | CreateGroup => "create_group"
  | GroupJoin => "group_join"
  | GroupLeave => "group_leave"
  | HistoryQuery => "history_query"
  | UnreadQuery => "unread_query"
  | Ping => "ping"
  | System => "system"
  end.

(** ** Parsing a command *)

Definition Cmd (A : Type) : Type := ClientCommand -> ClientCommand * Res A.

#[export] Instance Cmd_ret : MRet Cmd := fun A a c => (c, Ok a).
#[export] Instance Cmd_bind : MBind Cmd := fun A B f m c =>
  match m c with
  | (c', Ok a) => f a c'
  | (c', Throw w) => (c', Throw w)
  end.

Definition assign (f : ClientCommand -> ClientCommand) : Cmd unit := fun c => (f c, Ok tt).
Definition lift {A} (r : Res A) : Cmd A := fun c => (c, r).

(** [return true], and [error = e; return false]. *)
Definition accept : Cmd (option bytes) := mret None.
Definition reject (e : bytes) : Cmd (option bytes) := mret (Some e).

(** [empty(value)]: the presence test of the required texts. *)
Definition value_empty (value : bytes) : bool := bool_decide (value = []).

(** [static_cast<std::uint32_t>(std::min<std::uint64_t>(limit, 100))] *)
Definition clamp_limit (limit : N) : N := to_u32 (N.min limit 100).

(** The two credential commands share their statements. *)
Definition parse_credentials (t : MessageType) (object : JsonObject) : Cmd (option bytes) :=
  assign (set_type t);;
  username ← lift (get_string object "username");
  assign (set_username username);;
  password ← lift (get_string object "password");
  assign (set_password password);;
  if value_empty username || value_empty password
  then reject "username and password are required"
  else accept.

(** [group_id] with its copy in [receiver_id]. *)
Definition parse_group_id (object : JsonObject) : Cmd unit :=
  group_id ← lift (get_uint64 object "group_id");
  assign (set_group_id group_id);;
  assign (set_receiver_id group_id).

Definition parse_limit (object : JsonObject) : Cmd unit :=
  limit ← lift (get_uint64_or object "limit" 20);
  assign (set_limit (clamp_limit limit)).

Definition parse_before_id (object : JsonObject) : Cmd unit :=
  before_id ← lift (get_uint64_or object "before_id" 0);
  assign (set_before_id before_id).

(** The chain of [if (type == ...)] branches. *)
Definition parse_command_fields (tag : bytes) (object : JsonObject) : Cmd (option bytes) :=
  if bool_decide (tag = bs "register") then parse_credentials Register object
  else if bool_decide (tag = bs "login") then parse_credentials Login object
  else if bool_decide (tag = bs "logout") then assign (set_type Logout);; accept
  else if bool_decide (tag = bs "ping") then assign (set_type Ping);; accept
  else if bool_decide (tag = bs "dm") then
    assign (set_type DirectChat);;
    target ← lift (get_string object "to");
    assign (set_target_username target);;
    text ← lift (get_string object "body");
    assign (set_body text);;
    if value_empty target || value_empty text then reject "to and body are required" else accept
  else if bool_decide (tag = bs "create_group") then
    assign (set_type CreateGroup);;
    name ← lift (get_string object "name");
    assign (set_group_name name);;
    if value_empty name then reject "group name is required" else accept
  else if bool_decide (tag = bs "join_group") then
    assign (set_type GroupJoin);; parse_group_id object;; accept
  else if bool_decide (tag = bs "leave_group") then
    assign (set_type GroupLeave);; parse_group_id object;; accept
  else if bool_decide (tag = bs "group_message") then
    assign (set_type GroupChat);;
    parse_group_id object;;
    text ← lift (get_string object "body");
    assign (set_body text);;
    if value_empty text then reject "body is required" else accept
  else if bool_decide (tag = bs "history") then
    assign (set_type HistoryQuery);;
    peer ← lift (get_string object "peer");
    assign (set_target_username peer);;
    parse_limit object;;
    parse_before_id object;;
    if value_empty peer then reject "peer is required" else accept
  else if bool_decide (tag = bs "group_history") then
    assign (set_type HistoryQuery);;
    assign (set_group_history true);;
    parse_group_id object;;
    parse_limit object;;
    parse_before_id object;;
    accept
  else if bool_decide (tag = bs "unread") then
    assign (set_type UnreadQuery);;
    last_seen ← lift (get_uint64_or object "last_seen_message_id" 0);
    assign (set_last_seen_message_id last_seen);;
    parse_limit object;;
    accept
  else reject "unknown command".

Definition parse_command_body (line : bytes) : Cmd (option bytes) :=
  object ← lift (parse_json_object (trim_trailing_cr line));
  tag ← lift (get_string object "type");
  parse_command_fields tag object.

(** The result, and what [command] and [error] hold afterwards. *)
Definition parse_client_command (line : bytes) (command : ClientCommand) (error : bytes)
    : bool * ClientCommand * bytes :=
  match parse_command_body line command with
  | (command, Ok None) => (true, command, error)
  | (command, Ok (Some e)) => (false, command, e)
  | (command, Throw what) => (false, command, what)
  end.

(** ** Formatting *)

Definition format_ok (message : bytes) : bytes :=
  finish_json ((json_type "ok" ++ bs ",") ++ json_string_field "message" message).

Definition format_error (message : bytes) : bytes :=
  finish_json ((json_type "error" ++ bs ",") ++ json_string_field "reason" message).

Definition format_register_success (user_id : N) : bytes :=
  finish_json ((json_type "register_success" ++ bs ",") ++ json_number_field "user_id" user_id).

Definition format_register_failed (reason : bytes) : bytes :=
  finish_json ((json_type "register_failed" ++ bs ",") ++ json_string_field "reason" reason).

Definition format_login_success (user_id : N) (username : bytes) : bytes :=
  finish_json ((((json_type "login_success" ++ bs ",") ++ json_number_field "user_id" user_id) ++
                bs ",") ++ json_string_field "username" username).

Definition format_login_failed (reason : bytes) : bytes :=
  finish_json ((json_type "login_failed" ++ bs ",") ++ json_string_field "reason" reason).

Definition format_create_group_success (group_id : N) (name : bytes) : bytes :=
  finish_json ((((json_type "create_group_success" ++ bs ",") ++
                 json_number_field "group_id" group_id) ++ bs ",") ++
               json_string_field "name" name).

Definition format_message_ack (message_id : N) (stored delivered : bool) : bytes :=
  finish_json ((((((((json_type "message_ack" ++ bs ",") ++
                     json_number_field "message_id" message_id) ++ bs ",") ++
                   json_string_field "status" (if stored then bs "stored" else bs "failed")) ++
                  bs ",") ++ json_bool_field "stored" stored) ++ bs ",") ++
               json_bool_field "delivered" delivered).

Definition format_direct_message (sender_username body : bytes) : bytes :=
  finish_json ((((json_type "dm" ++ bs ",") ++ json_string_field "from" sender_username) ++
                bs ",") ++ json_string_field "body" body).

Definition format_group_message (group_id : N) (sender_username body : bytes) : bytes :=
  finish_json ((((((json_type "group_message" ++ bs ",") ++
                   json_number_field "group_id" group_id) ++ bs ",") ++
                 json_string_field "from" sender_username) ++ bs ",") ++
               json_string_field "body" body).

(** The overload without id and date. *)
Definition format_history_item_plain (chat_type from to body : bytes) : bytes :=
  finish_json ((((((((json_type "history_item" ++ bs ",") ++
                     json_string_field "chat_type" chat_type) ++ bs ",") ++
                   json_string_field "from" from) ++ bs ",") ++
                 json_string_field "to" to) ++ bs ",") ++
               json_string_field "body" body).

Definition format_history_item (message_id : N) (chat_type from to body created_at : bytes)
    : bytes :=
  finish_json ((((((((((((json_type "history_item" ++ bs ",") ++
                         json_number_field "message_id" message_id) ++ bs ",") ++
                       json_string_field "chat_type" chat_type) ++ bs ",") ++
                     json_string_field "from" from) ++ bs ",") ++
                   json_string_field "to" to) ++ bs ",") ++
                 json_string_field "body" body) ++ bs ",") ++
               json_string_field "created_at" created_at).

(** The overload without paging fields. *)
Definition format_history_end_plain : bytes := finish_json (json_type "history_end").

Definition format_history_end (has_more : bool) (next_before_id : N) : bytes :=
  finish_json ((((json_type "history_end" ++ bs ",") ++ json_bool_field "has_more" has_more) ++
                bs ",") ++ json_number_field "next_before_id" next_before_id).

Definition format_unread_end (has_more : bool) (next_last_seen_message_id : N) : bytes :=
  finish_json ((((json_type "unread_end" ++ bs ",") ++ json_bool_field "has_more" has_more) ++
                bs ",") ++
               json_number_field "next_last_seen_message_id" next_last_seen_message_id).

Definition format_pong : bytes := finish_json (json_type "pong").

(** ** Specification: the documented requests and responses

    [Request] lists the commands the header of [parse_client_command]
    documents; [Response] the payloads the server sends. *)

Inductive Request : Type :=
  | ReqRegister (username password : bytes)
  | ReqLogin (username password : bytes)
  | ReqLogout
  | ReqPing
  | ReqDm (to body : bytes)
  | ReqCreateGroup (name : bytes)
  | ReqJoinGroup (group_id : N)
  | ReqLeaveGroup (group_id : N)
  | ReqGroupMessage (group_id : N) (body : bytes)
  | ReqHistory (peer : bytes) (limit before_id : option N)
  | ReqGroupHistory (group_id : N) (limit before_id : option N)
  | ReqUnread (last_seen limit : option N).

Definition str (k : string) (v : bytes) : bytes * JsonValue := (bs k, JsonString v).
Definition num (k : string) (v : N) : bytes * JsonValue := (bs k, JsonNumber v).
Definition opt_num (k : string) (v : option N) : list (bytes * JsonValue) :=
  match v with Some n => [num k n] | None => [] end.

Definition request_type (r : Request) : bytes :=
  match r with
  | ReqRegister _ _ => "register"
  | ReqLogin _ _ => "login"
  | ReqLogout => "logout"
  | ReqPing => "ping"
  | ReqDm _ _ => "dm"
  | ReqCreateGroup _ => "create_group"
  | ReqJoinGroup _ => "join_group"
  | ReqLeaveGroup _ => "leave_group"
  | ReqGroupMessage _ _ => "group_message"
  | ReqHistory _ _ _ => "history"
  | ReqGroupHistory _ _ _ => "group_history"
  | ReqUnread _ _ => "unread"
  end.

Definition request_fields (r : Request) : list (bytes * JsonValue) :=
  match r with
  | ReqRegister u p | ReqLogin u p => [str "username" u; str "password" p]
  | ReqLogout | ReqPing => []
  | ReqDm t b => [str "to" t; str "body" b]
  | ReqCreateGroup n => [str "name" n]
  | ReqJoinGroup g | ReqLeaveGroup g => [num "group_id" g]
  | ReqGroupMessage g b => [num "group_id" g; str "body" b]
  | ReqHistory p l b => str "peer" p :: opt_num "limit" l ++ opt_num "before_id" b
  | ReqGroupHistory g l b => num "group_id" g :: opt_num "limit" l ++ opt_num "before_id" b
  | ReqUnread s l => opt_num "last_seen_message_id" s ++ opt_num "limit" l
  end.

Definition encode_request (r : Request) : bytes :=
  render_object (request_type r) (request_fields r).

(** The command a request denotes. *)
Definition command_of_request (r : Request) : ClientCommand :=
  let group g c := set_receiver_id g (set_group_id g c) in
  let page l b c := set_before_id (default 0 b) (set_limit (N.min (default 20 l) 100) c) in
  match r with
  | ReqRegister u p => set_password p (set_username u (set_type Register default_command))
  | ReqLogin u p => set_password p (set_username u (set_type Login default_command))
  | ReqLogout => set_type Logout default_command
  | ReqPing => set_type Ping default_command
  | ReqDm t b => set_body b (set_target_username t (set_type DirectChat default_command))
  | ReqCreateGroup n => set_group_name n (set_type CreateGroup default_command)
  | ReqJoinGroup g => group g (set_type GroupJoin default_command)
  | ReqLeaveGroup g => group g (set_type GroupLeave default_command)
  | ReqGroupMessage g b => set_body b (group g (set_type GroupChat default_command))
  | ReqHistory p l b =>
      page l b (set_target_username p (set_type HistoryQuery default_command))
  | ReqGroupHistory g l b =>
      page l b (group g (set_group_history true (set_type HistoryQuery default_command)))
  | ReqUnread s l =>
      set_limit (N.min (default 20 l) 100)
        (set_last_seen_message_id (default 0 s) (set_type UnreadQuery default_command))
  end.

(** The required texts are present and the numbers fit [std::uint64_t]. *)
Definition request_ok (r : Request) : bool :=
  forallb field_ok (request_fields r) &&
  match r with
  | ReqRegister u p | ReqLogin u p => negb (value_empty u || value_empty p)
  | ReqDm t b => negb (value_empty t || value_empty b)
  | ReqCreateGroup n => negb (value_empty n)
  | ReqGroupMessage _ b => negb (value_empty b)
  | ReqHistory p _ _ => negb (value_empty p)
  | _ => true
  end.

Inductive Response : Type :=
  | RespOk (message : bytes)
  | RespError (reason : bytes)
  | RespRegisterSuccess (user_id : N)
  | RespRegisterFailed (reason : bytes)
  | RespLoginSuccess (user_id : N) (username : bytes)
  | RespLoginFailed (reason : bytes)
  | RespCreateGroupSuccess (group_id : N) (name : bytes)
  | RespMessageAck (message_id : N) (stored delivered : bool)
  | RespDirectMessage (from body : bytes)
  | RespGroupMessage (group_id : N) (from body : bytes)
  | RespHistoryItemPlain (chat_type from to body : bytes)
  | RespHistoryItem (message_id : N) (chat_type from to body created_at : bytes)
  | RespHistoryEndPlain
  | RespHistoryEnd (has_more : bool) (next_before_id : N)
  | RespUnreadEnd (has_more : bool) (next_last_seen : N)
  | RespPong.

(** Which formatter the server calls. *)
Definition format_response (r : Response) : bytes :=
  match r with
  | RespOk m => format_ok m
  | RespError m => format_error m
  | RespRegisterSuccess u => format_register_success u
  | RespRegisterFailed m => format_register_failed m
  | RespLoginSuccess u n => format_login_success u n
  | RespLoginFailed m => format_login_failed m
  | RespCreateGroupSuccess g n => format_create_group_success g n
  | RespMessageAck i s d => format_message_ack i s d
  | RespDirectMessage f b => format_direct_message f b
  | RespGroupMessage g f b => format_group_message g f b
  | RespHistoryItemPlain t f d b => format_history_item_plain t f d b
  | RespHistoryItem i t f d b c => format_history_item i t f d b c
  | RespHistoryEndPlain => format_history_end_plain
  | RespHistoryEnd m n => format_history_end m n
  | RespUnreadEnd m n => format_unread_end m n
  | RespPong => format_pong
  end.

Definition response_type (r : Response) : bytes :=
  match r with
  | RespOk _ => "ok"
  | RespError _ => "error"
  | RespRegisterSuccess _ => "register_success"
  | RespRegisterFailed _ => "register_failed"
  | RespLoginSuccess _ _ => "login_success"
  | RespLoginFailed _ => "login_failed"
  | RespCreateGroupSuccess _ _ => "create_group_success"
  | RespMessageAck _ _ _ => "message_ack"
  | RespDirectMessage _ _ => "dm"
  | RespGroupMessage _ _ _ => "group_message"
  | RespHistoryItemPlain _ _ _ _ | RespHistoryItem _ _ _ _ _ _ => "history_item"
  | RespHistoryEndPlain | RespHistoryEnd _ _ => "history_end"
  | RespUnreadEnd _ _ => "unread_end"
  | RespPong => "pong"
  end.

Definition flag (k : string) (b : bool) : bytes * JsonValue := (bs k, JsonBool b).

Definition response_fields (r : Response) : list (bytes * JsonValue) :=
  match r with
  | RespOk m => [str "message" m]
  | RespError m | RespRegisterFailed m | RespLoginFailed m => [str "reason" m]
  | RespRegisterSuccess u => [num "user_id" u]
  | RespLoginSuccess u n => [num "user_id" u; str "username" n]
  | RespCreateGroupSuccess g n => [num "group_id" g; str "name" n]
  | RespMessageAck i s d =>
      [num "message_id" i; str "status" (if s then bs "stored" else bs "failed");
       flag "stored" s; flag "delivered" d]
  | RespDirectMessage f b => [str "from" f; str "body" b]
  | RespGroupMessage g f b => [num "group_id" g; str "from" f; str "body" b]
  | RespHistoryItemPlain t f d b => [str "chat_type" t; str "from" f; str "to" d; str "body" b]
  | RespHistoryItem i t f d b c =>
      [num "message_id" i; str "chat_type" t; str "from" f; str "to" d; str "body" b;
       str "created_at" c]
  | RespHistoryEndPlain | RespPong => []
  | RespHistoryEnd m n => [flag "has_more" m; num "next_before_id" n]
  | RespUnreadEnd m n => [flag "has_more" m; num "next_last_seen_message_id" n]
  end.

Definition response_object (r : Response) : JsonObject :=
  fields_object (response_type r) (response_fields r).

(** The ids the response carries fit [std::uint64_t]. *)
Definition response_ok (r : Response) : bool := forallb field_ok (response_fields r).

(** What a successfully parsed command guarantees to its user. *)
Definition command_ok (c : ClientCommand) : Prop :=
  match cmd_type c with
  | Register | Login => cmd_username c <> [] /\ cmd_password c <> []
  | DirectChat => cmd_target_username c <> [] /\ cmd_body c <> []
  | CreateGroup => cmd_group_name c <> []
  | GroupJoin | GroupLeave => cmd_receiver_id c = cmd_group_id c
  | GroupChat => cmd_receiver_id c = cmd_group_id c /\ cmd_body c <> []
  | HistoryQuery =>
      cmd_limit c <= 100 /\
      (if cmd_group_history c then cmd_receiver_id c = cmd_group_id c
       else cmd_target_username c <> [])
  | UnreadQuery => cmd_limit c <= 100
  | Logout | Ping => True
  | System => False
  end.

(** ** Lemmas: the formatters print their field list *)
Lemma format_response_render (r : Response) :
  format_response r = render_object (response_type r) (response_fields r).
Proof. by destruct r as [| | | | | | |i [] d| | | | | | | |]. Qed.

Lemma response_type_plain (r : Response) : plain (response_type r) = true.
Proof. by destruct r. Qed.

Lemma request_type_plain (r : Request) : plain (request_type r) = true.
Proof. by destruct r. Qed.

Lemma forallb_Forall {A} (p : A -> bool) (l : list A) :
  forallb p l = true -> Forall (fun x => p x = true) l.
Proof. rewrite forallb_forall, Forall_forall. setoid_rewrite list_elem_of_In. done. Qed.

Lemma parse_format_response (r : Response) :
  response_ok r = true -> parse_json_object (format_response r) = Ok (response_object r).
Proof.
  intros H%forallb_Forall. rewrite format_response_render.
  apply parse_render_object; [apply response_type_plain|done].
Qed.

(** ** Lemmas: running the command parser *)
Lemma trim_no_cr (s : bytes) (c : ascii) :
  c <> cr -> trim_trailing_cr (s ++ [c]) = s ++ [c].
Proof.
  intros H. unfold trim_trailing_cr. rewrite last_snoc. by rewrite bool_decide_eq_false_2.
Qed.

Lemma trim_cr (s : bytes) : trim_trailing_cr (s ++ [cr]) = s.
Proof.
  unfold trim_trailing_cr. rewrite last_snoc, bool_decide_eq_true_2 by done.
  apply removelast_last.
Qed.

Lemma trim_render_object (ty : bytes) fields :
  trim_trailing_cr (render_object ty fields) = render_object ty fields.
Proof. unfold render_object, finish_json. by apply trim_no_cr. Qed.

(** Evaluate the lookups of an object with literal keys. *)
Ltac eval_lookups :=
  repeat match goal with
  | |- context [fields_object ?t ?l !! ?k] =>
      let v := eval vm_compute in (fields_object t l !! k) in
      change (fields_object t l !! k) with v
  end.

Lemma clamp_limit_min (n : N) : clamp_limit n = N.min n 100.
Proof. unfold clamp_limit, to_u32, u32_modulus. apply N.mod_small. lia. Qed.

(** The branch chain on the object of a well-formed request. *)
Lemma parse_command_fields_request (r : Request) :
  request_ok r = true ->
  parse_command_fields (request_type r) (fields_object (request_type r) (request_fields r))
    default_command = (command_of_request r, Ok None).
Proof.
  intros [_ Hr]%andb_prop.
  destruct r as [u p|u p| | |t b|n|g|g|g b|p [l|] [b|]|g [l|] [b|]|[s|] [l|]];
    unfold parse_command_fields; simpl request_type; simpl request_fields;
    repeat (first [rewrite bool_decide_eq_true_2 by reflexivity
                  |rewrite bool_decide_eq_false_2 by discriminate]);
    cbv [parse_credentials parse_group_id parse_limit parse_before_id get_string get_uint64
         get_uint64_or mbind Cmd_bind lift assign accept reject mret Cmd_ret];
    eval_lookups; cbv beta iota; rewrite ?clamp_limit_min; simpl in Hr;
    rewrite ?negb_true_iff in Hr; rewrite ?Hr; reflexivity.
Qed.

Lemma parse_client_command_object (line : bytes) (c : ClientCommand) (e ty : bytes)
    (object : JsonObject) :
  parse_json_object (trim_trailing_cr line) = Ok object ->
  get_string object "type" = Ok ty ->
  parse_client_command line c e =
    match parse_command_fields ty object c with
    | (c, Ok None) => (true, c, e)
    | (c, Ok (Some e)) => (false, c, e)
    | (c, Throw w) => (false, c, w)
    end.
Proof.
  intros H1 H2. unfold parse_client_command, parse_command_body.
  cbv [mbind Cmd_bind lift]. by rewrite H1, H2.
Qed.

Lemma get_string_type (ty : bytes) fields :
  Forall (fun f : bytes * JsonValue => f.1 <> bs "type") fields ->
  get_string (fields_object ty fields) "type" = Ok ty.
Proof.
  intros H. unfold get_string, fields_object, add_fields. simpl.
  assert (G : forall m : JsonObject, m !! (bs "type") = Some (JsonString ty) ->
    foldl (fun m f => <[f.1 := f.2]> m) m fields !! (bs "type") = Some (JsonString ty)).
  { induction H as [|f fields Hf _ IH]; intros m Hm; simpl; [done|].
    apply IH. by rewrite lookup_insert_ne. }
  rewrite G; [done|]. apply lookup_insert_eq.
Qed.

Lemma request_fields_no_type (r : Request) :
  Forall (fun f : bytes * JsonValue => f.1 <> bs "type") (request_fields r).
Proof.
  destruct r as [| | | | | | | | |p [] []|g [] []|[] []]; repeat constructor; discriminate.
Qed.

Lemma parse_request_line (r : Request) (line c e : _) :
  request_ok r = true -> trim_trailing_cr line = encode_request r -> c = default_command ->
  parse_client_command line c e = (true, command_of_request r, e).
Proof.
  intros Hr Hl ->. rewrite (parse_client_command_object line default_command e (request_type r)
    (fields_object (request_type r) (request_fields r))).
  - by rewrite parse_command_fields_request.
  - rewrite Hl. apply parse_render_object; [apply request_type_plain|].
    apply forallb_Forall. by apply andb_prop in Hr as [? _].
  - apply get_string_type, request_fields_no_type.
Qed.

Lemma value_empty_false (s : bytes) : value_empty s = false -> s <> [].
Proof. apply bool_decide_eq_false. Qed.

(** The branch chain only accepts well-formed commands, and every rejection
    has a text. *)
Ltac cmd_unfold H :=
  cbv [parse_credentials parse_group_id parse_limit parse_before_id mbind Cmd_bind lift
       assign accept reject mret Cmd_ret] in H.

(** Split along the outermost test of the run [H]; unfold once it is reached. *)
Ltac cmd_cases H :=
  repeat match type of H with
  | (if ?b then _ else _) _ = _ => let E := fresh "E" in destruct b eqn:E
  end;
  cmd_unfold H;
  repeat match type of H with
  | match ?r with Ok _ => _ | Throw _ => _ end = _ => let E := fresh "R" in destruct r eqn:E
  | (let (_, _) := match ?r with Ok _ => _ | Throw _ => _ end in _) = _ =>
      let E := fresh "R" in destruct r eqn:E
  | (if ?b then _ else _) _ = _ => let E := fresh "E" in destruct b eqn:E
  | (if ?b then _ else _) = _ => let E := fresh "E" in destruct b eqn:E
  end;
  cbv beta iota in H; try discriminate H.

Lemma parse_command_fields_ok (ty : bytes) (object : JsonObject) (c : ClientCommand) :
  parse_command_fields ty object default_command = (c, Ok None) -> command_ok c.
Proof.
  unfold parse_command_fields. intros H.
  cmd_cases H; injection H as <-; unfold command_ok; simpl; rewrite ?clamp_limit_min;
    repeat match goal with E : _ || _ = false |- _ => apply orb_false_elim in E as [? ?] end;
    repeat match goal with E : value_empty _ = false |- _ => apply value_empty_false in E end;
    repeat split; first [assumption|apply N.le_min_r].
Qed.

Lemma get_string_throw (o : JsonObject) (k w : bytes) : get_string o k = Throw w -> w <> [].
Proof. unfold get_string. destruct (o !! k) as [[]|]; intros H; by simplify_eq. Qed.

Lemma get_uint64_throw (o : JsonObject) (k w : bytes) : get_uint64 o k = Throw w -> w <> [].
Proof. unfold get_uint64. destruct (o !! k) as [[]|]; intros H; by simplify_eq. Qed.

Lemma get_uint64_or_throw (o : JsonObject) (k w : bytes) d :
  get_uint64_or o k d = Throw w -> w <> [].
Proof. unfold get_uint64_or. destruct (o !! k) as [[]|]; intros H; by simplify_eq. Qed.

#[export] Hint Resolve get_string_throw get_uint64_throw get_uint64_or_throw : chat.

Lemma parse_command_fields_error (ty : bytes) (object : JsonObject) (c c' : ClientCommand) r :
  parse_command_fields ty object c = (c', r) ->
  match r with Ok None => True | Ok (Some e) => e <> [] | Throw w => w <> [] end.
Proof.
  unfold parse_command_fields. intros H.
  cmd_cases H; injection H as _ <-; first [exact I|discriminate|eauto with chat].
Qed.

Lemma parse_client_command_ok (line : bytes) (c : ClientCommand) (e : bytes) :
  parse_client_command line default_command [] = (true, c, e) -> command_ok c.
Proof.
  unfold parse_client_command, parse_command_body. cbv [mbind Cmd_bind lift].
  destruct (parse_json_object (trim_trailing_cr line)) as [o|]; [|discriminate].
  destruct (get_string o "type") as [ty|]; [|discriminate].
  destruct (parse_command_fields ty o default_command) as [c' [[r|]|]] eqn:E; try discriminate.
  intros [= <- <-]. by apply (parse_command_fields_ok ty o).
Qed.

Lemma request_credentials (u p : bytes) :
  request_ok (ReqRegister u p) = true -> u <> [] /\ p <> [].
Proof.
  intros [_ H]%andb_prop. apply negb_true_iff, orb_false_elim in H as [? ?].
  by split; apply value_empty_false.
Qed.

Lemma request_group_name (name : bytes) :
  request_ok (ReqCreateGroup name) = true -> name <> [].
Proof. intros [_ H]%andb_prop. by apply value_empty_false, negb_true_iff. Qed.

Lemma parse_client_command_error (line : bytes) (c c' : ClientCommand) (e e' : bytes) :
  parse_client_command line c e = (false, c', e') -> e' <> [].
Proof.
  unfold parse_client_command, parse_command_body. cbv [mbind Cmd_bind lift].
  destruct (parse_json_object (trim_trailing_cr line)) as [o|w] eqn:Eo.
  2:{ intros [= _ <-]. by apply parse_json_object_throw in Eo. }
  destruct (get_string o "type") as [ty|w] eqn:Et; [|intros [= _ <-]; by apply get_string_throw in Et].
  destruct (parse_command_fields ty o c) as [c1 r] eqn:E.
  apply parse_command_fields_error in E. by destruct r as [[r|]|w]; intros [= <- <-].
Qed.

(** ** Theorems *)

(** C20: Every response the server formats is read back by its own parser as
    exactly the object it was formatted from, for arbitrary texts in the
    fields: the escaping is complete for the reader. *)
Theorem responses_parse_back (r : Response) :
  response_ok r = true -> parse_json_object (format_response r) = Ok (response_object r).
Proof. apply parse_format_response. Qed.

Lemma responses_parse_back_witness :
  parse_json_object (format_response (RespDirectMessage [dquote] "a\b")) =
    Ok (response_object (RespDirectMessage [dquote] "a\b")).
Proof. apply (responses_parse_back (RespDirectMessage _ _)). reflexivity. Defined.

(** Each documented request line, with or without a trailing carriage
    return, is accepted as the command it denotes: optional fields get their
    defaults and a limit above 100 is cut to 100. *)
Theorem requests_parse (r : Request) (tail : bytes) :
  request_ok r = true -> tail = [] \/ tail = [cr] ->
  parse_client_command (encode_request r ++ tail) default_command [] =
    (true, command_of_request r, []).
Proof.
  intros Hr Ht. apply parse_request_line; [done| |done].
  destruct Ht as [-> | ->]; [rewrite app_nil_r; apply trim_render_object|apply trim_cr].
Qed.

Lemma requests_parse_witness :
  parse_client_command (encode_request (ReqHistory "bob" (Some 500) None) ++ [cr])
    default_command [] = (true, command_of_request (ReqHistory "bob" (Some 500) None), []).
Proof. apply (requests_parse (ReqHistory "bob" (Some 500) None)); [reflexivity|by right]. Defined.

(** Whatever the bytes, an accepted line yields a command whose required
    texts are present, whose limit is at most 100 and whose group id is also
    its receiver, and a refused line yields a reason; [System] is never
    accepted, so the service's "unsupported command" answer is unreachable. *)
Theorem commands_well_formed (line : bytes) :
  match parse_client_command line default_command [] with
  | (true, c, _) => command_ok c
  | (false, _, e) => e <> []
  end.
Proof.
  destruct (parse_client_command line default_command []) as [[[] c] e] eqn:E.
  - by apply parse_client_command_ok in E.
  - by apply parse_client_command_error in E.
Qed.
