(* ===== verification/PacketCodec.v ===== *)
(** * PacketCodec: length-prefixed framing

    [src/src/network/packet_codec.cpp]: [encode_packet], the edge-triggered
    reader [recv_packets_et] and [send_all].  The kernel is a script of
    answers, one per [recv] or [send]; a call that consumes the whole script
    without deciding is still inside its loop, and returns [None]. *)

From S2P Require Import Prelude.
Open Scope N_scope.

(** ** Constants and data *)

Definition kPacketHeaderSize : N := 4.
Definition kMaxPacketPayloadSize : N := 1024 * 1024.

(** The Linux error numbers the code tests. *)
Definition EINTR : N := 4.
Definition EAGAIN : N := 11.
Definition EWOULDBLOCK : N := EAGAIN.

Record Packet : Type := mkPacket { payload : bytes }.

Inductive RecvPacketStatus : Type := RecvOk | RecvWouldBlock | RecvClosed | RecvProtocolError | RecvIoError.

Record RecvPacketResult : Type := mkRecvPacketResult {
  recv_status : RecvPacketStatus;
  recv_packets : list Packet;
  recv_error_code : N;
}.

Inductive SendStatus : Type := SendOk | SendWouldBlock | SendIoError.

Record SendResult : Type := mkSendResult {
  send_status : SendStatus;
  send_sent : N;
  send_error_code : N;
}.

(** [std::string::size()] *)
Definition bsize (s : bytes) : N := N.of_nat (length s).

(** ** Network byte order

    [htonl] is documented to put a [uint32_t] in network order, so the four
    bytes [memcpy] takes from it are the big-endian ones, and [ntohl] reads
    them back. *)

Definition byte_at (n shift : N) : ascii := ascii_of_N (n / 2 ^ shift mod 256).

Definition net_bytes (n : N) : bytes := [byte_at n 24; byte_at n 16; byte_at n 8; byte_at n 0].

Definition net_value (b : bytes) : N := foldl (fun acc c => acc * 256 + code c) 0 b.

(** ** Encoding *)

Definition encode_packet (payload : bytes) : Res bytes :=
  if bool_decide (payload = []) || (kMaxPacketPayloadSize <? bsize payload)
  then Throw "payload size is invalid"
  else
    let payload_size := to_u32 (bsize payload) in
    Ok (net_bytes payload_size ++ payload).

(** ** Receiving *)

(** What [recv] returns: bytes (none at end of stream), or -1 and [errno]. *)
Inductive recv_answer : Type :=
  | Received (data : bytes)
  | RecvFailed (errno : N).

(** The first loop: read until the socket would block.  [inl] is an early
    return, [inr] the [break]; the unread answers are returned too. *)
Fixpoint recv_drain (socket : list recv_answer) (read_buffer : bytes)
    : option (bytes * list recv_answer * (RecvPacketResult + unit)) :=
  match socket with
  | [] => None
  | Received [] :: socket =>
      Some (read_buffer, socket, inl (mkRecvPacketResult RecvClosed [] 0))
  | Received data :: socket => recv_drain socket (read_buffer ++ data)
  | RecvFailed e :: socket =>
      if e =? EINTR then recv_drain socket read_buffer
      else if (e =? EAGAIN) || (e =? EWOULDBLOCK) then Some (read_buffer, socket, inr tt)
      else Some (read_buffer, socket, inl (mkRecvPacketResult RecvIoError [] e))
  end.

(** The second loop: cut complete frames off the front of the buffer.  The
    boolean is the early [ProtocolError] return. *)
Fixpoint decode_frames (fuel : nat) (max_payload_size : N) (read_buffer : bytes)
    (packets : list Packet) : option (bool * list Packet * bytes) :=
  match fuel with
  | O => None
  | S fuel =>
      if bsize read_buffer <? kPacketHeaderSize then Some (false, packets, read_buffer)
      else
        let payload_length := net_value (take (N.to_nat kPacketHeaderSize) read_buffer) in
        if (payload_length =? 0) || (max_payload_size <? payload_length)
        then Some (true, packets, read_buffer)
        else
          let frame_size := kPacketHeaderSize + payload_length in
          if bsize read_buffer <? frame_size then Some (false, packets, read_buffer)
          else
            let payload :=
              take (N.to_nat payload_length) (drop (N.to_nat kPacketHeaderSize) read_buffer) in
            decode_frames fuel max_payload_size (drop (N.to_nat frame_size) read_buffer)
              (packets ++ [mkPacket payload])
  end.

(** Every iteration removes a frame, so the size of the buffer is enough fuel
    ([decode_frames_some]); the default is never used. *)
Definition decode (max_payload_size : N) (read_buffer : bytes) : bool * list Packet * bytes :=
  default (true, [], read_buffer)
    (decode_frames (S (length read_buffer)) max_payload_size read_buffer []).

Definition recv_packets_et (max_payload_size : N) (socket : list recv_answer) (read_buffer : bytes)
    : option (RecvPacketResult * bytes * list recv_answer) :=
  '(read_buffer, socket, stop) ← recv_drain socket read_buffer;
  match stop with
  | inl result => Some (result, read_buffer, socket)
  | inr _ =>
      let '(protocol_error, packets, read_buffer) := decode max_payload_size read_buffer in
      let status :=
        if protocol_error then RecvProtocolError
        else match packets with [] => RecvWouldBlock | _ => RecvOk end in
      Some (mkRecvPacketResult status packets 0, read_buffer, socket)
  end.

(** ** Sending *)

(** What [send] returns: the number of bytes taken (or -1), and [errno]. *)
Record send_answer : Type := mkSendAnswer { bytes_sent : Z; send_errno : N }.

(** The loop of [send_all] over [size] bytes, of which [sent] are gone. *)
Fixpoint send_loop (socket : list send_answer) (size sent : N)
    : option (SendResult * list send_answer) :=
  if sent <? size then
    match socket with
    | [] => None
    | a :: socket =>
        if (0 <? bytes_sent a)%Z then send_loop socket size (sent + Z.to_N (bytes_sent a))
        else if (bytes_sent a =? -1)%Z && (send_errno a =? EINTR) then send_loop socket size sent
        else if (bytes_sent a =? -1)%Z &&
                ((send_errno a =? EAGAIN) || (send_errno a =? EWOULDBLOCK))
        then Some (mkSendResult SendWouldBlock sent 0, socket)
        else Some (mkSendResult SendIoError sent (send_errno a), socket)
    end
  else Some (mkSendResult SendOk sent 0, socket).

Definition send_all (socket : list send_answer) (data : bytes)
    : option (SendResult * list send_answer) :=
  send_loop socket (bsize data) 0.

(** ** Specification vocabulary *)

(** A payload [encode_packet] accepts. *)
Definition payload_ok (p : bytes) : bool :=
  negb (bool_decide (p = [])) && (bsize p <=? kMaxPacketPayloadSize).

(** The bytes of a frame. *)
Definition frame (p : bytes) : bytes := net_bytes (bsize p) ++ p.

(** The bytes a script delivers before the socket would block, when it does. *)
Fixpoint drained (socket : list recv_answer) : option bytes :=
  match socket with
  | Received (b :: data) :: socket => app (b :: data) <$> drained socket
  | RecvFailed e :: socket =>
      if e =? EINTR then drained socket
      else if e =? EAGAIN then Some [] else None
  | _ => None
  end.

(** Consecutive calls on one connection, each on its own wake-up, until one
    fails: the packets delivered and what is left in the buffer. *)
Fixpoint recv_calls (max_payload_size : N) (wakeups : list (list recv_answer)) (read_buffer : bytes)
    : option (list Packet * bytes) :=
  match wakeups with
  | [] => Some ([], read_buffer)
  | socket :: wakeups =>
      '(result, read_buffer, _) ← recv_packets_et max_payload_size socket read_buffer;
      match recv_status result with
      | RecvOk | RecvWouldBlock =>
          '(packets, read_buffer) ← recv_calls max_payload_size wakeups read_buffer;
          Some (recv_packets result ++ packets, read_buffer)
      | _ => None
      end
  end.

(** The front of [buffer] is not a complete frame, and not a refused one. *)
Definition incomplete (max_payload_size : N) (buffer : bytes) : Prop :=
  bsize buffer < kPacketHeaderSize \/
  (let n := net_value (take 4 buffer) in
   0 < n <= max_payload_size /\ bsize buffer < kPacketHeaderSize + n).

(** [send] never reports more bytes than it was given. *)
Fixpoint sends_within (socket : list send_answer) (size sent : N) : bool :=
  match socket with
  | [] => true
  | a :: socket =>
      if (0 <? bytes_sent a)%Z then
        (sent + Z.to_N (bytes_sent a) <=? size) &&
        sends_within socket size (sent + Z.to_N (bytes_sent a))
      else sends_within socket size sent
  end.

(** ** Lemmas: byte order *)
Lemma code_byte_at (n s : N) : code (byte_at n s) = n / 2 ^ s mod 256.
Proof. apply N_ascii_embedding. apply N.mod_lt. discriminate. Qed.

Lemma net_value_bytes (n : N) : n < 2 ^ 32 -> net_value (net_bytes n) = n.
Proof.
  intros H. unfold net_value, net_bytes. simpl foldl. rewrite !code_byte_at.
  change (2 ^ 24) with 16777216. change (2 ^ 16) with 65536. change (2 ^ 8) with 256.
  change (2 ^ 0) with 1. change (2 ^ 32) with 4294967296 in H.
  lia.
Qed.

Lemma length_net_bytes (n : N) : length (net_bytes n) = 4%nat.
Proof. done. Qed.

Lemma payload_ok_spec (p : bytes) :
  payload_ok p = true <-> p <> [] /\ bsize p <= kMaxPacketPayloadSize.
Proof. unfold payload_ok. rewrite andb_true_iff, negb_true_iff, bool_decide_eq_false, N.leb_le. done. Qed.

Lemma bsize_app (a b : bytes) : bsize (a ++ b) = bsize a + bsize b.
Proof. unfold bsize. rewrite length_app. lia. Qed.

Lemma encode_packet_frame (p : bytes) : payload_ok p = true -> encode_packet p = Ok (frame p).
Proof.
  intros [Hne Hs]%payload_ok_spec. unfold encode_packet.
  rewrite bool_decide_eq_false_2 by done.
  replace (kMaxPacketPayloadSize <? bsize p) with false by lia. simpl. unfold frame, to_u32.
  rewrite N.mod_small; [done|]. unfold u32_modulus, kMaxPacketPayloadSize in *. lia.
Qed.

Lemma encode_packet_invalid (p : bytes) :
  payload_ok p = false -> encode_packet p = Throw "payload size is invalid".
Proof.
  intros H. unfold encode_packet, payload_ok in *.
  destruct (bool_decide (p = [])); [done|]. simpl in *.
  by replace (kMaxPacketPayloadSize <? bsize p) with true by lia.
Qed.

(** ** Lemmas: the decoder *)

(** One iteration on a buffer that holds a complete, valid frame. *)
Lemma decode_frames_some (fuel : nat) (max : N) (buf : bytes) (acc : list Packet) :
  (length buf < fuel)%nat -> is_Some (decode_frames fuel max buf acc).
Proof.
  revert buf acc. induction fuel as [|fuel IH]; intros buf acc Hf; [lia|].
  cbn [decode_frames]. repeat case_if; try done.
  apply IH. rewrite length_drop. unfold bsize, kPacketHeaderSize in *. lia.
Qed.

Lemma decode_frames_fuel (fuel fuel' : nat) (max : N) (buf : bytes) (acc : list Packet) :
  (length buf < fuel)%nat -> (length buf < fuel')%nat ->
  decode_frames fuel max buf acc = decode_frames fuel' max buf acc.
Proof.
  revert fuel' buf acc. induction fuel as [|fuel IH]; intros [|fuel'] buf acc Hf Hf'; try lia.
  cbn [decode_frames]. repeat case_if; try done.
  apply IH; rewrite length_drop; unfold bsize, kPacketHeaderSize in *; lia.
Qed.

Definition prepend (acc : list Packet) (r : bool * list Packet * bytes) : bool * list Packet * bytes :=
  let '(e, ps, rest) := r in (e, acc ++ ps, rest).

Lemma decode_frames_acc (fuel : nat) (max : N) (buf : bytes) (acc : list Packet) :
  decode_frames fuel max buf acc = prepend acc <$> decode_frames fuel max buf [].
Proof.
  revert buf acc. induction fuel as [|fuel IH]; intros buf acc; [done|].
  cbn [decode_frames]. repeat case_if; simpl; rewrite ?app_nil_r; try done.
  rewrite IH, (IH _ [_]). destruct (decode_frames fuel max _ []) as [[[e ps] r]|]; simpl; [|done].
  by rewrite <- app_assoc.
Qed.

(** The decoder's equation, free of fuel and accumulator. *)
Lemma decode_unfold (max : N) (buf : bytes) :
  decode max buf =
    if bsize buf <? kPacketHeaderSize then (false, [], buf)
    else
      let n := net_value (take 4 buf) in
      if (n =? 0) || (max <? n) then (true, [], buf)
      else if bsize buf <? kPacketHeaderSize + n then (false, [], buf)
      else prepend [mkPacket (take (N.to_nat n) (drop 4 buf))]
             (decode max (drop (N.to_nat (kPacketHeaderSize + n)) buf)).
Proof.
  unfold decode at 1. cbn [decode_frames]. change (N.to_nat kPacketHeaderSize) with 4%nat.
  cbv zeta. repeat case_if; try done.
  rewrite decode_frames_acc. unfold decode.
  assert (Hl : (length (drop (N.to_nat (kPacketHeaderSize + net_value (take 4 buf))) buf)
                < length buf)%nat).
  { rewrite length_drop. unfold bsize, kPacketHeaderSize in *. lia. }
  revert Hl. generalize (drop (N.to_nat (kPacketHeaderSize + net_value (take 4 buf))) buf).
  intros rest Hl. rewrite (decode_frames_fuel (length buf) (S (length rest))) by lia.
  destruct (decode_frames_some (S (length rest)) max rest []) as [r Hr]; [lia|].
  by rewrite Hr.
Qed.

Lemma prepend_app (a b : list Packet) r : prepend a (prepend b r) = prepend (a ++ b) r.
Proof. destruct r as [[e ps] rest]. simpl. by rewrite app_assoc. Qed.

Lemma take_prefix {A} (n : nat) (a b : list A) : (n <= length a)%nat -> take n (a ++ b) = take n a.
Proof. apply take_app_le. Qed.

Lemma drop_prefix {A} (n : nat) (a b : list A) :
  (n <= length a)%nat -> drop n (a ++ b) = drop n a ++ b.
Proof. apply drop_app_le. Qed.

(** Feeding the bytes in two parts: the second call resumes on what the first
    left, and a protocol error is final. *)
Lemma decode_app (max : N) (a b : bytes) :
  decode max (a ++ b) =
    let '(e, ps, r) := decode max a in
    if e then (true, ps, r ++ b) else prepend ps (decode max (r ++ b)).
Proof.
  remember (length a) as n eqn:Hn. assert (Hle : (length a <= n)%nat) by lia. clear Hn.
  revert a Hle. induction n as [|n IH]; intros a Hle.
  - destruct a; [|simpl in Hle; lia]. by destruct (decode max b) as [[e ps] r] eqn:E;
      rewrite (decode_unfold max []); simpl; rewrite E.
  - rewrite (decode_unfold max a).
    destruct (bsize a <? kPacketHeaderSize) eqn:E1.
    { by destruct (decode max (a ++ b)) as [[e ps] r]. }
    assert (H4 : (4 <= length a)%nat) by (unfold bsize, kPacketHeaderSize in *; lia).
    cbv zeta. destruct ((net_value (take 4 a) =? 0) || (max <? net_value (take 4 a))) eqn:E2.
    { rewrite decode_unfold, bsize_app, take_prefix by done. cbv zeta. rewrite E2.
      by replace (bsize a + bsize b <? kPacketHeaderSize) with false by lia. }
    destruct (bsize a <? kPacketHeaderSize + net_value (take 4 a)) eqn:E3.
    { by destruct (decode max (a ++ b)) as [[e ps] r]. }
    rewrite decode_unfold, bsize_app, take_prefix by done. cbv zeta. rewrite E2.
    replace (bsize a + bsize b <? kPacketHeaderSize) with false by lia.
    replace (bsize a + bsize b <? kPacketHeaderSize + net_value (take 4 a)) with false by lia.
    rewrite !drop_prefix by (unfold bsize, kPacketHeaderSize in *; lia).
    rewrite take_prefix by (rewrite length_drop; unfold bsize, kPacketHeaderSize in *; lia).
    rewrite IH by (rewrite length_drop; unfold kPacketHeaderSize in *; lia).
    destruct (decode max (drop _ a)) as [[[] ps] r]; simpl; [done|].
    by rewrite prepend_app.
Qed.

Lemma decode_frame (max : N) (p rest : bytes) :
  payload_ok p = true -> bsize p <= max ->
  decode max (frame p ++ rest) = prepend [mkPacket p] (decode max rest).
Proof.
  intros [Hne Hs]%payload_ok_spec Hm. rewrite decode_unfold.
  assert (Hn : take 4 (frame p ++ rest) = net_bytes (bsize p)) by done.
  assert (Hv : net_value (net_bytes (bsize p)) = bsize p).
  { apply net_value_bytes. unfold kMaxPacketPayloadSize in Hs. lia. }
  assert (Hp : 0 < bsize p) by (destruct p; [done|unfold bsize; simpl; lia]).
  rewrite Hn, Hv. unfold frame. rewrite !bsize_app.
  change (bsize (net_bytes (bsize p))) with 4. unfold kPacketHeaderSize. cbv zeta.
  replace (4 + bsize p + bsize rest <? 4) with false by lia.
  replace ((bsize p =? 0) || (max <? bsize p)) with false by lia.
  replace (4 + bsize p + bsize rest <? 4 + bsize p) with false by lia.
  f_equal.
  - repeat f_equal. change (drop 4 ((net_bytes (bsize p) ++ p) ++ rest)) with (p ++ rest).
    unfold bsize. rewrite Nat2N.id. apply take_app_length.
  - f_equal. apply drop_app_length'. rewrite length_app, length_net_bytes. unfold bsize. lia.
Qed.

Lemma decode_frames_stream (max : N) (ps : list bytes) :
  Forall (fun p => payload_ok p = true /\ bsize p <= max) ps ->
  decode max (concat (map frame ps)) = (false, map mkPacket ps, []).
Proof.
  induction 1 as [|p ps [Hp Hm] _ IH]; [done|].
  cbn [map concat]. by rewrite decode_frame, IH.
Qed.

(** What stays in the buffer after a successful pass. *)
Lemma decode_incomplete (max : N) (buf r : bytes) (ps : list Packet) :
  decode max buf = (false, ps, r) -> incomplete max r.
Proof.
  remember (length buf) as n eqn:Hn. assert (Hle : (length buf <= n)%nat) by lia. clear Hn.
  revert buf ps Hle. induction n as [|n IH]; intros buf ps Hle; rewrite decode_unfold.
  - destruct buf; [|simpl in Hle; lia]. simpl. intros H. injection H as _ <-. by left.
  - case_if; [intros H; injection H as _ <-; left; lia|]. cbv zeta.
    case_if; [discriminate|]. case_if; [intros H; injection H as _ <-; right; lia|].
    destruct (decode max (drop _ buf)) as [[e qs] r'] eqn:Ed. simpl. intros H. injection H as -> _ ->.
    apply IH in Ed; [done|]. rewrite length_drop. unfold kPacketHeaderSize, bsize in *. lia.
Qed.

(** ** Lemmas: the reader *)
Lemma recv_drain_drained (socket : list recv_answer) (buf d : bytes) :
  drained socket = Some d ->
  exists rest, recv_drain socket buf = Some (buf ++ d, rest, inr tt).
Proof.
  revert buf d. induction socket as [|[[|c data]|e] socket IH]; intros buf d; try discriminate.
  - cbn [drained recv_drain]. destruct (drained socket) as [d'|] eqn:E; [|discriminate].
    intros H. injection H as <-. destruct (IH (buf ++ c :: data) d' eq_refl) as [rest Hr].
    exists rest. rewrite Hr. by rewrite <- app_assoc.
  - cbn [drained recv_drain]. destruct (e =? EINTR); [apply IH|].
    destruct (e =? EAGAIN); [|discriminate]. intros H. injection H as <-.
    exists socket. by rewrite app_nil_r.
Qed.

Lemma recv_packets_et_drained (max : N) (socket : list recv_answer) (buf d : bytes) :
  drained socket = Some d ->
  exists rest, recv_packets_et max socket buf =
    let '(e, ps, r) := decode max (buf ++ d) in
    Some (mkRecvPacketResult
      (if e then RecvProtocolError else match ps with [] => RecvWouldBlock | _ => RecvOk end) ps 0,
      r, rest).
Proof.
  intros H. destruct (recv_drain_drained socket buf d H) as [rest Hr]. exists rest.
  unfold recv_packets_et. rewrite Hr. simpl. by destruct (decode max (buf ++ d)) as [[e ps] r].
Qed.

(** However the bytes are split over wake-ups and reads, the calls decode
    their concatenation. *)
Lemma recv_calls_decode (max : N) (wakeups : list (list recv_answer)) (chunks : list bytes)
    (buf : bytes) :
  map drained wakeups = map Some chunks -> incomplete max buf ->
  recv_calls max wakeups buf =
    let '(e, ps, r) := decode max (buf ++ concat chunks) in
    if e then None else Some (ps, r).
Proof.
  revert chunks buf. induction wakeups as [|socket wakeups IH]; intros [|d chunks] buf H Hb;
    try discriminate.
  - simpl. rewrite app_nil_r, decode_unfold. destruct Hb as [Hb|[Hb1 Hb2]].
    + by replace (bsize buf <? kPacketHeaderSize) with true by lia.
    + case_if; [done|]. cbv zeta.
      replace ((net_value (take 4 buf) =? 0) || (max <? net_value (take 4 buf))) with false by lia.
      by replace (bsize buf <? kPacketHeaderSize + net_value (take 4 buf)) with true by lia.
  - injection H as Hd H. cbn [recv_calls].
    destruct (recv_packets_et_drained max socket buf d Hd) as [rest ->].
    simpl concat. rewrite app_assoc, (decode_app max (buf ++ d)).
    destruct (decode max (buf ++ d)) as [[[] ps] r] eqn:E; [done|]. simpl.
    rewrite (IH chunks r H) by (by apply decode_incomplete in E).
    destruct (decode max (r ++ concat chunks)) as [[[] qs] r']; simpl; by destruct ps.
Qed.

Lemma recv_drain_returns (socket : list recv_answer) (buf : bytes) :
  is_Some (recv_drain socket buf) <->
  Exists (fun a => match a with Received [] => True | RecvFailed e => e <> EINTR | _ => False end)
    socket.
Proof.
  revert buf. induction socket as [|[[|c data]|e] socket IH]; intros buf; cbn [recv_drain].
  - split; [by intros [? ?]|by inversion 1].
  - split; [by left|done].
  - rewrite IH. split; [by right|]. inversion 1; by subst.
  - destruct (e =? EINTR) eqn:E.
    + rewrite IH. split; [by right|]. inversion 1; subst; [lia|done].
    + split; [intros _; left; lia|intros _]. by case_if.
Qed.

(** ** Lemmas: the decoder loses no byte *)
Lemma ascii_of_N_code (n : N) (c : ascii) : n = code c -> ascii_of_N n = c.
Proof. intros ->. apply ascii_N_embedding. Qed.

Lemma net_bytes_value (b : bytes) : length b = 4%nat -> net_bytes (net_value b) = b.
Proof.
  intros H. destruct b as [|b3 [|b2 [|b1 [|b0 [|]]]]]; try discriminate. clear H.
  unfold net_value, net_bytes. simpl foldl.
  pose proof (N_ascii_bounded b3). pose proof (N_ascii_bounded b2).
  pose proof (N_ascii_bounded b1). pose proof (N_ascii_bounded b0).
  unfold byte_at. change (2 ^ 24) with 16777216. change (2 ^ 16) with 65536.
  change (2 ^ 8) with 256. change (2 ^ 0) with 1.
  f_equal; [|f_equal; [|f_equal; [|f_equal]]]; apply ascii_of_N_code; lia.
Qed.

Lemma decode_sound (max : N) (buf r : bytes) (e : bool) (ps : list Packet) :
  decode max buf = (e, ps, r) ->
  buf = concat (map (fun p => frame (payload p)) ps) ++ r /\
  Forall (fun p => 0 < bsize (payload p) <= max) ps.
Proof.
  remember (length buf) as n eqn:Hn. assert (Hle : (length buf <= n)%nat) by lia. clear Hn.
  revert buf ps Hle. induction n as [|n IH]; intros buf ps Hle; rewrite decode_unfold.
  - destruct buf; [|simpl in Hle; lia]. simpl. by intros [= <- <- <-].
  - case_if; [by intros [= <- <- <-]|]. cbv zeta. case_if; [by intros [= <- <- <-]|].
    case_if; [by intros [= <- <- <-]|].
    set (l := net_value (take 4 buf)) in *.
    destruct (decode max (drop _ buf)) as [[e' qs] r'] eqn:Ed. simpl. intros [= <- <- <-].
    apply IH in Ed as [Hb Hqs].
    2:{ rewrite length_drop. unfold kPacketHeaderSize, bsize in *. lia. }
    assert (Hs : bsize (take (N.to_nat l) (drop 4 buf)) = l).
    { unfold bsize, kPacketHeaderSize in *. rewrite length_take, length_drop. lia. }
    split; [|constructor; [simpl; rewrite Hs; lia|done]].
    cbn [map concat payload]. unfold frame at 1. rewrite Hs. subst l.
    rewrite net_bytes_value by (rewrite length_take; unfold kPacketHeaderSize, bsize in *; lia).
    rewrite <- !app_assoc, <- Hb.
    replace (N.to_nat (kPacketHeaderSize + net_value (take 4 buf)))
      with (4 + N.to_nat (net_value (take 4 buf)))%nat by (unfold kPacketHeaderSize; lia).
    rewrite <- drop_drop, take_drop. by rewrite take_drop.
Qed.

Lemma incomplete_bound (max : N) (r : bytes) : incomplete max r -> bsize r < kPacketHeaderSize + max + 1.
Proof. unfold incomplete, kPacketHeaderSize. intros [H|[H1 H2]]; lia. Qed.

Lemma send_loop_bounds (socket rest : list send_answer) (size sent : N) (r : SendResult) :
  sends_within socket size sent = true -> sent <= size ->
  send_loop socket size sent = Some (r, rest) ->
  sent <= send_sent r <= size /\ (send_status r = SendOk <-> send_sent r = size).
Proof.
  revert sent. induction socket as [|a socket IH]; intros sent Hw Hs.
  - simpl. case_if; [discriminate|]. intros [= <- <-]. simpl.
    split; [lia|split; [lia|done]].
  - cbn [send_loop]. case_if; [|intros [= <- <-]; simpl; split; [lia|split; [lia|done]]].
    cbn [sends_within] in Hw. destruct (0 <? bytes_sent a)%Z eqn:Ea.
    + apply andb_prop in Hw as [Hle Hw]. intros Hr. apply IH in Hr; [|done|lia].
      destruct Hr as [? ?]. split; [lia|done].
    + case_if; [by apply IH|]. case_if; intros [= <- <-]; simpl;
        (split; [lia|split; [discriminate|intros; exfalso; lia]]).
Qed.

(** An answer on which [send_all] gives up, and the bytes a script takes. *)
Definition send_stops (a : send_answer) : bool :=
  negb (0 <? bytes_sent a)%Z && negb ((bytes_sent a =? -1)%Z && (send_errno a =? EINTR)).

Definition bytes_offered (socket : list send_answer) : N :=
  foldr (fun a n => Z.to_N (bytes_sent a) + n) 0 socket.

Lemma send_loop_returns (socket : list send_answer) (size sent : N) :
  is_Some (send_loop socket size sent) <->
  Exists (fun a => send_stops a = true) socket \/ size <= sent + bytes_offered socket.
Proof.
  revert sent. induction socket as [|a socket IH]; intros sent; cbn [send_loop bytes_offered foldr].
  - case_if; split; [by intros [? ?]|intros [Hx|?]; [inversion Hx|lia]| |done]. intros _. right. lia.
  - fold (bytes_offered socket). rewrite Exists_cons. case_if; [|split; [intros _; right; lia|done]].
    unfold send_stops at 1. destruct (0 <? bytes_sent a)%Z eqn:Ea; cbn [negb andb].
    + rewrite IH, N.add_assoc. split; [intros [?|?]; auto|intros [[?|?]|?]; auto; done].
    + replace (Z.to_N (bytes_sent a)) with 0 by lia. rewrite N.add_0_l.
      destruct ((bytes_sent a =? -1)%Z && (send_errno a =? EINTR)); cbn [negb].
      * rewrite IH. split; [intros [?|?]; auto|intros [[?|?]|?]; auto; done].
      * split; [intros _; by left; left|intros _; by case_if].
Qed.

(** ** Theorems *)

(** C13: Reliable framing: when the bytes of a sequence of frames arrive cut in
    any way, over any number of wake-ups and reads (interrupted ones
    included), the calls together deliver exactly the payloads, in order, and
    leave the buffer empty. *)
Theorem frames_delivered (max : N) (ps : list bytes) (wakeups : list (list recv_answer))
    (chunks : list bytes) :
  Forall (fun p => payload_ok p = true /\ bsize p <= max) ps ->
  map drained wakeups = map Some chunks -> concat chunks = concat (map frame ps) ->
  recv_calls max wakeups [] = Some (map mkPacket ps, []).
Proof.
  intros Hp Hw Hc. rewrite (recv_calls_decode max wakeups chunks []); [|done|by left].
  cbn [app]. by rewrite Hc, decode_frames_stream.
Qed.

Definition sample_wakeups : list (list recv_answer) :=
  [[Received (take 3 (frame "ping")); RecvFailed EINTR; Received (drop 3 (frame "ping"));
    RecvFailed EAGAIN];
   [Received (frame "pong"); RecvFailed EAGAIN]].

Lemma frames_delivered_witness :
  recv_calls kMaxPacketPayloadSize sample_wakeups [] =
    Some ([mkPacket "ping"; mkPacket "pong"], []).
Proof.
  apply (frames_delivered _ [bs "ping"; bs "pong"] _ [frame "ping"; frame "pong"]);
    [|reflexivity|reflexivity].
  constructor; [split; [reflexivity|discriminate]|].
  constructor; [split; [reflexivity|discriminate]|constructor].
Defined.

(** The decoder neither invents nor loses a byte: after any successful
    calls, the bytes that arrived are the frames of the packets delivered
    followed by what is in the buffer; every packet is within the limit, and
    less than one frame is left over, so with the default limits the
    read-buffer check of the server (2 MiB) never fires. *)
Theorem received_bytes_accounted (max : N) (wakeups : list (list recv_answer))
    (chunks : list bytes) (ps : list Packet) (r : bytes) :
  map drained wakeups = map Some chunks -> recv_calls max wakeups [] = Some (ps, r) ->
  concat chunks = concat (map (fun p => frame (payload p)) ps) ++ r /\
  Forall (fun p => 0 < bsize (payload p) <= max) ps /\
  bsize r <= kPacketHeaderSize + max.
Proof.
  intros Hw Hr. rewrite (recv_calls_decode max wakeups chunks []) in Hr; [|done|by left].
  cbn [app] in Hr. destruct (decode max (concat chunks)) as [[[] qs] q] eqn:Ed; [done|].
  injection Hr as <- <-. destruct (decode_sound _ _ _ _ _ Ed) as [Hb Hq].
  split; [done|]. split; [done|]. apply decode_incomplete, incomplete_bound in Ed. lia.
Qed.

Lemma received_bytes_accounted_witness :
  concat [frame "ping"; take 2 (frame "pong")] =
    concat (map (fun p => frame (payload p)) [mkPacket "ping"]) ++ take 2 (frame "pong") /\
  Forall (fun p => 0 < bsize (payload p) <= 100) [mkPacket "ping"] /\
  bsize (take 2 (frame "pong")) <= kPacketHeaderSize + 100.
Proof.
  apply (received_bytes_accounted 100
    [[Received (frame "ping"); RecvFailed EAGAIN];
     [Received (take 2 (frame "pong")); RecvFailed EAGAIN]]); reflexivity.
Defined.

(** What is encoded is decoded: [encode_packet] refuses exactly the empty
    and the oversized payloads, and the frame it makes of any other is read
    back as that payload, whatever follows it. *)
Theorem encode_decode (p rest : bytes) :
  match encode_packet p with
  | Ok b => payload_ok p = true /\
      decode kMaxPacketPayloadSize (b ++ rest) =
        prepend [mkPacket p] (decode kMaxPacketPayloadSize rest)
  | Throw _ => payload_ok p = false
  end.
Proof.
  destruct (payload_ok p) eqn:E.
  - rewrite encode_packet_frame by done. split; [done|]. apply decode_frame; [done|].
    by apply payload_ok_spec.
  - by rewrite encode_packet_invalid.
Qed.

(** A header that announces an empty or an oversized payload stops the
    connection: the frames before it are decoded, nothing after it is. *)
Theorem bad_header_refused (max n : N) (ps : list bytes) (rest : bytes) :
  Forall (fun p => payload_ok p = true /\ bsize p <= max) ps ->
  n < 2 ^ 32 -> n = 0 \/ max < n ->
  decode max (concat (map frame ps) ++ net_bytes n ++ rest) =
    (true, map mkPacket ps, net_bytes n ++ rest).
Proof.
  intros Hp Hn Hbad. rewrite decode_app, decode_frames_stream by done. cbn [app].
  rewrite decode_unfold. change (take 4 (net_bytes n ++ rest)) with (net_bytes n).
  rewrite net_value_bytes by done. rewrite bsize_app. change (bsize (net_bytes n)) with 4.
  replace (4 + bsize rest <? kPacketHeaderSize) with false by (unfold kPacketHeaderSize; lia).
  cbv zeta. replace ((n =? 0) || (max <? n)) with true by lia. simpl. by rewrite app_nil_r.
Qed.

Lemma bad_header_refused_witness :
  decode 100 (concat (map frame [bs "ping"]) ++ net_bytes 101 ++ bs "x") =
    (true, [mkPacket "ping"], net_bytes 101 ++ bs "x").
Proof.
  apply (bad_header_refused 100 101 [bs "ping"]); [|reflexivity|by right].
  constructor; [split; [reflexivity|discriminate]|constructor].
Defined.

(** When the peer sends complete frames and closes, and both are seen in
    the same wake-up, the frames are dropped: the call reports [Closed] with
    no packet and leaves them in the buffer. *)
Theorem frames_before_close_dropped (max : N) (ps : list bytes) (buf : bytes) :
  ps <> [] ->
  recv_packets_et max [Received (concat (map frame ps)); Received []] buf =
    Some (mkRecvPacketResult RecvClosed [] 0, buf ++ concat (map frame ps), []).
Proof. destruct ps as [|p ps]; [done|]. reflexivity. Qed.

Lemma frames_before_close_dropped_witness :
  recv_packets_et kMaxPacketPayloadSize
    [Received (concat (map frame [bs "logout"])); Received []] [] =
    Some (mkRecvPacketResult RecvClosed [] 0, concat (map frame [bs "logout"]), []).
Proof. apply (frames_before_close_dropped _ [bs "logout"] []). discriminate. Defined.

(** The receive call returns as soon as the kernel reports an end of stream
    or an error other than an interruption, and only then; the decoding loop
    adds no way to diverge. *)
Theorem recv_returns (max : N) (socket : list recv_answer) (buf : bytes) :
  is_Some (recv_packets_et max socket buf) <->
  Exists (fun a => match a with Received [] => True | RecvFailed e => e <> EINTR | _ => False end)
    socket.
Proof.
  rewrite <- (recv_drain_returns socket buf). unfold recv_packets_et.
  destruct (recv_drain socket buf) as [[[b s] [r|[]]]|]; simpl.
  - by split; intros _.
  - destruct (decode max b) as [[e ps] r]. by split; intros _.
  - by split; intros [? ?].
Qed.

(** [send_all] returns exactly when the kernel fails with something else
    than an interruption, or takes as many bytes as there are; it then reports
    at most the size of the data, and success exactly when all of it was taken,
    as long as the kernel never claims more bytes than it was given. *)
Theorem send_all_sound (socket : list send_answer) (data : bytes) :
  sends_within socket (bsize data) 0 = true ->
  (is_Some (send_all socket data) <->
     Exists (fun a => send_stops a = true) socket \/ bsize data <= bytes_offered socket) /\
  forall r rest, send_all socket data = Some (r, rest) ->
    send_sent r <= bsize data /\ (send_status r = SendOk <-> send_sent r = bsize data).
Proof.
  intros Hw. split; [by apply send_loop_returns|].
  intros r rest Hr. by destruct (send_loop_bounds _ _ _ _ _ Hw (N.le_0_l _) Hr) as [[_ ?] ?].
Qed.

Definition sample_sends : list send_answer :=
  [mkSendAnswer 3 0; mkSendAnswer (-1) EINTR; mkSendAnswer 1 0; mkSendAnswer (-1) EAGAIN].

Lemma send_all_sound_witness :
  (is_Some (send_all sample_sends "ping!") <->
     Exists (fun a => send_stops a = true) sample_sends \/
     bsize "ping!" <= bytes_offered sample_sends) /\
  forall r rest, send_all sample_sends "ping!" = Some (r, rest) ->
    send_sent r <= bsize "ping!" /\ (send_status r = SendOk <-> send_sent r = bsize "ping!").
Proof. apply (send_all_sound sample_sends "ping!"). reflexivity. Defined.
