(* ===== verification/Wire.v ===== *)
(** * Wire: commands and responses inside frames

    What the network layer and the protocol layer guarantee together: a
    request line travels as the payload of a frame ([TcpServer] hands each
    decoded payload to [ChatService::handle_client_line], and encodes each
    response with [encode_packet]). *)

From S2P Require Import Prelude.
From S2P Require Import CStd.
From S2P Require Import Json.
From S2P Require Import Message.
From S2P Require Import PacketCodec.
Open Scope N_scope.

(** ** Lemmas: sizes *)
Lemma bsize_cons (c : ascii) (s : bytes) : bsize (c :: s) = 1 + bsize s.
Proof. unfold bsize. simpl. lia. Qed.

Ltac sizes := repeat (rewrite bsize_cons || rewrite bsize_app); change (bsize []) with 0; lia.

Lemma dm_request_size (to body : bytes) :
  bsize (encode_request (ReqDm to body)) = 31 + bsize (escape_json to) + bsize (escape_json body).
Proof.
  unfold encode_request. rewrite render_object_text by done.
  unfold render_tail, render_field, json_string_field, json_name. simpl.
  sizes.
Qed.

Lemma dm_response_size (from body : bytes) :
  bsize (format_direct_message from body) =
    33 + bsize (escape_json from) + bsize (escape_json body).
Proof.
  unfold format_direct_message, finish_json, json_type, json_string_field, json_name. simpl.
  sizes.
Qed.

Lemma escape_plain_replicate (n : nat) (c : ascii) :
  escape_char c = [c] -> escape_json (replicate n c) = replicate n c.
Proof.
  intros Hc. induction n as [|n IH]; [done|]. cbn [replicate].
  by rewrite escape_json_cons, Hc, IH.
Qed.

(** ** Theorems *)

(** C21: A client's requests reach the service: requests framed and sent over a
    connection, in chunks of any shape over any number of wake-ups, are
    delivered as payloads that parse to exactly the commands they denote, in
    order and with nothing left over. *)
Theorem requests_over_the_wire (rs : list Request) (wakeups : list (list recv_answer))
    (chunks : list bytes) :
  Forall (fun r => request_ok r = true /\ bsize (encode_request r) <= kMaxPacketPayloadSize) rs ->
  map drained wakeups = map Some chunks ->
  concat chunks = concat (map (fun r => frame (encode_request r)) rs) ->
  exists packets,
    recv_calls kMaxPacketPayloadSize wakeups [] = Some (packets, []) /\
    map (fun p => parse_client_command (payload p) default_command []) packets =
      map (fun r => (true, command_of_request r, [])) rs.
Proof.
  intros Hr Hw Hc. exists (map mkPacket (map encode_request rs)). split.
  - rewrite (recv_calls_decode _ wakeups chunks []) by (done || by left). cbn [app].
    rewrite Hc, <- (map_map encode_request frame), decode_frames_stream; [done|].
    apply Forall_map. eapply Forall_impl; [exact Hr|]. intros r [_ Hs]. split; [|done].
    apply payload_ok_spec. split; [|done]. unfold encode_request.
    rewrite render_object_text by apply request_type_plain. done.
  - rewrite !map_map. apply map_ext_in. intros r Hin%list_elem_of_In.
    rewrite Forall_forall in Hr. destruct (Hr r Hin) as [Hok _].
    by apply parse_request_line; [|apply trim_render_object|].
Qed.

Lemma requests_over_the_wire_witness :
  exists packets,
    recv_calls kMaxPacketPayloadSize
      [[Received (take 9 (frame (encode_request ReqPing))); RecvFailed EAGAIN];
       [Received (drop 9 (frame (encode_request ReqPing)) ++
                  frame (encode_request (ReqDm "bob" "hi"))); RecvFailed EAGAIN]] [] =
      Some (packets, []) /\
    map (fun p => parse_client_command (payload p) default_command []) packets =
      map (fun r => (true, command_of_request r, [])) [ReqPing; ReqDm "bob" "hi"].
Proof.
  apply (requests_over_the_wire _ _
    [take 9 (frame (encode_request ReqPing));
     drop 9 (frame (encode_request ReqPing)) ++ frame (encode_request (ReqDm "bob" "hi"))]);
    [|reflexivity|reflexivity].
  constructor; [split; [reflexivity|vm_compute; discriminate]|].
  constructor; [split; [reflexivity|vm_compute; discriminate]|constructor].
Defined.

(** An accepted request can produce a response that cannot be sent: a
    direct message whose request fills its frame is one or two bytes too long
    as a response unless the sender's name is shorter than the receiver's, and
    [encode_packet] throws on it. *)
Theorem direct_message_outgrows_frame (from to body : bytes) :
  bsize (encode_request (ReqDm to body)) = kMaxPacketPayloadSize ->
  bsize (escape_json to) <= bsize (escape_json from) + 1 ->
  payload_ok (encode_request (ReqDm to body)) = true /\
  encode_packet (format_direct_message from body) = Throw "payload size is invalid".
Proof.
  intros Hs Hn. pose proof (dm_response_size from body) as Hresp.
  split.
  - apply payload_ok_spec. split; [|lia]. intros E. by rewrite E in Hs.
  - rewrite dm_request_size in Hs. apply encode_packet_invalid.
    destruct (payload_ok (format_direct_message from body)) eqn:E; [|done].
    apply payload_ok_spec in E as [_ E]. lia.
Qed.

Lemma direct_message_outgrows_frame_witness :
  payload_ok (encode_request (ReqDm "bob" (replicate (N.to_nat 1048542) "x"%char))) = true /\
  encode_packet (format_direct_message "alice" (replicate (N.to_nat 1048542) "x"%char)) =
    Throw "payload size is invalid".
Proof.
  apply (direct_message_outgrows_frame "alice" "bob").
  - rewrite dm_request_size, escape_plain_replicate by reflexivity.
    unfold bsize at 2. rewrite length_replicate, N2Nat.id. reflexivity.
  - vm_compute. discriminate.
Defined.
