(* ===== verification/SessionManager.v ===== *)
(** * SessionManager: who is online, on which connection

    [src/src/session/session_manager.cpp].  Every public method holds the
    mutex for its whole body, so each is one atomic operation on the state. *)

From S2P Require Import Prelude.
Open Scope N_scope.

(** ** State *)

Record Session : Type := mkSession {
  session_user_id : N;
  session_connection_id : N;
  session_username : bytes;
}.

#[export] Instance Session_eq_dec : EqDecision Session.
Proof. solve_decision. Defined.

Record SessionManager : Type := mkSessionManager {
  sessions_ : gmap N Session;
  users_by_connection_ : gmap N N;
  users_by_username_ : gmap bytes N;
  group_members_ : gmap N (gset N);
}.

Definition no_sessions : SessionManager := mkSessionManager ∅ ∅ ∅ ∅.

(** Assignments to the members. *)
Definition on_sessions f m :=
  mkSessionManager (f (sessions_ m)) (users_by_connection_ m) (users_by_username_ m)
    (group_members_ m).
Definition on_connections f m :=
  mkSessionManager (sessions_ m) (f (users_by_connection_ m)) (users_by_username_ m)
    (group_members_ m).
Definition on_usernames f m :=
  mkSessionManager (sessions_ m) (users_by_connection_ m) (f (users_by_username_ m))
    (group_members_ m).
Definition on_groups f m :=
  mkSessionManager (sessions_ m) (users_by_connection_ m) (users_by_username_ m)
    (f (group_members_ m)).

(** ** Operations *)

(** The first half of [bind]: drop the index entries of the user's old session. *)
Definition drop_user_indexes (user_id : N) (m : SessionManager) : SessionManager :=
  match sessions_ m !! user_id with
  | Some old =>
      on_usernames (delete (session_username old))
        (on_connections (delete (session_connection_id old)) m)
  | None => m
  end.

(** The second half: evict whoever the connection was bound to. *)
Definition evict_connection (connection_id : N) (m : SessionManager) : SessionManager :=
  match users_by_connection_ m !! connection_id with
  | Some old_user =>
      on_sessions (delete old_user)
        match sessions_ m !! old_user with
        | Some old => on_usernames (delete (session_username old)) m
        | None => m
        end
  | None => m
  end.

Definition bind (session : Session) (m : SessionManager) : SessionManager :=
  let m := drop_user_indexes (session_user_id session) m in
  let m := evict_connection (session_connection_id session) m in
  let m := on_connections (insert (session_connection_id session) (session_user_id session)) m in
  let m := on_usernames (insert (session_username session) (session_user_id session)) m in
  on_sessions (insert (session_user_id session) session) m.

Definition unbind (user_id : N) (m : SessionManager) : SessionManager :=
  on_sessions (delete user_id) (drop_user_indexes user_id m).

Definition unbind_connection (connection_id : N) (m : SessionManager) : SessionManager :=
  match users_by_connection_ m !! connection_id with
  | None => m
  | Some user_id =>
      let m :=
        match sessions_ m !! user_id with
        | Some old => on_usernames (delete (session_username old)) m
        | None => m
        end in
      on_connections (delete connection_id) (on_sessions (delete user_id) m)
  end.

Definition find (user_id : N) (m : SessionManager) : option Session := sessions_ m !! user_id.

Definition find_by_connection (connection_id : N) (m : SessionManager) : option Session :=
  match users_by_connection_ m !! connection_id with
  | None => None
  | Some user_id => sessions_ m !! user_id
  end.

Definition find_by_username (username : bytes) (m : SessionManager) : option Session :=
  match users_by_username_ m !! username with
  | None => None
  | Some user_id => sessions_ m !! user_id
  end.

Definition is_username_online (username : bytes) (m : SessionManager) : bool :=
  match find_by_username username m with Some _ => true | None => false end.

(** [group_members_[group_id]] creates the set on first use. *)
Definition join_group (group_id user_id : N) (m : SessionManager) : SessionManager :=
  on_groups (fun g => <[group_id := {[user_id]} ∪ default ∅ (g !! group_id)]> g) m.

Definition leave_group (group_id user_id : N) (m : SessionManager) : SessionManager :=
  match group_members_ m !! group_id with
  | None => m
  | Some members =>
      let members := members ∖ {[user_id]} in
      if bool_decide (members = ∅) then on_groups (delete group_id) m
      else on_groups (insert group_id members) m
  end.

(** The order of an [unordered_set] is unspecified; only membership of the
    list is meaningful. *)
Definition get_group_members (group_id : N) (m : SessionManager) : list N :=
  match group_members_ m !! group_id with
  | None => []
  | Some members => elements members
  end.

Definition is_group_member (group_id user_id : N) (m : SessionManager) : bool :=
  match group_members_ m !! group_id with
  | None => false
  | Some members => bool_decide (user_id ∈ members)
  end.

(** ** Histories: any sequence of the mutating methods *)

Inductive session_op : Type :=
  | OpBind (session : Session)
  | OpUnbind (user_id : N)
  | OpUnbindConnection (connection_id : N)
  | OpJoin (group_id user_id : N)
  | OpLeave (group_id user_id : N).

Definition run_op (op : session_op) (m : SessionManager) : SessionManager :=
  match op with
  | OpBind s => bind s m
  | OpUnbind u => unbind u m
  | OpUnbindConnection c => unbind_connection c m
  | OpJoin g u => join_group g u m
  | OpLeave g u => leave_group g u m
  end.

Definition run_ops (ops : list session_op) (m : SessionManager) : SessionManager :=
  foldl (fun m op => run_op op m) m ops.

(** ** Invariants *)

(** The user index and the connection index are inverse to each other. *)
Record linked (m : SessionManager) : Prop := {
  linked_session u s :
    sessions_ m !! u = Some s ->
    session_user_id s = u /\ users_by_connection_ m !! session_connection_id s = Some u;
  linked_connection c u :
    users_by_connection_ m !! c = Some u ->
    exists s, sessions_ m !! u = Some s /\ session_connection_id s = c;
}.

(** The same for the user name index. *)
Record named (m : SessionManager) : Prop := {
  named_session u s :
    sessions_ m !! u = Some s -> users_by_username_ m !! session_username s = Some u;
  named_username n u :
    users_by_username_ m !! n = Some u ->
    exists s, sessions_ m !! u = Some s /\ session_username s = n;
}.

(** No group is stored without members. *)
Definition groups_inhabited (m : SessionManager) : Prop :=
  inhabited_table (group_members_ m).

(** The name of the new session is not in use by another user who keeps his
    session. *)
Definition name_free (session : Session) (m : SessionManager) : Prop :=
  forall u s, sessions_ m !! u = Some s -> session_username s = session_username session ->
  u = session_user_id session \/ session_connection_id s = session_connection_id session.

(** ** Specification: one table, searched by content

    [Online] is the user table alone; the indexes are an optimisation. *)

Abbreviation Online := (gmap N Session).

Definition spec_drop_connection (c : N) (o : Online) : Online :=
  filter (fun us => session_connection_id us.2 <> c) o.

Definition spec_op (op : session_op) (o : Online) : Online :=
  match op with
  | OpBind s =>
      <[session_user_id s := s]> (spec_drop_connection (session_connection_id s) o)
  | OpUnbind u => delete u o
  | OpUnbindConnection c => spec_drop_connection c o
  | OpJoin _ _ | OpLeave _ _ => o
  end.

Definition spec_ops (ops : list session_op) (o : Online) : Online :=
  foldl (fun o op => spec_op op o) o ops.

(** ** Lemmas: the connection index *)

Create HintDb sessions discriminated.

Lemma linked_no_sessions : linked no_sessions.
Proof. split; intros ? ?; unfold no_sessions; simpl; by rewrite lookup_empty. Qed.

Lemma named_no_sessions : named no_sessions.
Proof. split; intros ? ?; unfold no_sessions; simpl; by rewrite lookup_empty. Qed.

(** Two sessions on one connection are the same session. *)
Lemma linked_connection_inj (m : SessionManager) u v s t :
  linked m -> sessions_ m !! u = Some s -> sessions_ m !! v = Some t ->
  session_connection_id s = session_connection_id t -> u = v.
Proof.
  intros L Hs Ht E. apply (linked_session m L) in Hs as [_ Hs], Ht as [_ Ht].
  rewrite E in Hs. by simplify_eq.
Qed.

Lemma named_username_inj (m : SessionManager) u v s t :
  named m -> sessions_ m !! u = Some s -> sessions_ m !! v = Some t ->
  session_username s = session_username t -> u = v.
Proof.
  intros L Hs Ht E. apply (named_session m L) in Hs, Ht. rewrite E in Hs. by simplify_eq.
Qed.

(** [find_by_connection] and [find_by_username] search the table. *)
Lemma find_by_connection_spec (m : SessionManager) (c : N) (s : Session) :
  linked m ->
  find_by_connection c m = Some s <->
  sessions_ m !! session_user_id s = Some s /\ session_connection_id s = c.
Proof.
  intros L. unfold find_by_connection. split.
  - destruct (users_by_connection_ m !! c) as [u|] eqn:E; [|discriminate]. intros Hs.
    apply (linked_connection m L) in E as (t & Ht & Hc).
    rewrite Hs in Ht. injection Ht as <-. split; [|done].
    by destruct (linked_session m L _ _ Hs) as [-> _].
  - intros [Hs <-]. by destruct (linked_session m L _ _ Hs) as [_ ->].
Qed.

Lemma find_by_username_spec (m : SessionManager) (n : bytes) (s : Session) :
  linked m -> named m ->
  find_by_username n m = Some s <->
  sessions_ m !! session_user_id s = Some s /\ session_username s = n.
Proof.
  intros L M. unfold find_by_username. split.
  - destruct (users_by_username_ m !! n) as [u|] eqn:E; [|discriminate]. intros Hs.
    apply (named_username m M) in E as (t & Ht & Hc).
    rewrite Hs in Ht. injection Ht as <-. split; [|done].
    by destruct (linked_session m L _ _ Hs) as [-> _].
  - intros [Hs <-]. by rewrite (named_session m M _ _ Hs).
Qed.

(** What the two halves of [bind] leave in each table. *)
Lemma sessions_drop_user_indexes u m : sessions_ (drop_user_indexes u m) = sessions_ m.
Proof. unfold drop_user_indexes. by destruct (sessions_ m !! u). Qed.

Lemma groups_drop_user_indexes u m : group_members_ (drop_user_indexes u m) = group_members_ m.
Proof. unfold drop_user_indexes. by destruct (sessions_ m !! u). Qed.

Lemma connections_drop_user_indexes u m c :
  linked m ->
  users_by_connection_ (drop_user_indexes u m) !! c =
    match users_by_connection_ m !! c with
    | Some v => if bool_decide (v = u) then None else Some v
    | None => None
    end.
Proof.
  intros L. unfold drop_user_indexes. destruct (sessions_ m !! u) as [s|] eqn:E; simpl.
  - rewrite lookup_delete. case_decide as Hc.
    + subst. apply (linked_session m L) in E as [_ ->]. by rewrite bool_decide_eq_true_2.
    + destruct (users_by_connection_ m !! c) as [v|] eqn:Ec; [|done].
      rewrite bool_decide_eq_false_2; [done|]. intros ->.
      apply (linked_connection m L) in Ec as (t & Ht & <-). by simplify_eq.
  - destruct (users_by_connection_ m !! c) as [v|] eqn:Ec; [|done].
    rewrite bool_decide_eq_false_2; [done|]. intros ->.
    apply (linked_connection m L) in Ec as (t & Ht & <-). by simplify_eq.
Qed.

Lemma usernames_drop_user_indexes u m n :
  named m ->
  users_by_username_ (drop_user_indexes u m) !! n =
    match users_by_username_ m !! n with
    | Some v => if bool_decide (v = u) then None else Some v
    | None => None
    end.
Proof.
  intros L. unfold drop_user_indexes. destruct (sessions_ m !! u) as [s|] eqn:E; simpl.
  - rewrite lookup_delete. case_decide as Hc.
    + subst. apply (named_session m L) in E as ->. by rewrite bool_decide_eq_true_2.
    + destruct (users_by_username_ m !! n) as [v|] eqn:Ec; [|done].
      rewrite bool_decide_eq_false_2; [done|]. intros ->.
      apply (named_username m L) in Ec as (t & Ht & <-). by simplify_eq.
  - destruct (users_by_username_ m !! n) as [v|] eqn:Ec; [|done].
    rewrite bool_decide_eq_false_2; [done|]. intros ->.
    apply (named_username m L) in Ec as (t & Ht & <-). by simplify_eq.
Qed.

(** The user table after [bind], field by field. *)
Lemma sessions_bind (s : Session) (m : SessionManager) (u : N) :
  linked m ->
  sessions_ (bind s m) !! u =
    if bool_decide (u = session_user_id s) then Some s
    else match sessions_ m !! u with
         | Some t => if bool_decide (session_connection_id t = session_connection_id s)
                     then None else Some t
         | None => None
         end.
Proof.
  intros L. unfold bind. simpl.
  destruct (decide (u = session_user_id s)) as [->|Hu].
  { rewrite bool_decide_eq_true_2 by done. by rewrite lookup_insert_eq. }
  rewrite bool_decide_eq_false_2 by done. rewrite lookup_insert_ne by done. simpl.
  unfold evict_connection. rewrite connections_drop_user_indexes by done.
  rewrite !sessions_drop_user_indexes.
  destruct (users_by_connection_ m !! session_connection_id s) as [v|] eqn:Ev.
  - case_bool_decide as Hv.
    + subst. rewrite sessions_drop_user_indexes.
      destruct (sessions_ m !! u) as [t|] eqn:Et; [|done].
      rewrite bool_decide_eq_false_2; [done|]. intros Ec.
      apply (linked_session m L) in Et as [_ Et]. rewrite Ec in Et. by simplify_eq.
    + assert (Hd : sessions_ match sessions_ m !! v with
         | Some old => on_usernames (delete (session_username old))
                         (drop_user_indexes (session_user_id s) m)
         | None => drop_user_indexes (session_user_id s) m end = sessions_ m).
      { destruct (sessions_ m !! v); simpl; apply sessions_drop_user_indexes. }
      simpl. rewrite Hd, lookup_delete. case_decide as Huv.
      * subst. apply (linked_connection m L) in Ev as (t & -> & Hc).
        by rewrite bool_decide_eq_true_2.
      * destruct (sessions_ m !! u) as [t|] eqn:Et; [|done].
        rewrite bool_decide_eq_false_2; [done|]. intros Ec.
        apply (linked_session m L) in Et as [_ Et]. rewrite Ec in Et. by simplify_eq.
  - rewrite sessions_drop_user_indexes. destruct (sessions_ m !! u) as [t|] eqn:Et; [|done].
    rewrite bool_decide_eq_false_2; [done|]. intros Ec.
    apply (linked_session m L) in Et as [_ Et]. rewrite Ec in Et. by simplify_eq.
Qed.

Lemma connections_evict c m : users_by_connection_ (evict_connection c m) = users_by_connection_ m.
Proof.
  unfold evict_connection. destruct (users_by_connection_ m !! c) as [v|]; [|done].
  by destruct (sessions_ m !! v).
Qed.

Lemma groups_evict c m : group_members_ (evict_connection c m) = group_members_ m.
Proof.
  unfold evict_connection. destruct (users_by_connection_ m !! c) as [v|]; [|done].
  by destruct (sessions_ m !! v).
Qed.

Lemma groups_bind s m : group_members_ (bind s m) = group_members_ m.
Proof. unfold bind. simpl. by rewrite groups_evict, groups_drop_user_indexes. Qed.

(** The connection index after [bind]. *)
Lemma connections_bind (s : Session) (m : SessionManager) (c : N) :
  linked m ->
  users_by_connection_ (bind s m) !! c =
    if bool_decide (c = session_connection_id s) then Some (session_user_id s)
    else match users_by_connection_ m !! c with
         | Some v => if bool_decide (v = session_user_id s) then None else Some v
         | None => None
         end.
Proof.
  intros L. unfold bind. simpl. rewrite lookup_insert, connections_evict.
  case_decide as Hc; case_bool_decide; try congruence. by apply connections_drop_user_indexes.
Qed.

(** The user name index after [bind]. *)
Lemma usernames_bind (s : Session) (m : SessionManager) (n : bytes) :
  linked m -> named m ->
  users_by_username_ (bind s m) !! n =
    if bool_decide (n = session_username s) then Some (session_user_id s)
    else match users_by_username_ m !! n with
         | Some v =>
             if bool_decide (v = session_user_id s) ||
                bool_decide (users_by_connection_ m !! session_connection_id s = Some v)
             then None else Some v
         | None => None
         end.
Proof.
  intros L M. unfold bind. simpl. rewrite lookup_insert.
  case_decide as Hn; case_bool_decide; try congruence. clear Hn.
  unfold evict_connection. rewrite connections_drop_user_indexes, sessions_drop_user_indexes by done.
  destruct (users_by_connection_ m !! session_connection_id s) as [v|] eqn:Ev.
  - destruct (decide (v = session_user_id s)) as [->|Hv].
    + rewrite bool_decide_eq_true_2 by done. rewrite usernames_drop_user_indexes by done.
      destruct (users_by_username_ m !! n) as [w|]; [|done].
      case_bool_decide as Hw; [done|]. simpl. rewrite bool_decide_eq_false_2; [done|]. congruence.
    + rewrite (bool_decide_eq_false_2 (v = _)) by done.
      destruct (linked_connection m L _ _ Ev) as (t & Ht & _). rewrite Ht. simpl.
      rewrite lookup_delete. case_decide as Hnt.
      * subst. rewrite (named_session m M _ _ Ht).
        rewrite (bool_decide_eq_true_2 (Some v = Some v)) by done. by rewrite orb_true_r.
      * rewrite usernames_drop_user_indexes by done.
        destruct (users_by_username_ m !! n) as [w|] eqn:Ew; [|done].
        rewrite (bool_decide_eq_false_2 (Some v = Some w)); [by rewrite orb_false_r|].
        intros [= <-]. destruct (named_username m M _ _ Ew) as (t' & Ht' & ?). congruence.
  - rewrite usernames_drop_user_indexes by done.
    destruct (users_by_username_ m !! n) as [w|]; [|done]. by rewrite orb_false_r.
Qed.

Lemma linked_bind (s : Session) (m : SessionManager) : linked m -> linked (bind s m).
Proof.
  intros L. split.
  - intros u t. rewrite sessions_bind, connections_bind by done. case_bool_decide as Hu.
    + intros [= <-]. subst u. by rewrite bool_decide_eq_true_2.
    + destruct (sessions_ m !! u) as [t'|] eqn:Et; [|discriminate].
      case_bool_decide as Hc; [discriminate|]. intros [= ->].
      rewrite bool_decide_eq_false_2 by done.
      destruct (linked_session m L _ _ Et) as [Hs Hk]. rewrite Hk.
      by rewrite bool_decide_eq_false_2.
  - intros c u. rewrite connections_bind by done. setoid_rewrite sessions_bind; [|done].
    case_bool_decide as Hc.
    + intros [= <-]. exists s. subst. by rewrite bool_decide_eq_true_2.
    + destruct (users_by_connection_ m !! c) as [v|] eqn:Ev; [|discriminate].
      case_bool_decide as Hv; [discriminate|]. intros [= ->].
      destruct (linked_connection m L _ _ Ev) as (t & Ht & Hk). exists t.
      rewrite bool_decide_eq_false_2, Ht, bool_decide_eq_false_2 by congruence. done.
Qed.

Lemma named_bind (s : Session) (m : SessionManager) :
  linked m -> named m -> name_free s m -> named (bind s m).
Proof.
  intros L M F. split.
  - intros u t. rewrite sessions_bind, usernames_bind by done. case_bool_decide as Hu.
    + intros [= <-]. subst u. by rewrite bool_decide_eq_true_2.
    + destruct (sessions_ m !! u) as [t'|] eqn:Et; [|discriminate].
      case_bool_decide as Hc; [discriminate|]. intros [= ->].
      rewrite bool_decide_eq_false_2 by (intros Hn; destruct (F _ _ Et Hn); done).
      rewrite (named_session m M _ _ Et), bool_decide_eq_false_2, bool_decide_eq_false_2; try done.
      intros Ek. destruct (linked_connection m L _ _ Ek) as (t2 & Ht2 & ?). congruence.
  - intros n u. rewrite usernames_bind by done. setoid_rewrite sessions_bind; [|done].
    case_bool_decide as Hn.
    + intros [= <-]. exists s. subst. by rewrite bool_decide_eq_true_2.
    + destruct (users_by_username_ m !! n) as [v|] eqn:Ev; [|discriminate].
      case_if; [discriminate|]. intros [= ->]. apply orb_false_elim in E as [Hu Hk].
      apply bool_decide_eq_false in Hu, Hk.
      destruct (named_username m M _ _ Ev) as (t & Ht & <-). exists t.
      rewrite bool_decide_eq_false_2, Ht, bool_decide_eq_false_2; try done.
      intros Ek. apply Hk. rewrite <- Ek. by destruct (linked_session m L _ _ Ht).
Qed.

(** ** Lemmas: the removals *)
Lemma linked_unbind (u : N) (m : SessionManager) : linked m -> linked (unbind u m).
Proof.
  intros L. unfold unbind. split.
  - intros v t. simpl. rewrite connections_drop_user_indexes, sessions_drop_user_indexes by done.
    rewrite lookup_delete. case_decide; [discriminate|]. intros Ht.
    destruct (linked_session m L _ _ Ht) as [<- ->]. by rewrite bool_decide_eq_false_2.
  - intros c v. simpl. rewrite connections_drop_user_indexes, sessions_drop_user_indexes by done.
    destruct (users_by_connection_ m !! c) as [w|] eqn:Ew; [|discriminate].
    case_bool_decide; [discriminate|]. intros [= ->].
    destruct (linked_connection m L _ _ Ew) as (t & Ht & Hk). exists t.
    by rewrite lookup_delete_ne.
Qed.

Lemma named_unbind (u : N) (m : SessionManager) : named m -> named (unbind u m).
Proof.
  intros M. unfold unbind. split.
  - intros v t. simpl. rewrite usernames_drop_user_indexes, sessions_drop_user_indexes by done.
    rewrite lookup_delete. case_decide; [discriminate|]. intros Ht.
    rewrite (named_session m M _ _ Ht). by rewrite bool_decide_eq_false_2.
  - intros n v. simpl. rewrite usernames_drop_user_indexes, sessions_drop_user_indexes by done.
    destruct (users_by_username_ m !! n) as [w|] eqn:Ew; [|discriminate].
    case_bool_decide; [discriminate|]. intros [= ->].
    destruct (named_username m M _ _ Ew) as (t & Ht & Hk). exists t.
    by rewrite lookup_delete_ne.
Qed.

(** Closing a connection is logging its user out. *)
Lemma unbind_connection_unbind (c u : N) (m : SessionManager) :
  linked m -> users_by_connection_ m !! c = Some u -> unbind_connection c m = unbind u m.
Proof.
  intros L Hc. unfold unbind_connection, unbind, drop_user_indexes. rewrite Hc.
  destruct (linked_connection m L _ _ Hc) as (s & -> & <-). done.
Qed.

Lemma unbind_connection_none (c : N) (m : SessionManager) :
  users_by_connection_ m !! c = None -> unbind_connection c m = m.
Proof. intros H. unfold unbind_connection. by rewrite H. Qed.

Lemma linked_unbind_connection (c : N) (m : SessionManager) :
  linked m -> linked (unbind_connection c m).
Proof.
  intros L. destruct (users_by_connection_ m !! c) as [u|] eqn:E.
  - rewrite (unbind_connection_unbind c u) by done. by apply linked_unbind.
  - by rewrite unbind_connection_none.
Qed.

Lemma named_unbind_connection (c : N) (m : SessionManager) :
  linked m -> named m -> named (unbind_connection c m).
Proof.
  intros L M. destruct (users_by_connection_ m !! c) as [u|] eqn:E.
  - rewrite (unbind_connection_unbind c u) by done. by apply named_unbind.
  - by rewrite unbind_connection_none.
Qed.

Lemma sessions_unbind u m : sessions_ (unbind u m) = delete u (sessions_ m).
Proof. unfold unbind. simpl. by rewrite sessions_drop_user_indexes. Qed.

(** The table after a connection closes: the sessions on other connections. *)
Lemma sessions_unbind_connection (c : N) (m : SessionManager) :
  linked m -> sessions_ (unbind_connection c m) = spec_drop_connection c (sessions_ m).
Proof.
  intros L. apply map_eq. intros u. unfold spec_drop_connection. rewrite map_lookup_filter.
  destruct (users_by_connection_ m !! c) as [v|] eqn:E.
  - rewrite (unbind_connection_unbind c v), sessions_unbind, lookup_delete by done.
    destruct (linked_connection m L _ _ E) as (s & Hs & Hc).
    case_decide as Hv.
    + subst. rewrite Hs. simpl. by case_guard.
    + destruct (sessions_ m !! u) as [t|] eqn:Et; simpl; [|done].
      case_guard as Hg; simpl; [done|].
      destruct Hv. by eapply linked_connection_inj; [| | |subst].
  - rewrite unbind_connection_none by done.
    destruct (sessions_ m !! u) as [t|] eqn:Et; simpl; [|done].
    case_guard as Hg; simpl; [done|].
    apply (linked_session m L) in Et as [_ Et]. by simplify_eq.
Qed.

Lemma sessions_bind_spec (s : Session) (m : SessionManager) :
  linked m -> sessions_ (bind s m) = spec_op (OpBind s) (sessions_ m).
Proof.
  intros L. apply map_eq. intros u. rewrite sessions_bind by done. simpl.
  rewrite lookup_insert. case_decide; case_bool_decide; try congruence.
  unfold spec_drop_connection. rewrite map_lookup_filter.
  destruct (sessions_ m !! u) as [t|]; simpl; [|done].
  case_bool_decide; case_guard; simpl in *; done.
Qed.

(** ** Lemmas: groups *)
Lemma groups_join g u m : group_members_ (join_group g u m) = table_add (group_members_ m) g u.
Proof. done. Qed.

Lemma groups_leave g u m :
  group_members_ (leave_group g u m) =
    match group_members_ m !! g with
    | None => group_members_ m
    | Some members => table_store (group_members_ m) g (members ∖ {[u]})
    end.
Proof.
  unfold leave_group, table_store. destruct (group_members_ m !! g); [|done].
  by case_bool_decide.
Qed.

Lemma groups_inhabited_leave g u m : groups_inhabited m -> groups_inhabited (leave_group g u m).
Proof.
  unfold groups_inhabited. rewrite groups_leave.
  destruct (group_members_ m !! g); [apply inhabited_table_store|done].
Qed.

Lemma groups_unbind_connection c m : group_members_ (unbind_connection c m) = group_members_ m.
Proof.
  unfold unbind_connection. destruct (users_by_connection_ m !! c) as [u|]; [|done].
  by destruct (sessions_ m !! u).
Qed.

Lemma groups_unbind u m : group_members_ (unbind u m) = group_members_ m.
Proof. unfold unbind. simpl. apply groups_drop_user_indexes. Qed.

Lemma sessions_join g u m : sessions_ (join_group g u m) = sessions_ m.
Proof. done. Qed.

Lemma leave_group_tables g u m :
  sessions_ (leave_group g u m) = sessions_ m /\
  users_by_connection_ (leave_group g u m) = users_by_connection_ m /\
  users_by_username_ (leave_group g u m) = users_by_username_ m.
Proof.
  unfold leave_group. destruct (group_members_ m !! g); [|done]. by case_bool_decide.
Qed.

Lemma linked_ext m m' :
  sessions_ m' = sessions_ m -> users_by_connection_ m' = users_by_connection_ m ->
  linked m -> linked m'.
Proof. intros E1 E2 [H1 H2]. split; rewrite E1, E2; done. Qed.

Lemma named_ext m m' :
  sessions_ m' = sessions_ m -> users_by_username_ m' = users_by_username_ m ->
  named m -> named m'.
Proof. intros E1 E2 [H1 H2]. split; rewrite E1, E2; done. Qed.

Lemma linked_join g u m : linked m -> linked (join_group g u m).
Proof. by apply linked_ext. Qed.

Lemma linked_leave g u m : linked m -> linked (leave_group g u m).
Proof. destruct (leave_group_tables g u m) as (E1 & E2 & _). by apply linked_ext. Qed.

Lemma named_join g u m : named m -> named (join_group g u m).
Proof. by apply named_ext. Qed.

Lemma named_leave g u m : named m -> named (leave_group g u m).
Proof. destruct (leave_group_tables g u m) as (E1 & _ & E3). by apply named_ext. Qed.

#[export] Hint Resolve linked_bind linked_unbind linked_unbind_connection linked_join
  linked_leave named_unbind named_unbind_connection named_join named_leave : sessions.

Lemma session_member_join g u g' u' m :
  is_group_member g' u' (join_group g u m) =
    (bool_decide (g' = g /\ u' = u) || is_group_member g' u' m).
Proof. apply in_table_add. Qed.

Lemma session_member_leave g u g' u' m :
  is_group_member g' u' (leave_group g u m) =
    (negb (bool_decide (g' = g /\ u' = u)) && is_group_member g' u' m).
Proof.
  change (in_table (group_members_ (leave_group g u m)) g' u' =
    negb (bool_decide (g' = g /\ u' = u)) && in_table (group_members_ m) g' u').
  rewrite groups_leave. destruct (group_members_ m !! g) as [ms|] eqn:E.
  - by apply in_table_remove.
  - apply in_table_absent. unfold in_table. by rewrite E.
Qed.

(** ** Lemmas: histories *)
Lemma run_op_linked op m : linked m -> linked (run_op op m).
Proof. destruct op; simpl; auto with sessions. Qed.

Lemma run_op_inhabited op m : groups_inhabited m -> groups_inhabited (run_op op m).
Proof.
  destruct op as [s|u|c|g u|g u]; simpl; unfold groups_inhabited.
  - by rewrite groups_bind.
  - by rewrite groups_unbind.
  - by rewrite groups_unbind_connection.
  - apply inhabited_table_add.
  - apply groups_inhabited_leave.
Qed.

Lemma run_op_spec op m : linked m -> sessions_ (run_op op m) = spec_op op (sessions_ m).
Proof.
  intros L. destruct op as [s|u|c|g u|g u]; simpl run_op.
  - by apply sessions_bind_spec.
  - apply sessions_unbind.
  - by apply sessions_unbind_connection.
  - done.
  - by destruct (leave_group_tables g u m).
Qed.

Lemma run_ops_invariant ops m :
  linked m -> groups_inhabited m ->
  linked (run_ops ops m) /\ groups_inhabited (run_ops ops m) /\
  sessions_ (run_ops ops m) = spec_ops ops (sessions_ m).
Proof.
  unfold run_ops, spec_ops. revert m. induction ops as [|op ops IH]; intros m L G; [done|]. simpl.
  destruct (IH (run_op op m)) as (? & ? & Hs); [by apply run_op_linked|by apply run_op_inhabited|].
  split; [done|]. split; [done|]. by rewrite Hs, run_op_spec.
Qed.

(** Every [bind] of the history uses a name that nobody else keeps. *)
Fixpoint binds_free (ops : list session_op) (m : SessionManager) : Prop :=
  match ops with
  | [] => True
  | op :: ops => match op with OpBind s => name_free s m | _ => True end /\ binds_free ops (run_op op m)
  end.

Lemma run_ops_named ops m :
  linked m -> named m -> binds_free ops m -> linked (run_ops ops m) /\ named (run_ops ops m).
Proof.
  unfold run_ops. revert m. induction ops as [|op ops IH]; intros m L M F; [done|].
  destruct F as [Fop F]. simpl. apply IH; [by apply run_op_linked| |done].
  destruct op; simpl; auto with sessions. by apply named_bind.
Qed.

(** Membership as the history says: the last join or leave decides. *)
Definition member_after (g u : N) (ops : list session_op) : bool :=
  foldl (fun b op =>
    match op with
    | OpJoin g' u' => bool_decide (g = g' /\ u = u') || b
    | OpLeave g' u' => negb (bool_decide (g = g' /\ u = u')) && b
    | _ => b
    end) false ops.

Lemma is_group_member_groups g u m m' :
  group_members_ m' = group_members_ m -> is_group_member g u m' = is_group_member g u m.
Proof. intros E. unfold is_group_member. by rewrite E. Qed.

Lemma member_after_ops g u ops m b :
  is_group_member g u m = b ->
  is_group_member g u (run_ops ops m) =
    foldl (fun b op =>
      match op with
      | OpJoin g' u' => bool_decide (g = g' /\ u = u') || b
      | OpLeave g' u' => negb (bool_decide (g = g' /\ u = u')) && b
      | _ => b
      end) b ops.
Proof.
  unfold run_ops. revert m b. induction ops as [|op ops IH]; intros m b <-; [done|]. simpl.
  apply IH. destruct op; simpl; [| | |apply session_member_join|apply session_member_leave];
    apply is_group_member_groups;
    [apply groups_bind|apply groups_unbind|apply groups_unbind_connection].
Qed.

Lemma get_group_members_spec g u m :
  u ∈ get_group_members g m <-> is_group_member g u m = true.
Proof.
  unfold get_group_members, is_group_member. destruct (group_members_ m !! g) as [ms|].
  - by rewrite elem_of_elements, bool_decide_eq_true.
  - split; [by intros ?%not_elem_of_nil|done].
Qed.

(** ** Theorems *)

(** C27: The session manager refines a plain table of sessions: after any
    sequence of its operations the user table is the one the specification
    computes, the connection index finds exactly the session of the table on
    that connection (so a connection carries at most one user), and no empty
    group is kept. *)
Theorem session_table_refined (ops : list session_op) :
  let m := run_ops ops no_sessions in
  let online := spec_ops ops ∅ in
  (forall u, find u m = online !! u) /\
  (forall c s, find_by_connection c m = Some s <->
     online !! session_user_id s = Some s /\ session_connection_id s = c) /\
  groups_inhabited m.
Proof.
  intros m online.
  destruct (run_ops_invariant ops no_sessions) as (L & G & Hs);
    [apply linked_no_sessions|intros g ms; unfold no_sessions; simpl; by rewrite lookup_empty|].
  subst m online. split; [intros u; unfold find; by rewrite Hs|]. split; [|done].
  intros c s. rewrite (find_by_connection_spec _ _ _ L). by rewrite Hs.
Qed.

(** If no session is bound under a name that another user keeps, the user
    name index is exact too: it finds the one session of the table with that
    name. *)
Theorem usernames_refined (ops : list session_op) :
  binds_free ops no_sessions ->
  forall n s, find_by_username n (run_ops ops no_sessions) = Some s <->
    spec_ops ops ∅ !! session_user_id s = Some s /\ session_username s = n.
Proof.
  intros F n s.
  destruct (run_ops_named ops no_sessions linked_no_sessions named_no_sessions F) as [L M].
  destruct (run_ops_invariant ops no_sessions) as (_ & _ & Hs);
    [apply linked_no_sessions|intros g ms; unfold no_sessions; simpl; by rewrite lookup_empty|].
  rewrite (find_by_username_spec _ _ _ L M). by rewrite Hs.
Qed.

Definition sample_rebind : list session_op :=
  [OpBind (mkSession 1 7 "alice"); OpBind (mkSession 1 8 "alice")].

Lemma usernames_refined_witness :
  find_by_username "alice" (run_ops sample_rebind no_sessions) = Some (mkSession 1 8 "alice") <->
  spec_ops sample_rebind ∅ !! 1 = Some (mkSession 1 8 "alice") /\ bs "alice" = "alice".
Proof.
  apply (usernames_refined sample_rebind).
  split; [|split; [|exact I]]; intros u s; simpl run_op.
  - unfold no_sessions. simpl. by rewrite lookup_empty.
  - rewrite sessions_bind by apply linked_no_sessions. unfold no_sessions. simpl.
    rewrite lookup_empty. case_bool_decide; [by left|done].
Defined.

(** [bind] itself does not check the name: binding a second user under the
    name of an online one takes the name over, and when that second user
    leaves, the first is still online but can no longer be found by name. *)
Theorem bind_steals_name (u v c d : N) (name : bytes) :
  u <> v -> c <> d ->
  let m := run_ops [OpBind (mkSession u c name); OpBind (mkSession v d name);
                    OpUnbindConnection d] no_sessions in
  find u m = Some (mkSession u c name) /\ is_username_online name m = false.
Proof.
  intros Hu Hc m.
  assert (E : m = mkSessionManager (delete v (<[v := mkSession v d name]>
      (<[u := mkSession u c name]> ∅))) (delete d (<[d := v]> (<[c := u]> ∅)))
      (delete name (<[name := v]> (<[name := u]> ∅))) ∅).
  { subst m. unfold run_ops. simpl. unfold bind, drop_user_indexes. simpl.
    rewrite lookup_empty. unfold evict_connection. simpl. rewrite lookup_empty. simpl.
    rewrite lookup_insert_ne, lookup_empty by done. simpl.
    rewrite lookup_insert_ne, lookup_empty by done. unfold unbind_connection. simpl.
    rewrite lookup_insert_eq, lookup_insert_eq. reflexivity. }
  rewrite E. split.
  - unfold find. simpl. by rewrite lookup_delete_ne, lookup_insert_ne, lookup_insert_eq.
  - unfold is_username_online, find_by_username. simpl. by rewrite lookup_delete_eq.
Qed.

Lemma bind_steals_name_witness :
  let m := run_ops [OpBind (mkSession 1 10 "alice"); OpBind (mkSession 2 20 "alice");
                    OpUnbindConnection 20] no_sessions in
  find 1 m = Some (mkSession 1 10 "alice") /\ is_username_online "alice" m = false.
Proof. apply (bind_steals_name 1 2 10 20 "alice"); discriminate. Defined.

(** Group membership is what the history of joins and leaves says,
    untouched by logins and disconnects; the member list is its
    enumeration. *)
Theorem group_membership_history (ops : list session_op) (g u : N) :
  let m := run_ops ops no_sessions in
  is_group_member g u m = member_after g u ops /\
  (u ∈ get_group_members g m <-> member_after g u ops = true).
Proof.
  intros m. assert (E : is_group_member g u m = member_after g u ops)
    by (by apply member_after_ops).
  split; [done|]. by rewrite get_group_members_spec, E.
Qed.
