(* ===== verification/SqlTables.v ===== *)
(** * SqlTables: the SQL of the program, and what it does to the tables

    The query texts of [src/src/storage/] and [src/src/logging/logger.cpp] as
    constants, the tables their [CREATE TABLE] statements describe, and the
    documented meaning of each text on these tables.  The server that runs
    them is not part of the repository: [MySqlTables.v] makes the meaning a law
    of the client library.  What depends on the server's configuration is a
    parameter: how strings compare ([utf8mb4_unicode_ci] ignores case), which
    bytes are text of the connection's character set, and the time. *)

From S2P Require Import Prelude.
Open Scope N_scope.

(** A [MYSQL_BIND] of a parameter: the buffer type and what the buffer holds
    when the statement is executed. *)
Inductive Param : Type :=
  | TINY (value : N)
  | LONG (value : N)
  | LONGLONG (value : N)
  | STRING (value : bytes).

#[export] Instance Param_eq_dec : EqDecision Param.
Proof. solve_decision. Defined.

(** A value in a row of a result set; no column the program selects is null. *)
Inductive Value : Type :=
  | Number (n : N)
  | Text (s : bytes).

(** ** The texts: accounts, groups and members *)

Definition select_user_by_username : bytes :=
  "SELECT id, username, password_hash FROM users WHERE username = ?".
Definition select_user_by_id : bytes :=
  "SELECT id, username, password_hash FROM users WHERE id = ?".
Definition insert_user : bytes :=
  "INSERT INTO users (username, password_hash) VALUES (?, ?)".
Definition create_users : bytes :=
  bs "CREATE TABLE IF NOT EXISTS users (" ++
  bs "id BIGINT UNSIGNED NOT NULL AUTO_INCREMENT PRIMARY KEY," ++
  bs "username VARCHAR(64) NOT NULL UNIQUE," ++
  bs "password_hash VARCHAR(255) NOT NULL," ++
  bs "created_at TIMESTAMP NOT NULL DEFAULT CURRENT_TIMESTAMP" ++
  bs ") ENGINE=InnoDB DEFAULT CHARSET=utf8mb4 COLLATE=utf8mb4_unicode_ci".

Definition create_groups : bytes :=
  bs "CREATE TABLE IF NOT EXISTS `groups` (" ++
  bs "id BIGINT UNSIGNED NOT NULL AUTO_INCREMENT PRIMARY KEY," ++
  bs "name VARCHAR(128) NOT NULL," ++
  bs "owner_id BIGINT UNSIGNED NOT NULL," ++
  bs "created_at TIMESTAMP NOT NULL DEFAULT CURRENT_TIMESTAMP," ++
  bs "INDEX idx_groups_owner (owner_id)," ++
  bs "CONSTRAINT fk_groups_owner " ++
  bs "FOREIGN KEY (owner_id) REFERENCES users(id) ON DELETE CASCADE" ++
  bs ") ENGINE=InnoDB DEFAULT CHARSET=utf8mb4 COLLATE=utf8mb4_unicode_ci".
Definition insert_group : bytes := "INSERT INTO `groups` (name, owner_id) VALUES (?, ?)".
Definition select_group : bytes :=
  bs "SELECT id, name, owner_id, DATE_FORMAT(created_at, '%Y-%m-%d %H:%i:%s') " ++
  bs "FROM `groups` WHERE id = ? LIMIT 1".

Definition create_group_members : bytes :=
  bs "CREATE TABLE IF NOT EXISTS group_members (" ++
  bs "group_id BIGINT UNSIGNED NOT NULL," ++
  bs "user_id BIGINT UNSIGNED NOT NULL," ++
  bs "joined_at TIMESTAMP NOT NULL DEFAULT CURRENT_TIMESTAMP," ++
  bs "PRIMARY KEY (group_id, user_id)," ++
  bs "INDEX idx_group_members_user_group (user_id, group_id)," ++
  bs "INDEX idx_group_members_joined_at (joined_at)," ++
  bs "CONSTRAINT fk_group_members_user " ++
  bs "FOREIGN KEY (user_id) REFERENCES users(id) ON DELETE CASCADE" ++
  bs ") ENGINE=InnoDB DEFAULT CHARSET=utf8mb4 COLLATE=utf8mb4_unicode_ci".
Definition insert_member : bytes :=
  "INSERT IGNORE INTO group_members (group_id, user_id) VALUES (?, ?)".
Definition delete_member : bytes := "DELETE FROM group_members WHERE group_id = ? AND user_id = ?".
Definition select_member : bytes :=
  "SELECT 1 FROM group_members WHERE group_id = ? AND user_id = ? LIMIT 1".
Definition select_group_members : bytes :=
  "SELECT user_id FROM group_members WHERE group_id = ? ORDER BY user_id ASC".
Definition select_user_groups : bytes :=
  "SELECT group_id FROM group_members WHERE user_id = ? ORDER BY group_id ASC".

(** ** The texts: messages *)

Definition create_messages : bytes :=
  bs "CREATE TABLE IF NOT EXISTS messages (" ++
  bs "id                BIGINT UNSIGNED NOT NULL AUTO_INCREMENT PRIMARY KEY," ++
  bs "conversation_type TINYINT         NOT NULL DEFAULT 0," ++
  bs "conversation_id   BIGINT UNSIGNED NOT NULL DEFAULT 0," ++
  bs "created_at        TIMESTAMP       NOT NULL DEFAULT CURRENT_TIMESTAMP," ++
  bs "type              VARCHAR(32)     NOT NULL," ++
  bs "sender_id         BIGINT UNSIGNED NOT NULL," ++
  bs "receiver_id       BIGINT UNSIGNED NOT NULL," ++
  bs "body              TEXT            NOT NULL," ++
  bs "INDEX idx_conv_id_desc     (conversation_type, conversation_id, id)," ++
  bs "INDEX idx_sender_created   (sender_id, created_at)," ++
  bs "INDEX idx_messages_sender  (sender_id)," ++
  bs "INDEX idx_messages_receiver(receiver_id)," ++
  bs "INDEX idx_messages_created (created_at)" ++
  bs ") ENGINE=InnoDB DEFAULT CHARSET=utf8mb4 COLLATE=utf8mb4_unicode_ci".
Definition count_columns : bytes :=
  bs "SELECT COUNT(*) " ++
  bs "FROM INFORMATION_SCHEMA.COLUMNS " ++
  bs "WHERE TABLE_SCHEMA = DATABASE() " ++
  bs "AND TABLE_NAME = ? " ++
  bs "AND COLUMN_NAME = ?".
Definition add_conversation_type : bytes :=
  bs "ALTER TABLE messages " ++
  bs "ADD COLUMN conversation_type TINYINT NOT NULL DEFAULT 0 AFTER id".
Definition add_conversation_id : bytes :=
  bs "ALTER TABLE messages " ++
  bs "ADD COLUMN conversation_id BIGINT UNSIGNED NOT NULL DEFAULT 0 AFTER conversation_type".
Definition index_conversations : bytes :=
  "CREATE INDEX idx_conv_id_desc ON messages (conversation_type, conversation_id, id)".
Definition index_senders : bytes :=
  "CREATE INDEX idx_sender_created ON messages (sender_id, created_at)".
Definition update_conversations : bytes :=
  bs "UPDATE messages " ++
  bs "SET conversation_type = CASE " ++
  bs "    WHEN type = 'DirectChat' THEN 1 " ++
  bs "    WHEN type = 'GroupChat' THEN 2 " ++
  bs "    ELSE 0 END, " ++
  bs "conversation_id = CASE " ++
  bs "    WHEN type = 'DirectChat' THEN ((LEAST(sender_id, receiver_id) << 32) | GREATEST(sender_id, receiver_id)) " ++
  bs "    WHEN type = 'GroupChat' THEN receiver_id " ++
  bs "    ELSE 0 END " ++
  bs "WHERE conversation_type = 0".

Definition insert_message : bytes :=
  bs "INSERT INTO messages " ++
  bs "(conversation_type, conversation_id, type, sender_id, receiver_id, body) " ++
  bs "VALUES (?, ?, ?, ?, ?, ?)".
Definition select_direct_history : bytes :=
  bs "SELECT sender_id, receiver_id, body " ++
  bs "FROM messages " ++
  bs "WHERE type = 'DirectChat' " ++
  bs "AND ((sender_id = ? AND receiver_id = ?) " ++
  bs "OR (sender_id = ? AND receiver_id = ?)) " ++
  bs "ORDER BY id ASC".
Definition select_group_history : bytes :=
  bs "SELECT sender_id, receiver_id, body " ++
  bs "FROM messages " ++
  bs "WHERE type = 'GroupChat' AND receiver_id = ? " ++
  bs "ORDER BY id ASC".
Definition select_direct_page_before : bytes :=
  bs "SELECT id, sender_id, receiver_id, body, " ++
  bs "DATE_FORMAT(created_at, '%Y-%m-%d %H:%i:%s') " ++
  bs "FROM messages " ++
  bs "WHERE conversation_type = 1 AND conversation_id = ? AND id < ? " ++
  bs "ORDER BY id DESC " ++
  bs "LIMIT ?".
Definition select_direct_page : bytes :=
  bs "SELECT id, sender_id, receiver_id, body, " ++
  bs "DATE_FORMAT(created_at, '%Y-%m-%d %H:%i:%s') " ++
  bs "FROM messages " ++
  bs "WHERE conversation_type = 1 AND conversation_id = ? " ++
  bs "ORDER BY id DESC " ++
  bs "LIMIT ?".
Definition select_group_page_before : bytes :=
  bs "SELECT id, sender_id, receiver_id, body, " ++
  bs "DATE_FORMAT(created_at, '%Y-%m-%d %H:%i:%s') " ++
  bs "FROM messages " ++
  bs "WHERE conversation_type = 2 AND conversation_id = ? AND id < ? " ++
  bs "ORDER BY id DESC " ++
  bs "LIMIT ?".
Definition select_group_page : bytes :=
  bs "SELECT id, sender_id, receiver_id, body, " ++
  bs "DATE_FORMAT(created_at, '%Y-%m-%d %H:%i:%s') " ++
  bs "FROM messages " ++
  bs "WHERE conversation_type = 2 AND conversation_id = ? " ++
  bs "ORDER BY id DESC " ++
  bs "LIMIT ?".

(** The text of [execute_unread_query] for a number of groups. *)
Definition select_unread (groups : nat) : bytes :=
  bs "SELECT id, type, sender_id, receiver_id, body, " ++
  bs "DATE_FORMAT(created_at, '%Y-%m-%d %H:%i:%s') " ++
  bs "FROM messages " ++
  bs "WHERE id > ? AND (" ++
  bs "(conversation_type = 1 AND receiver_id = ?)" ++
  concat (replicate groups
    (bs " OR (conversation_type = 2 AND conversation_id = ? AND sender_id <> ?)")) ++
  bs ") ORDER BY id ASC LIMIT ?".

(** ** The texts: the log *)

Definition create_server_logs : bytes :=
  bs "CREATE TABLE IF NOT EXISTS server_logs (" ++
  bs "id BIGINT UNSIGNED NOT NULL AUTO_INCREMENT PRIMARY KEY," ++
  bs "created_at TIMESTAMP NOT NULL DEFAULT CURRENT_TIMESTAMP," ++
  bs "level VARCHAR(16) NOT NULL," ++
  bs "message TEXT NOT NULL" ++
  bs ") ENGINE=InnoDB DEFAULT CHARSET=utf8mb4".
Definition insert_log : bytes := "INSERT INTO server_logs (level, message) VALUES (?, ?)".

(** ** The tables *)

Record UserRow : Type := mkUserRow {
  row_user_id : N;
  row_username : bytes;
  row_password_hash : bytes;
}.

Record GroupRow : Type := mkGroupRow {
  row_group_id : N;
  row_group_name : bytes;
  row_owner_id : N;
  row_group_created_at : bytes;
}.

Record MemberRow : Type := mkMemberRow {
  row_member_group : N;
  row_member_user : N;
}.

Record MessageRow : Type := mkMessageRow {
  row_id : N;
  row_conversation_type : N;
  row_conversation_id : N;
  row_created_at : bytes;
  row_type : bytes;
  row_sender_id : N;
  row_receiver_id : N;
  row_body : bytes;
}.

Record LogRow : Type := mkLogRow {
  row_level : bytes;
  row_log_message : bytes;
}.

#[export] Instance MemberRow_eq_dec : EqDecision MemberRow.
Proof. solve_decision. Defined.

(** The rows of the tables, with the next value of each [AUTO_INCREMENT]
    column, and the columns of [messages]. *)
Record Database : Type := mkDatabase {
  users : list UserRow;
  users_auto : N;
  groups : list GroupRow;
  groups_auto : N;
  group_members : list MemberRow;
  messages_columns : list bytes;
  message_rows : list MessageRow;
  messages_auto : N;
  server_logs : list LogRow;
}.

(** The tables of a new database, whose [AUTO_INCREMENT] columns start at 1. *)
Definition empty_database : Database := mkDatabase [] 1 [] 1 [] [] [] 1 [].

Definition set_users (rows : list UserRow) (auto : N) (db : Database) : Database :=
  mkDatabase rows auto (groups db) (groups_auto db) (group_members db) (messages_columns db)
    (message_rows db) (messages_auto db) (server_logs db).
Definition set_groups (rows : list GroupRow) (auto : N) (db : Database) : Database :=
  mkDatabase (users db) (users_auto db) rows auto (group_members db) (messages_columns db)
    (message_rows db) (messages_auto db) (server_logs db).
Definition set_members (rows : list MemberRow) (db : Database) : Database :=
  mkDatabase (users db) (users_auto db) (groups db) (groups_auto db) rows (messages_columns db)
    (message_rows db) (messages_auto db) (server_logs db).
Definition set_messages (columns : list bytes) (rows : list MessageRow) (auto : N) (db : Database) :
    Database :=
  mkDatabase (users db) (users_auto db) (groups db) (groups_auto db) (group_members db) columns
    rows auto (server_logs db).
Definition set_logs (rows : list LogRow) (db : Database) : Database :=
  mkDatabase (users db) (users_auto db) (groups db) (groups_auto db) (group_members db)
    (messages_columns db) (message_rows db) (messages_auto db) rows.

Definition id_le (a b : MessageRow) : Prop := row_id a <= row_id b.

#[export] Instance id_le_dec : RelDecision id_le.
Proof. intros a b. unfold id_le. apply _. Defined.

(** ** What a statement answers *)

Inductive SqlAnswer : Type :=
  | Rows (rows : list (list Value))
  | Changed (affected_rows : N) (insert_id : N) (db : Database)
  | SqlError (errno : N).

Definition answer_database (db : Database) (a : SqlAnswer) : Database :=
  match a with
  | Changed _ _ db' => db'
  | _ => db
  end.

(** The server errors the constraints raise. *)
Definition ER_DUP_ENTRY : N := 1062.
Definition ER_DATA_TOO_LONG : N := 1406.
Definition ER_NO_REFERENCED_ROW_2 : N := 1452.
Definition ER_WRONG_ARGUMENTS : N := 1210.

(** *** How the server compares and stores strings *)
Class SqlText : Type := {
  (** Strings with the same weights compare equal. *)
  collate : bytes -> bytes;
  (** Is it text of the connection's character set, of how many characters? *)
  well_formed : bytes -> bool;
  characters : bytes -> nat;
}.

(** Characters take at least a byte, and the fixed texts of the program are
    plain ASCII. *)
Class SqlTextSpec `{SqlText} : Prop := {
  characters_le s : (characters s <= length s)%nat;
  ascii_well_formed s : Forall (fun c => code c < 128) s -> well_formed s = true;
}.

Section run.
Context `{SqlText}.

Definition sql_equal (a b : bytes) : bool := bool_decide (collate a = collate b).

(** Does a string fit a [VARCHAR(n)] column, or a [TEXT] column? *)
Definition fits_varchar (n : nat) (s : bytes) : bool := well_formed s && (characters s <=? n)%nat.
Definition fits_text (s : bytes) : bool := well_formed s && (length s <=? 65535)%nat.

Definition user_row (r : UserRow) : list Value :=
  [Number (row_user_id r); Text (row_username r); Text (row_password_hash r)].

Definition order_by_id (rows : list MessageRow) : list MessageRow := merge_sort id_le rows.

Definition history_row (r : MessageRow) : list Value :=
  [Number (row_sender_id r); Number (row_receiver_id r); Text (row_body r)].
Definition page_row (r : MessageRow) : list Value :=
  [Number (row_id r); Number (row_sender_id r); Number (row_receiver_id r); Text (row_body r);
   Text (row_created_at r)].
Definition unread_row (r : MessageRow) : list Value :=
  [Number (row_id r); Text (row_type r); Number (row_sender_id r); Number (row_receiver_id r);
   Text (row_body r); Text (row_created_at r)].

(** [WHERE conversation_type = t AND conversation_id = c AND id < before
     ORDER BY id DESC LIMIT limit]; without a cursor every row qualifies. *)
Definition page_rows (t c : N) (before : option N) (limit : N) (db : Database) : list (list Value) :=
  map page_row (take (N.to_nat limit) (reverse (order_by_id
    (List.filter (fun r => (row_conversation_type r =? t) && (row_conversation_id r =? c) &&
                           match before with Some b => row_id r <? b | None => true end)
       (message_rows db))))).

(** The parameters of the groups of the unread query. *)
Fixpoint unread_groups (n : nat) (ps : list Param) : option (list (N * N) * list Param) :=
  match n with
  | O => Some ([], ps)
  | S n =>
      match ps with
      | LONGLONG g :: LONGLONG u :: ps =>
          '(rest, ps) ← unread_groups n ps; Some ((g, u) :: rest, ps)
      | _ => None
      end
  end.

Definition unread_row_matches (last user : N) (gs : list (N * N)) (r : MessageRow) : bool :=
  (last <? row_id r) &&
  (((row_conversation_type r =? 1) && (row_receiver_id r =? user)) ||
   existsb (fun '(g, u) => (row_conversation_type r =? 2) && (row_conversation_id r =? g) &&
                           negb (row_sender_id r =? u)) gs).

(** ** The statements *)

Inductive Sql : Type :=
  | SelectUserByUsername | SelectUserById | InsertUser
  | InsertGroup | SelectGroup
  | InsertMember | DeleteMember | SelectMember | SelectGroupMembers | SelectUserGroups
  | CountColumns | InsertMessage | SelectDirectHistory | SelectGroupHistory
  | SelectDirectPageBefore | SelectDirectPage | SelectGroupPageBefore | SelectGroupPage
  | SelectUnread (groups : nat)
  | InsertLog.

Definition sql_text (q : Sql) : bytes :=
  match q with
  | SelectUserByUsername => select_user_by_username
  | SelectUserById => select_user_by_id
  | InsertUser => insert_user
  | InsertGroup => insert_group
  | SelectGroup => select_group
  | InsertMember => insert_member
  | DeleteMember => delete_member
  | SelectMember => select_member
  | SelectGroupMembers => select_group_members
  | SelectUserGroups => select_user_groups
  | CountColumns => count_columns
  | InsertMessage => insert_message
  | SelectDirectHistory => select_direct_history
  | SelectGroupHistory => select_group_history
  | SelectDirectPageBefore => select_direct_page_before
  | SelectDirectPage => select_direct_page
  | SelectGroupPageBefore => select_group_page_before
  | SelectGroupPage => select_group_page
  | SelectUnread n => select_unread n
  | InsertLog => insert_log
  end.

Definition run_users (q : Sql) (ps : list Param) (db : Database) : SqlAnswer :=
  match q, ps with
  | SelectUserByUsername, [STRING u] =>
      Rows (map user_row (List.filter (fun r => sql_equal (row_username r) u) (users db)))
  | SelectUserById, [LONGLONG i] =>
      Rows (map user_row (List.filter (fun r => row_user_id r =? i) (users db)))
  | InsertUser, [STRING u; STRING h] =>
      if negb (fits_varchar 64 u && fits_varchar 255 h) then SqlError ER_DATA_TOO_LONG
      else if existsb (fun r => sql_equal (row_username r) u) (users db) then SqlError ER_DUP_ENTRY
      else
        let id := users_auto db in
        Changed 1 id (set_users (users db ++ [mkUserRow id u h]) (id + 1) db)
  | _, _ => SqlError ER_WRONG_ARGUMENTS
  end.

Definition user_exists (i : N) (db : Database) : bool :=
  existsb (fun r => row_user_id r =? i) (users db).

Definition run_groups (now : bytes) (q : Sql) (ps : list Param) (db : Database) : SqlAnswer :=
  match q, ps with
  | InsertGroup, [STRING name; LONGLONG owner] =>
      if negb (fits_varchar 128 name) then SqlError ER_DATA_TOO_LONG
      else if negb (user_exists owner db) then SqlError ER_NO_REFERENCED_ROW_2
      else
        let id := groups_auto db in
        Changed 1 id (set_groups (groups db ++ [mkGroupRow id name owner now]) (id + 1) db)
  | SelectGroup, [LONGLONG i] =>
      Rows (map (fun r => [Number (row_group_id r); Text (row_group_name r);
                           Number (row_owner_id r); Text (row_group_created_at r)])
              (take 1 (List.filter (fun r => row_group_id r =? i) (groups db))))
  | _, _ => SqlError ER_WRONG_ARGUMENTS
  end.

(** [IGNORE] turns a duplicate and a missing user into a warning. *)
Definition run_members (q : Sql) (ps : list Param) (db : Database) : SqlAnswer :=
  match q, ps with
  | InsertMember, [LONGLONG g; LONGLONG u] =>
      if bool_decide (mkMemberRow g u ∈ group_members db) || negb (user_exists u db)
      then Changed 0 0 db
      else Changed 1 0 (set_members (group_members db ++ [mkMemberRow g u]) db)
  | DeleteMember, [LONGLONG g; LONGLONG u] =>
      let gone := List.filter (fun r => bool_decide (r = mkMemberRow g u)) (group_members db) in
      Changed (N.of_nat (length gone)) 0
        (set_members (List.filter (fun r => negb (bool_decide (r = mkMemberRow g u)))
                        (group_members db)) db)
  | SelectMember, [LONGLONG g; LONGLONG u] =>
      Rows (map (fun _ => [Number 1])
              (take 1 (List.filter (fun r => bool_decide (r = mkMemberRow g u)) (group_members db))))
  | SelectGroupMembers, [LONGLONG g] =>
      Rows (map (fun u => [Number u]) (merge_sort N.le
        (map row_member_user (List.filter (fun r => row_member_group r =? g) (group_members db)))))
  | SelectUserGroups, [LONGLONG u] =>
      Rows (map (fun g => [Number g]) (merge_sort N.le
        (map row_member_group (List.filter (fun r => row_member_user r =? u) (group_members db)))))
  | _, _ => SqlError ER_WRONG_ARGUMENTS
  end.

Definition run_messages (now : bytes) (q : Sql) (ps : list Param) (db : Database) : SqlAnswer :=
  match q, ps with
  | CountColumns, [STRING t; STRING c] =>
      Rows [[Number (if bool_decide (t = bs "messages")
                     then N.of_nat (length (List.filter (fun k => bool_decide (k = c))
                                              (messages_columns db)))
                     else 0)]]
  | InsertMessage, [TINY t; LONGLONG c; STRING type; LONGLONG sender; LONGLONG receiver; STRING body] =>
      if negb (fits_varchar 32 type && fits_text body) then SqlError ER_DATA_TOO_LONG
      else
        let id := messages_auto db in
        Changed 1 id (set_messages (messages_columns db)
          (message_rows db ++ [mkMessageRow id t c now type sender receiver body]) (id + 1) db)
  | SelectDirectHistory, [LONGLONG a; LONGLONG b; LONGLONG c; LONGLONG d] =>
      Rows (map history_row (order_by_id (List.filter (fun r =>
        sql_equal (row_type r) "DirectChat" &&
        (((row_sender_id r =? a) && (row_receiver_id r =? b)) ||
         ((row_sender_id r =? c) && (row_receiver_id r =? d)))) (message_rows db))))
  | SelectGroupHistory, [LONGLONG g] =>
      Rows (map history_row (order_by_id (List.filter (fun r =>
        sql_equal (row_type r) "GroupChat" && (row_receiver_id r =? g)) (message_rows db))))
  | SelectDirectPageBefore, [LONGLONG c; LONGLONG before; LONG limit] =>
      Rows (page_rows 1 c (Some before) limit db)
  | SelectDirectPage, [LONGLONG c; LONG limit] => Rows (page_rows 1 c None limit db)
  | SelectGroupPageBefore, [LONGLONG c; LONGLONG before; LONG limit] =>
      Rows (page_rows 2 c (Some before) limit db)
  | SelectGroupPage, [LONGLONG c; LONG limit] => Rows (page_rows 2 c None limit db)
  | SelectUnread n, LONGLONG last :: LONGLONG user :: ps =>
      match unread_groups n ps with
      | Some (gs, [LONGLONG limit]) =>
          Rows (map unread_row (take (N.to_nat limit) (order_by_id
            (List.filter (unread_row_matches last user gs) (message_rows db)))))
      | _ => SqlError ER_WRONG_ARGUMENTS
      end
  | _, _ => SqlError ER_WRONG_ARGUMENTS
  end.

Definition run_logs (q : Sql) (ps : list Param) (db : Database) : SqlAnswer :=
  match q, ps with
  | InsertLog, [STRING level; STRING message] =>
      if negb (fits_varchar 16 level && fits_text message) then SqlError ER_DATA_TOO_LONG
      else Changed 1 0 (set_logs (server_logs db ++ [mkLogRow level message]) db)
  | _, _ => SqlError ER_WRONG_ARGUMENTS
  end.

(** The meaning of a prepared statement: its parameters, the time, the tables. *)
Definition run (now : bytes) (q : Sql) (ps : list Param) (db : Database) : SqlAnswer :=
  match q with
  | SelectUserByUsername | SelectUserById | InsertUser => run_users q ps db
  | InsertGroup | SelectGroup => run_groups now q ps db
  | InsertMember | DeleteMember | SelectMember | SelectGroupMembers | SelectUserGroups =>
      run_members q ps db
  | InsertLog => run_logs q ps db
  | _ => run_messages now q ps db
  end.

(** ** Statements without parameters, sent with [mysql_query] *)

Inductive Ddl : Type :=
  | CreateUsers | CreateGroups | CreateGroupMembers | CreateMessages | CreateServerLogs
  | AddConversationType | AddConversationId | IndexConversations | IndexSenders
  | UpdateConversations.

Definition ddl_text (q : Ddl) : bytes :=
  match q with
  | CreateUsers => create_users
  | CreateGroups => create_groups
  | CreateGroupMembers => create_group_members
  | CreateMessages => create_messages
  | CreateServerLogs => create_server_logs
  | AddConversationType => add_conversation_type
  | AddConversationId => add_conversation_id
  | IndexConversations => index_conversations
  | IndexSenders => index_senders
  | UpdateConversations => update_conversations
  end.

Definition all_columns : list bytes :=
  [bs "id"; bs "conversation_type"; bs "conversation_id"; bs "created_at"; bs "type";
   bs "sender_id"; bs "receiver_id"; bs "body"].

Definition set_conversation (t c : N) (r : MessageRow) : MessageRow :=
  mkMessageRow (row_id r) t c (row_created_at r) (row_type r) (row_sender_id r) (row_receiver_id r)
    (row_body r).

(** The [CASE] expressions of the update. *)
Definition case_type (r : MessageRow) : N :=
  if sql_equal (row_type r) "DirectChat" then 1
  else if sql_equal (row_type r) "GroupChat" then 2 else 0.
Definition case_id (r : MessageRow) : N :=
  if sql_equal (row_type r) "DirectChat" then
    N.lor (to_u64 (N.shiftl (N.min (row_sender_id r) (row_receiver_id r)) 32))
      (N.max (row_sender_id r) (row_receiver_id r))
  else if sql_equal (row_type r) "GroupChat" then row_receiver_id r else 0.

(** [ALTER TABLE ... ADD COLUMN] fails on a column that exists. *)
Definition add_column (name : bytes) (fill : MessageRow -> MessageRow) (db : Database) : Database :=
  if bool_decide (name ∈ messages_columns db) then db
  else set_messages (messages_columns db ++ [name]) (map fill (message_rows db)) (messages_auto db) db.

(** An index changes no row. *)
Definition run_ddl (q : Ddl) (db : Database) : Database :=
  match q with
  | CreateMessages =>
      match messages_columns db with
      | [] => set_messages all_columns [] 1 db
      | _ => db
      end
  | AddConversationType =>
      add_column "conversation_type" (fun r => set_conversation 0 (row_conversation_id r) r) db
  | AddConversationId =>
      add_column "conversation_id" (fun r => set_conversation (row_conversation_type r) 0 r) db
  | UpdateConversations =>
      set_messages (messages_columns db)
        (map (fun r => if row_conversation_type r =? 0
                       then set_conversation (case_type r) (case_id r) r else r) (message_rows db))
        (messages_auto db) db
  | _ => db
  end.
End run.
