(* ===== verification/MySqlClient.v ===== *)
(** * MySqlClient: the C API of the MySQL client library

    [mysql.h] is not part of the repository.  The calls the program makes are
    the operations of the class [MySql] on a state [Client], which stands for
    everything behind them: the library's objects, the servers, and the steady
    clock the connection pool reads.  [MySqlProtocol] states the documented
    life cycle of connections and statements, which holds whatever the calls
    answer: it is what the resource theorems need.  What the answers mean is
    the subject of [MySqlTables.v].

    Error texts go to [std::cerr] and nowhere else, so [mysql_error] and
    [mysql_stmt_error] are left out. *)

From S2P Require Import Prelude.
From S2P Require Import SqlTables.
Open Scope Z_scope.

(** ** Values that cross the interface *)

(** Addresses of the library's objects; a null pointer is [None]. *)
Abbreviation MYSQL := N.
Abbreviation MYSQL_STMT := N.

(** A [MYSQL_BIND] of a result column: an integer variable, or a character
    array with [buffer_length] bytes. *)
Inductive Buffer : Type :=
  | INTEGER
  | CHARS (buffer_length : nat).

(** What [mysql_stmt_fetch] leaves in the variables of one column. *)
Record Cell : Type := mkCell {
  cell_integer : N;
  cell_chars : bytes;
  cell_length : N;
  cell_is_null : bool;
}.

(** The variables as they are initialised before the first fetch. *)
Definition untouched : Cell := mkCell 0 [] 0 false.

Definition column (row : list Cell) (i : nat) : Cell := default untouched (row !! i).

#[export] Instance Buffer_eq_dec : EqDecision Buffer.
Proof. solve_decision. Defined.

(** [MYSQL_NO_DATA], [MYSQL_DATA_TRUNCATED] *)
Definition MYSQL_NO_DATA : Z := 100.
Definition MYSQL_DATA_TRUNCATED : Z := 101.

(** The options [create_connection] sets. *)
Inductive MySqlOption : Type :=
  | OPT_CONNECT_TIMEOUT
  | OPT_READ_TIMEOUT
  | OPT_WRITE_TIMEOUT.

(** ** The calls *)

Class MySql : Type := {
  Client : Type;
  (** [std::chrono::steady_clock::now()], in nanoseconds. *)
  steady_clock_now : ST Client Z;
  mysql_init : ST Client (option MYSQL);
  mysql_options : MYSQL -> MySqlOption -> N -> ST Client unit;
  (** [mysql_real_connect(mysql, host, user, password, database, port, nullptr, 0)]:
      is the result other than null? *)
  mysql_real_connect : MYSQL -> bytes -> bytes -> bytes -> bytes -> N -> ST Client bool;
  mysql_close : MYSQL -> ST Client unit;
  mysql_ping : MYSQL -> ST Client Z;
  mysql_query : MYSQL -> bytes -> ST Client Z;
  mysql_errno : MYSQL -> ST Client N;
  mysql_insert_id : MYSQL -> ST Client N;
  mysql_stmt_init : MYSQL -> ST Client (option MYSQL_STMT);
  mysql_stmt_prepare : MYSQL_STMT -> bytes -> ST Client Z;
  mysql_stmt_bind_param : MYSQL_STMT -> list Param -> ST Client Z;
  mysql_stmt_execute : MYSQL_STMT -> ST Client Z;
  mysql_stmt_affected_rows : MYSQL_STMT -> ST Client N;
  mysql_stmt_bind_result : MYSQL_STMT -> list Buffer -> ST Client Z;
  (** The status, and the bound variables afterwards. *)
  mysql_stmt_fetch : MYSQL_STMT -> ST Client (Z * list Cell);
  (** [mysql_stmt_fetch_column(statement, bind, column, 0)] into an array of the
      given size: the status and the array. *)
  mysql_stmt_fetch_column : MYSQL_STMT -> nat -> nat -> ST Client (Z * bytes);
  mysql_stmt_close : MYSQL_STMT -> ST Client unit;
  (** The rows the result set of a statement still holds; it is finite. *)
  result_size : Client -> MYSQL_STMT -> nat;
  (** What reading [n] bytes from an array of fewer yields. *)
  over_read : bytes -> N -> bytes;
}.

(** ** Shapes the callers share *)

Section shapes.
Context `{MySql}.

(** [call(...) != 0] *)
Definition fails (status : Z) : bool := negb (status =? 0).

(** [first(...) != 0 || second(...) != 0] *)
Definition either_fails (first second : ST Client Z) : ST Client bool :=
  status ← first;
  if fails status then mret true else (status ← second; mret (fails status)).

(** [mysql_stmt_close(statement); return result;] *)
Definition closing {A} (statement : MYSQL_STMT) (result : A) : ST Client A :=
  mysql_stmt_close statement;; mret result.

(** [std::string(chars, length)] *)
Definition fetched_string (cell : Cell) : bytes :=
  if (cell_length cell <=? N.of_nat (length (cell_chars cell)))%N
  then take (N.to_nat (cell_length cell)) (cell_chars cell)
  else over_read (cell_chars cell) (cell_length cell).

(** [execute_query] of the stores and of the logger. *)
Definition execute_query (mysql : MYSQL) (query : bytes) : ST Client bool :=
  status ← mysql_query mysql query; mret (status =? 0).

(** [status != 0 && status != MYSQL_DATA_TRUNCATED] *)
Definition fetch_fails (status : Z) : bool :=
  fails status && negb (status =? MYSQL_DATA_TRUNCATED).

(** The fetch loops: rows are read until there are no more or one cannot be
    read; [on_row] is the body of the loop, and [None] its [continue]. *)
Fixpoint fetch_rows {A} (fuel : nat) (statement : MYSQL_STMT)
    (on_row : list Cell -> ST Client (option A)) (rows : list A) : ST Client (list A) :=
  match fuel with
  | O => mret rows
  | S fuel =>
      fetched ← mysql_stmt_fetch statement;
      let '(status, row) := fetched in
      if status =? MYSQL_NO_DATA then mret rows
      else if fetch_fails status then mret rows
      else
        value ← on_row row;
        fetch_rows fuel statement on_row
          (match value with Some value => rows ++ [value] | None => rows end)
  end.

(** The loop with the fuel its result set needs. *)
Definition fetch_all {A} (statement : MYSQL_STMT) (on_row : list Cell -> ST Client (option A)) :
    ST Client (list A) :=
  n ← gets (fun c => result_size c statement);
  fetch_rows (S n) statement on_row [].

(** [if (!body_is_null && body_length > 0) { body.resize(body_length); ... }]:
    the body, or [None] when its column cannot be fetched. *)
Definition fetch_body (statement : MYSQL_STMT) (cell : Cell) (index : nat) :
    ST Client (option bytes) :=
  if negb (cell_is_null cell) && (0 <? cell_length cell)%N then
    fetched ← mysql_stmt_fetch_column statement (N.to_nat (cell_length cell)) index;
    let '(status, body) := fetched in
    mret (if fails status then None else Some body)
  else mret (Some []).
End shapes.

(** ** The life cycle of the objects *)

Class MySqlView `{MySql} : Type := {
  (** The connection objects [mysql_init] returned that are not closed yet. *)
  handles : Client -> gset MYSQL;
  (** The statements [mysql_stmt_init] returned that are not closed yet. *)
  statements : Client -> gset MYSQL_STMT;
  clock : Client -> Z;
  (** The tables of the server, and whether library, network and server all
      work: see [MySqlTables.v]. *)
  tables : Client -> Database;
  healthy : Client -> Prop;
}.

(** No object is allocated or freed, and the clock does not run backwards. *)
Record same_objects `{MySqlView} (c c' : Client) : Prop := {
  same_handles : handles c' = handles c;
  same_statements : statements c' = statements c;
  same_clock : clock c <= clock c';
}.

(** The tables stay as they are, and what worked goes on working. *)
Record undisturbed `{MySqlView} (c c' : Client) : Prop := {
  same_tables : tables c' = tables c;
  still_healthy : healthy c -> healthy c';
}.

Definition keeps `{MySqlView} {A} (m : ST Client A) (c : Client) : Prop :=
  wp m (fun _ c' => same_objects c c') c.

(** A call about the connection only. *)
Definition idles `{MySqlView} {A} (m : ST Client A) (c : Client) : Prop :=
  wp m (fun _ c' => same_objects c c' /\ undisturbed c c') c.

(** Calls are specified on live objects only: nothing is promised about a
    closed one. *)
Class MySqlProtocol `{MySqlView} : Prop := {
  now_law c : wp steady_clock_now (fun t c' => same_objects c c' /\ undisturbed c c' /\ t = clock c') c;
  init_law c : wp mysql_init (fun r c' =>
    statements c' = statements c /\ clock c <= clock c' /\ undisturbed c c' /\
    match r with
    | None => handles c' = handles c
    | Some h => (h ∉ handles c) /\ handles c' = ({[h]} ∪ handles c)
    end) c;
  options_law h o v c : h ∈ handles c -> idles (mysql_options h o v) c;
  real_connect_law h host user password database port c :
    h ∈ handles c -> idles (mysql_real_connect h host user password database port) c;
  close_law h c : h ∈ handles c -> wp (mysql_close h) (fun _ c' =>
    statements c' = statements c /\ clock c <= clock c' /\ undisturbed c c' /\
    handles c' = handles c ∖ {[h]}) c;
  ping_law h c : h ∈ handles c -> idles (mysql_ping h) c;
  query_law h q c : h ∈ handles c -> keeps (mysql_query h q) c;
  errno_law h c : h ∈ handles c -> idles (mysql_errno h) c;
  insert_id_law h c : h ∈ handles c -> idles (mysql_insert_id h) c;
  stmt_init_law h c : h ∈ handles c -> wp (mysql_stmt_init h) (fun r c' =>
    handles c' = handles c /\ clock c <= clock c' /\
    match r with
    | None => statements c' = statements c
    | Some s => (s ∉ statements c) /\ statements c' = ({[s]} ∪ statements c)
    end) c;
  prepare_law s q c : s ∈ statements c -> keeps (mysql_stmt_prepare s q) c;
  bind_param_law s ps c : s ∈ statements c -> keeps (mysql_stmt_bind_param s ps) c;
  execute_law s c : s ∈ statements c -> keeps (mysql_stmt_execute s) c;
  affected_rows_law s c : s ∈ statements c -> keeps (mysql_stmt_affected_rows s) c;
  bind_result_law s bs c : s ∈ statements c -> keeps (mysql_stmt_bind_result s bs) c;
  fetch_law s c : s ∈ statements c -> wp (mysql_stmt_fetch s) (fun r c' =>
    same_objects c c' /\
    (r.1 <> MYSQL_NO_DATA -> fetch_fails r.1 = false ->
     (result_size c' s < result_size c s)%nat)) c;
  fetch_column_law s n i c : s ∈ statements c -> wp (mysql_stmt_fetch_column s n i) (fun _ c' =>
    same_objects c c' /\ (result_size c' s <= result_size c s)%nat) c;
  stmt_close_law s c : s ∈ statements c -> wp (mysql_stmt_close s) (fun _ c' =>
    handles c' = handles c /\ clock c <= clock c' /\ statements c' = statements c ∖ {[s]}) c;
}.

(** ** Lemmas *)

Section protocol.
Context `{MySqlProtocol}.

#[export] Instance same_objects_preorder : PreOrder same_objects.
Proof.
  split.
  - intros c. by split.
  - intros c c' c'' [] []. split; [congruence|congruence|lia].
Qed.

#[export] Instance undisturbed_preorder : PreOrder undisturbed.
Proof.
  split.
  - intros c. by split.
  - intros c c' c'' [] []. split; [congruence|auto].
Qed.

Lemma idles_keeps {A} (m : ST Client A) c : idles m c -> keeps m c.
Proof. intros Hm. eapply wp_mono; [apply Hm|]. by intros a c' [? _]. Qed.

Lemma keeps_wp {A} (m : ST Client A) (Q : A -> Client -> Prop) c :
  keeps m c -> (forall a c', same_objects c c' -> Q a c') -> wp m Q c.
Proof. intros Hm HQ. eapply wp_mono; [apply Hm|]. intros a c' Hc. by apply HQ. Qed.

Lemma keeps_ret {A} (a : A) c : keeps (mret a) c.
Proof. by apply wp_ret. Qed.

Lemma keeps_bind {A B} (m : ST Client A) (f : A -> ST Client B) c :
  keeps m c -> (forall a c', same_objects c c' -> keeps (f a) c') -> keeps (m ≫= f) c.
Proof.
  intros Hm Hf. apply wp_bind, (keeps_wp m); [done|]. intros a c' Hc.
  eapply wp_mono; [apply (Hf a c' Hc)|]. intros b c'' Hc'. by etrans.
Qed.

(** *** Code that holds a connection, and maybe a statement

    [balanced h m]: run on the live connection [h], [m] frees every statement
    it allocates.  [uses h s m]: [m] leaves statement [s] open.
    [releases h s m]: [m] is entered with [s] open, and closes it once. *)
Definition balanced {A} (h : MYSQL) (m : ST Client A) : Prop :=
  forall c, h ∈ handles c -> keeps m c.

Definition uses {A} (h : MYSQL) (s : MYSQL_STMT) (m : ST Client A) : Prop :=
  forall c, h ∈ handles c -> s ∈ statements c -> keeps m c.

Record borrowed (s : MYSQL_STMT) (c0 c : Client) : Prop := {
  borrowed_fresh : s ∉ statements c0;
  borrowed_open : statements c = {[s]} ∪ statements c0;
  borrowed_handles : handles c = handles c0;
  borrowed_clock : clock c0 <= clock c;
}.

Definition releases {A} (h : MYSQL) (s : MYSQL_STMT) (m : ST Client A) : Prop :=
  forall c0 c, h ∈ handles c0 -> borrowed s c0 c -> wp m (fun _ => same_objects c0) c.

Lemma borrowed_step s c0 c c' : borrowed s c0 c -> same_objects c c' -> borrowed s c0 c'.
Proof. intros [] []. split; [done|congruence|congruence|lia]. Qed.

Lemma balanced_ret {A} h (a : A) : balanced h (mret a).
Proof. intros c _. apply keeps_ret. Qed.

Lemma balanced_gets {A} h (f : Client -> A) : balanced h (gets f).
Proof. intros c _. unfold keeps, wp. simpl. reflexivity. Qed.

Lemma balanced_bind {A B} h (m : ST Client A) (f : A -> ST Client B) :
  balanced h m -> (forall a, balanced h (f a)) -> balanced h (m ≫= f).
Proof.
  intros Hm Hf c Hh. apply keeps_bind; [by apply Hm|]. intros a c' [E _ _]. apply Hf. by rewrite E.
Qed.

Lemma balanced_uses {A} h s (m : ST Client A) : balanced h m -> uses h s m.
Proof. intros Hm c Hh _. by apply Hm. Qed.

Lemma uses_bind {A B} h s (m : ST Client A) (f : A -> ST Client B) :
  uses h s m -> (forall a, uses h s (f a)) -> uses h s (m ≫= f).
Proof.
  intros Hm Hf c Hh Hs. apply keeps_bind; [by apply Hm|]. intros a c' [Eh Es _].
  apply Hf; by rewrite ?Eh, ?Es.
Qed.

Lemma releases_bind {A B} h s (m : ST Client A) (f : A -> ST Client B) :
  uses h s m -> (forall a, releases h s (f a)) -> releases h s (m ≫= f).
Proof.
  intros Hm Hf c0 c Hh Hb. pose proof Hb as [_ Eo Eh _]. apply wp_bind, (keeps_wp m).
  { apply Hm; [by rewrite Eh|rewrite Eo; set_solver]. }
  intros a c' Hc. apply (Hf a c0 c' Hh). by eapply borrowed_step.
Qed.

(** Once closed, the statement is gone and the connection is as before. *)
Lemma releases_close {A} h s (k : unit -> ST Client A) :
  balanced h (k tt) -> releases h s (mysql_stmt_close s ≫= k).
Proof.
  intros Hk c0 c Hh [Hf Eo Eh Hc]. apply wp_bind. eapply wp_mono.
  { apply stmt_close_law. rewrite Eo. set_solver. }
  intros [] c' (Eh' & Hc' & Eo'). assert (Hs : same_objects c0 c').
  { split; [congruence| |lia]. rewrite Eo', Eo. set_solver. }
  eapply wp_mono; [apply Hk; by rewrite Eh', Eh|]. intros a c'' Hc''. by etrans.
Qed.

Lemma releases_closing {A} h s (r : A) : releases h s (closing s r).
Proof. apply releases_close, balanced_ret. Qed.

(** Allocating a statement: code that stops when there is none, and releases
    the one it gets, is balanced. *)
Lemma balanced_stmt_init {A} h (k : option MYSQL_STMT -> ST Client A) :
  balanced h (k None) -> (forall s, releases h s (k (Some s))) ->
  balanced h (mysql_stmt_init h ≫= k).
Proof.
  intros Hn Hs c Hh. apply wp_bind. eapply wp_mono; [by apply stmt_init_law|].
  intros [s|] c' (Eh & Hc & Es).
  - destruct Es as [Hf Es]. eapply wp_mono; [by apply (Hs s c c')|done].
  - assert (Hcc : same_objects c c') by (by split).
    eapply wp_mono; [apply Hn; by rewrite Eh|]. intros a c'' Hc''. by etrans.
Qed.

Lemma uses_either_fails h s (m1 m2 : ST Client Z) :
  uses h s m1 -> uses h s m2 -> uses h s (either_fails m1 m2).
Proof.
  intros Hm1 Hm2. apply uses_bind; [done|]. intros r. case_if; [apply balanced_uses, balanced_ret|].
  apply uses_bind; [done|]. intros r'. apply balanced_uses, balanced_ret.
Qed.

Lemma uses_fetch_rows {A} h s (on_row : list Cell -> ST Client (option A)) fuel rows :
  (forall row, uses h s (on_row row)) -> uses h s (fetch_rows fuel s on_row rows).
Proof.
  intros Hr. revert rows. induction fuel as [|fuel IH]; intros rows.
  { apply balanced_uses, balanced_ret. }
  cbn [fetch_rows]. apply uses_bind.
  { intros c _ Hs. eapply wp_mono; [by apply fetch_law|]. by intros r c' [? _]. }
  intros [status row]. case_if; [apply balanced_uses, balanced_ret|].
  case_if; [apply balanced_uses, balanced_ret|]. apply uses_bind; [apply Hr|]. intros value. apply IH.
Qed.

Lemma uses_fetch_all {A} h s (on_row : list Cell -> ST Client (option A)) :
  (forall row, uses h s (on_row row)) -> uses h s (fetch_all s on_row).
Proof.
  intros Hr. apply uses_bind; [apply balanced_uses, balanced_gets|]. intros n. by apply uses_fetch_rows.
Qed.

Lemma uses_fetch_body h s cell i : uses h s (fetch_body s cell i).
Proof.
  unfold fetch_body. case_if; [|apply balanced_uses, balanced_ret]. apply uses_bind.
  - intros c _ Hs. eapply wp_mono; [by apply fetch_column_law|]. by intros r c' [? _].
  - intros [status body]. apply balanced_uses, balanced_ret.
Qed.

(** The single calls. *)
Lemma uses_statement_call {A} h s (m : ST Client A) :
  (forall c, s ∈ statements c -> keeps m c) -> uses h s m.
Proof. intros Hm c _. apply Hm. Qed.

Lemma uses_fetch h s : uses h s (mysql_stmt_fetch s).
Proof. intros c _ Hs. eapply wp_mono; [by apply fetch_law|]. by intros r c' [? _]. Qed.

Lemma balanced_query h q : balanced h (execute_query h q).
Proof.
  apply balanced_bind; [intros c; apply query_law|]. intros r. apply balanced_ret.
Qed.

(** *** The fetch loops end *)
Lemma fetch_rows_enough {A} h s (on_row : list Cell -> ST Client (option A)) fuel fuel' rows c :
  (forall row c, s ∈ statements c -> wp (on_row row) (fun _ c' =>
     same_objects c c' /\ (result_size c' s <= result_size c s)%nat) c) ->
  h ∈ handles c -> s ∈ statements c ->
  (result_size c s < fuel)%nat -> (result_size c s < fuel')%nat ->
  fetch_rows fuel s on_row rows c = fetch_rows fuel' s on_row rows c.
Proof.
  intros Hr. revert fuel' rows c. induction fuel as [|fuel IH]; intros [|fuel'] rows c Hh Hs Hf Hf';
    try lia. cbn [fetch_rows]. unfold mbind, ST_bind.
  pose proof (fetch_law s c Hs) as [[E1 E2 _] Hsize].
  destruct (mysql_stmt_fetch s c) as [[status row] c1]. cbn [fst snd] in *.
  destruct (status =? MYSQL_NO_DATA) eqn:En; [done|].
  destruct (fetch_fails status) eqn:Ef; [done|]. specialize (Hsize ltac:(lia) eq_refl).
  assert (Hs1 : s ∈ statements c1) by (by rewrite E2).
  pose proof (Hr row c1 Hs1) as [[E3 E4 _] Hsize'].
  destruct (on_row row c1) as [value c2]. cbn [fst snd] in *.
  apply IH; [by rewrite E3, E1|by rewrite E4|lia|lia].
Qed.
End protocol.

Ltac unfold_head m :=
  lazymatch m with
  | ?f _ => unfold_head f
  | _ => unfold m
  end.

(** [balance] proves [balanced] for code that follows the life cycle: it
    takes apart the code along its calls and conditions. *)
Ltac balance :=
  repeat
    first
    [ progress intros
    | apply balanced_stmt_init
    | apply balanced_query
    | apply balanced_ret
    | apply releases_closing
    | apply releases_close
    | apply uses_fetch
    | apply uses_fetch_body
    | apply uses_either_fails
    | apply uses_fetch_all
    | apply uses_statement_call; intros; first
        [ by apply prepare_law | by apply bind_param_law | by apply execute_law
        | by apply affected_rows_law | by apply bind_result_law ]
    | apply balanced_uses, balanced_ret
    | match goal with
      | |- uses _ _ (mysql_insert_id _) =>
          intros ? ? ?; by apply idles_keeps, insert_id_law
      | |- balanced _ (mysql_errno _) => intros ? ?; by apply idles_keeps, errno_law
      | |- balanced _ (_ ≫= _) => apply balanced_bind
      | |- releases _ _ (_ ≫= _) => apply releases_bind
      | |- uses _ _ (_ ≫= _) => apply uses_bind
      | |- balanced _ (if ?b then _ else _) => destruct b
      | |- releases _ _ (if ?b then _ else _) => destruct b
      | |- uses _ _ (if ?b then _ else _) => destruct b
      | |- balanced _ (match ?b with _ => _ end) => destruct b
      | |- releases _ _ (match ?b with _ => _ end) => destruct b
      | |- uses _ _ (match ?b with _ => _ end) => destruct b
      | |- balanced _ ?m => unfold_head m
      | |- uses _ _ ?m => unfold_head m
      | |- releases _ _ ?m => unfold_head m
      end ].
