(* ===== verification/MySqlTables.v ===== *)
(** * MySqlTables: what the calls of the client library mean when all works

    [MySqlTables] relates the calls on a statement to the tables: prepared with
    one of the program's texts, a statement that is executed has the effect and
    the rows [SqlTables.run] gives, and the rows are fetched in order into the
    bound variables.  The laws are the documented behaviour of a library, a
    network and a server that work ([healthy]), used by one client at a time.
    The rules below them turn each law into a step of a proof about code. *)

From S2P Require Import Prelude.
From S2P Require Import SqlTables.
From S2P Require Import MySqlClient.
Open Scope Z_scope.

(** ** A statement, as the calls see it *)

Record Statement : Type := mkStatement {
  st_mysql : MYSQL;
  st_text : bytes;
  st_params : list Param;
  st_buffers : list Buffer;
  st_rows : list (list Value);
  st_row : list Value;
  st_affected : N;
}.

Definition new_statement (h : MYSQL) : Statement := mkStatement h [] [] [] [] [] 0.
Definition with_text (q : bytes) (st : Statement) : Statement :=
  mkStatement (st_mysql st) q [] [] [] [] 0.
Definition with_params (ps : list Param) (st : Statement) : Statement :=
  mkStatement (st_mysql st) (st_text st) ps (st_buffers st) (st_rows st) (st_row st) (st_affected st).
Definition with_buffers (bufs : list Buffer) (st : Statement) : Statement :=
  mkStatement (st_mysql st) (st_text st) (st_params st) bufs (st_rows st) (st_row st) (st_affected st).
Definition with_rows (row : list Value) (rows : list (list Value)) (st : Statement) : Statement :=
  mkStatement (st_mysql st) (st_text st) (st_params st) (st_buffers st) rows row (st_affected st).

(** After [mysql_stmt_execute]. *)
Definition executed (a : SqlAnswer) (st : Statement) : Statement :=
  match a with
  | Rows rows => mkStatement (st_mysql st) (st_text st) (st_params st) (st_buffers st) rows [] 0
  | Changed n _ _ => mkStatement (st_mysql st) (st_text st) (st_params st) (st_buffers st) [] [] n
  | SqlError _ => st
  end.

(** ** A row in the bound variables *)

(** The bytes of a text that fit the array are copied; the length is the
    text's own. *)
Definition cell_holds (b : Buffer) (v : Value) (cell : Cell) : Prop :=
  match b, v with
  | INTEGER, Number n => cell_integer cell = to_u64 n
  | CHARS size, Text s =>
      cell_length cell = N.of_nat (length s) /\ cell_is_null cell = false /\
      length (cell_chars cell) = size /\
      take (length s) (cell_chars cell) = take size s
  | _, _ => False
  end.

Definition truncated (b : Buffer) (v : Value) : bool :=
  match b, v with
  | CHARS size, Text s => (size <? length s)%nat
  | _, _ => false
  end.

Definition fetch_status (bufs : list Buffer) (row : list Value) : Z :=
  if existsb (fun '(b, v) => truncated b v) (zip bufs row) then MYSQL_DATA_TRUNCATED else 0.

Definition row_fits (bufs : list Buffer) (row : list Value) : Prop :=
  Forall2 (fun b v => match b, v with
                      | INTEGER, Number _ | CHARS _, Text _ => True
                      | _, _ => False
                      end) bufs row.

Definition cells_hold (bufs : list Buffer) (row : list Value) (cells : list Cell) : Prop :=
  forall i b v, bufs !! i = Some b -> row !! i = Some v -> cell_holds b v (column cells i).

(** ** The laws *)

Class MySqlTables `{MySqlView, SqlText} : Type := {
  statement : Client -> MYSQL_STMT -> Statement;
  last_insert_id : Client -> MYSQL -> N;
  (** [CURRENT_TIMESTAMP], as [DATE_FORMAT] prints it. *)
  timestamp : Client -> bytes;
}.

Class MySqlTablesSpec `{MySqlTables} : Prop := {
  timestamp_length c : length (timestamp c) = 19%nat;
  ping_healthy h c : healthy c -> h ∈ handles c -> wp (mysql_ping h) (fun r _ => r = 0) c;
  stmt_init_healthy h c : healthy c -> h ∈ handles c ->
    wp (mysql_stmt_init h) (fun r c' => healthy c' /\ tables c' = tables c /\
      exists s, r = Some s /\ statement c' s = new_statement h) c;
  prepare_healthy s q c : healthy c -> s ∈ statements c ->
    wp (mysql_stmt_prepare s (sql_text q)) (fun r c' => r = 0 /\ healthy c' /\
      tables c' = tables c /\ statement c' s = with_text (sql_text q) (statement c s)) c;
  bind_param_healthy s ps c : healthy c -> s ∈ statements c ->
    wp (mysql_stmt_bind_param s ps) (fun r c' => r = 0 /\ healthy c' /\
      tables c' = tables c /\ statement c' s = with_params ps (statement c s)) c;
  execute_healthy s q c : healthy c -> s ∈ statements c -> st_text (statement c s) = sql_text q ->
    wp (mysql_stmt_execute s) (fun r c' =>
      let a := run (timestamp c) q (st_params (statement c s)) (tables c) in
      healthy c' /\ tables c' = answer_database (tables c) a /\
      statement c' s = executed a (statement c s) /\
      match a with
      | Rows _ => r = 0
      | Changed _ id _ => r = 0 /\ last_insert_id c' (st_mysql (statement c s)) = id
      | SqlError _ => r <> 0
      end) c;
  affected_rows_healthy s c : healthy c -> s ∈ statements c ->
    wp (mysql_stmt_affected_rows s) (fun r c' => r = st_affected (statement c s) /\ healthy c' /\
      tables c' = tables c /\ statement c' s = statement c s) c;
  insert_id_value h c : h ∈ handles c -> wp (mysql_insert_id h) (fun r _ => r = last_insert_id c h) c;
  insert_id_statement h s c : h ∈ handles c ->
    wp (mysql_insert_id h) (fun _ c' => statement c' s = statement c s) c;
  bind_result_healthy s bufs c : healthy c -> s ∈ statements c ->
    wp (mysql_stmt_bind_result s bufs) (fun r c' => r = 0 /\ healthy c' /\
      tables c' = tables c /\ statement c' s = with_buffers bufs (statement c s)) c;
  result_size_rows s c : healthy c -> s ∈ statements c ->
    result_size c s = length (st_rows (statement c s));
  fetch_end s c : healthy c -> s ∈ statements c -> st_rows (statement c s) = [] ->
    wp (mysql_stmt_fetch s) (fun r c' => r.1 = MYSQL_NO_DATA /\ healthy c' /\
      tables c' = tables c /\ statement c' s = statement c s) c;
  fetch_next s row rows c : healthy c -> s ∈ statements c ->
    st_rows (statement c s) = row :: rows -> row_fits (st_buffers (statement c s)) row ->
    wp (mysql_stmt_fetch s) (fun r c' =>
      r.1 = fetch_status (st_buffers (statement c s)) row /\
      cells_hold (st_buffers (statement c s)) row r.2 /\ healthy c' /\
      tables c' = tables c /\ statement c' s = with_rows row rows (statement c s)) c;
  fetch_column_healthy s i t c : healthy c -> s ∈ statements c ->
    st_row (statement c s) !! i = Some (Text t) ->
    wp (mysql_stmt_fetch_column s (length t) i) (fun r c' => r = (0, t) /\ healthy c' /\
      tables c' = tables c /\ statement c' s = statement c s) c;
  stmt_close_healthy s c : healthy c -> s ∈ statements c ->
    wp (mysql_stmt_close s) (fun _ c' => healthy c' /\ tables c' = tables c) c;
  query_healthy h q c : healthy c -> h ∈ handles c ->
    wp (mysql_query h (ddl_text q)) (fun _ c' =>
      healthy c' /\ tables c' = run_ddl q (tables c)) c;
}.

(** ** Steps of proofs *)

Section rules.
Context `{Hview : MySqlView, Hprot : !MySqlProtocol, Htext : SqlText,
          Htab : !MySqlTables, Hspec : !MySqlTablesSpec}.

(** The client while statement [s] of connection [h] is worked with. *)
Record at_work (h : MYSQL) (s : MYSQL_STMT) (st : Statement) (db : Database) (c : Client) : Prop := {
  work_healthy : healthy c;
  work_handle : h ∈ handles c;
  work_open : s ∈ statements c;
  work_statement : statement c s = st;
  work_tables : tables c = db;
}.

Lemma at_work_keeps {A} (m : ST Client A) h s st db st' db' c (P : A -> Client -> Prop) :
  at_work h s st db c -> keeps m c ->
  wp m (fun r c' => P r c' /\ healthy c' /\ tables c' = db' /\ statement c' s = st') c ->
  wp m (fun r c' => P r c' /\ at_work h s st' db' c') c.
Proof.
  intros [Hh Hin Hs Est Et] Hk Hm. eapply wp_mono; [exact (wp_and m (fun _ => same_objects c) _ c Hk Hm)|].
  intros r c' [[Eh Eo _] (Hr & Hh' & Et' & Es')]. split; [done|].
  split; [done|by rewrite Eh|by rewrite Eo|done|done].
Qed.

Lemma work_prepare {A} h s st db q (k : Z -> ST Client A) Q c :
  at_work h s st db c ->
  (forall c', at_work h s (with_text (sql_text q) st) db c' -> wp (k 0) Q c') ->
  wp (mysql_stmt_prepare s (sql_text q) ≫= k) Q c.
Proof.
  intros Hw Hk. pose proof Hw as [Hh Hin Hs <- <-]. apply wp_bind. eapply wp_mono.
  - eapply (at_work_keeps _ _ _ _ _ _ _ _ (fun r _ => r = 0) Hw); [by apply prepare_law|].
    by apply prepare_healthy.
  - intros r c' [-> Hw']. by apply Hk.
Qed.

Lemma work_bind_param {A} h s st db ps (k : Z -> ST Client A) Q c :
  at_work h s st db c ->
  (forall c', at_work h s (with_params ps st) db c' -> wp (k 0) Q c') ->
  wp (mysql_stmt_bind_param s ps ≫= k) Q c.
Proof.
  intros Hw Hk. pose proof Hw as [Hh Hin Hs <- <-]. apply wp_bind. eapply wp_mono.
  - eapply (at_work_keeps _ _ _ _ _ _ _ _ (fun r _ => r = 0) Hw); [by apply bind_param_law|].
    by apply bind_param_healthy.
  - intros r c' [-> Hw']. by apply Hk.
Qed.

Lemma work_bind_result {A} h s st db bufs (k : Z -> ST Client A) Q c :
  at_work h s st db c ->
  (forall c', at_work h s (with_buffers bufs st) db c' -> wp (k 0) Q c') ->
  wp (mysql_stmt_bind_result s bufs ≫= k) Q c.
Proof.
  intros Hw Hk. pose proof Hw as [Hh Hin Hs <- <-]. apply wp_bind. eapply wp_mono.
  - eapply (at_work_keeps _ _ _ _ _ _ _ _ (fun r _ => r = 0) Hw); [by apply bind_result_law|].
    by apply bind_result_healthy.
  - intros r c' [-> Hw']. by apply Hk.
Qed.

Definition is_error (a : SqlAnswer) : bool := match a with SqlError _ => true | _ => false end.

(** The insert id the connection remembers after a change. *)
Definition remembers (h : MYSQL) (a : SqlAnswer) (c : Client) : Prop :=
  match a with Changed _ id _ => last_insert_id c h = id | _ => True end.

(** The SQL of a statement runs once, in [mysql_stmt_execute]. *)
Lemma work_execute {A} h s st db q (k : Z -> ST Client A) Q c :
  at_work h s st db c -> st_text st = sql_text q -> st_mysql st = h ->
  (forall r c' now, length now = 19%nat ->
     let a := run now q (st_params st) db in
     fails r = is_error a -> remembers h a c' ->
     at_work h s (executed a st) (answer_database db a) c' -> wp (k r) Q c') ->
  wp (mysql_stmt_execute s ≫= k) Q c.
Proof.
  intros Hw Eq Em Hk. pose proof Hw as [Hh Hin Hs <- <-]. apply wp_bind. eapply wp_mono.
  - eapply (at_work_keeps _ _ _ _ _ _ _ _
      (fun r c' => fails r = is_error (run (timestamp c) q (st_params (statement c s)) (tables c)) /\
                   remembers h (run (timestamp c) q (st_params (statement c s)) (tables c)) c') Hw);
      [by apply execute_law|].
    eapply wp_mono; [by apply (execute_healthy s q)|].
    rewrite Em. intros r c' (? & Hdb & Hst & Hr). split; [|done].
    destruct (run _ _ _ _); simpl in *; [by rewrite Hr|by destruct Hr as [-> ->]|].
    split; [|done]. unfold fails. lia.
  - intros r c' [[Hf Hrem] Hw']. apply (Hk r c' (timestamp c)); [apply timestamp_length|done..].
Qed.

(** [mysql_stmt_bind_param(...) != 0 || mysql_stmt_execute(...) != 0] *)
Lemma work_bind_execute {A} h s st db q ps (k : bool -> ST Client A) Q c :
  at_work h s st db c -> st_text st = sql_text q -> st_mysql st = h ->
  (forall c' now, length now = 19%nat ->
     let a := run now q ps db in
     remembers h a c' ->
     at_work h s (executed a (with_params ps st)) (answer_database db a) c' ->
     wp (k (is_error a)) Q c') ->
  wp (either_fails (mysql_stmt_bind_param s ps) (mysql_stmt_execute s) ≫= k) Q c.
Proof.
  intros Hw Eq Em Hk. apply wp_bind_assoc, (work_bind_param h s st db); [done|].
  intros c1 Hw1. change (fails 0) with false. cbv iota.
  apply wp_bind_assoc, (work_execute h s (with_params ps st) db q); [done..|].
  intros r c2 now Hnow a Hf Hrem Hw2. apply wp_bind, wp_ret. rewrite Hf. by apply (Hk _ now).
Qed.

Lemma work_stmt_init {A} h (k : option MYSQL_STMT -> ST Client A) Q c :
  healthy c -> h ∈ handles c ->
  (forall s c', at_work h s (new_statement h) (tables c) c' -> wp (k (Some s)) Q c') ->
  wp (mysql_stmt_init h ≫= k) Q c.
Proof.
  intros Hh Hin Hk. apply wp_bind. eapply wp_mono.
  { eapply wp_and; [by apply stmt_init_law|by apply stmt_init_healthy]. }
  intros r c' [(Eh & _ & Eo) (Hh' & Et & s & -> & Es)]. destruct Eo as [_ Eo].
  apply Hk. split; [done|by rewrite Eh|rewrite Eo; set_solver|done|done].
Qed.

Lemma work_close {A} h s st db (k : unit -> ST Client A) Q c :
  at_work h s st db c ->
  (forall c', healthy c' -> h ∈ handles c' -> tables c' = db -> wp (k tt) Q c') ->
  wp (mysql_stmt_close s ≫= k) Q c.
Proof.
  intros [Hh Hin Hs <- <-] Hk. apply wp_bind. eapply wp_mono.
  { eapply wp_and; [by apply stmt_close_law|by apply stmt_close_healthy]. }
  intros [] c' [(Eh & _) (Hh' & Et)]. apply Hk; [done|by rewrite Eh|done].
Qed.

Lemma work_closing {A} h s st db (r : A) Q c :
  at_work h s st db c -> (forall c', healthy c' -> h ∈ handles c' -> tables c' = db -> Q r c') ->
  wp (closing s r) Q c.
Proof.
  intros Hw HQ. unfold closing. eapply work_close; [done|]. intros c' Hh Hin Et. apply wp_ret. by apply HQ.
Qed.

Lemma work_affected {A} h s st db (k : N -> ST Client A) Q c :
  at_work h s st db c ->
  (forall c', at_work h s st db c' -> wp (k (st_affected st)) Q c') ->
  wp (mysql_stmt_affected_rows s ≫= k) Q c.
Proof.
  intros Hw Hk. pose proof Hw as [Hh Hin Hs <- <-]. apply wp_bind. eapply wp_mono.
  - eapply (at_work_keeps _ _ _ _ _ _ _ _ (fun r _ => r = st_affected (statement c s)) Hw);
      [by apply affected_rows_law|]. by apply affected_rows_healthy.
  - intros r c' [-> Hw']. by apply Hk.
Qed.

Lemma work_insert_id {A} h s st db (k : N -> ST Client A) Q c :
  at_work h s st db c ->
  (forall c', at_work h s st db c' -> wp (k (last_insert_id c h)) Q c') ->
  wp (mysql_insert_id h ≫= k) Q c.
Proof.
  intros Hw Hk. pose proof Hw as [Hh Hin Hs <- <-]. apply wp_bind. eapply wp_mono.
  { eapply wp_and; [by apply insert_id_law|].
    eapply wp_and; [by apply insert_id_value|by apply (insert_id_statement h s)]. }
  intros r c' [[[Eh Eo _] [Et Eu]] [-> Es]]. apply Hk.
  split; [by apply Eu|by rewrite Eh|by rewrite Eo|done|done].
Qed.

(** *** Fetching *)
Lemma fetch_status_row bufs row :
  fetch_fails (fetch_status bufs row) = false /\ (fetch_status bufs row =? MYSQL_NO_DATA) = false.
Proof. unfold fetch_status. by case_if. Qed.

Lemma work_fetch_end {A} h s st db (k : Z * list Cell -> ST Client A) Q c :
  at_work h s st db c -> st_rows st = [] ->
  (forall cells c', at_work h s st db c' -> wp (k (MYSQL_NO_DATA, cells)) Q c') ->
  wp (mysql_stmt_fetch s ≫= k) Q c.
Proof.
  intros Hw Er Hk. pose proof Hw as [Hh Hin Hs <- <-]. apply wp_bind. eapply wp_mono.
  - eapply (at_work_keeps _ _ _ _ _ _ _ _ (fun r _ => r.1 = MYSQL_NO_DATA) Hw);
      [|by apply fetch_end].
    eapply wp_mono; [by apply fetch_law|]. by intros r c' [? _].
  - intros [status cells] c' [Ee Hw']. simpl in Ee. subst. by apply Hk.
Qed.

Lemma work_fetch_next {A} h s st db row rows (k : Z * list Cell -> ST Client A) Q c :
  at_work h s st db c -> st_rows st = row :: rows -> row_fits (st_buffers st) row ->
  (forall cells c', cells_hold (st_buffers st) row cells ->
     at_work h s (with_rows row rows st) db c' ->
     wp (k (fetch_status (st_buffers st) row, cells)) Q c') ->
  wp (mysql_stmt_fetch s ≫= k) Q c.
Proof.
  intros Hw Er Hf Hk. pose proof Hw as [Hh Hin Hs <- <-]. apply wp_bind. eapply wp_mono.
  - eapply (at_work_keeps _ _ _ _ _ _ _ _
      (fun r _ => r.1 = fetch_status (st_buffers (statement c s)) row /\
                  cells_hold (st_buffers (statement c s)) row r.2) Hw).
    + eapply wp_mono; [by apply fetch_law|]. by intros r c' [? _].
    + eapply wp_mono; [by apply (fetch_next s row rows)|]. by intros r c' (? & ? & ?).
  - intros [status cells] c' [[Ee Hc] Hw']. simpl in Ee, Hc. subst. by apply Hk.
Qed.

Lemma work_fetch_rows {A} h s db bufs (on_row : list Cell -> ST Client (option A))
    (f : list Value -> option A) rows st fuel acc c :
  at_work h s st db c -> st_buffers st = bufs -> st_rows st = rows -> (length rows < fuel)%nat ->
  Forall (row_fits bufs) rows ->
  (forall row rest cells st c', row ∈ rows -> cells_hold bufs row cells ->
     at_work h s (with_rows row rest st) db c' ->
     wp (on_row cells) (fun v c'' => v = f row /\ at_work h s (with_rows row rest st) db c'') c') ->
  wp (fetch_rows fuel s on_row acc) (fun r c' => r = acc ++ omap f rows /\
    exists st', at_work h s st' db c') c.
Proof.
  revert st fuel acc c. induction rows as [|row rows IH]; intros st [|fuel] acc c Hw Eb Er Hf Hfit Hrow;
    simpl in Hf; try lia; cbn [fetch_rows].
  - eapply work_fetch_end; [done|done|]. intros cells c' Hw'. apply wp_ret.
    split; [by rewrite app_nil_r|by exists st].
  - inversion Hfit as [|? ? Hfr Hfs]; subst. eapply work_fetch_next; [done|done|done|].
    intros cells c' Hc Hw'. destruct (fetch_status_row (st_buffers st) row) as [-> ->]. cbv iota.
    apply wp_bind. eapply wp_mono; [by apply (Hrow row rows cells); [left| |]|].
    intros v c'' [-> Hw'']. eapply wp_mono.
    { eapply (IH _ fuel); [exact Hw''|done|done|lia|done|]. intros row' rest cells' st' c1 Hin. apply Hrow. by right. }
    intros r c3 [-> Hst]. split; [|done]. simpl. destruct (f row); [by rewrite <- app_assoc|done].
Qed.

Lemma work_fetch_all {A B} h s db (on_row : list Cell -> ST Client (option A))
    (f : list Value -> option A) st (k : list A -> ST Client B) Q c :
  at_work h s st db c -> Forall (row_fits (st_buffers st)) (st_rows st) ->
  (forall row rest cells st' c', row ∈ st_rows st -> cells_hold (st_buffers st) row cells ->
     at_work h s (with_rows row rest st') db c' ->
     wp (on_row cells) (fun v c'' => v = f row /\ at_work h s (with_rows row rest st') db c'') c') ->
  (forall st' c', at_work h s st' db c' -> wp (k (omap f (st_rows st))) Q c') ->
  wp (fetch_all s on_row ≫= k) Q c.
Proof.
  intros Hw Hfit Hrow Hk. unfold fetch_all. apply wp_bind_assoc, wp_bind, gets_wp.
  pose proof Hw as [Hh Hin Hs Est Et]. apply wp_bind. eapply wp_mono.
  { eapply (work_fetch_rows h s db _ on_row f); [done|reflexivity|reflexivity| |done|done].
    rewrite result_size_rows by done. rewrite Est. lia. }
  intros r c' [-> [st' Hw']]. by eapply Hk.
Qed.

(** A body is fetched whole through its column, whatever its length. *)
Lemma work_fetch_body h s st db cell i t c :
  at_work h s st db c -> st_row st !! i = Some (Text t) -> cell_holds (CHARS 0) (Text t) cell ->
  wp (fetch_body s cell i) (fun v c' => v = Some t /\ at_work h s st db c') c.
Proof.
  intros Hw Hi (El & En & _ & _). unfold fetch_body. rewrite En, El. simpl negb.
  destruct (0 <? N.of_nat (length t))%N eqn:E0; cbn [andb].
  - rewrite Nat2N.id. pose proof Hw as [Hh Hin Hs <- <-]. apply wp_bind. eapply wp_mono.
    { eapply (at_work_keeps _ _ _ _ _ _ _ _ (fun r _ => r = (0, t)) Hw).
      - eapply wp_mono; [by apply fetch_column_law|]. by intros r c' [? _].
      - by apply (fetch_column_healthy s i t). }
    intros r c' [-> Hw']. by apply wp_ret.
  - apply wp_ret. split; [|done]. destruct t; [done|]. simpl in E0. lia.
Qed.

Lemma work_query {A} h q (k : bool -> ST Client A) Q c :
  healthy c -> h ∈ handles c ->
  (forall r c', healthy c' -> h ∈ handles c' -> tables c' = run_ddl q (tables c) -> wp (k r) Q c') ->
  wp (execute_query h (ddl_text q) ≫= k) Q c.
Proof.
  intros Hh Hin Hk. unfold execute_query. apply wp_bind_assoc, wp_bind. eapply wp_mono.
  { eapply wp_and; [by apply query_law|by apply query_healthy]. }
  intros r c' [[Eh _ _] [Hh' Et]]. apply wp_bind, wp_ret. apply Hk; [done|by rewrite Eh|done].
Qed.
End rules.
