(* ===== verification/ToyServer.v ===== *)
(** * ToyServer: a client library and server in memory

    A concrete instance of [MySql] that keeps the tables itself, recognises the
    program's texts and runs them with [SqlTables.run].  It satisfies the laws
    of [MySqlProtocol] and [MySqlTables], so the hypotheses of the theorems can
    hold; the concrete runs that accompany the theorems are runs of this
    instance.  A switch says whether the server can be reached. *)

From S2P Require Import Prelude.
From S2P Require Import SqlTables.
From S2P Require Import MySqlClient.
From S2P Require Import MySqlTables.
Open Scope Z_scope.

(** ** Text: every byte string is text, one character per byte *)

Definition plain_text : SqlText := {|
  collate s := s;
  well_formed _ := true;
  characters := @length ascii;
|}.

Definition plain_text_spec : @SqlTextSpec plain_text.
Proof. by split. Qed.

(** [tolower] on letters, as a case-insensitive collation compares them. *)
Definition lower (c : ascii) : ascii :=
  if (65 <=? code c)%N && (code c <=? 90)%N then ascii_of_N (code c + 32) else c.

Definition folding_text : SqlText := {|
  collate := map lower;
  well_formed _ := true;
  characters := @length ascii;
|}.

Definition folding_text_spec : @SqlTextSpec folding_text.
Proof. by split. Qed.

(** ** Recognising a text *)

Definition fixed_texts : list Sql :=
  [SelectUserByUsername; SelectUserById; InsertUser; InsertGroup; SelectGroup; InsertMember;
   DeleteMember; SelectMember; SelectGroupMembers; SelectUserGroups; CountColumns; InsertMessage;
   SelectDirectHistory; SelectGroupHistory; SelectDirectPageBefore; SelectDirectPage;
   SelectGroupPageBefore; SelectGroupPage; InsertLog].

Definition unread_clause : bytes := " OR (conversation_type = 2 AND conversation_id = ? AND sender_id <> ?)".

Definition decode (text : bytes) : option Sql :=
  match List.find (fun q => bool_decide (sql_text q = text)) fixed_texts with
  | Some q => Some q
  | None =>
      let n := ((length text - length (select_unread 0)) / length unread_clause)%nat in
      if bool_decide (select_unread n = text) then Some (SelectUnread n) else None
  end.

Definition all_ddl : list Ddl :=
  [CreateUsers; CreateGroups; CreateGroupMembers; CreateMessages; CreateServerLogs;
   AddConversationType; AddConversationId; IndexConversations; IndexSenders; UpdateConversations].

Definition decode_ddl (text : bytes) : option Ddl :=
  List.find (fun q => bool_decide (ddl_text q = text)) all_ddl.

Lemma length_select_unread n :
  length (select_unread n) = (length (select_unread 0) + n * length unread_clause)%nat.
Proof.
  unfold select_unread. rewrite !length_app.
  assert (E : length (concat (replicate n unread_clause)) = (n * length unread_clause)%nat).
  { induction n as [|n IH]; [done|]. cbn [replicate concat]. rewrite length_app, IH. lia. }
  change (bs " OR (conversation_type = 2 AND conversation_id = ? AND sender_id <> ?)")
    with unread_clause. rewrite E. cbn [replicate concat length]. lia.
Qed.

Lemma find_none {A} (f : A -> bool) l : Forall (fun x => f x = false) l -> List.find f l = None.
Proof. induction 1 as [|x l Hx _ IH]; [done|]. simpl. by rewrite Hx. Qed.

Lemma decode_unread n : decode (select_unread n) = Some (SelectUnread n).
Proof.
  unfold decode. rewrite find_none.
  - rewrite length_select_unread. replace (_ / _)%nat with n; [by rewrite bool_decide_eq_true_2|].
    replace (length (select_unread 0) + n * length unread_clause - length (select_unread 0))%nat
      with (n * length unread_clause)%nat by lia.
    by rewrite Nat.div_mul.
  - assert (Hp : Forall (fun q => take 15 (sql_text q) <> bs "SELECT id, type") fixed_texts).
    { apply (bool_decide_unpack _). vm_compute. exact I. }
    eapply Forall_impl; [exact Hp|]. intros q Hq. apply bool_decide_eq_false_2.
    intros E. apply Hq. by rewrite E.
Qed.

Lemma decode_text q : decode (sql_text q) = Some q.
Proof. destruct q; try (vm_compute; reflexivity). apply decode_unread. Qed.

Lemma decode_ddl_text q : decode_ddl (ddl_text q) = Some q.
Proof. destruct q; vm_compute; reflexivity. Qed.

(** ** The library *)

Record ToyClient : Type := mkToyClient {
  toy_handles : gset MYSQL;
  toy_statements : gset MYSQL_STMT;
  toy_statement : gmap MYSQL_STMT Statement;
  toy_insert_id : gmap MYSQL N;
  toy_tables : Database;
  toy_clock : Z;
  toy_reachable : bool;
}.

Section toy.
Context {Htext : SqlText}.

Definition with_handles (l : gset MYSQL) (c : ToyClient) : ToyClient :=
  mkToyClient l (toy_statements c) (toy_statement c) (toy_insert_id c) (toy_tables c) (toy_clock c)
    (toy_reachable c).
Definition with_statements (l : gset MYSQL_STMT) (c : ToyClient) : ToyClient :=
  mkToyClient (toy_handles c) l (toy_statement c) (toy_insert_id c) (toy_tables c) (toy_clock c)
    (toy_reachable c).
Definition with_statement (s : MYSQL_STMT) (st : Statement) (c : ToyClient) : ToyClient :=
  mkToyClient (toy_handles c) (toy_statements c) (<[s := st]> (toy_statement c)) (toy_insert_id c)
    (toy_tables c) (toy_clock c) (toy_reachable c).
Definition with_insert_id (h : MYSQL) (id : N) (c : ToyClient) : ToyClient :=
  mkToyClient (toy_handles c) (toy_statements c) (toy_statement c) (<[h := id]> (toy_insert_id c))
    (toy_tables c) (toy_clock c) (toy_reachable c).
Definition with_tables (db : Database) (c : ToyClient) : ToyClient :=
  mkToyClient (toy_handles c) (toy_statements c) (toy_statement c) (toy_insert_id c) db (toy_clock c)
    (toy_reachable c).
Definition with_clock (t : Z) (c : ToyClient) : ToyClient :=
  mkToyClient (toy_handles c) (toy_statements c) (toy_statement c) (toy_insert_id c) (toy_tables c) t
    (toy_reachable c).

Definition statement_of (c : ToyClient) (s : MYSQL_STMT) : Statement :=
  default (new_statement 0) (toy_statement c !! s).

Definition toy_time : bytes := "2024-01-01 12:00:00".

(** A text in an array, filled up with zeros. *)
Definition cell_of (b : Buffer) (v : Value) : Cell :=
  match b, v with
  | INTEGER, Number n => mkCell (to_u64 n) [] 0 false
  | CHARS size, Text s =>
      mkCell 0 (take size s ++ replicate (size - length s) nul) (N.of_nat (length s)) false
  | _, _ => untouched
  end.

Definition toy_execute (s : MYSQL_STMT) : ST ToyClient Z := fun c =>
  let st := statement_of c s in
  match decode (st_text st) with
  | None => (1, c)
  | Some q =>
      let a := run toy_time q (st_params st) (toy_tables c) in
      let c' := with_tables (answer_database (toy_tables c) a) (with_statement s (executed a st) c) in
      match a with
      | Rows _ => (0, c')
      | Changed _ id _ => (0, with_insert_id (st_mysql st) id c')
      | SqlError _ => (1, c')
      end
  end.

Definition toy_fetch (s : MYSQL_STMT) : ST ToyClient (Z * list Cell) := fun c =>
  let st := statement_of c s in
  match st_rows st with
  | [] => ((MYSQL_NO_DATA, []), c)
  | row :: rows =>
      ((fetch_status (st_buffers st) row, zip_with cell_of (st_buffers st) row),
       with_statement s (with_rows row rows st) c)
  end.

Definition set_statement (f : Statement -> Statement) (s : MYSQL_STMT) : ST ToyClient Z := fun c =>
  (0, with_statement s (f (statement_of c s)) c).

Definition toy_mysql : MySql := {|
  Client := ToyClient;
  steady_clock_now c := (toy_clock c + 1, with_clock (toy_clock c + 1) c);
  mysql_init c := (Some (fresh (toy_handles c)), with_handles ({[fresh (toy_handles c)]} ∪ toy_handles c) c);
  mysql_options _ _ _ := mret tt;
  mysql_real_connect _ _ _ _ _ _ := gets toy_reachable;
  mysql_close h := modify (fun c => with_handles (toy_handles c ∖ {[h]}) c);
  mysql_ping _ := gets (fun c => if toy_reachable c then 0 else 1);
  mysql_query _ text c :=
    match decode_ddl text with
    | Some q => (0, with_tables (run_ddl q (toy_tables c)) c)
    | None => (1, c)
    end;
  mysql_errno _ := mret 0%N;
  mysql_insert_id h := gets (fun c => default 0%N (toy_insert_id c !! h));
  mysql_stmt_init h c :=
    let s := fresh (toy_statements c) in
    (Some s, with_statement s (new_statement h) (with_statements ({[s]} ∪ toy_statements c) c));
  mysql_stmt_prepare s text := set_statement (with_text text) s;
  mysql_stmt_bind_param s ps := set_statement (with_params ps) s;
  mysql_stmt_execute := toy_execute;
  mysql_stmt_affected_rows s := gets (fun c => st_affected (statement_of c s));
  mysql_stmt_bind_result s bufs := set_statement (with_buffers bufs) s;
  mysql_stmt_fetch := toy_fetch;
  mysql_stmt_fetch_column s _ i :=
    gets (fun c => match st_row (statement_of c s) !! i with
                   | Some (Text t) => (0, t)
                   | _ => (1, [])
                   end);
  mysql_stmt_close s := modify (fun c => with_statements (toy_statements c ∖ {[s]}) c);
  result_size c s := length (st_rows (statement_of c s));
  over_read s _ := s;
|}.

Definition toy_view : @MySqlView toy_mysql := {|
  handles := toy_handles : @Client toy_mysql -> _;
  statements := toy_statements : @Client toy_mysql -> _;
  clock := toy_clock : @Client toy_mysql -> _;
  tables := toy_tables : @Client toy_mysql -> _;
  healthy c := toy_reachable c = true;
|}.

Definition toy_tables_view : @MySqlTables toy_mysql toy_view Htext := {|
  statement := statement_of : @Client toy_mysql -> _;
  last_insert_id (c : @Client toy_mysql) h := default 0%N (toy_insert_id c !! h);
  timestamp (_ : @Client toy_mysql) := toy_time;
|}.
End toy.

(** ** It keeps the laws *)

Section laws.
Context {Htext : SqlText}.

Abbreviation toy := (@toy_mysql Htext).
Abbreviation view := (@toy_view Htext).

Lemma toy_still (c c' : ToyClient) :
  toy_handles c' = toy_handles c -> toy_statements c' = toy_statements c -> toy_clock c <= toy_clock c' ->
  @same_objects toy view c c'.
Proof. by split. Qed.

Lemma toy_set_statement_still f s (c : ToyClient) : @same_objects toy view c (set_statement f s c).2.
Proof. by apply toy_still. Qed.

Lemma toy_execute_still s (c : ToyClient) : @same_objects toy view c (toy_execute s c).2.
Proof.
  unfold toy_execute. destruct (decode _) as [q|]; [|by apply toy_still].
  destruct (run _ _ _ _); by apply toy_still.
Qed.

Lemma statement_of_insert s st (c : ToyClient) : statement_of (with_statement s st c) s = st.
Proof. unfold statement_of. simpl. by rewrite lookup_insert_eq. Qed.

Lemma toy_fetch_law s (c : ToyClient) :
  @same_objects toy view c (toy_fetch s c).2 /\
  ((toy_fetch s c).1.1 <> MYSQL_NO_DATA -> fetch_fails (toy_fetch s c).1.1 = false ->
   (length (st_rows (statement_of (toy_fetch s c).2 s)) < length (st_rows (statement_of c s)))%nat).
Proof.
  unfold toy_fetch. destruct (st_rows (statement_of c s)) as [|row rows]; cbn [fst snd]; [by split|].
  split; [by apply toy_still|]. intros _ _. rewrite statement_of_insert. simpl. lia.
Qed.

Lemma toy_protocol : @MySqlProtocol toy view.
Proof.
  split.
  - intros c. split; [|split; [by split|done]]. apply toy_still; simpl; [done|done|lia].
  - intros c. split; [done|]. split; [done|]. split; [by split|]. split; [apply is_fresh|done].
  - intros h o v c _. by split.
  - intros h host user pw db port c _. by split.
  - intros h c _. split; [done|]. split; [done|]. split; [by split|done].
  - intros h c _. by split.
  - intros h q c _. unfold keeps, wp. simpl. destruct (decode_ddl q); by apply toy_still.
  - intros h c _. by split.
  - intros h c _. by split.
  - intros h c _. split; [done|]. split; [done|]. split; [apply is_fresh|done].
  - intros s q c _. apply toy_set_statement_still.
  - intros s ps c _. apply toy_set_statement_still.
  - intros s c _. apply toy_execute_still.
  - intros s c _. by split.
  - intros s bufs c _. apply toy_set_statement_still.
  - intros s c _. apply toy_fetch_law.
  - intros s n i c _. by split.
  - intros s c _. by split.
Qed.

Lemma take_pad (s : bytes) size :
  take (length s) (take size s ++ replicate (size - length s) nul) = take size s /\
  length (take size s ++ replicate (size - length s) nul) = size.
Proof.
  split; [|rewrite length_app, length_take, length_replicate; lia].
  destruct (le_lt_dec (length s) size) as [Hl|Hl].
  - rewrite (take_ge s size) by done. by rewrite take_app_length.
  - replace (size - length s)%nat with O by lia. cbn [replicate]. rewrite app_nil_r.
    rewrite take_take. f_equal. lia.
Qed.

Lemma toy_cells bufs row :
  row_fits bufs row -> cells_hold bufs row (zip_with cell_of bufs row).
Proof.
  intros Hf i b v Hb Hv. unfold column. rewrite lookup_zip_with, Hb, Hv. simpl.
  pose proof (Forall2_lookup_lr _ _ _ _ _ _ Hf Hb Hv) as Hbv.
  destruct b as [|size], v as [n|s]; try done. simpl. destruct (take_pad s size) as [E1 E2].
  by split_and!.
Qed.

Lemma toy_execute_law s q (c : ToyClient) :
  toy_reachable c = true -> st_text (statement_of c s) = sql_text q ->
  wp (@toy_execute Htext s) (fun r c' =>
    let a := run toy_time q (st_params (statement_of c s)) (toy_tables c) in
    toy_reachable c' = true /\ toy_tables c' = answer_database (toy_tables c) a /\
    statement_of c' s = executed a (statement_of c s) /\
    match a with
    | Rows _ => r = 0
    | Changed _ id _ => r = 0 /\ default 0%N (toy_insert_id c' !! st_mysql (statement_of c s)) = id
    | SqlError _ => r <> 0
    end) c.
Proof.
  intros Hr Eq. unfold wp, toy_execute. rewrite Eq, decode_text.
  destruct (run _ _ _ _) as [rows|n id db|e] eqn:Ea; cbn [fst snd]; (split; [done|]; split; [done|]);
    unfold statement_of; simpl; rewrite ?lookup_insert_eq; by split_and!.
Qed.

Lemma toy_tables_spec : @MySqlTablesSpec toy view Htext toy_tables_view.
Proof.
  split.
  - done.
  - intros h c Hr _. unfold wp. simpl. by rewrite Hr.
  - intros h c Hr _. split; [done|]. split; [done|]. exists (fresh (toy_statements c)).
    split; [done|]. apply statement_of_insert.
  - intros s q c Hr _. unfold wp. simpl. by rewrite statement_of_insert.
  - intros s ps c Hr _. unfold wp. simpl. by rewrite statement_of_insert.
  - intros s q c Hr _ Eq. by apply toy_execute_law.
  - intros s c Hr _. by split.
  - by intros h c _.
  - by intros h s c _.
  - intros s bufs c Hr _. unfold wp. simpl. by rewrite statement_of_insert.
  - by intros s c _ _.
  - intros s c Hr _ E. unfold wp. simpl in *. unfold toy_fetch. by rewrite E.
  - intros s row rows c Hr _ E Hf. unfold wp. simpl in *. unfold toy_fetch. rewrite E. cbn [fst snd].
    rewrite statement_of_insert. split; [done|]. split; [by apply toy_cells|done].
  - intros s i t c Hr _ E. unfold wp. simpl in *. by rewrite E.
  - intros s c Hr _. by split.
  - intros h q c Hr _. unfold wp. simpl. by rewrite decode_ddl_text.
Qed.
End laws.

(** A client that has connected to nothing yet. *)
Definition toy_client (db : Database) (reachable : bool) : ToyClient :=
  mkToyClient ∅ ∅ ∅ ∅ db 0 reachable.
