(* ===== verification/UserStore.v ===== *)
(** * UserStore: accounts and password hashes

    [src/src/storage/user_store.cpp] in memory mode ([pool_ == nullptr]), with
    the password hashing both modes use.  OpenSSL is not part of the
    repository: [RAND_bytes] and [PKCS5_PBKDF2_HMAC] are the operations of the
    class [OpenSSL], and [OpenSSLSpec] states the documented output lengths. *)

From S2P Require Import Prelude.
From S2P Require Import CStd.
Open Scope N_scope.

(** ** The OpenSSL interface *)

Class OpenSSL : Type := {
  (** The state of the random generator. *)
  Entropy : Type;
  (** [RAND_bytes(buf, n)]: the bytes, or [None] when it does not return 1. *)
  RAND_bytes : nat -> Entropy -> option bytes * Entropy;
  (** [PKCS5_PBKDF2_HMAC(pass, salt, iter, EVP_sha256(), keylen, out)]. *)
  PKCS5_PBKDF2_HMAC : bytes -> bytes -> Z -> nat -> option bytes;
}.

Class OpenSSLSpec `{OpenSSL} : Prop := {
  RAND_bytes_length n e s e' : RAND_bytes n e = (Some s, e') -> length s = n;
  PBKDF2_length pass salt it n h : PKCS5_PBKDF2_HMAC pass salt it n = Some h -> length h = n;
}.

(** ** Constants and helpers *)

Definition kPbkdf2Iterations : Z := 100000.
Definition kSaltBytes : nat := 16.
Definition kHashBytes : nat := 32.

(** Two lower-case hexadecimal digits per byte. *)
Definition hex_digit (n : N) : ascii := ascii_of_N (if n <? 10 then 48 + n else 87 + n).

Definition to_hex (data : bytes) : bytes :=
  concat (map (fun c => [hex_digit (code c / 16); hex_digit (code c mod 16)]) data).

(** [*end != '\0'] for the suffix [end] points at. *)
Definition stopped_early (rest : bytes) : bool :=
  match rest with
  | [] => false
  | c :: _ => negb (bool_decide (c = nul))
  end.

Fixpoint from_hex_loop (hex : bytes) (acc : bytes) : bytes :=
  match hex with
  | a :: b :: hex =>
      let '(value, rest) := strtol 16 [a; b] in
      if stopped_early rest || (value <? 0)%Z || (255 <? value)%Z then []
      else from_hex_loop hex (acc ++ [ascii_of_N (Z.to_N value)])
  | _ => acc
  end.

Definition from_hex (hex : bytes) : bytes :=
  if Nat.odd (length hex) then [] else from_hex_loop hex [].

(** [std::getline(stream, part, delimiter)] until the text is used up. *)
Definition split (value : bytes) (delimiter : ascii) : list bytes := getlines delimiter value.

(** ** Data *)

Record UserRecord : Type := mkUserRecord {
  user_id : N;
  user_username : bytes;
  user_password_hash : bytes;
}.

Record RegisterResult : Type := mkRegisterResult {
  register_success : bool;
  register_user_id : N;
  register_reason : bytes;
}.

Record UserStore : Type := mkUserStore {
  us_users_by_username_ : gmap bytes UserRecord;
  us_usernames_by_id_ : gmap N bytes;
  us_next_memory_id_ : N;
}.

Definition no_users : UserStore := mkUserStore ∅ ∅ 1.

(** ** Operations *)

Section operations.
Context `{OpenSSL}.

Definition make_hash (password : bytes) (iterations : Z) (salt : bytes) : bytes :=
  match PKCS5_PBKDF2_HMAC password salt iterations kHashBytes with
  | None => []
  | Some hash =>
      bs "pbkdf2_sha256$" ++ to_string_int iterations ++ bs "$" ++
      to_hex salt ++ bs "$" ++ to_hex hash
  end.

Definition hash_password_pbkdf2 (password : bytes) : ST Entropy bytes := fun e =>
  match RAND_bytes kSaltBytes e with
  | (None, e) => ([], e)
  | (Some salt, e) => (make_hash password kPbkdf2Iterations salt, e)
  end.

Definition verify_password_pbkdf2 (password stored_hash : bytes) : bool :=
  match split stored_hash "$"%char with
  | [scheme; iterations; salt; _] =>
      if negb (bool_decide (scheme = bs "pbkdf2_sha256")) then false
      else
        match stoi iterations with
        | Throw _ => false
        | Ok iterations =>
            if (iterations <=? 0)%Z then false
            else
              let salt := from_hex salt in
              if bool_decide (salt = []) then false
              else
                let recalculated := make_hash password iterations salt in
                negb (bool_decide (recalculated = [])) &&
                bool_decide (recalculated = stored_hash)
        end
  | _ => false
  end.

(** [register_user], memory mode; the state is the store and the generator. *)
Definition register_user (username password : bytes) : ST (UserStore * Entropy) RegisterResult :=
  fun '(st, e) =>
  if bool_decide (username = []) || bool_decide (password = []) then
    (mkRegisterResult false 0 "username and password are required", (st, e))
  else if (64 <? length username)%nat then
    (mkRegisterResult false 0 "username too long", (st, e))
  else
    match us_users_by_username_ st !! username with
    | Some _ => (mkRegisterResult false 0 "username already exists", (st, e))
    | None =>
        let '(password_hash, e) := hash_password_pbkdf2 password e in
        if bool_decide (password_hash = []) then
          (mkRegisterResult false 0 "failed to hash password", (st, e))
        else
          let user_id := us_next_memory_id_ st in
          let user := mkUserRecord user_id username password_hash in
          (mkRegisterResult true user_id [],
           (mkUserStore (<[username := user]> (us_users_by_username_ st))
              (<[user_id := username]> (us_usernames_by_id_ st))
              (u64_succ user_id), e))
    end.

Definition find_user_by_username (username : bytes) (st : UserStore) : option UserRecord :=
  us_users_by_username_ st !! username.

Definition find_user_by_id (user_id : N) (st : UserStore) : option UserRecord :=
  match us_usernames_by_id_ st !! user_id with
  | None => None
  | Some username => us_users_by_username_ st !! username
  end.

(** [out_user] is the result when the function returns true. *)
Definition verify_login (username password : bytes) (st : UserStore) : option UserRecord :=
  match find_user_by_username username st with
  | None => None
  | Some user =>
      if negb (verify_password_pbkdf2 password (user_password_hash user)) then None
      else Some user
  end.
End operations.

(** ** Invariant: the two indexes agree, and ids come from the counter *)

Record users_ok (st : UserStore) : Prop := {
  users_by_name n r :
    us_users_by_username_ st !! n = Some r ->
    user_username r = n /\ us_usernames_by_id_ st !! user_id r = Some n;
  users_by_id i n :
    us_usernames_by_id_ st !! i = Some n ->
    1 <= i < us_next_memory_id_ st /\
    exists r, us_users_by_username_ st !! n = Some r /\ user_id r = i;
}.

(** The id counter has not reached the top of [std::uint64_t]. *)
Definition users_room (st : UserStore) : Prop :=
  1 <= us_next_memory_id_ st /\ us_next_memory_id_ st + 1 < u64_modulus.

(** ** Lemmas: hexadecimal *)
Lemma strtol_hex_byte (c : ascii) :
  strtol 16 [hex_digit (code c / 16); hex_digit (code c mod 16)] = (Z.of_N (code c), []).
Proof. destruct c as [[] [] [] [] [] [] [] []]; vm_compute; reflexivity. Qed.

Lemma to_hex_length (s : bytes) : length (to_hex s) = (2 * length s)%nat.
Proof.
  unfold to_hex. induction s as [|c s IH]; [done|]. cbn [map concat].
  rewrite length_app, IH. simpl. lia.
Qed.

Lemma from_hex_loop_to_hex (s acc : bytes) : from_hex_loop (to_hex s) acc = acc ++ s.
Proof.
  revert acc. induction s as [|c s IH]; intros acc; [by rewrite app_nil_r|].
  change (to_hex (c :: s)) with
    (hex_digit (code c / 16) :: hex_digit (code c mod 16) :: to_hex s).
  cbn [from_hex_loop]. rewrite strtol_hex_byte. simpl stopped_early.
  pose proof (N_ascii_bounded c).
  replace ((Z.of_N (code c) <? 0)%Z) with false by lia.
  replace ((255 <? Z.of_N (code c))%Z) with false by lia. simpl.
  rewrite N2Z.id, ascii_N_embedding, IH, <- app_assoc. done.
Qed.

Lemma from_hex_to_hex (s : bytes) : from_hex (to_hex s) = s.
Proof.
  unfold from_hex. rewrite to_hex_length, Nat.odd_mul. simpl. apply from_hex_loop_to_hex.
Qed.

Lemma hex_digit_not_dollar (n : N) : n < 16 -> hex_digit n <> "$"%char.
Proof.
  intros Hn H%(f_equal N_of_ascii). revert H. unfold hex_digit.
  case_if; rewrite N_ascii_embedding; change (code "$"%char) with 36; lia.
Qed.

Lemma to_hex_no_dollar (s : bytes) : "$"%char ∉ to_hex s.
Proof.
  unfold to_hex. induction s as [|c s IH]; [apply not_elem_of_nil|]. cbn [map concat].
  rewrite elem_of_app. intros [H|H]; [|done].
  pose proof (N_ascii_bounded c).
  rewrite !elem_of_cons in H. destruct H as [H|[H|H]]; [| |by apply not_elem_of_nil in H];
    symmetry in H; revert H; apply hex_digit_not_dollar.
  - apply N.Div0.div_lt_upper_bound. lia.
  - apply N.mod_lt. lia.
Qed.

Lemma digits_no_dollar (ds : bytes) : Forall (fun c => isdigit c = true) ds -> "$"%char ∉ ds.
Proof. intros H Hin. by apply (proj1 (Forall_forall _ _) H) in Hin. Qed.

(** ** Lemmas: password hashes *)

Section passwords.
Context `{OpenSSL} {Hspec : OpenSSLSpec}.

Lemma to_hex_inj (a b : bytes) : to_hex a = to_hex b -> a = b.
Proof. intros E. by rewrite <- (from_hex_to_hex a), E, from_hex_to_hex. Qed.

Lemma to_hex_nonempty (s : bytes) : s <> [] -> to_hex s <> [].
Proof. intros Hs E. apply (f_equal length) in E. rewrite to_hex_length in E. by destruct s. Qed.

Lemma make_hash_some (p salt key : bytes) (it : Z) :
  PKCS5_PBKDF2_HMAC p salt it kHashBytes = Some key -> (0 <= it)%Z ->
  make_hash p it salt =
    bs "pbkdf2_sha256" ++ "$"%char :: to_string (Z.to_N it) ++ "$"%char ::
      to_hex salt ++ "$"%char :: to_hex key.
Proof.
  intros E Hit. unfold make_hash. rewrite E, to_string_int_pos by done. reflexivity.
Qed.

(** The four parts of a hash are what [split] finds in it. *)
Lemma split_hash (it salt key : bytes) :
  "$"%char ∉ it -> it <> [] -> salt <> [] -> key <> [] ->
  split (bs "pbkdf2_sha256" ++ "$"%char :: it ++ "$"%char ::
           to_hex salt ++ "$"%char :: to_hex key) "$"%char
    = [bs "pbkdf2_sha256"; it; to_hex salt; to_hex key].
Proof.
  intros Hit Hne Hs Hk.
  assert (Hd : "$"%char ∉ bs "pbkdf2_sha256") by (refine (bool_decide_unpack _ _); exact I).
  unfold split. rewrite !getlines_line by (done || apply to_hex_no_dollar).
  by rewrite getlines_last; [| |apply to_hex_nonempty]; [|apply to_hex_no_dollar|].
Qed.

(** Checking a password against the hash of another one compares the keys. *)
Lemma verify_make_hash (p q salt key : bytes) (it : Z) :
  (0 < it <= int_max)%Z -> salt <> [] ->
  PKCS5_PBKDF2_HMAC p salt it kHashBytes = Some key ->
  verify_password_pbkdf2 q (make_hash p it salt) =
    bool_decide (PKCS5_PBKDF2_HMAC q salt it kHashBytes = Some key).
Proof.
  intros Hit Hs Ek. assert (Hkey : key <> []).
  { apply PBKDF2_length in Ek. by destruct key. }
  rewrite (make_hash_some p salt key it Ek) by lia. unfold verify_password_pbkdf2.
  rewrite split_hash; try done;
    [|apply digits_no_dollar, to_string_digits|apply to_string_nonempty].
  rewrite bool_decide_eq_true_2 by done. simpl negb. cbv iota.
  rewrite stoi_to_string by lia. rewrite Z2N.id by lia.
  replace (it <=? 0)%Z with false by lia.
  rewrite from_hex_to_hex, bool_decide_eq_false_2 by done.
  destruct (PKCS5_PBKDF2_HMAC q salt it kHashBytes) as [key'|] eqn:Eq.
  - rewrite (make_hash_some q salt key' it Eq) by lia.
    rewrite bool_decide_eq_false_2 by done. simpl negb. rewrite andb_true_l.
    apply bool_decide_ext. split; [|by intros [= ->]].
    intros E. do 2 f_equal. apply to_hex_inj.
    apply app_inv_head in E. injection E as E. apply app_inv_head in E. injection E as E.
    apply app_inv_head in E. by injection E.
  - unfold make_hash. rewrite Eq. by rewrite bool_decide_eq_true_2.
Qed.

(** What passes the check was printed by [make_hash]. *)
Lemma verified_hash (q stored : bytes) :
  verify_password_pbkdf2 q stored = true ->
  exists it salt key, (0 < it <= int_max)%Z /\ salt <> [] /\
    PKCS5_PBKDF2_HMAC q salt it kHashBytes = Some key /\ stored = make_hash q it salt.
Proof.
  unfold verify_password_pbkdf2. destruct (split stored _) as [|s [|i [|sa [|k [|? ?]]]]]; try done.
  destruct (bool_decide _); [|done]. cbn [negb]. destruct (stoi i) as [it|] eqn:Ei; [|done].
  destruct (it <=? 0)%Z eqn:El; [done|]. cbv zeta.
  destruct (bool_decide (from_hex sa = [])) eqn:Es; [done|]. apply bool_decide_eq_false in Es.
  intros [Hne%negb_true_iff%bool_decide_eq_false E%bool_decide_eq_true]%andb_true_iff.
  destruct (PKCS5_PBKDF2_HMAC q (from_hex sa) it kHashBytes) as [key|] eqn:Ek.
  - exists it, (from_hex sa), key. apply stoi_range in Ei. split; [lia|]. done.
  - unfold make_hash in Hne. by rewrite Ek in Hne.
Qed.

Lemma verify_password_iff (q stored : bytes) :
  verify_password_pbkdf2 q stored = true <->
  exists it salt key, (0 < it <= int_max)%Z /\ salt <> [] /\
    PKCS5_PBKDF2_HMAC q salt it kHashBytes = Some key /\
    stored = bs "pbkdf2_sha256$" ++ to_string (Z.to_N it) ++ bs "$" ++
             to_hex salt ++ bs "$" ++ to_hex key.
Proof.
  split.
  - intros (it & salt & key & Hit & Hs & Hk & ->)%verified_hash. exists it, salt, key.
    split; [done|]. split; [done|]. split; [done|]. by rewrite (make_hash_some q salt key it) by (done || lia).
  - intros (it & salt & key & Hit & Hs & Hk & ->).
    pose proof (verify_make_hash q q salt key it Hit Hs Hk) as E.
    rewrite (make_hash_some q salt key it) in E by (done || lia).
    etransitivity; [exact E|]. by apply bool_decide_eq_true.
Qed.

(** A successful [hash_password_pbkdf2] is [make_hash] on a fresh salt. *)
Lemma hash_password_make_hash (p h : bytes) (e e' : Entropy) :
  hash_password_pbkdf2 p e = (h, e') -> h <> [] ->
  exists salt key, salt <> [] /\
    PKCS5_PBKDF2_HMAC p salt kPbkdf2Iterations kHashBytes = Some key /\
    h = make_hash p kPbkdf2Iterations salt.
Proof.
  unfold hash_password_pbkdf2. destruct (RAND_bytes kSaltBytes e) as [[salt|] e1] eqn:Er.
  - intros [= <- <-] Hne. unfold make_hash in Hne.
    destruct (PKCS5_PBKDF2_HMAC p salt kPbkdf2Iterations kHashBytes) as [key|] eqn:Ek; [|done].
    exists salt, key. split; [|done]. apply RAND_bytes_length in Er. by destruct salt.
  - by intros [= <- <-].
Qed.

Lemma verify_own_hash (p h : bytes) (e e' : Entropy) :
  hash_password_pbkdf2 p e = (h, e') -> h <> [] -> verify_password_pbkdf2 p h = true.
Proof.
  intros E Hne. destruct (hash_password_make_hash p h e e' E Hne) as (salt & key & Hs & Hk & ->).
  rewrite (verify_make_hash p p salt key); [by apply bool_decide_eq_true|done|done|done].
Qed.
End passwords.

(** ** Lemmas: the store *)

Section store.
Context `{OpenSSL}.

Lemma users_ok_no_users : users_ok no_users.
Proof. split; intros ? ?; unfold no_users; simpl; by rewrite lookup_empty. Qed.

(** The cases of [register_user]. *)
Lemma register_user_cases (u p : bytes) (st st' : UserStore) (e e' : Entropy) r :
  register_user u p (st, e) = (r, (st', e')) ->
  (register_success r = false /\ register_user_id r = 0 /\ register_reason r <> [] /\ st' = st) \/
  (exists h, register_success r = true /\ register_user_id r = us_next_memory_id_ st /\
    u <> [] /\ p <> [] /\ (length u <= 64)%nat /\ us_users_by_username_ st !! u = None /\
    h <> [] /\ hash_password_pbkdf2 p e = (h, e') /\
    st' = mkUserStore
      (<[u := mkUserRecord (us_next_memory_id_ st) u h]> (us_users_by_username_ st))
      (<[us_next_memory_id_ st := u]> (us_usernames_by_id_ st))
      (u64_succ (us_next_memory_id_ st))).
Proof.
  unfold register_user.
  destruct (bool_decide (u = []) || bool_decide (p = [])) eqn:E1.
  { intros [= <- <- <-]. by left. }
  apply orb_false_elim in E1 as [Hu%bool_decide_eq_false Hp%bool_decide_eq_false].
  destruct (64 <? length u)%nat eqn:E2; [intros [= <- <- <-]; by left|].
  destruct (us_users_by_username_ st !! u) eqn:E3; [intros [= <- <- <-]; by left|].
  destruct (hash_password_pbkdf2 p e) as [h e1] eqn:E4.
  destruct (bool_decide (h = [])) eqn:E5; [intros [= <- <- <-]; by left|].
  apply bool_decide_eq_false in E5. intros [= <- <- <-]. right. exists h. simpl.
  repeat split; try done. lia.
Qed.

(** Registering a new name works when OpenSSL does. *)
Lemma register_user_fresh (u p salt key : bytes) (st : UserStore) (e e' : Entropy) :
  u <> [] -> p <> [] -> (length u <= 64)%nat -> us_users_by_username_ st !! u = None ->
  RAND_bytes kSaltBytes e = (Some salt, e') ->
  PKCS5_PBKDF2_HMAC p salt kPbkdf2Iterations kHashBytes = Some key ->
  (register_user u p (st, e)).1 = mkRegisterResult true (us_next_memory_id_ st) [].
Proof.
  intros Hu Hp Hl Hn Hr Hk. unfold register_user.
  rewrite !bool_decide_eq_false_2 by done. simpl orb. cbv iota.
  replace (64 <? length u)%nat with false by lia. rewrite Hn.
  unfold hash_password_pbkdf2. rewrite Hr. unfold make_hash. by rewrite Hk.
Qed.

Lemma register_user_ok (u p : bytes) (st st' : UserStore) (e e' : Entropy) r :
  users_ok st -> users_room st ->
  register_user u p (st, e) = (r, (st', e')) -> users_ok st'.
Proof.
  intros [Hn Hi] [Hr1 Hr2] E.
  apply register_user_cases in E as [(_ & _ & _ & ->)|(h & _ & _ & _ & _ & _ & Hu & _ & _ & ->)];
    [by split|].
  assert (Hfresh : us_usernames_by_id_ st !! us_next_memory_id_ st = None).
  { destruct (us_usernames_by_id_ st !! _) as [n|] eqn:En; [|done]. apply Hi in En as [? _]. lia. }
  split; simpl; rewrite ?u64_succ_small by done.
  - intros n r'. rewrite lookup_insert. case_decide as Hd.
    + subst. intros [= <-]. simpl. by rewrite lookup_insert_eq.
    + intros Hr'. destruct (Hn n r' Hr') as [<- Hid]. split; [done|].
      rewrite lookup_insert_ne; [done|]. intros Heq. rewrite Heq in Hfresh. by simplify_eq.
  - intros i n. rewrite lookup_insert. case_decide as Hd.
    + subst. intros [= <-]. split; [lia|]. eexists. by rewrite lookup_insert_eq.
    + intros Hin. destruct (Hi i n Hin) as [Hb (r' & Hr' & <-)]. split; [lia|].
      exists r'. rewrite lookup_insert_ne; [done|]. intros ->. by simplify_eq.
Qed.

Lemma register_user_next (u p : bytes) (st st' : UserStore) (e e' : Entropy) r :
  users_room st -> register_user u p (st, e) = (r, (st', e')) ->
  us_next_memory_id_ st <= us_next_memory_id_ st' <= us_next_memory_id_ st + 1.
Proof.
  intros [Hr1 Hr2] E.
  apply register_user_cases in E as [(_ & _ & _ & ->)|(h & _ & _ & _ & _ & _ & _ & _ & _ & ->)];
    simpl; rewrite ?u64_succ_small by done; lia.
Qed.

(** Registered records stay. *)
Lemma register_user_mono (u p : bytes) (st st' : UserStore) (e e' : Entropy) r n rec :
  register_user u p (st, e) = (r, (st', e')) ->
  us_users_by_username_ st !! n = Some rec -> us_users_by_username_ st' !! n = Some rec.
Proof.
  intros E Hn.
  apply register_user_cases in E as [(_ & _ & _ & ->)|(h & _ & _ & _ & _ & _ & Hu & _ & _ & ->)];
    [done|]. simpl. rewrite lookup_insert_ne; [done|]. intros ->. by simplify_eq.
Qed.

Lemma find_user_by_id_spec (st : UserStore) (i : N) (r : UserRecord) :
  users_ok st ->
  find_user_by_id i st = Some r <->
  us_users_by_username_ st !! user_username r = Some r /\ user_id r = i.
Proof.
  intros [Hn Hi]. unfold find_user_by_id. split.
  - destruct (us_usernames_by_id_ st !! i) as [n|] eqn:E; [|discriminate]. intros Hr.
    apply Hi in E as [_ (r' & Hr' & Hid)].
    rewrite Hr in Hr'. injection Hr' as <-. by destruct (Hn _ _ Hr) as [-> _].
  - intros [Hr <-]. destruct (Hn _ _ Hr) as [_ ->]. done.
Qed.

Lemma users_ok_id_inj (st : UserStore) n1 n2 r1 r2 :
  users_ok st -> us_users_by_username_ st !! n1 = Some r1 ->
  us_users_by_username_ st !! n2 = Some r2 -> user_id r1 = user_id r2 -> n1 = n2 /\ r1 = r2.
Proof.
  intros U H1 H2 E. destruct (users_by_name st U _ _ H1) as [_ K1].
  destruct (users_by_name st U _ _ H2) as [_ K2]. rewrite E in K1. by simplify_eq.
Qed.

Lemma verify_login_found (u p : bytes) (st : UserStore) (r : UserRecord) :
  verify_login u p st = Some r ->
  us_users_by_username_ st !! u = Some r /\
  verify_password_pbkdf2 p (user_password_hash r) = true.
Proof.
  unfold verify_login, find_user_by_username.
  destruct (us_users_by_username_ st !! u) as [r'|]; [|discriminate].
  case_if; [discriminate|]. intros [= ->]. apply negb_false_iff in E. done.
Qed.
End store.

(** ** A concrete library for the examples

    The salt is constant and the derived key is the padded password: enough
    to run the code, and an instance of the documented contract. *)

Definition toy_openssl : OpenSSL := {|
  Entropy := unit;
  RAND_bytes n e := (Some (replicate n "s"%char), e);
  PKCS5_PBKDF2_HMAC pass salt it n := Some (take n (pass ++ replicate n nul));
|}.

Lemma toy_openssl_spec : @OpenSSLSpec toy_openssl.
Proof.
  split; simpl.
  - intros n e s e' [= <- <-]. apply length_replicate.
  - intros pass salt it n h [= <-]. rewrite length_take, length_app, length_replicate. lia.
Qed.

(** ** Theorems *)

Section theorems.
Context `{OpenSSLSpec}.

(** C31: Passwords: a password is verified by a stored text exactly when the
    text is the scheme name, a positive [int] number of iterations, the
    hexadecimal digits of a non-empty salt and those of the key the password
    derives under them, printed the way [make_hash] prints them; any other text
    (fewer or more fields, another scheme, no iterations, no salt, digits that
    are not the printed ones, anything appended) verifies no password.  So a
    hash made by [hash_password_pbkdf2] verifies exactly the passwords whose
    key under its salt is the same, its own among them. *)
Theorem password_verification :
  (forall q stored, verify_password_pbkdf2 q stored = true <->
     exists iterations salt key, (0 < iterations <= int_max)%Z /\ salt <> [] /\
       PKCS5_PBKDF2_HMAC q salt iterations kHashBytes = Some key /\
       stored = bs "pbkdf2_sha256$" ++ to_string (Z.to_N iterations) ++ bs "$" ++
                to_hex salt ++ bs "$" ++ to_hex key) /\
  (forall p h e e', hash_password_pbkdf2 p e = (h, e') -> h <> [] ->
     verify_password_pbkdf2 p h = true /\
     exists salt key,
       PKCS5_PBKDF2_HMAC p salt kPbkdf2Iterations kHashBytes = Some key /\
       forall q, verify_password_pbkdf2 q h = true <->
                 PKCS5_PBKDF2_HMAC q salt kPbkdf2Iterations kHashBytes = Some key).
Proof.
  split; [apply verify_password_iff|]. intros p h e e' E Hh.
  split; [by apply (verify_own_hash _ _ _ _ E)|].
  destruct (hash_password_make_hash p h e e' E Hh) as (salt & key & Hs & Hk & ->).
  exists salt, key. split; [done|]. intros q.
  by rewrite (verify_make_hash p q salt key), bool_decide_eq_true.
Qed.

(** Registration: on success the account is new, gets an id nobody had, is
    found by name and by id, and can be logged into with its password; every
    account that existed is still there, unchanged.  On failure there is a
    reason and nothing changes.  The indexes stay consistent in both cases. *)
Theorem registration (u p : bytes) (st st' : UserStore) (e e' : Entropy) r :
  users_ok st -> users_room st -> register_user u p (st, e) = (r, (st', e')) ->
  users_ok st' /\
  (forall n rec, find_user_by_username n st = Some rec -> find_user_by_username n st' = Some rec) /\
  if register_success r then
    find_user_by_username u st = None /\ find_user_by_id (register_user_id r) st = None /\
    exists rec, find_user_by_username u st' = Some rec /\
      find_user_by_id (register_user_id r) st' = Some rec /\ user_id rec = register_user_id r /\
      verify_login u p st' = Some rec
  else register_reason r <> [] /\ st' = st.
Proof.
  intros U R E. pose proof (register_user_ok _ _ _ _ _ _ _ U R E) as U'.
  split; [done|]. split; [intros n rec; by apply (register_user_mono _ _ _ _ _ _ _ _ _ E)|].
  apply register_user_cases in E
    as [(-> & _ & Hr & ->)|(h & -> & -> & _ & _ & _ & Hnone & Hh & Eh & ->)]; [done|].
  split; [done|]. split.
  { destruct (find_user_by_id (us_next_memory_id_ st) st) as [rec|] eqn:Ef; [exfalso|done].
    apply (find_user_by_id_spec st _ _ U) in Ef as [Hrec Hid].
    destruct (users_by_name st U _ _ Hrec) as [_ Hi]. apply (users_by_id st U) in Hi as [Hi _].
    lia. }
  eexists (mkUserRecord (us_next_memory_id_ st) u h). unfold find_user_by_username, find_user_by_id.
  simpl. rewrite ?lookup_insert_eq. simpl. rewrite ?lookup_insert_eq. repeat split; try done.
  unfold verify_login, find_user_by_username. simpl. rewrite lookup_insert_eq. simpl.
  by rewrite (verify_own_hash _ _ _ _ Eh Hh).
Qed.
End theorems.

Lemma password_verification_witness :
  let h := (@hash_password_pbkdf2 toy_openssl "secret" tt).1 in
  @verify_password_pbkdf2 toy_openssl "secret" h = true /\
  @verify_password_pbkdf2 toy_openssl "secret" (h ++ bs "$") = false /\
  exists salt key,
    @PKCS5_PBKDF2_HMAC toy_openssl "secret" salt kPbkdf2Iterations kHashBytes = Some key /\
    forall q, @verify_password_pbkdf2 toy_openssl q h = true <->
      @PKCS5_PBKDF2_HMAC toy_openssl q salt kPbkdf2Iterations kHashBytes = Some key.
Proof.
  destruct (@password_verification toy_openssl toy_openssl_spec) as [_ W].
  destruct (W "secret" _ tt tt eq_refl) as [Hown Hkey]; [vm_compute; discriminate|].
  split; [exact Hown|]. split; [vm_compute; reflexivity|]. exact Hkey.
Defined.

Lemma registration_witness :
  let '(r, (st', _)) := @register_user toy_openssl "bob" "pw" (no_users, tt) in
  users_ok st' /\
  (forall n rec, find_user_by_username n no_users = Some rec ->
                 find_user_by_username n st' = Some rec) /\
  if register_success r then
    find_user_by_username "bob" no_users = None /\
    find_user_by_id (register_user_id r) no_users = None /\
    exists rec, find_user_by_username "bob" st' = Some rec /\
      find_user_by_id (register_user_id r) st' = Some rec /\ user_id rec = register_user_id r /\
      @verify_login toy_openssl "bob" "pw" st' = Some rec
  else register_reason r <> [] /\ st' = no_users.
Proof.
  destruct (@register_user toy_openssl "bob" "pw" (no_users, tt)) as [r [st' e']] eqn:E.
  apply (@registration toy_openssl toy_openssl_spec "bob" "pw" no_users st' tt e' r);
    [apply users_ok_no_users|split; [discriminate|reflexivity]|exact E].
Defined.

