(* ===== verification/GroupStore.v ===== *)
(** * GroupStore and GroupMemberStore: groups and who belongs to them

    [src/src/storage/group_store.cpp] and
    [src/src/storage/group_member_store.cpp] in memory mode
    ([pool_ == nullptr]).  Each method is one critical section. *)

From S2P Require Import Prelude.
Open Scope N_scope.

(** ** Groups *)

Record GroupRecord : Type := mkGroupRecord {
  group_id : N;
  group_name : bytes;
  group_owner_id : N;
  group_created_at : bytes;
}.

Definition no_group : GroupRecord := mkGroupRecord 0 [] 0 [].

Record CreateGroupResult : Type := mkCreateGroupResult {
  create_success : bool;
  create_group_record : GroupRecord;
  create_reason : bytes;
}.

Record GroupStore : Type := mkGroupStore {
  memory_groups_ : gmap N GroupRecord;
  next_group_id_ : N;
}.

Definition no_groups : GroupStore := mkGroupStore ∅ 1.

Definition create_group (name : bytes) (owner_id : N) : ST GroupStore CreateGroupResult := fun st =>
  if bool_decide (name = []) then
    (mkCreateGroupResult false no_group "group name is required", st)
  else
    let group := mkGroupRecord (next_group_id_ st) name owner_id [] in
    (mkCreateGroupResult true group [],
     mkGroupStore (<[group_id group := group]> (memory_groups_ st)) (u64_succ (next_group_id_ st))).

Definition find_group (group_id : N) (st : GroupStore) : option GroupRecord :=
  memory_groups_ st !! group_id.

Definition group_exists (group_id : N) (st : GroupStore) : bool :=
  match find_group group_id st with Some _ => true | None => false end.

(** Every stored group is under its own id, below the counter. *)
Definition groups_ok (st : GroupStore) : Prop :=
  forall i g, memory_groups_ st !! i = Some g ->
  group_id g = i /\ 1 <= i < next_group_id_ st /\ group_name g <> [].

Definition groups_room (st : GroupStore) : Prop :=
  1 <= next_group_id_ st /\ next_group_id_ st + 1 < u64_modulus.

(** ** Members *)

Record GroupMemberResult : Type := mkGroupMemberResult {
  member_success : bool;
  already_member : bool;
  member_reason : bytes;
}.

Record GroupMemberStore : Type := mkGroupMemberStore {
  memory_members_ : gmap N (gset N);
}.

Definition no_members : GroupMemberStore := mkGroupMemberStore ∅.

Definition join_group (group_id user_id : N) : ST GroupMemberStore GroupMemberResult := fun st =>
  let members := default ∅ (memory_members_ st !! group_id) in
  let inserted := negb (bool_decide (user_id ∈ members)) in
  (mkGroupMemberResult true (negb inserted) [],
   mkGroupMemberStore (<[group_id := {[user_id]} ∪ members]> (memory_members_ st))).

Definition leave_group (group_id user_id : N) : ST GroupMemberStore GroupMemberResult := fun st =>
  match memory_members_ st !! group_id with
  | None => (mkGroupMemberResult false false "not a member of this group", st)
  | Some members =>
      if negb (bool_decide (user_id ∈ members)) then
        (mkGroupMemberResult false false "not a member of this group", st)
      else
        let members := members ∖ {[user_id]} in
        (mkGroupMemberResult true false [],
         mkGroupMemberStore
           (if bool_decide (members = ∅) then delete group_id (memory_members_ st)
            else <[group_id := members]> (memory_members_ st)))
  end.

Definition is_group_member (group_id user_id : N) (st : GroupMemberStore) : bool :=
  match memory_members_ st !! group_id with
  | None => false
  | Some members => bool_decide (user_id ∈ members)
  end.

(** [std::sort] makes the order of the hash set irrelevant. *)
Definition load_group_members (group_id : N) (st : GroupMemberStore) : list N :=
  match memory_members_ st !! group_id with
  | None => []
  | Some members => merge_sort N.le (elements members)
  end.

Definition load_user_groups (user_id : N) (st : GroupMemberStore) : list N :=
  merge_sort N.le
    (omap (fun (entry : N * gset N) =>
             let '(group_id, members) := entry in
             if bool_decide (user_id ∈ members) then Some group_id else None)
       (map_to_list (memory_members_ st))).

(** No empty member set is kept. *)
Definition members_inhabited (st : GroupMemberStore) : Prop :=
  inhabited_table (memory_members_ st).

(** ** Lemmas: groups *)
Lemma create_group_cases name owner st st' r :
  create_group name owner st = (r, st') ->
  (name = [] /\ create_success r = false /\ create_reason r <> [] /\ st' = st) \/
  (name <> [] /\ create_success r = true /\
   create_group_record r = mkGroupRecord (next_group_id_ st) name owner [] /\
   memory_groups_ st' = <[next_group_id_ st := create_group_record r]> (memory_groups_ st) /\
   next_group_id_ st' = u64_succ (next_group_id_ st)).
Proof.
  unfold create_group. case_bool_decide as H; intros [= <- <-]; [left|right]; done.
Qed.

Lemma create_group_ok name owner st st' r :
  groups_ok st -> groups_room st -> create_group name owner st = (r, st') -> groups_ok st'.
Proof.
  intros G [H1 H2] [(_ & _ & _ & ->)|(Hn & _ & Hr & Hm & Hx)]%create_group_cases; [done|].
  intros i g. rewrite Hm, Hx, lookup_insert. unfold u64_succ, to_u64.
  rewrite N.mod_small by done. case_decide as Hd.
  - subst. intros [= <-]. rewrite Hr. simpl. repeat split; [lia|lia|done].
  - intros Hg%G. destruct Hg as (? & ? & ?). repeat split; [done|lia|lia|done].
Qed.

(** ** Lemmas: members *)
Lemma elem_of_load_group_members g u st :
  u ∈ load_group_members g st <-> is_group_member g u st = true.
Proof.
  unfold load_group_members, is_group_member. destruct (memory_members_ st !! g) as [ms|].
  - rewrite merge_sort_Permutation, elem_of_elements, bool_decide_eq_true. done.
  - split; [by intros ?%not_elem_of_nil|done].
Qed.

Lemma load_group_members_NoDup g st : NoDup (load_group_members g st).
Proof.
  unfold load_group_members. destruct (memory_members_ st !! g) as [ms|]; [|constructor].
  rewrite merge_sort_Permutation. apply NoDup_elements.
Qed.

Lemma load_group_members_sorted g st : StronglySorted N.le (load_group_members g st).
Proof.
  unfold load_group_members. destruct (memory_members_ st !! g); [|constructor].
  apply (StronglySorted_merge_sort N.le).
Qed.

Lemma elem_of_load_user_groups g u st :
  g ∈ load_user_groups u st <-> is_group_member g u st = true.
Proof.
  unfold load_user_groups, is_group_member.
  rewrite merge_sort_Permutation, list_elem_of_omap. split.
  - intros ([g' ms] & Hin%elem_of_map_to_list & Hg). simpl in Hg.
    case_bool_decide as Hu; [|done]. injection Hg as ->. rewrite Hin. by apply bool_decide_eq_true.
  - destruct (memory_members_ st !! g) as [ms|] eqn:E; [|done]. intros Hu%bool_decide_eq_true.
    exists (g, ms). split; [by apply elem_of_map_to_list|]. by rewrite bool_decide_eq_true_2.
Qed.

Lemma is_group_member_join g u g' u' st :
  is_group_member g' u' (join_group g u st).2 =
    (bool_decide (g' = g /\ u' = u) || is_group_member g' u' st).
Proof. apply in_table_add. Qed.

Lemma leave_group_cases g u st st' r :
  leave_group g u st = (r, st') ->
  if is_group_member g u st then member_success r = true
  else member_success r = false /\ member_reason r = bs "not a member of this group" /\ st' = st.
Proof.
  unfold leave_group, is_group_member. destruct (memory_members_ st !! g) as [ms|].
  - case_bool_decide; simpl; intros [= <- <-]; done.
  - by intros [= <- <-].
Qed.

Lemma members_leave g u st :
  memory_members_ (leave_group g u st).2 =
    match memory_members_ st !! g with
    | Some members =>
        if bool_decide (u ∈ members) then table_store (memory_members_ st) g (members ∖ {[u]})
        else memory_members_ st
    | None => memory_members_ st
    end.
Proof.
  unfold leave_group. destruct (memory_members_ st !! g) as [ms|]; [|done]. by case_bool_decide.
Qed.

Lemma is_group_member_leave g u g' u' st :
  is_group_member g' u' (leave_group g u st).2 =
    (negb (bool_decide (g' = g /\ u' = u)) && is_group_member g' u' st).
Proof.
  change (in_table (memory_members_ (leave_group g u st).2) g' u' =
    negb (bool_decide (g' = g /\ u' = u)) && in_table (memory_members_ st) g' u').
  rewrite members_leave. destruct (memory_members_ st !! g) as [ms|] eqn:E; [case_bool_decide|].
  - by apply in_table_remove.
  - apply in_table_absent. unfold in_table. rewrite E. by apply bool_decide_eq_false.
  - apply in_table_absent. unfold in_table. by rewrite E.
Qed.

Lemma members_inhabited_leave g u st :
  members_inhabited st -> members_inhabited (leave_group g u st).2.
Proof.
  unfold members_inhabited. rewrite members_leave.
  destruct (memory_members_ st !! g); [case_bool_decide; [apply inhabited_table_store|done]|done].
Qed.

(** ** Theorems *)

(** The two directions of the membership relation agree: a user is in the
    member list of a group exactly when the group is in his list, which is
    what [is_group_member] decides; the member list is sorted and without
    duplicates. *)
Theorem membership_lists_agree (st : GroupMemberStore) (g u : N) :
  (u ∈ load_group_members g st <-> is_group_member g u st = true) /\
  (g ∈ load_user_groups u st <-> is_group_member g u st = true) /\
  NoDup (load_group_members g st) /\ StronglySorted N.le (load_group_members g st).
Proof.
  split; [apply elem_of_load_group_members|]. split; [apply elem_of_load_user_groups|].
  split; [apply load_group_members_NoDup|apply load_group_members_sorted].
Qed.

(** Joining always succeeds and reports whether the user was a member
    already; leaving succeeds exactly for members and otherwise changes
    nothing; each changes the one membership it is about, and a group that
    becomes empty is dropped from the table. *)
Theorem member_store_operations (st : GroupMemberStore) (g u : N) :
  members_inhabited st ->
  let '(joined, st1) := join_group g u st in
  let '(gone, st2) := leave_group g u st in
  member_success joined = true /\ already_member joined = is_group_member g u st /\
  (forall g' u', is_group_member g' u' st1 =
     bool_decide (g' = g /\ u' = u) || is_group_member g' u' st) /\
  member_success gone = is_group_member g u st /\
  (member_success gone = false -> st2 = st) /\
  (forall g' u', is_group_member g' u' st2 =
     negb (bool_decide (g' = g /\ u' = u)) && is_group_member g' u' st) /\
  members_inhabited st1 /\ members_inhabited st2.
Proof.
  intros G. destruct (join_group g u st) as [joined st1] eqn:E1.
  destruct (leave_group g u st) as [gone st2] eqn:E2.
  assert (H1 : st1 = (join_group g u st).2) by (by rewrite E1).
  assert (H2 : st2 = (leave_group g u st).2) by (by rewrite E2).
  assert (Hj : joined = (join_group g u st).1) by (by rewrite E1).
  apply leave_group_cases in E2. split; [by subst|]. split.
  { subst joined. unfold join_group, is_group_member. simpl. rewrite negb_involutive.
    destruct (memory_members_ st !! g); simpl; [done|].
    apply bool_decide_eq_false. set_solver. }
  split; [subst st1; intros g' u'; apply is_group_member_join|].
  split; [destruct (is_group_member g u st); [done|by destruct E2 as [-> _]]|].
  split; [intros Hl; destruct (is_group_member g u st); [congruence|by destruct E2 as (_ & _ & ->)]|].
  split; [subst st2; intros g' u'; apply is_group_member_leave|].
  split; [subst st1; by apply inhabited_table_add|subst st2; by apply members_inhabited_leave].
Qed.

Lemma member_store_operations_witness :
  let st := mkGroupMemberStore {[ 7 := {[ 1 ]} ]} in
  let '(joined, st1) := join_group 7 1 st in
  let '(gone, st2) := leave_group 7 1 st in
  member_success joined = true /\ already_member joined = is_group_member 7 1 st /\
  (forall g' u', is_group_member g' u' st1 =
     bool_decide (g' = 7 /\ u' = 1) || is_group_member g' u' st) /\
  member_success gone = is_group_member 7 1 st /\
  (member_success gone = false -> st2 = st) /\
  (forall g' u', is_group_member g' u' st2 =
     negb (bool_decide (g' = 7 /\ u' = 1)) && is_group_member g' u' st) /\
  members_inhabited st1 /\ members_inhabited st2.
Proof.
  apply (member_store_operations (mkGroupMemberStore {[ 7 := {[ 1 ]} ]}) 7 1).
  intros g ms. simpl. rewrite lookup_singleton. case_decide; [|done]. intros [= <-]. set_solver.
Defined.

