(* ===== verification/MessageStore.v ===== *)
(** * MessageStore: the message log and its pages

    [src/src/storage/message_store.cpp] in memory mode ([pool_ == nullptr]),
    and the pure helpers that compute what the MySQL mode stores with a
    message.  Message ids are positions in the log, counted from 1. *)

From S2P Require Import Prelude.
From S2P Require Import Message.
Open Scope N_scope.

(** ** Data *)

Record StoredMessage : Type := mkStoredMessage {
  stored_id : N;
  stored_type : MessageType;
  stored_sender_id : N;
  stored_receiver_id : N;
  stored_body : bytes;
  stored_created_at : bytes;
}.

Record MessageStore : Type := mkMessageStore { messages_ : list Message }.

Definition no_messages : MessageStore := mkMessageStore [].

(** ** Column values *)

Definition message_type_to_string (t : MessageType) : bytes :=
  match t with
  | DirectChat => "DirectChat"
  | GroupChat => "GroupChat"
  | GroupJoin => "GroupJoin"
  | GroupLeave => "GroupLeave"
  | _ => "System"
  end.

Definition conversation_type_for (t : MessageType) : N :=
  if bool_decide (t = DirectChat) then 1 else if bool_decide (t = GroupChat) then 2 else 0.

(** [(low << 32u) | high], on 64 bits. *)
Definition make_direct_conversation_id (a b : N) : N :=
  let low := N.min a b in
  let high := N.max a b in
  N.lor (to_u64 (N.shiftl low 32)) high.

Definition conversation_id_for (message : Message) : N :=
  if bool_decide (msg_type message = DirectChat) then
    make_direct_conversation_id (msg_sender_id message) (msg_receiver_id message)
  else if bool_decide (msg_type message = GroupChat) then msg_receiver_id message
  else 0.

(** ** Operations *)

Definition append (message : Message) : ST MessageStore StoredMessage := fun st =>
  let messages := messages_ st ++ [message] in
  (mkStoredMessage (N.of_nat (length messages)) (msg_type message) (msg_sender_id message)
     (msg_receiver_id message) (msg_body message) [],
   mkMessageStore messages).

Definition all (st : MessageStore) : list Message := messages_ st.

(** The tests of the scans. *)
Definition is_direct_between (user_id peer_id : N) (msg : Message) : bool :=
  bool_decide (msg_type msg = DirectChat) &&
  (((msg_sender_id msg =? user_id) && (msg_receiver_id msg =? peer_id)) ||
   ((msg_sender_id msg =? peer_id) && (msg_receiver_id msg =? user_id))).

Definition is_group_message (group_id : N) (msg : Message) : bool :=
  bool_decide (msg_type msg = GroupChat) && (msg_receiver_id msg =? group_id).

Definition is_unread (user_id : N) (group_id_set : gset N) (msg : Message) : bool :=
  let direct_unread := bool_decide (msg_type msg = DirectChat) && (msg_receiver_id msg =? user_id) in
  let group_unread :=
    bool_decide (msg_type msg = GroupChat) && negb (msg_sender_id msg =? user_id) &&
    bool_decide (msg_receiver_id msg ∈ group_id_set) in
  direct_unread || group_unread.

(** [{message_id, msg.type, msg.sender_id, msg.receiver_id, msg.body, ""}] *)
Definition stored (message_id : N) (msg : Message) : StoredMessage :=
  mkStoredMessage message_id (msg_type msg) (msg_sender_id msg) (msg_receiver_id msg)
    (msg_body msg) [].

(** The range-for scans of the unpaged queries. *)
Fixpoint select (test : Message -> bool) (messages result : list Message) : list Message :=
  match messages with
  | [] => result
  | msg :: messages => select test messages (if test msg then result ++ [msg] else result)
  end.

Definition direct_history (user_id peer_id : N) (st : MessageStore) : list Message :=
  select (is_direct_between user_id peer_id) (messages_ st) [].

Definition group_history (group_id : N) (st : MessageStore) : list Message :=
  select (is_group_message group_id) (messages_ st) [].

(** [for (index = size; index > 0 && result.size() < limit; --index)] *)
Fixpoint page_loop (test : Message -> bool) (messages : list Message) (limit before_id : N)
    (index : nat) (result : list StoredMessage) : list StoredMessage :=
  match index with
  | O => result
  | S index' =>
      if N.of_nat (length result) <? limit then
        match messages !! index' with
        | None => result
        | Some msg =>
            let message_id := N.of_nat index in
            if (0 <? before_id) && (before_id <=? message_id) then
              page_loop test messages limit before_id index' result
            else if test msg then
              page_loop test messages limit before_id index' (result ++ [stored message_id msg])
            else page_loop test messages limit before_id index' result
        end
      else result
  end.

(** [if (limit == 0) limit = 20] *)
Definition default_limit (limit : N) : N := if limit =? 0 then 20 else limit.

Definition direct_history_page (user_id peer_id limit before_id : N) (st : MessageStore)
    : list StoredMessage :=
  page_loop (is_direct_between user_id peer_id) (messages_ st) (default_limit limit) before_id
    (length (messages_ st)) [].

Definition group_history_page (group_id limit before_id : N) (st : MessageStore)
    : list StoredMessage :=
  page_loop (is_group_message group_id) (messages_ st) (default_limit limit) before_id
    (length (messages_ st)) [].

(** [for (index = 0; index < size && result.size() < limit; ++index)]; [rest]
    is the log from [index] on. *)
Fixpoint unread_loop (test : Message -> bool) (rest : list Message) (limit last_seen : N)
    (index : nat) (result : list StoredMessage) : list StoredMessage :=
  match rest with
  | [] => result
  | msg :: rest =>
      if N.of_nat (length result) <? limit then
        let message_id := N.of_nat index + 1 in
        if message_id <=? last_seen then unread_loop test rest limit last_seen (S index) result
        else if test msg then
          unread_loop test rest limit last_seen (S index) (result ++ [stored message_id msg])
        else unread_loop test rest limit last_seen (S index) result
      else result
  end.

Definition unread_page (user_id : N) (group_ids : list N) (last_seen_message_id limit : N)
    (st : MessageStore) : list StoredMessage :=
  unread_loop (is_unread user_id (list_to_set group_ids)) (messages_ st) (default_limit limit)
    last_seen_message_id 0 [].

(** ** Specification: filter the numbered log, newest or oldest first *)

Fixpoint number_from (i : N) (messages : list Message) : list (N * Message) :=
  match messages with
  | [] => []
  | m :: messages => (i, m) :: number_from (i + 1) messages
  end.

Definition numbered (st : MessageStore) : list (N * Message) := number_from 1 (messages_ st).

Definition matching (test : Message -> bool) (in_range : N -> bool) (l : list (N * Message))
    : list StoredMessage :=
  omap (fun '(i, m) => if in_range i && test m then Some (stored i m) else None) l.

(** The whole conversation below the cursor, newest first. *)
Definition history_before (test : Message -> bool) (before_id : N) (st : MessageStore)
    : list StoredMessage :=
  reverse (matching test (fun i => (before_id =? 0) || (i <? before_id)) (numbered st)).

(** Everything after the cursor, oldest first. *)
Definition unread_after (test : Message -> bool) (last_seen : N) (st : MessageStore)
    : list StoredMessage :=
  matching test (fun i => last_seen <? i) (numbered st).

(** A client that follows the cursor: fetch a page, stop when it is short,
    otherwise go on before the last id it got. *)
Fixpoint walk_pages (fuel : nat) (page : N -> list StoredMessage) (limit before_id : N)
    : list StoredMessage :=
  match fuel with
  | O => []
  | S fuel =>
      let p := page before_id in
      match last p with
      | Some m =>
          if N.of_nat (length p) =? limit then p ++ walk_pages fuel page limit (stored_id m)
          else p
      | None => p
      end
  end.

(** ** Lemmas: conversation ids *)
Lemma lor_shiftl_add (a b n : N) : b < 2 ^ n -> N.lor (N.shiftl a n) b = a * 2 ^ n + b.
Proof.
  intros Hb. assert (Hl : N.land (N.shiftl a n) b = 0).
  { apply N.bits_inj_0. intros i. rewrite N.land_spec. destruct (N.lt_ge_cases i n) as [Hi|Hi].
    - by rewrite N.shiftl_spec_low.
    - rewrite <- (N.mod_small b (2 ^ n)), N.mod_pow2_bits_high by done. apply andb_false_r. }
  rewrite <- N.lxor_lor, <- N.add_nocarry_lxor by done. by rewrite N.shiftl_mul_pow2.
Qed.

Lemma conversation_id_small (a b : N) :
  a < 2 ^ 32 -> b < 2 ^ 32 ->
  make_direct_conversation_id a b = N.min a b * 2 ^ 32 + N.max a b.
Proof.
  intros Ha Hb. unfold make_direct_conversation_id, to_u64, u64_modulus.
  rewrite N.mod_small; [apply lor_shiftl_add; lia|]. rewrite N.shiftl_mul_pow2. lia.
Qed.

(** ** Lemmas: the numbered log *)
Lemma number_from_app (i : N) (l k : list Message) :
  number_from i (l ++ k) = number_from i l ++ number_from (i + N.of_nat (length l)) k.
Proof.
  revert i. induction l as [|m l IH]; intros i; cbn [app number_from length];
    [f_equal; lia|]. rewrite IH. cbn [app]. do 3 f_equal. lia.
Qed.

Lemma number_from_lookup (i : N) (l : list Message) (k : nat) :
  number_from i l !! k = (fun m => (i + N.of_nat k, m)) <$> l !! k.
Proof.
  revert i k. induction l as [|m l IH]; intros i [|k]; try done; cbn [number_from].
  - simpl. by rewrite N.add_0_r.
  - simpl. rewrite IH. destruct (l !! k); simpl; [|done]. do 2 f_equal. lia.
Qed.

Lemma matching_app test rng l k : matching test rng (l ++ k) = matching test rng l ++ matching test rng k.
Proof. apply omap_app. Qed.

Lemma matching_cons test rng i m l :
  matching test rng ((i, m) :: l) =
    (if rng i && test m then [stored i m] else []) ++ matching test rng l.
Proof. unfold matching. simpl. by destruct (rng i && test m). Qed.

Lemma matching_filter test rng l :
  matching test rng l =
    List.filter (fun s => rng (stored_id s)) (matching test (fun _ => true) l).
Proof.
  induction l as [|[i m] l IH]; [done|]. rewrite !matching_cons, List.filter_app, IH.
  f_equal. simpl. destruct (test m); simpl; destruct (rng i); done.
Qed.

Lemma matching_ext test test' rng l :
  (forall m, test m = test' m) -> matching test rng l = matching test' rng l.
Proof.
  intros E. induction l as [|[i m] l IH]; [done|]. rewrite !matching_cons, IH. by rewrite E.
Qed.

Lemma elem_of_matching test rng l s :
  s ∈ matching test rng l <->
  exists i m, (i, m) ∈ l /\ rng i = true /\ test m = true /\ s = stored i m.
Proof.
  unfold matching. rewrite list_elem_of_omap. split.
  - intros ([i m] & Hin & H). destruct (rng i && test m) eqn:E; [|done].
    apply andb_prop in E as [? ?]. injection H as <-. by exists i, m.
  - intros (i & m & Hin & Hr & Ht & ->). exists (i, m). split; [done|]. by rewrite Hr, Ht.
Qed.

(** Ids grow along the log. *)
Lemma matching_sorted test rng i l :
  StronglySorted (fun a b => stored_id a < stored_id b) (matching test rng (number_from i l)).
Proof.
  revert i. induction l as [|m l IH]; intros i; [constructor|]. cbn [number_from].
  rewrite matching_cons. destruct (rng i && test m); [|apply IH]. simpl. constructor; [apply IH|].
  apply Forall_forall. intros s (j & m' & Hj & _ & _ & ->)%elem_of_matching. simpl.
  apply list_elem_of_lookup in Hj as [k Hk]. rewrite number_from_lookup in Hk.
  destruct (l !! k); [|done]. injection Hk as <- _. lia.
Qed.

(** ** Lemmas: the loops meet their specification *)
Lemma select_filter test l acc : select test l acc = acc ++ List.filter test l.
Proof.
  revert acc. induction l as [|m l IH]; intros acc; simpl; [by rewrite app_nil_r|].
  rewrite IH. destruct (test m); [by rewrite <- app_assoc|done].
Qed.

Lemma page_loop_spec test l limit before idx acc :
  (idx <= length l)%nat -> N.of_nat (length acc) <= limit ->
  page_loop test l limit before idx acc =
    acc ++ take (N.to_nat limit - length acc)
      (reverse (matching test (fun i => (before =? 0) || (i <? before))
                  (number_from 1 (take idx l)))).
Proof.
  revert acc. induction idx as [|idx IH]; intros acc Hi Hl; cbn [page_loop].
  { rewrite take_0. change (reverse _) with (@nil StoredMessage).
    by rewrite take_nil, app_nil_r. }
  destruct (N.of_nat (length acc) <? limit) eqn:El.
  2:{ replace (N.to_nat limit - length acc)%nat with O by lia. by rewrite take_0, app_nil_r. }
  destruct (lookup_lt_is_Some_2 l idx) as [m Hm]; [lia|]. rewrite Hm.
  rewrite (take_S_r _ _ _ Hm), number_from_app, matching_app, reverse_app.
  rewrite length_take_le by lia. replace (1 + N.of_nat idx) with (N.of_nat (S idx)) by lia.
  cbn [number_from]. rewrite matching_cons, app_nil_r.
  replace ((before =? 0) || (N.of_nat (S idx) <? before))
    with (negb ((0 <? before) && (before <=? N.of_nat (S idx)))) by lia.
  destruct ((0 <? before) && (before <=? N.of_nat (S idx))); simpl negb.
  { rewrite IH by lia. done. }
  destruct (test m); rewrite IH by (rewrite ?length_app; simpl; lia); [|done].
  rewrite <- app_assoc. f_equal. rewrite length_app. cbn [length app andb].
  rewrite reverse_singleton.
  replace (N.to_nat limit - length acc)%nat with (S (N.to_nat limit - (length acc + 1))) by lia.
  done.
Qed.

Lemma default_limit_pos limit : 0 < default_limit limit.
Proof. unfold default_limit. case_if; lia. Qed.

Lemma direct_history_page_spec u p limit before st :
  direct_history_page u p limit before st =
    take (N.to_nat (default_limit limit)) (history_before (is_direct_between u p) before st).
Proof.
  unfold direct_history_page, history_before, numbered.
  rewrite page_loop_spec by (simpl; lia). by rewrite firstn_all, Nat.sub_0_r.
Qed.

Lemma group_history_page_spec g limit before st :
  group_history_page g limit before st =
    take (N.to_nat (default_limit limit)) (history_before (is_group_message g) before st).
Proof.
  unfold group_history_page, history_before, numbered.
  rewrite page_loop_spec by (simpl; lia). by rewrite firstn_all, Nat.sub_0_r.
Qed.

Lemma unread_loop_spec test l limit last idx acc :
  N.of_nat (length acc) <= limit ->
  unread_loop test l limit last idx acc =
    acc ++ take (N.to_nat limit - length acc)
      (matching test (fun i => last <? i) (number_from (N.of_nat idx + 1) l)).
Proof.
  revert idx acc. induction l as [|m l IH]; intros idx acc Hl; cbn [unread_loop number_from].
  { simpl. by rewrite take_nil, app_nil_r. }
  destruct (N.of_nat (length acc) <? limit) eqn:El.
  2:{ replace (N.to_nat limit - length acc)%nat with O by lia. by rewrite take_0, app_nil_r. }
  rewrite matching_cons. replace (last <? N.of_nat idx + 1)
    with (negb (N.of_nat idx + 1 <=? last)) by lia.
  replace (N.of_nat idx + 1 + 1) with (N.of_nat (S idx) + 1) by lia.
  destruct (N.of_nat idx + 1 <=? last); simpl negb; [by rewrite IH by lia|].
  destruct (test m); rewrite IH by (rewrite ?length_app; simpl; lia); [|done].
  rewrite <- app_assoc. f_equal. rewrite length_app. cbn [length app andb].
  replace (N.to_nat limit - length acc)%nat with (S (N.to_nat limit - (length acc + 1))) by lia.
  done.
Qed.

Lemma unread_page_spec u gs last limit st :
  unread_page u gs last limit st =
    take (N.to_nat (default_limit limit))
      (unread_after (is_unread u (list_to_set gs)) last st).
Proof.
  unfold unread_page, unread_after, numbered. rewrite unread_loop_spec by (simpl; lia).
  by rewrite Nat.sub_0_r.
Qed.

(** ** Lemmas: cursors *)

Definition newer (a b : StoredMessage) : Prop := stored_id b < stored_id a.

Lemma StronglySorted_reverse {A} (R : A -> A -> Prop) (l : list A) :
  StronglySorted R l -> StronglySorted (fun a b => R b a) (reverse l).
Proof.
  induction 1 as [|x l Hl IH Hx]; [constructor|]. rewrite reverse_cons.
  apply StronglySorted_app_2; [|done|repeat constructor].
  intros y z Hy Hz%list_elem_of_singleton. subst.
  rewrite Forall_forall in Hx. apply Hx. by rewrite elem_of_reverse in Hy.
Qed.

Lemma history_before_sorted test before st : StronglySorted newer (history_before test before st).
Proof. apply (StronglySorted_reverse (fun a b => stored_id a < stored_id b)), matching_sorted. Qed.

Lemma filter_reverse {A} (p : A -> bool) (l : list A) :
  List.filter p (reverse l) = reverse (List.filter p l).
Proof.
  induction l as [|x l IH]; [done|]. rewrite reverse_cons, List.filter_app, IH. simpl.
  destruct (p x); [by rewrite reverse_cons|by rewrite app_nil_r].
Qed.

Lemma history_before_filter test before st :
  history_before test before st =
    List.filter (fun s => (before =? 0) || (stored_id s <? before)) (history_before test 0 st).
Proof.
  unfold history_before. rewrite filter_reverse. f_equal. apply matching_filter.
Qed.

Lemma filter_all_false {A} (p : A -> bool) (l : list A) :
  (forall x, x ∈ l -> p x = false) -> List.filter p l = [].
Proof.
  induction l as [|x l IH]; intros H; [done|]. simpl. rewrite (H x) by set_solver.
  apply IH. set_solver.
Qed.

Lemma filter_all_true {A} (p : A -> bool) (l : list A) :
  (forall x, x ∈ l -> p x = true) -> List.filter p l = l.
Proof.
  induction l as [|x l IH]; intros H; [done|]. simpl. rewrite (H x) by set_solver.
  f_equal. apply IH. set_solver.
Qed.

(** In a list sorted newest first, the messages below the id at position [k]
    are the ones after it. *)
Lemma filter_below_sorted (l : list StoredMessage) (k : nat) (x : StoredMessage) :
  StronglySorted newer l -> l !! k = Some x ->
  List.filter (fun s => stored_id s <? stored_id x) l = drop (S k) l.
Proof.
  intros Hs. revert k. induction Hs as [|y l Hl IH Hy]; intros k Hk; [done|].
  rewrite Forall_forall in Hy. destruct k as [|k].
  - injection Hk as ->. simpl. rewrite N.ltb_irrefl, drop_0.
    apply filter_all_true. intros z Hz%Hy. unfold newer in Hz. lia.
  - simpl in Hk. simpl. assert (Hx : newer y x) by (apply Hy, list_elem_of_lookup; eauto).
    unfold newer in Hx. replace (stored_id y <? stored_id x) with false by lia. by apply IH.
Qed.

Lemma stored_ids_pos test st s : s ∈ history_before test 0 st -> 0 < stored_id s.
Proof.
  unfold history_before, numbered. rewrite elem_of_reverse, elem_of_matching.
  intros (i & m & Hin & _ & _ & ->). simpl. apply list_elem_of_lookup in Hin as [k Hk].
  rewrite number_from_lookup in Hk. destruct (messages_ st !! k); [|done].
  injection Hk as <- _. lia.
Qed.

Lemma elem_of_filter_In {A} (p : A -> bool) (l : list A) (x : A) :
  x ∈ List.filter p l <-> x ∈ l /\ p x = true.
Proof. rewrite !list_elem_of_In. apply filter_In. Qed.


Lemma filter_filter_weaken {A} (p q : A -> bool) (l : list A) :
  (forall x, p x = true -> q x = true) -> List.filter p (List.filter q l) = List.filter p l.
Proof.
  intros H. induction l as [|x l IH]; [done|]. simpl. destruct (q x) eqn:Eq; simpl; rewrite IH.
  - done.
  - destruct (p x) eqn:Ep; [|done]. by rewrite (H _ Ep) in Eq.
Qed.

(** The page after the message at position [n] starts at position [n + 1]. *)
Lemma history_before_cursor test before st (n : nat) (m : StoredMessage) :
  history_before test before st !! n = Some m ->
  history_before test (stored_id m) st = drop (S n) (history_before test before st).
Proof.
  intros Hn. rewrite <- (filter_below_sorted _ _ m (history_before_sorted test before st) Hn).
  apply list_elem_of_lookup_2 in Hn.
  rewrite (history_before_filter test before), elem_of_filter_In in Hn.
  destruct Hn as [Hin Hm]. pose proof (stored_ids_pos _ _ _ Hin).
  rewrite (history_before_filter test before), (history_before_filter test (stored_id m)).
  rewrite filter_filter_weaken by (intros x; lia).
  apply List.filter_ext. intros s. replace (stored_id m =? 0) with false by lia. done.
Qed.

Lemma last_take_lookup {A} (l : list A) (n : nat) (x : A) :
  last (take n l) = Some x -> length (take n l) = n -> l !! pred n = Some x.
Proof.
  rewrite last_lookup. intros Hl Hn. rewrite Hn in Hl.
  rewrite lookup_take in Hl. by case_decide.
Qed.

Lemma walk_pages_complete (page : N -> list StoredMessage) test (limit before : N) st (fuel : nat) :
  (forall b, page b = take (N.to_nat limit) (history_before test b st)) -> 0 < limit ->
  (length (history_before test before st) < fuel)%nat ->
  walk_pages fuel page limit before = history_before test before st.
Proof.
  intros Hp Hl. revert before. induction fuel as [|fuel IH]; intros before Hf; [lia|].
  cbn [walk_pages]. rewrite Hp.
  set (h := history_before test before st) in *.
  destruct (last (take (N.to_nat limit) h)) as [m|] eqn:Em.
  - case_if.
    + apply last_take_lookup in Em; [|lia].
      pose proof (history_before_cursor _ _ _ _ _ Em) as Hd. fold h in Hd.
      replace (S (Nat.pred (N.to_nat limit))) with (N.to_nat limit) in Hd by lia.
      rewrite IH, Hd by (rewrite Hd, length_drop; rewrite length_take in E; lia).
      apply take_drop.
    + apply take_ge. rewrite length_take in E. lia.
  - apply last_None in Em. destruct h as [|s h]; [done|].
    destruct (N.to_nat limit) eqn:?; [lia|done].
Qed.

(** ** Lemmas: pages and the unpaged queries *)

(** The message a stored row holds. *)
Definition message_of (s : StoredMessage) : Message :=
  mkMessage (stored_type s) (stored_sender_id s) (stored_receiver_id s) (stored_body s).

Lemma message_of_stored i m : message_of (stored i m) = m.
Proof. by destruct m. Qed.

Lemma matching_messages test i l :
  map message_of (matching test (fun _ => true) (number_from i l)) = List.filter test l.
Proof.
  revert i. induction l as [|m l IH]; intros i; [done|]. cbn [number_from List.filter].
  rewrite matching_cons, map_app, IH. simpl. destruct (test m); [|done].
  simpl. by rewrite message_of_stored.
Qed.

Lemma matching_length test rng i l : (length (matching test rng (number_from i l)) <= length l)%nat.
Proof.
  revert i. induction l as [|m l IH]; intros i; [done|]. cbn [number_from].
  rewrite matching_cons, length_app. specialize (IH (i + 1)). case_if; simpl; lia.
Qed.

Lemma history_messages test st :
  map message_of (reverse (history_before test 0 st)) = List.filter test (messages_ st).
Proof.
  unfold history_before. rewrite reverse_involutive. apply (matching_messages test 1).
Qed.

Lemma walk_history page test limit st :
  (forall b, page b = take (N.to_nat limit) (history_before test b st)) -> 0 < limit ->
  map message_of (reverse (walk_pages (S (length (messages_ st))) page limit 0)) =
    List.filter test (messages_ st).
Proof.
  intros Hp Hl. rewrite (walk_pages_complete page test limit 0 st); [apply history_messages|done|done|].
  unfold history_before, numbered. rewrite length_reverse.
  pose proof (matching_length test (fun i => (0 =? 0) || (i <? 0)) 1 (messages_ st)). lia.
Qed.

(** ** Theorems *)

(** C22: Paging is complete: for every page size, a client that follows the
    cursor from the newest message backwards gets, over all the pages, exactly
    the conversation that the unpaged query returns, each message once and in
    order; the number of stored messages bounds the number of pages. *)
Theorem paging_complete (st : MessageStore) (u p g limit : N) :
  let fuel := S (length (messages_ st)) in
  let size := default_limit limit in
  map message_of (reverse
    (walk_pages fuel (fun b => direct_history_page u p limit b st) size 0)) =
    direct_history u p st /\
  map message_of (reverse
    (walk_pages fuel (fun b => group_history_page g limit b st) size 0)) =
    group_history g st.
Proof.
  unfold direct_history, group_history. rewrite !select_filter. pose proof (default_limit_pos limit).
  split; apply walk_history; try done; intros b;
    [apply direct_history_page_spec|apply group_history_page_spec].
Qed.

(** Each page query computes its specification: the first [limit] messages
    (20 when the limit is 0) of the filtered log below the cursor, newest
    first, or for the unread query above it, oldest first; the early exits of
    the loops drop nothing. *)
Theorem pages_correct (st : MessageStore) (u p g limit before : N) (groups : list N) :
  direct_history_page u p limit before st =
    take (N.to_nat (default_limit limit)) (history_before (is_direct_between u p) before st) /\
  group_history_page g limit before st =
    take (N.to_nat (default_limit limit)) (history_before (is_group_message g) before st) /\
  unread_page u groups before limit st =
    take (N.to_nat (default_limit limit))
      (unread_after (is_unread u (list_to_set groups)) before st).
Proof.
  split; [apply direct_history_page_spec|].
  split; [apply group_history_page_spec|apply unread_page_spec].
Qed.

(** Below 2^32 a direct conversation id identifies the pair of users, in
    either order. *)
Theorem conversation_id_injective (a b c d : N) :
  a < 2 ^ 32 -> b < 2 ^ 32 -> c < 2 ^ 32 -> d < 2 ^ 32 ->
  make_direct_conversation_id a b = make_direct_conversation_id c d <->
  (a = c /\ b = d) \/ (a = d /\ b = c).
Proof.
  intros Ha Hb Hc Hd. rewrite !conversation_id_small by done.
  change (2 ^ 32) with 4294967296 in *. lia.
Qed.

Lemma conversation_id_injective_witness :
  make_direct_conversation_id 7 3 = make_direct_conversation_id 3 7 <->
  (7 = 3 /\ 3 = 7) \/ (7 = 7 /\ 3 = 3).
Proof. apply (conversation_id_injective 7 3 3 7); reflexivity. Defined.

(** Beyond 2^32 conversations collide: the pairs (1, 2) and (1, 2^32 + 2)
    get the same id. *)
Theorem conversation_id_collision :
  make_direct_conversation_id 1 2 = make_direct_conversation_id 1 (2 ^ 32 + 2).
Proof. vm_compute. reflexivity. Qed.

