(* ===== verification/ServerConfig.v ===== *)
(** * ServerConfig: defaults, the configuration file and the environment

    [src/src/core/server_config.cpp]: the merge of the three sources, and what
    [ChatServerApp] hands to the connection pool.  The file is its content, or
    [None] when it cannot be opened; the environment is the function
    [std::getenv]. *)

From S2P Require Import Prelude.
From S2P Require Import CStd.
Open Scope Z_scope.

(** ** Data *)

Record ServerConfig : Type := mkServerConfig {
  host : bytes;
  port : N;
  log_db_host : bytes;
  log_db_port : N;
  log_db_user : bytes;
  log_db_password : bytes;
  log_db_name : bytes;
  db_pool_size : Z;
  db_connect_timeout_seconds : Z;
  db_read_timeout_seconds : Z;
  db_write_timeout_seconds : Z;
  db_acquire_timeout_ms : Z;
  db_max_reconnect_attempts : Z;
  db_idle_ping_interval_seconds : Z;
  db_idle_check_interval_seconds : Z;
  heartbeat_interval_seconds : Z;
  heartbeat_timeout_seconds : Z;
  worker_threads : Z;
  max_read_buffer_bytes : Z;
  max_write_buffer_bytes : Z;
  max_response_queue_size : Z;
  max_thread_pool_queue_size : Z;
}.

(** The member initialisers. *)
Definition default_config : ServerConfig :=
  mkServerConfig "0.0.0.0" 9000 "127.0.0.1" 3306 "cpp_chat" "cpp_chat" "cpp_chat"
    4 3 5 5 3000 3 30 10 10 60 4 (2 * 1024 * 1024) (2 * 1024 * 1024) 10000 10000.

Record MySqlConnectionPoolConfig : Type := mkMySqlConnectionPoolConfig {
  pool_host : bytes;
  pool_port : N;
  pool_user : bytes;
  pool_password : bytes;
  pool_database : bytes;
  pool_size : Z;
  connect_timeout_seconds : Z;
  read_timeout_seconds : Z;
  write_timeout_seconds : Z;
  acquire_timeout_ms : Z;
  max_reconnect_attempts : Z;
  idle_ping_interval_seconds : Z;
  idle_check_interval_seconds : Z;
}.

(** ** The file *)

(** [" \t\r\n"] *)
Definition is_blank (c : ascii) : bool :=
  bool_decide (c = " "%char) || bool_decide (c = tab) || bool_decide (c = cr) ||
  bool_decide (c = nl).

(** From [find_first_not_of] to [find_last_not_of]. *)
Definition trim (value : bytes) : bytes :=
  reverse (span is_blank (reverse (span is_blank value).2)).2.

(** One turn of the reading loop. *)
Definition load_env_line (values : gmap bytes bytes) (line : bytes) : gmap bytes bytes :=
  let line := trim line in
  match line with
  | [] => values
  | c :: _ =>
      if bool_decide (c = "#"%char) then values
      else
        match span (fun c => negb (bool_decide (c = "="%char))) line with
        | (_, []) => values
        | (key, _ :: value) =>
            let key := trim key in
            let value := trim value in
            if bool_decide (key = []) then values else <[key := value]> values
        end
  end.

Definition load_env_file (input : option bytes) : gmap bytes bytes :=
  match input with
  | None => ∅
  | Some text => foldl load_env_line ∅ (getlines nl text)
  end.

(** ** Reading one setting *)

Definition get_file_value_or_default (values : gmap bytes bytes) (name default_value : bytes)
    : bytes :=
  match values !! name with
  | None => default_value
  | Some value => if bool_decide (value = []) then default_value else value
  end.

Definition parse_port_or_default (value : bytes) (default_value : N) : N :=
  if bool_decide (value = []) then default_value
  else
    match stoi value with
    | Ok parsed =>
        if (0 <? parsed) && (parsed <=? 65535) then to_u16 (Z.to_N parsed) else default_value
    | Throw _ => default_value
    end.

Definition parse_positive_int_or_default (value : bytes) (default_value : Z) : Z :=
  if bool_decide (value = []) then default_value
  else
    match stoi value with
    | Ok parsed => if 0 <? parsed then parsed else default_value
    | Throw _ => default_value
    end.

Definition parse_non_negative_int_or_default (value : bytes) (default_value : Z) : Z :=
  if bool_decide (value = []) then default_value
  else
    match stoi value with
    | Ok parsed => if 0 <=? parsed then parsed else default_value
    | Throw _ => default_value
    end.

Section environment.
Context (getenv : bytes -> option bytes).

Definition get_env_or_default (name default_value : bytes) : bytes :=
  match getenv name with
  | None => default_value
  | Some value => if bool_decide (value = []) then default_value else value
  end.

Definition get_env_port_or_default (name : bytes) (default_value : N) : N :=
  match getenv name with
  | None => default_value
  | Some value =>
      if bool_decide (value = []) then default_value
      else parse_port_or_default value default_value
  end.

Definition get_env_positive_int_or_default (name : bytes) (default_value : Z) : Z :=
  match getenv name with
  | None => default_value
  | Some value =>
      if bool_decide (value = []) then default_value
      else parse_positive_int_or_default value default_value
  end.

Definition get_env_non_negative_int_or_default (name : bytes) (default_value : Z) : Z :=
  match getenv name with
  | None => default_value
  | Some value =>
      if bool_decide (value = []) then default_value
      else parse_non_negative_int_or_default value default_value
  end.

(** The assignments to the members of [config], in the order of the source.
    [host], [port], the heartbeat intervals and [worker_threads] are not
    assigned. *)
Definition load_default_config (input : option bytes) : ServerConfig :=
  let config := default_config in
  let file_values := load_env_file input in
  let log_db_host_1 := 
    get_file_value_or_default file_values "CPP_CHAT_DB_HOST" (log_db_host config) in
  let log_db_host_1 := 
    get_file_value_or_default file_values "CPP_CHAT_LOG_DB_HOST" log_db_host_1 in
  let log_db_port_1 := 
    parse_port_or_default (get_file_value_or_default file_values "CPP_CHAT_DB_PORT" [])
      (log_db_port config) in
  let log_db_port_1 := 
    parse_port_or_default (get_file_value_or_default file_values "CPP_CHAT_LOG_DB_PORT" [])
      log_db_port_1 in
  let log_db_user_1 := 
    get_file_value_or_default file_values "CPP_CHAT_DB_USER" (log_db_user config) in
  let log_db_user_1 := 
    get_file_value_or_default file_values "CPP_CHAT_LOG_DB_USER" log_db_user_1 in
  let log_db_password_1 := 
    get_file_value_or_default file_values "CPP_CHAT_DB_PASSWORD" (log_db_password config) in
  let log_db_password_1 := 
    get_file_value_or_default file_values "CPP_CHAT_LOG_DB_PASSWORD" log_db_password_1 in
  let log_db_name_1 := 
    get_file_value_or_default file_values "CPP_CHAT_DB_NAME" (log_db_name config) in
  let log_db_name_1 := 
    get_file_value_or_default file_values "CPP_CHAT_LOG_DB_NAME" log_db_name_1 in
  let db_pool_size_1 := 
    parse_positive_int_or_default
      (get_file_value_or_default file_values "CPP_CHAT_DB_POOL_SIZE" [])
      (db_pool_size config) in
  let db_connect_timeout_seconds_1 := 
    parse_positive_int_or_default
      (get_file_value_or_default file_values "CPP_CHAT_DB_CONNECT_TIMEOUT_SECONDS" [])
      (db_connect_timeout_seconds config) in
  let db_read_timeout_seconds_1 := 
    parse_positive_int_or_default
      (get_file_value_or_default file_values "CPP_CHAT_DB_READ_TIMEOUT_SECONDS" [])
      (db_read_timeout_seconds config) in
  let db_write_timeout_seconds_1 := 
    parse_positive_int_or_default
      (get_file_value_or_default file_values "CPP_CHAT_DB_WRITE_TIMEOUT_SECONDS" [])
      (db_write_timeout_seconds config) in
  let db_acquire_timeout_ms_1 := 
    parse_positive_int_or_default
      (get_file_value_or_default file_values "CPP_CHAT_DB_ACQUIRE_TIMEOUT_MS" [])
      (db_acquire_timeout_ms config) in
  let db_max_reconnect_attempts_1 := 
    parse_non_negative_int_or_default
      (get_file_value_or_default file_values "CPP_CHAT_DB_MAX_RECONNECT_ATTEMPTS" [])
      (db_max_reconnect_attempts config) in
  let db_idle_ping_interval_seconds_1 := 
    parse_positive_int_or_default
      (get_file_value_or_default file_values "CPP_CHAT_DB_IDLE_PING_INTERVAL_SECONDS" [])
      (db_idle_ping_interval_seconds config) in
  let db_idle_check_interval_seconds_1 := 
    parse_positive_int_or_default
      (get_file_value_or_default file_values "CPP_CHAT_DB_IDLE_CHECK_INTERVAL_SECONDS" [])
      (db_idle_check_interval_seconds config) in
  let max_read_buffer_bytes_1 := 
    parse_positive_int_or_default
      (get_file_value_or_default file_values "CPP_CHAT_MAX_READ_BUFFER_BYTES" [])
      (max_read_buffer_bytes config) in
  let max_write_buffer_bytes_1 := 
    parse_positive_int_or_default
      (get_file_value_or_default file_values "CPP_CHAT_MAX_WRITE_BUFFER_BYTES" [])
      (max_write_buffer_bytes config) in
  let max_response_queue_size_1 := 
    parse_positive_int_or_default
      (get_file_value_or_default file_values "CPP_CHAT_MAX_RESPONSE_QUEUE_SIZE" [])
      (max_response_queue_size config) in
  let max_thread_pool_queue_size_1 := 
    parse_positive_int_or_default
      (get_file_value_or_default file_values "CPP_CHAT_THREAD_POOL_MAX_QUEUE_SIZE" [])
      (max_thread_pool_queue_size config) in
  let log_db_host_1 := get_env_or_default "CPP_CHAT_DB_HOST" log_db_host_1 in
  let log_db_host_1 := get_env_or_default "CPP_CHAT_LOG_DB_HOST" log_db_host_1 in
  let log_db_port_1 := get_env_port_or_default "CPP_CHAT_DB_PORT" log_db_port_1 in
  let log_db_port_1 := get_env_port_or_default "CPP_CHAT_LOG_DB_PORT" log_db_port_1 in
  let log_db_user_1 := get_env_or_default "CPP_CHAT_DB_USER" log_db_user_1 in
  let log_db_user_1 := get_env_or_default "CPP_CHAT_LOG_DB_USER" log_db_user_1 in
  let log_db_password_1 := get_env_or_default "CPP_CHAT_DB_PASSWORD" log_db_password_1 in
  let log_db_password_1 := get_env_or_default "CPP_CHAT_LOG_DB_PASSWORD" log_db_password_1 in
  let log_db_name_1 := get_env_or_default "CPP_CHAT_DB_NAME" log_db_name_1 in
  let log_db_name_1 := get_env_or_default "CPP_CHAT_LOG_DB_NAME" log_db_name_1 in
  let db_pool_size_1 := 
    get_env_positive_int_or_default "CPP_CHAT_DB_POOL_SIZE" db_pool_size_1 in
  let db_connect_timeout_seconds_1 := 
    get_env_positive_int_or_default "CPP_CHAT_DB_CONNECT_TIMEOUT_SECONDS" db_connect_timeout_seconds_1 in
  let db_read_timeout_seconds_1 := 
    get_env_positive_int_or_default "CPP_CHAT_DB_READ_TIMEOUT_SECONDS" db_read_timeout_seconds_1 in
  let db_write_timeout_seconds_1 := 
    get_env_positive_int_or_default "CPP_CHAT_DB_WRITE_TIMEOUT_SECONDS" db_write_timeout_seconds_1 in
  let db_acquire_timeout_ms_1 := 
    get_env_positive_int_or_default "CPP_CHAT_DB_ACQUIRE_TIMEOUT_MS" db_acquire_timeout_ms_1 in
  let db_max_reconnect_attempts_1 := 
    get_env_non_negative_int_or_default "CPP_CHAT_DB_MAX_RECONNECT_ATTEMPTS" db_max_reconnect_attempts_1 in
  let db_idle_ping_interval_seconds_1 := 
    get_env_positive_int_or_default "CPP_CHAT_DB_IDLE_PING_INTERVAL_SECONDS" db_idle_ping_interval_seconds_1 in
  let db_idle_check_interval_seconds_1 := 
    get_env_positive_int_or_default "CPP_CHAT_DB_IDLE_CHECK_INTERVAL_SECONDS" db_idle_check_interval_seconds_1 in
  let max_read_buffer_bytes_1 := 
    get_env_positive_int_or_default "CPP_CHAT_MAX_READ_BUFFER_BYTES" max_read_buffer_bytes_1 in
  let max_write_buffer_bytes_1 := 
    get_env_positive_int_or_default "CPP_CHAT_MAX_WRITE_BUFFER_BYTES" max_write_buffer_bytes_1 in
  let max_response_queue_size_1 := 
    get_env_positive_int_or_default "CPP_CHAT_MAX_RESPONSE_QUEUE_SIZE" max_response_queue_size_1 in
  let max_thread_pool_queue_size_1 := 
    get_env_positive_int_or_default "CPP_CHAT_THREAD_POOL_MAX_QUEUE_SIZE" max_thread_pool_queue_size_1 in
  mkServerConfig (host config) (port config) log_db_host_1 log_db_port_1 log_db_user_1
    log_db_password_1 log_db_name_1 db_pool_size_1 db_connect_timeout_seconds_1
    db_read_timeout_seconds_1 db_write_timeout_seconds_1 db_acquire_timeout_ms_1
    db_max_reconnect_attempts_1 db_idle_ping_interval_seconds_1
    db_idle_check_interval_seconds_1 (heartbeat_interval_seconds config)
    (heartbeat_timeout_seconds config) (worker_threads config) max_read_buffer_bytes_1
    max_write_buffer_bytes_1 max_response_queue_size_1 max_thread_pool_queue_size_1.
End environment.

(** ** The pool's view of the configuration *)

(** [ChatServerApp]'s initialiser of [db_pool_]. *)
Definition pool_config (config_ : ServerConfig) : MySqlConnectionPoolConfig :=
  mkMySqlConnectionPoolConfig (log_db_host config_) (log_db_port config_) (log_db_user config_)
    (log_db_password config_) (log_db_name config_) (db_pool_size config_)
    (db_connect_timeout_seconds config_) (db_read_timeout_seconds config_)
    (db_write_timeout_seconds config_) (db_acquire_timeout_ms config_)
    (db_max_reconnect_attempts config_) (db_idle_ping_interval_seconds config_)
    (db_idle_check_interval_seconds config_).

Definition positive_pool_config (config : MySqlConnectionPoolConfig) : bool :=
  (0 <? pool_size config) && (0 <? connect_timeout_seconds config) &&
  (0 <? read_timeout_seconds config) && (0 <? write_timeout_seconds config) &&
  (0 <? acquire_timeout_ms config) && (0 <=? max_reconnect_attempts config) &&
  (0 <? idle_ping_interval_seconds config) && (0 <? idle_check_interval_seconds config).

(** ** Specification: the first usable source wins

    The sources in decreasing priority; each field has its test of
    usability. *)

Fixpoint first_some {A} (l : list (option A)) (d : A) : A :=
  match l with
  | [] => d
  | Some a :: _ => a
  | None :: l => first_some l d
  end.

Definition usable_text (value : option bytes) : option bytes :=
  match value with
  | Some [] | None => None
  | Some v => Some v
  end.

Definition usable_int (low high : Z) (value : option bytes) : option Z :=
  match usable_text value with
  | Some v =>
      match stoi v with
      | Ok parsed => if (low <=? parsed) && (parsed <=? high) then Some parsed else None
      | Throw _ => None
      end
  | None => None
  end.

Section specification.
Context (getenv file : bytes -> option bytes).

(** The environment before the file, the LOG name before the general one. *)
Definition sources (names : list bytes) : list (option bytes) :=
  map getenv names ++ map file names.

Definition log_names (k : bytes) : list bytes :=
  [bs "CPP_CHAT_LOG_DB_" ++ k; bs "CPP_CHAT_DB_" ++ k].

Definition text_setting (k d : bytes) : bytes :=
  first_some (map usable_text (sources (log_names k))) d.
Definition port_setting (k : bytes) (d : N) : N :=
  Z.to_N (first_some (map (usable_int 1 65535) (sources (log_names k))) (Z.of_N d)).
Definition int_setting (low : Z) (name : bytes) (d : Z) : Z :=
  first_some (map (usable_int low int_max) (sources [name])) d.

Definition config_spec : ServerConfig :=
  let d := default_config in
  mkServerConfig (host d) (port d) (text_setting "HOST" (log_db_host d))
    (port_setting "PORT" (log_db_port d)) (text_setting "USER" (log_db_user d))
    (text_setting "PASSWORD" (log_db_password d)) (text_setting "NAME" (log_db_name d))
    (int_setting 1 "CPP_CHAT_DB_POOL_SIZE"
       (db_pool_size d))
    (int_setting 1 "CPP_CHAT_DB_CONNECT_TIMEOUT_SECONDS"
       (db_connect_timeout_seconds d))
    (int_setting 1 "CPP_CHAT_DB_READ_TIMEOUT_SECONDS"
       (db_read_timeout_seconds d))
    (int_setting 1 "CPP_CHAT_DB_WRITE_TIMEOUT_SECONDS"
       (db_write_timeout_seconds d))
    (int_setting 1 "CPP_CHAT_DB_ACQUIRE_TIMEOUT_MS"
       (db_acquire_timeout_ms d))
    (int_setting 0 "CPP_CHAT_DB_MAX_RECONNECT_ATTEMPTS"
       (db_max_reconnect_attempts d))
    (int_setting 1 "CPP_CHAT_DB_IDLE_PING_INTERVAL_SECONDS"
       (db_idle_ping_interval_seconds d))
    (int_setting 1 "CPP_CHAT_DB_IDLE_CHECK_INTERVAL_SECONDS"
       (db_idle_check_interval_seconds d))
    (heartbeat_interval_seconds d) (heartbeat_timeout_seconds d) (worker_threads d)
    (int_setting 1 "CPP_CHAT_MAX_READ_BUFFER_BYTES" (max_read_buffer_bytes d))
    (int_setting 1 "CPP_CHAT_MAX_WRITE_BUFFER_BYTES" (max_write_buffer_bytes d))
    (int_setting 1 "CPP_CHAT_MAX_RESPONSE_QUEUE_SIZE" (max_response_queue_size d))
    (int_setting 1 "CPP_CHAT_THREAD_POOL_MAX_QUEUE_SIZE" (max_thread_pool_queue_size d)).
End specification.

(** What the rest of the program relies on. *)
Definition config_ok (c : ServerConfig) : Prop :=
  (1 <= log_db_port c <= 65535)%N /\ (1 <= port c <= 65535)%N /\
  positive_pool_config (pool_config c) = true /\
  0 < worker_threads c /\ 0 < heartbeat_interval_seconds c /\
  heartbeat_interval_seconds c < heartbeat_timeout_seconds c /\
  Forall (fun n => 1 <= n <= int_max)
    [max_read_buffer_bytes c; max_write_buffer_bytes c; max_response_queue_size c;
     max_thread_pool_queue_size c] /\
  log_db_host c <> [] /\ log_db_user c <> [] /\ log_db_name c <> [].

(** A configuration file written line by line. *)
Definition render_env_file (settings : list (bytes * bytes)) : bytes :=
  concat (map (fun '(k, v) => k ++ bs "=" ++ v ++ [nl]) settings).

(** Neither end is blank. *)
Definition trimmed (s : bytes) : Prop := trim s = s.

(** A key or value that survives a trip through the file. *)
Definition setting_ok (s : bytes * bytes) : Prop :=
  s.1 <> [] /\ trimmed s.1 /\ trimmed s.2 /\ (nl ∉ s.1) /\ (nl ∉ s.2) /\
  ("="%char ∉ s.1) /\ head s.1 <> Some "#"%char.

(** ** Lemmas: settings *)
Lemma file_text_setting (values : gmap bytes bytes) (name d : bytes) :
  get_file_value_or_default values name d = default d (usable_text (values !! name)).
Proof.
  unfold get_file_value_or_default, usable_text. by destruct (values !! name) as [[|c v]|].
Qed.

Lemma parse_port_setting (v : option bytes) (d : N) :
  parse_port_or_default (default [] (usable_text v)) d =
    default d (Z.to_N <$> usable_int 1 65535 v).
Proof.
  unfold parse_port_or_default, usable_int. destruct (usable_text v) as [w|] eqn:E; [|done].
  simpl. rewrite bool_decide_eq_false_2 by (by destruct v as [[]|]; simplify_eq/=).
  destruct (stoi w) as [n|]; [|done].
  replace ((0 <? n) && (n <=? 65535)) with ((1 <=? n) && (n <=? 65535)) by lia.
  case_if; [|done]. simpl. unfold to_u16, u16_modulus. apply N.mod_small. lia.
Qed.

Lemma parse_positive_setting (v : option bytes) (d : Z) :
  parse_positive_int_or_default (default [] (usable_text v)) d =
    default d (usable_int 1 int_max v).
Proof.
  unfold parse_positive_int_or_default, usable_int.
  destruct (usable_text v) as [w|] eqn:E; [|done].
  simpl. rewrite bool_decide_eq_false_2 by (by destruct v as [[]|]; simplify_eq/=).
  destruct (stoi w) as [n|] eqn:En; [|done]. apply stoi_range in En.
  replace ((1 <=? n) && (n <=? int_max)) with (0 <? n) by lia. by case_if.
Qed.

Lemma parse_non_negative_setting (v : option bytes) (d : Z) :
  parse_non_negative_int_or_default (default [] (usable_text v)) d =
    default d (usable_int 0 int_max v).
Proof.
  unfold parse_non_negative_int_or_default, usable_int.
  destruct (usable_text v) as [w|] eqn:E; [|done].
  simpl. rewrite bool_decide_eq_false_2 by (by destruct v as [[]|]; simplify_eq/=).
  destruct (stoi w) as [n|] eqn:En; [|done]. apply stoi_range in En.
  replace ((0 <=? n) && (n <=? int_max)) with (0 <=? n) by lia. by case_if.
Qed.

Section environment_lemmas.
Context (getenv : bytes -> option bytes).

Lemma env_text_setting (name d : bytes) :
  get_env_or_default getenv name d = default d (usable_text (getenv name)).
Proof. unfold get_env_or_default, usable_text. by destruct (getenv name) as [[]|]. Qed.

Lemma env_port_setting (name : bytes) (d : N) :
  get_env_port_or_default getenv name d =
    default d (Z.to_N <$> usable_int 1 65535 (getenv name)).
Proof.
  rewrite <- parse_port_setting. unfold get_env_port_or_default.
  by destruct (getenv name) as [[]|].
Qed.

Lemma env_positive_setting (name : bytes) (d : Z) :
  get_env_positive_int_or_default getenv name d = default d (usable_int 1 int_max (getenv name)).
Proof.
  rewrite <- parse_positive_setting. unfold get_env_positive_int_or_default.
  by destruct (getenv name) as [[]|].
Qed.

Lemma env_non_negative_setting (name : bytes) (d : Z) :
  get_env_non_negative_int_or_default getenv name d =
    default d (usable_int 0 int_max (getenv name)).
Proof.
  rewrite <- parse_non_negative_setting. unfold get_env_non_negative_int_or_default.
  by destruct (getenv name) as [[]|].
Qed.
End environment_lemmas.

Lemma default_first_some {A} (a : option A) (l : list (option A)) (d : A) :
  first_some (a :: l) d = default (first_some l d) a.
Proof. by destruct a. Qed.

Lemma first_some_port (l : list (option Z)) (d : N) :
  Z.to_N (first_some l (Z.of_N d)) = first_some (map (fmap Z.to_N) l) d.
Proof. induction l as [|[z|] l IH]; simpl; [apply N2Z.id|done|done]. Qed.

(** The merge, with every step as a default. *)
Lemma load_default_config_settings getenv input :
  load_default_config getenv input =
    config_spec getenv (fun name => load_env_file input !! name).
Proof.
  unfold load_default_config, config_spec, port_setting.
  rewrite first_some_port.
  unfold text_setting, int_setting, sources, log_names.
  cbn [map app]. rewrite !default_first_some. cbn [first_some].
  rewrite !file_text_setting.
  rewrite !parse_port_setting, !parse_positive_setting, !parse_non_negative_setting.
  rewrite !env_text_setting, !env_port_setting, !env_positive_setting, !env_non_negative_setting.
  reflexivity.
Qed.

(** ** Lemmas: ranges *)
Lemma first_some_all {A} (P : A -> Prop) (l : list (option A)) (d : A) :
  (forall a, Some a ∈ l -> P a) -> P d -> P (first_some l d).
Proof.
  induction l as [|[a|] l IH]; intros H Hd; simpl; [done|apply H; set_solver|].
  apply IH; [|done]. intros a Ha. apply H. set_solver.
Qed.

Lemma usable_int_range low high v z : usable_int low high v = Some z -> low <= z <= high.
Proof.
  unfold usable_int. destruct (usable_text v) as [w|]; [|done].
  destruct (stoi w) as [n|]; [|done]. case_if; [|done]. intros [= <-]. lia.
Qed.

Lemma usable_text_nonempty v w : usable_text v = Some w -> w <> [].
Proof. destruct v as [[|c v]|]; simpl; intros H; by simplify_eq. Qed.

Section ranges.
Context (getenv file : bytes -> option bytes).

Lemma int_setting_range low name d :
  low <= d <= int_max -> low <= int_setting getenv file low name d <= int_max.
Proof.
  apply (first_some_all (fun z => low <= z <= int_max)). intros z Hz.
  apply list_elem_of_fmap in Hz as (v & Hv & _). by apply (usable_int_range _ _ v).
Qed.

Lemma port_setting_range k d :
  (1 <= d <= 65535)%N -> (1 <= port_setting getenv file k d <= 65535)%N.
Proof.
  intros Hd. unfold port_setting.
  assert (H : 1 <= first_some (map (usable_int 1 65535) (sources getenv file (log_names k)))
                   (Z.of_N d) <= 65535); [|lia].
  apply (first_some_all (fun z => 1 <= z <= 65535)); [|lia]. intros z Hz.
  apply list_elem_of_fmap in Hz as (v & Hv & _). by apply (usable_int_range _ _ v).
Qed.

Lemma text_setting_nonempty k d : d <> [] -> text_setting getenv file k d <> [].
Proof.
  apply (first_some_all (fun z => z <> [])). intros z Hz.
  apply list_elem_of_fmap in Hz as (v & Hv & _). by apply (usable_text_nonempty v).
Qed.
End ranges.

Lemma config_spec_ok getenv file : config_ok (config_spec getenv file).
Proof.
  pose proof (int_setting_range getenv file) as Hi.
  unfold config_ok, config_spec, positive_pool_config, pool_config. simpl.
  repeat match goal with
  | |- _ /\ _ => split
  | |- Forall _ _ => repeat constructor
  | |- text_setting _ _ _ _ <> [] => apply text_setting_nonempty; discriminate
  | |- (1 <= port_setting _ _ _ _)%N => apply port_setting_range; lia
  | |- (port_setting _ _ _ _ <= 65535)%N => apply port_setting_range; lia
  | |- 1 <= int_setting _ _ _ _ _ => apply Hi; unfold int_max; lia
  | |- int_setting _ _ _ _ _ <= int_max => apply Hi; unfold int_max; lia
  | |- (_ <= _)%N => lia
  | |- _ < _ => lia
  end.
  repeat (apply andb_true_iff; split); apply Z.ltb_lt || apply Z.leb_le;
    match goal with |- _ _ (int_setting _ _ ?l ?k ?d) => pose proof (Hi l k d) end;
    unfold int_max in *; lia.
Qed.

(** ** Lemmas: the file *)
Lemma is_blank_nl : is_blank nl = true.
Proof. reflexivity. Qed.

Lemma stops_blank_trim (s : bytes) : trimmed s -> stops is_blank s.
Proof.
  intros H. destruct s as [|c s]; [done|]. simpl. destruct (is_blank c) eqn:E; [exfalso|done].
  pose proof (f_equal length H) as Hl. revert Hl. unfold trim. rewrite length_reverse.
  set (r := (span is_blank (c :: s)).2).
  assert (Hr : (length r <= length s)%nat).
  { unfold r. simpl. rewrite E. pose proof (span_snd_length is_blank s).
    by destruct (span is_blank s). }
  pose proof (span_snd_length is_blank (reverse r)) as Hs. rewrite length_reverse in Hs.
  simpl. lia.
Qed.

Lemma span_stops {A} (p : A -> bool) (l : list A) : stops p l -> span p l = ([], l).
Proof. destruct l as [|x l]; simpl; [done|]. by intros ->. Qed.

Lemma stops_blank_trim_rev (s : bytes) : trimmed s -> stops is_blank (reverse s).
Proof.
  intros H. pose proof H as H'. unfold trimmed, trim in H'.
  rewrite (span_stops _ s) in H' by (by apply stops_blank_trim). simpl in H'.
  apply (f_equal reverse) in H'. rewrite reverse_involutive in H'.
  destruct (reverse s) as [|c r] eqn:Er; [done|]. simpl.
  destruct (is_blank c) eqn:E; [exfalso|done]. apply (f_equal length) in H'. simpl in H'.
  rewrite E in H'. pose proof (span_snd_length is_blank r).
  destruct (span is_blank r); simpl in *. lia.
Qed.

Lemma trimmed_intro (s : bytes) :
  stops is_blank s -> stops is_blank (reverse s) -> trimmed s.
Proof.
  intros H1 H2. unfold trimmed, trim. rewrite (span_stops _ s) by done. simpl.
  rewrite (span_stops _ (reverse s)) by done. apply reverse_involutive.
Qed.

Lemma stops_app {A} (p : A -> bool) (l k : list A) : l <> [] -> stops p l -> stops p (l ++ k).
Proof. by destruct l. Qed.

(** A [key=value] line has no blank ends. *)
Lemma trimmed_line (k v : bytes) : k <> [] -> trimmed k -> trimmed v -> trimmed (k ++ "="%char :: v).
Proof.
  intros Hk Ht Hv. apply trimmed_intro.
  - apply stops_app; [done|]. by apply stops_blank_trim.
  - rewrite reverse_app, reverse_cons. destruct v as [|c v]; [done|].
    apply stops_blank_trim_rev in Hv. rewrite <- app_assoc. apply stops_app; [|done].
    rewrite reverse_cons. by destruct (reverse v).
Qed.

Lemma load_env_line_setting (values : gmap bytes bytes) (k v : bytes) :
  setting_ok (k, v) -> load_env_line values (k ++ bs "=" ++ v) = <[k := v]> values.
Proof.
  intros (Hk & Htk & Htv & _ & _ & He & Hh). simpl in *. unfold load_env_line.
  rewrite trimmed_line by done. cbv zeta.
  assert (E : exists c l, k ++ "="%char :: v = c :: l /\ c <> "#"%char).
  { destruct k as [|c k]; [done|]. exists c, (k ++ "="%char :: v). split; [done|]. by intros ->. }
  destruct E as (c & l & E & Hc). rewrite E, <- E, bool_decide_eq_false_2 by done.
  rewrite span_stop; [|apply Forall_forall; intros x Hx; rewrite negb_true_iff, bool_decide_eq_false;
    by intros ->|done].
  rewrite Htk, Htv. by rewrite bool_decide_eq_false_2.
Qed.

Lemma load_env_file_render (settings : list (bytes * bytes)) :
  Forall setting_ok settings ->
  load_env_file (Some (render_env_file settings)) =
    foldl (fun m s => <[s.1 := s.2]> m) ∅ settings.
Proof.
  unfold load_env_file. generalize (∅ : gmap bytes bytes) as m. intros m H. revert m.
  induction H as [|[k v] settings Hs _ IH]; intros m; [done|].
  cbn [render_env_file map concat foldl].
  replace (k ++ bs "=" ++ v ++ [nl]) with ((k ++ bs "=" ++ v) ++ [nl]) by by rewrite <- !app_assoc.
  rewrite <- app_assoc. change ([nl] ++ ?x) with (nl :: x).
  rewrite getlines_line.
  - cbn [foldl]. rewrite load_env_line_setting by done. apply IH.
  - destruct Hs as (_ & _ & _ & Hk & Hv & _). simpl in *.
    rewrite elem_of_app, elem_of_cons. by intros [?|[?|?]].
Qed.

(** ** Theorems *)

(** C38: Precedence: each of the seventeen settings that can be changed (those of
    the database and its pool, and the four buffer and queue limits) is the
    first usable one of the environment, the file and the default (for host,
    port, user, password and name of the database the LOG variable before the
    general one in each source), where a number is usable when it parses into
    its range.  The other five, the listening host and port, the two heartbeat
    times and the number of workers, keep their defaults whatever file and
    environment say. *)
Theorem load_default_config_correct (getenv : bytes -> option bytes) (input : option bytes) :
  load_default_config getenv input =
    config_spec getenv (fun name => load_env_file input !! name).
Proof. apply load_default_config_settings. Qed.

(** No input breaks the server: whatever the file and the environment say,
    the ports are in 1..65535, the buffer and queue limits are positive
    [int]s, the names are not empty, and the pool accepts its configuration. *)
Theorem loaded_config_ok (getenv : bytes -> option bytes) (input : option bytes) :
  config_ok (load_default_config getenv input).
Proof. rewrite load_default_config_settings. apply config_spec_ok. Qed.

(** Settings written as [KEY=VALUE] lines are read back, the last one of a
    key winning. *)
Theorem env_file_roundtrip (settings : list (bytes * bytes)) :
  Forall setting_ok settings ->
  load_env_file (Some (render_env_file settings)) =
    foldl (fun m s => <[s.1 := s.2]> m) ∅ settings.
Proof. apply load_env_file_render. Qed.

Lemma env_file_roundtrip_witness :
  load_env_file (Some (render_env_file
    [(bs "CPP_CHAT_DB_HOST", bs "db one"); (bs "CPP_CHAT_DB_HOST", bs "x=y")])) =
  <[bs "CPP_CHAT_DB_HOST" := bs "x=y"]> (<[bs "CPP_CHAT_DB_HOST" := bs "db one"]> ∅).
Proof.
  apply (env_file_roundtrip
    [(bs "CPP_CHAT_DB_HOST", bs "db one"); (bs "CPP_CHAT_DB_HOST", bs "x=y")]).
  repeat constructor; try discriminate; apply (bool_decide_unpack _); vm_compute; exact I.
Defined.

