(* ===== verification/ThreadPool.v ===== *)
(** * ThreadPool: the bounded task queue

    [src/src/core/thread_pool.cpp] and the [enqueue] template of its header.
    Each critical section is one operation; [worker_next] is the one at the
    top of the worker loop, where the condition variable's predicate decides
    whether the worker waits, exits or takes a task. *)

From S2P Require Import Prelude.
Open Scope N_scope.

Section thread_pool.
Context {Task : Type}.

(** ** State *)

Record ThreadPool : Type := mkThreadPool {
  tasks_ : list Task;
  max_queue_size_ : N;
  stop_ : bool;
}.

Definition new_thread_pool (max_queue_size : N) : ThreadPool :=
  mkThreadPool [] (if max_queue_size =? 0 then 1 else max_queue_size) false.

(** ** Operations *)

Definition enqueue (task : Task) (p : ThreadPool) : bool * ThreadPool :=
  if stop_ p || (max_queue_size_ p <=? N.of_nat (length (tasks_ p))) then (false, p)
  else (true, mkThreadPool (tasks_ p ++ [task]) (max_queue_size_ p) (stop_ p)).

Definition queued_tasks (p : ThreadPool) : N := N.of_nat (length (tasks_ p)).

(** What a worker finds when it wakes up. *)
Inductive worker_turn : Type :=
  | Waits
  | Exits
  | Takes (task : Task) (p : ThreadPool).

Definition worker_next (p : ThreadPool) : worker_turn :=
  if negb (stop_ p || negb (bool_decide (length (tasks_ p) = 0%nat))) then Waits
  else
    match tasks_ p with
    | [] => Exits
    | task :: tasks => Takes task (mkThreadPool tasks (max_queue_size_ p) (stop_ p))
    end.

(** The destructor's critical section. *)
Definition shutdown (p : ThreadPool) : ThreadPool :=
  mkThreadPool (tasks_ p) (max_queue_size_ p) true.

(** ** Histories *)

Inductive pool_op : Type :=
  | PoolEnqueue (task : Task)
  | PoolWorker
  | PoolShutdown.

(** The pool, the tasks accepted and the tasks taken so far. *)
Record pool_trace : Type := mkPoolTrace {
  trace_pool : ThreadPool;
  trace_accepted : list Task;
  trace_taken : list Task;
}.

Definition run_pool_op (t : pool_trace) (op : pool_op) : pool_trace :=
  match op with
  | PoolEnqueue task =>
      let '(accepted, p) := enqueue task (trace_pool t) in
      mkPoolTrace p (if accepted then trace_accepted t ++ [task] else trace_accepted t)
        (trace_taken t)
  | PoolWorker =>
      match worker_next (trace_pool t) with
      | Takes task p => mkPoolTrace p (trace_accepted t) (trace_taken t ++ [task])
      | _ => t
      end
  | PoolShutdown => mkPoolTrace (shutdown (trace_pool t)) (trace_accepted t) (trace_taken t)
  end.

Definition run_pool (max_queue_size : N) (ops : list pool_op) : pool_trace :=
  foldl run_pool_op (mkPoolTrace (new_thread_pool max_queue_size) [] []) ops.

Record pool_ok (t : pool_trace) : Prop := {
  pool_fifo : trace_accepted t = trace_taken t ++ tasks_ (trace_pool t);
  pool_bounded : N.of_nat (length (tasks_ (trace_pool t))) <= max_queue_size_ (trace_pool t);
  pool_positive : 0 < max_queue_size_ (trace_pool t);
}.

(** ** Lemmas *)
Lemma enqueue_cases task p :
  (enqueue task p = (false, p) /\
   (stop_ p = true \/ max_queue_size_ p <= N.of_nat (length (tasks_ p)))) \/
  (enqueue task p = (true, mkThreadPool (tasks_ p ++ [task]) (max_queue_size_ p) (stop_ p)) /\
   stop_ p = false /\ N.of_nat (length (tasks_ p)) < max_queue_size_ p).
Proof.
  unfold enqueue. destruct (stop_ p) eqn:Es; cbn [orb]; [left; auto|].
  destruct (max_queue_size_ p <=? N.of_nat (length (tasks_ p))) eqn:E.
  - left. split; [done|]. right. lia.
  - right. split; [done|]. split; [done|lia].
Qed.

Lemma worker_next_cases p :
  match tasks_ p with
  | [] => worker_next p = if stop_ p then Exits else Waits
  | task :: tasks => worker_next p = Takes task (mkThreadPool tasks (max_queue_size_ p) (stop_ p))
  end.
Proof.
  unfold worker_next. destruct (tasks_ p) as [|task tasks]; simpl; [by destruct (stop_ p)|].
  by rewrite orb_true_r.
Qed.

Lemma run_pool_op_ok op t : pool_ok t -> pool_ok (run_pool_op t op).
Proof.
  intros [F B P]. destruct op as [task| |]; simpl.
  - destruct (enqueue_cases task (trace_pool t)) as [[-> _]|(-> & _ & Hl)]; [done|].
    split; simpl; [by rewrite F, app_assoc|rewrite length_app; simpl; lia|done].
  - pose proof (worker_next_cases (trace_pool t)) as Hw.
    destruct (tasks_ (trace_pool t)) as [|task tasks] eqn:E; rewrite Hw.
    + destruct (stop_ (trace_pool t)); split; by rewrite ?E.
    + split; simpl; [by rewrite F, <- app_assoc|simpl in B; lia|done].
  - done.
Qed.

Lemma run_pool_ok m ops : pool_ok (run_pool m ops).
Proof.
  unfold run_pool. assert (H0 : pool_ok (mkPoolTrace (new_thread_pool m) [] [])).
  { split; simpl; [done|lia|]. case_if; lia. }
  revert H0. generalize (mkPoolTrace (new_thread_pool m) [] []).
  induction ops as [|op ops IH]; intros t H0; [done|]. by apply IH, run_pool_op_ok.
Qed.

Lemma run_pool_max ops t :
  max_queue_size_ (trace_pool (foldl run_pool_op t ops)) = max_queue_size_ (trace_pool t).
Proof.
  revert t. induction ops as [|op ops IH]; intros t; [done|]. simpl. rewrite IH.
  destruct op as [task| |]; simpl; [|pose proof (worker_next_cases (trace_pool t)) as Hw|done].
  - by destruct (enqueue_cases task (trace_pool t)) as [[-> _]|(-> & _)].
  - destruct (tasks_ (trace_pool t)); rewrite Hw; [by destruct (stop_ _)|done].
Qed.
End thread_pool.
Arguments ThreadPool : clear implicits.
Arguments worker_turn : clear implicits.
Arguments pool_op : clear implicits.
Arguments pool_trace : clear implicits.

(** ** Theorems *)

(** The pool runs every accepted task exactly once, in the order of
    submission: at any point of any history of submissions, worker turns and a
    shutdown, the accepted tasks are the taken ones followed by the queued
    ones, and the queue never exceeds its bound. *)
Theorem pool_runs_accepted_tasks {Task} (m : N) (ops : list (pool_op Task)) :
  let t := run_pool m ops in
  trace_accepted t = trace_taken t ++ tasks_ (trace_pool t) /\
  queued_tasks (trace_pool t) <= N.max 1 m.
Proof.
  intros t. destruct (run_pool_ok m ops) as [F B _]. split; [exact F|].
  unfold queued_tasks. unfold t, run_pool in *. rewrite run_pool_max in B. simpl in B.
  case_if_in B; lia.
Qed.

(** A shutdown drains: after it no task is accepted, a worker never waits,
    and it exits only once every task accepted before has been taken. *)
Theorem shutdown_drains {Task} (task : Task) (p : ThreadPool Task) :
  stop_ p = true ->
  enqueue task p = (false, p) /\
  worker_next p <> Waits /\ (worker_next p = Exits <-> tasks_ p = []).
Proof.
  intros Hs. split; [unfold enqueue; by rewrite Hs|].
  pose proof (worker_next_cases p) as Hw. rewrite Hs in Hw. by destruct (tasks_ p); rewrite Hw.
Qed.

Lemma shutdown_drains_witness :
  enqueue 3 (mkThreadPool [1; 2] 10 true) = (false, mkThreadPool [1; 2] 10 true) /\
  worker_next (mkThreadPool [1; 2] 10 true) <> Waits /\
  (worker_next (mkThreadPool [1; 2] 10 true) = Exits <->
   tasks_ (mkThreadPool [1; 2] 10 true) = []).
Proof. apply (shutdown_drains 3 (mkThreadPool [1; 2] 10 true)). reflexivity. Defined.
