(* ===== verification/Log.v ===== *)
(** * Log: levels and lines of the log

    The part of [src/src/logging/logger.cpp] that does not touch the database:
    what the chat service logs, and the line a call prints.  [Logger.v] is the
    rest. *)

From S2P Require Import Prelude.

Inductive LogLevel : Type := Info | Warn | Error.

Definition level_to_string (level : LogLevel) : bytes :=
  match level with
  | Info => "INFO"
  | Warn => "WARN"
  | Error => "ERROR"
  end.

(** A message a caller logs: the time of the call, the level, the text. *)
Record LogCall : Type := mkLogCall {
  call_time : bytes;
  call_level : LogLevel;
  call_message : bytes;
}.

Definition log_line (c : LogCall) : bytes :=
  call_time c ++ bs " [" ++ level_to_string (call_level c) ++ bs "] " ++ call_message c.
