(* ===== verification/MySqlConnectionPool.v ===== *)
(** * MySqlConnectionPool: connections lent to the stores and the logger

    [src/src/storage/mysql_connection_pool.cpp] and its header.  A pool owns
    [PooledConnection] objects; [available_] queues the addresses of those that
    are not lent out.  The objects live in a store [slots] of their own, so
    that what happens to an object that is freed while somebody still has its
    address is visible: reading or writing a freed object sets
    [use_after_free].  Each critical section of [mutex_] is one function;
    [acquire] is their composition for a caller nobody interferes with; the
    relation [pool_step] of [PoolTheorems.v] interleaves them. *)

From S2P Require Import Prelude.
From S2P Require Import ServerConfig.
From S2P Require Import MySqlClient.
Open Scope Z_scope.

(** ** Data *)

(** The address of a [PooledConnection]. *)
Abbreviation Slot := N.

Record PooledConnection : Type := mkPooledConnection {
  slot_mysql : option MYSQL;
  last_used : Z;
  last_checked : Z;
  generation : N;
}.

Definition new_connection : PooledConnection := mkPooledConnection None 0 0 0.

Record MySqlConnectionPool : Type := mkMySqlConnectionPool {
  available_ : list Slot;
  connections_ : list Slot;
  pool_config_ : MySqlConnectionPoolConfig;
  last_idle_check_ : Z;
  next_generation_ : N;
  pool_ready_ : bool;
  pool_stopped_ : bool;
}.

(** [PooledMySqlConnection]: is [pool_] set, and [connection_]. *)
Record PooledMySqlConnection : Type := mkGuard {
  guard_pool_ : bool;
  guard_connection_ : option Slot;
}.

Definition empty_guard : PooledMySqlConnection := mkGuard false None.

(** The pool, the objects it allocated, and the client library. *)
Record Db `{MySql} : Type := mkDb {
  pool : MySqlConnectionPool;
  slots : gmap Slot PooledConnection;
  next_slot : Slot;
  use_after_free : bool;
  client : Client;
}.

Section pool.
Context `{MySql}.

Definition set_pool (f : MySqlConnectionPool -> MySqlConnectionPool) : ST Db unit :=
  modify (fun db => mkDb _ (f (pool db)) (slots db) (next_slot db) (use_after_free db) (client db)).

Definition on_client {A} (m : ST Client A) : ST Db A := fun db =>
  let '(a, c) := m (client db) in
  (a, mkDb _ (pool db) (slots db) (next_slot db) (use_after_free db) c).

(** [connection->field] and [connection->field = ...] *)
Definition read_slot (s : Slot) : ST Db PooledConnection := fun db =>
  match slots db !! s with
  | Some x => (x, db)
  | None => (new_connection, mkDb _ (pool db) (slots db) (next_slot db) true (client db))
  end.

Definition write_slot (s : Slot) (f : PooledConnection -> PooledConnection) : ST Db unit := fun db =>
  match slots db !! s with
  | Some x => (tt, mkDb _ (pool db) (<[s := f x]> (slots db)) (next_slot db) (use_after_free db)
                     (client db))
  | None => (tt, mkDb _ (pool db) (slots db) (next_slot db) true (client db))
  end.

(** [std::make_unique<PooledConnection>()], and the end of a [std::unique_ptr]. *)
Definition make_slot : ST Db Slot := fun db =>
  (next_slot db,
   mkDb _ (pool db) (<[next_slot db := new_connection]> (slots db)) (next_slot db + 1)%N
     (use_after_free db) (client db)).

Definition free_slots (l : list Slot) : ST Db unit :=
  modify (fun db => mkDb _ (pool db) (foldr delete (slots db) l) (next_slot db)
                      (use_after_free db) (client db)).

(** *** A new pool *)

(** The member initialisers of config and pool. *)
Definition default_pool_config : MySqlConnectionPoolConfig :=
  mkMySqlConnectionPoolConfig "127.0.0.1" 3306 "cpp_chat" "cpp_chat" "cpp_chat"
    4 3 5 5 3000 3 30 10.
Definition new_pool : MySqlConnectionPool :=
  mkMySqlConnectionPool [] [] default_pool_config 0 1 false true.
Definition new_db (c : Client) : Db := mkDb _ new_pool ∅ 0 false c.

(** *** Fields of the pool *)

Definition set_available (l : list Slot) (p : MySqlConnectionPool) : MySqlConnectionPool :=
  mkMySqlConnectionPool l (connections_ p) (pool_config_ p) (last_idle_check_ p)
    (next_generation_ p) (pool_ready_ p) (pool_stopped_ p).
Definition set_connections (l : list Slot) (p : MySqlConnectionPool) : MySqlConnectionPool :=
  mkMySqlConnectionPool (available_ p) l (pool_config_ p) (last_idle_check_ p)
    (next_generation_ p) (pool_ready_ p) (pool_stopped_ p).
Definition set_config (config : MySqlConnectionPoolConfig) (p : MySqlConnectionPool) :
    MySqlConnectionPool :=
  mkMySqlConnectionPool (available_ p) (connections_ p) config (last_idle_check_ p)
    (next_generation_ p) (pool_ready_ p) (pool_stopped_ p).
Definition set_last_idle_check (t : Z) (p : MySqlConnectionPool) : MySqlConnectionPool :=
  mkMySqlConnectionPool (available_ p) (connections_ p) (pool_config_ p) t
    (next_generation_ p) (pool_ready_ p) (pool_stopped_ p).
Definition set_flags (ready stopped : bool) (p : MySqlConnectionPool) : MySqlConnectionPool :=
  mkMySqlConnectionPool (available_ p) (connections_ p) (pool_config_ p) (last_idle_check_ p)
    (next_generation_ p) ready stopped.

(** [next_generation_++], the old value. *)
Definition draw_generation : ST Db N := fun db =>
  let p := pool db in
  (next_generation_ p,
   mkDb _ (mkMySqlConnectionPool (available_ p) (connections_ p) (pool_config_ p)
             (last_idle_check_ p) (u64_succ (next_generation_ p)) (pool_ready_ p) (pool_stopped_ p))
     (slots db) (next_slot db) (use_after_free db) (client db)).

(** ** Connections *)

(** [static_cast<unsigned int>(std::max(1, seconds))] *)
Definition timeout_of (seconds : Z) : N := Z.to_N (Z.max 1 seconds).

Definition create_connection : ST Db (option MYSQL) :=
  mysql ← on_client mysql_init;
  match mysql with
  | None => mret None
  | Some mysql =>
      config_ ← gets (fun db => pool_config_ (pool db));
      on_client (mysql_options mysql OPT_CONNECT_TIMEOUT
                   (timeout_of (connect_timeout_seconds config_)));;
      on_client (mysql_options mysql OPT_READ_TIMEOUT (timeout_of (read_timeout_seconds config_)));;
      on_client (mysql_options mysql OPT_WRITE_TIMEOUT (timeout_of (write_timeout_seconds config_)));;
      connected ← on_client (mysql_real_connect mysql (pool_host config_) (pool_user config_)
                    (pool_password config_) (pool_database config_) (pool_port config_));
      if negb connected then on_client (mysql_close mysql);; mret None
      else mret (Some mysql)
  end.

Definition close_connection (s : Slot) : ST Db unit :=
  connection ← read_slot s;
  match slot_mysql connection with
  | None => mret tt
  | Some mysql =>
      on_client (mysql_close mysql);;
      write_slot s (fun x => mkPooledConnection None (last_used x) (last_checked x) (generation x))
  end.

Definition ping_connection (s : Slot) : ST Db bool :=
  connection ← read_slot s;
  match slot_mysql connection with
  | None => mret false
  | Some mysql =>
      status ← on_client (mysql_ping mysql);
      if status =? 0 then
        now ← on_client steady_clock_now;
        write_slot s (fun x => mkPooledConnection (slot_mysql x) (last_used x) now (generation x));;
        mret true
      else mret false
  end.

(** The loop of [reconnect_connection]. *)
Fixpoint reconnect_loop (attempts : nat) (s : Slot) : ST Db bool :=
  match attempts with
  | O => mret false
  | S attempts =>
      mysql ← create_connection;
      match mysql with
      | None => reconnect_loop attempts s
      | Some mysql =>
          now ← on_client steady_clock_now;
          g ← draw_generation;
          write_slot s (fun _ => mkPooledConnection (Some mysql) now now g);;
          mret true
      end
  end.

Definition reconnect_connection (s : Slot) : ST Db bool :=
  close_connection s;;
  attempts ← gets (fun db => max_reconnect_attempts (pool_config_ (pool db)));
  reconnect_loop (Z.to_nat attempts) s.

(** [std::chrono::seconds(n)], in nanoseconds. *)
Definition seconds (n : Z) : Z := n * 1000000000.

Definition ensure_healthy (s : Slot) : ST Db bool :=
  now ← on_client steady_clock_now;
  ping_interval ← gets (fun db => seconds (idle_ping_interval_seconds (pool_config_ (pool db))));
  connection ← read_slot s;
  let should_ping :=
    bool_decide (slot_mysql connection = None) || (ping_interval <=? now - last_checked connection) in
  if negb should_ping then mret true
  else
    alive ← ping_connection s;
    if alive : bool then mret true else reconnect_connection s.

(** ** The critical sections *)

Definition release (connection : option Slot) : ST Db unit :=
  match connection with
  | None => mret tt
  | Some s =>
      stopped ← gets (fun db => pool_stopped_ (pool db));
      if stopped : bool then close_connection s
      else
        now ← on_client steady_clock_now;
        write_slot s (fun x =>
          mkPooledConnection (slot_mysql x) now (last_checked x) (generation x));;
        set_pool (fun p => set_available (available_ p ++ [s]) p)
  end.

Fixpoint close_each (l : list Slot) : ST Db unit :=
  match l with
  | [] => mret tt
  | s :: l => close_connection s;; close_each l
  end.

Definition close_all_unlocked : ST Db unit :=
  set_pool (set_available []);;
  connections ← gets (fun db => connections_ (pool db));
  close_each connections;;
  free_slots connections;;
  set_pool (set_connections []).

(** The loop of [init]: the new objects, or [None] when a connection fails,
    with those made before closed and freed. *)
Fixpoint create_slots (n : nat) (created : list Slot) : ST Db (option (list Slot)) :=
  match n with
  | O => mret (Some created)
  | S n =>
      s ← make_slot;
      mysql ← create_connection;
      match mysql with
      | None =>
          close_each created;;
          free_slots (s :: created);;
          mret None
      | Some mysql =>
          now ← on_client steady_clock_now;
          g ← draw_generation;
          write_slot s (fun _ => mkPooledConnection (Some mysql) now now g);;
          create_slots n (created ++ [s])
      end
  end.

Definition init (config : MySqlConnectionPoolConfig) : ST Db bool :=
  ready ← gets (fun db => pool_ready_ (pool db));
  if ready : bool then mret true
  else
    set_pool (set_config config);;
    set_pool (set_flags false false);;
    close_all_unlocked;;
    if negb (positive_pool_config config) then
      set_pool (set_flags false true);; mret false
    else
      created ← create_slots (Z.to_nat (pool_size config)) [];
      match created with
      | None => set_pool (set_flags false true);; mret false
      | Some created =>
          set_pool (fun p => set_connections (connections_ p ++ created)
                               (set_available (available_ p ++ created) p));;
          now ← on_client steady_clock_now;
          set_pool (set_last_idle_check now);;
          set_pool (fun p => set_flags true (pool_stopped_ p) p);;
          mret true
      end.

Definition shutdown : ST Db unit :=
  p ← gets pool;
  if pool_stopped_ p && bool_decide (connections_ p = []) then mret tt
  else
    set_pool (set_flags false true);;
    close_all_unlocked.

Definition ready (db : Db) : bool := pool_ready_ (pool db) && negb (pool_stopped_ (pool db)).

(** The loop of [idle_health_check_unlocked] over the queue. *)
Fixpoint split_idle (now ping_interval : Z) (queue candidates keep : list Slot) :
    ST Db (list Slot * list Slot) :=
  match queue with
  | [] => mret (candidates, keep)
  | s :: queue =>
      connection ← read_slot s;
      if bool_decide (slot_mysql connection = None) ||
         (ping_interval <=? now - last_checked connection)
      then split_idle now ping_interval queue (candidates ++ [s]) keep
      else split_idle now ping_interval queue candidates (keep ++ [s])
  end.

Definition idle_health_check_unlocked : ST Db (list Slot) :=
  p ← gets pool;
  if pool_stopped_ p || bool_decide (available_ p = []) then mret []
  else
    now ← on_client steady_clock_now;
    let check_interval := seconds (idle_check_interval_seconds (pool_config_ p)) in
    if negb (last_idle_check_ p =? 0) && (now - last_idle_check_ p <? check_interval) then mret []
    else
      set_pool (set_last_idle_check now);;
      let ping_interval := seconds (idle_ping_interval_seconds (pool_config_ p)) in
      split ← split_idle now ping_interval (available_ p) [] [];
      let '(candidates, keep) := split in
      set_pool (set_available keep);;
      mret candidates.

(** The second critical section of [acquire], once the wait is over: the first
    available object, if the pool still runs and has one. *)
Definition take_available : ST Db (option Slot) := fun db =>
  match available_ (pool db) with
  | s :: rest =>
      if pool_stopped_ (pool db) then (None, db)
      else (Some s, (set_pool (set_available rest) db).2)
  | [] => (None, db)
  end.

(** ** [acquire] *)

Fixpoint check_candidates (candidates : list Slot) : ST Db unit :=
  match candidates with
  | [] => mret tt
  | candidate :: candidates =>
      ensure_healthy candidate;;
      release (Some candidate);;
      check_candidates candidates
  end.

Definition acquire : ST Db PooledMySqlConnection :=
  candidates ← idle_health_check_unlocked;
  check_candidates candidates;;
  connection ← take_available;
  match connection with
  | None => mret empty_guard
  | Some s =>
      healthy ← ensure_healthy s;
      if negb healthy then release (Some s);; mret empty_guard
      else mret (mkGuard true (Some s))
  end.

(** ** The guard *)

Definition guard_get (g : PooledMySqlConnection) : ST Db (option MYSQL) :=
  match guard_connection_ g with
  | None => mret None
  | Some s => connection ← read_slot s; mret (slot_mysql connection)
  end.

Definition guard_bool (g : PooledMySqlConnection) : ST Db bool :=
  mysql ← guard_get g; mret (negb (bool_decide (mysql = None))).

(** [reset], which is also the destructor: the guard it leaves. *)
Definition guard_reset (g : PooledMySqlConnection) : ST Db PooledMySqlConnection :=
  (if guard_pool_ g && negb (bool_decide (guard_connection_ g = None))
   then release (guard_connection_ g) else mret tt);;
  mret empty_guard.

(** The move constructor: the new guard and what it leaves of the other. *)
Definition guard_move (other : PooledMySqlConnection) :
    PooledMySqlConnection * PooledMySqlConnection :=
  (mkGuard (guard_pool_ other) (guard_connection_ other), empty_guard).

(** Move assignment of another object. *)
Definition guard_assign (this other : PooledMySqlConnection) :
    ST Db (PooledMySqlConnection * PooledMySqlConnection) :=
  guard_reset this;; mret (guard_move other).

(** The scope of a guard: acquire, stop without a connection, work, and give
    the connection back on every way out. *)
Definition using_connection {A} (without : A) (work : MYSQL -> ST Client A) : ST Db A :=
  connection ← acquire;
  mysql ← guard_get connection;
  match mysql with
  | None => guard_reset connection;; mret without
  | Some mysql =>
      result ← on_client (work mysql);
      guard_reset connection;;
      mret result
  end.
End pool.
