(* ===== verification/PoolSpec.v ===== *)
(** * PoolSpec: who owns the connections of the pool

    The invariant of [MySqlConnectionPool.v]: every object of the pool is in
    exactly one place, the queue or one borrower; every connection handle of
    the client library is held by exactly one object; no freed object is
    touched.  One lemma per operation, for any answers of the library. *)

From S2P Require Import Prelude.
From S2P Require Import ServerConfig.
From S2P Require Import MySqlClient.
From S2P Require Import MySqlConnectionPool.
Open Scope Z_scope.

Section objects.
Context `{MySqlProtocol}.

Definition with_client (c : Client) (db : Db) : Db :=
  mkDb _ (pool db) (slots db) (next_slot db) (use_after_free db) c.
Definition with_slots (m : gmap Slot PooledConnection) (db : Db) : Db :=
  mkDb _ (pool db) m (next_slot db) (use_after_free db) (client db).

(** The objects hold the library's handles: [extra] are those on their way
    from [create_connection] into an object. *)
Record objects_ok (extra : gset MYSQL) (db : Db) : Prop := {
  ok_handles h : h ∈ handles (client db) <->
    h ∈ extra \/ exists s x, slots db !! s = Some x /\ slot_mysql x = Some h;
  ok_extra h s x : h ∈ extra -> slots db !! s = Some x -> slot_mysql x <> Some h;
  ok_distinct s s' x x' h : slots db !! s = Some x -> slots db !! s' = Some x' ->
    slot_mysql x = Some h -> slot_mysql x' = Some h -> s = s';
  ok_fresh s x : slots db !! s = Some x -> (s < next_slot db)%N;
  ok_safe : use_after_free db = false;
}.

(** What the unlocked operations leave alone: all of the pool's fields but the
    generation counter, and the statements. *)
Record pool_frame (db db' : Db) : Prop := {
  frame_available : available_ (pool db') = available_ (pool db);
  frame_connections : connections_ (pool db') = connections_ (pool db);
  frame_config : pool_config_ (pool db') = pool_config_ (pool db);
  frame_idle : last_idle_check_ (pool db') = last_idle_check_ (pool db);
  frame_ready : pool_ready_ (pool db') = pool_ready_ (pool db);
  frame_stopped : pool_stopped_ (pool db') = pool_stopped_ (pool db);
  frame_statements : statements (client db') = statements (client db);
  frame_tables : undisturbed (client db) (client db');
}.

#[export] Instance pool_frame_preorder : PreOrder pool_frame.
Proof.
  split.
  - intros db. by split.
  - intros a b c [] []. split; try congruence. by etrans.
Qed.

(** ** Single steps *)
Lemma on_client_wp {A} (m : ST Client A) (Q : A -> Db -> Prop) db :
  wp m (fun a c => Q a (with_client c db)) (client db) -> wp (on_client m) Q db.
Proof. unfold wp, on_client. destruct (m (client db)). done. Qed.

Lemma read_slot_wp s x (Q : PooledConnection -> Db -> Prop) db :
  slots db !! s = Some x -> Q x db -> wp (read_slot s) Q db.
Proof. intros E HQ. unfold wp, read_slot. by rewrite E. Qed.

Lemma write_slot_wp s x f (Q : unit -> Db -> Prop) db :
  slots db !! s = Some x -> Q tt (with_slots (<[s := f x]> (slots db)) db) ->
  wp (write_slot s f) Q db.
Proof. intros E HQ. unfold wp, write_slot. by rewrite E. Qed.

Lemma objects_client extra db c :
  objects_ok extra db -> same_objects (client db) c -> objects_ok extra (with_client c db).
Proof. intros [] [E _ _]. split; simpl; try done. intros h. by rewrite E. Qed.

Lemma frame_client db c :
  same_objects (client db) c -> undisturbed (client db) c -> pool_frame db (with_client c db).
Proof. intros []. by split. Qed.

Lemma frame_slots db m : pool_frame db (with_slots m db).
Proof. by split. Qed.

(** Writing an object without touching its handle. *)
Lemma objects_write extra db s x x' :
  objects_ok extra db -> slots db !! s = Some x -> slot_mysql x' = slot_mysql x ->
  objects_ok extra (with_slots (<[s := x']> (slots db)) db).
Proof.
  intros [Oh Oe Od Of Os] E Em.
  assert (Hback : forall t y, <[s := x']> (slots db) !! t = Some y ->
            exists z, slots db !! t = Some z /\ slot_mysql z = slot_mysql y).
  { intros t y. rewrite lookup_insert. case_decide as Ht; [subst|by eauto].
    intros [= <-]. by exists x. }
  split; simpl; [|..|done].
  - intros h. rewrite Oh. apply or_iff_compat_l. split.
    + intros (t & y & Hy & Eh). destruct (decide (s = t)) as [->|Ht].
      * exists t, x'. rewrite lookup_insert_eq. split; [done|congruence].
      * exists t, y. by rewrite lookup_insert_ne.
    + intros (t & y & (z & Hz & Ez)%Hback & Eh). exists t, z. split; [done|congruence].
  - intros h t y Hh (z & Hz & <-)%Hback. by apply (Oe h t).
  - intros t t' y y' h (z & Hz & Ez)%Hback (z' & Hz' & Ez')%Hback E1 E2.
    apply (Od t t' z z' h); congruence.
  - intros t y (z & Hz & _)%Hback. by apply (Of t z).
Qed.

(** An object adopts a handle. *)
Lemma objects_adopt extra db s x x' h :
  objects_ok ({[h]} ∪ extra) db -> (h ∉ extra) -> slots db !! s = Some x ->
  slot_mysql x = None -> slot_mysql x' = Some h ->
  objects_ok extra (with_slots (<[s := x']> (slots db)) db).
Proof.
  intros [Oh Oe Od Of Os] Hn E Em Eh.
  assert (Hx : forall t y, slots db !! t = Some y -> slot_mysql y <> Some h).
  { intros t y Hy. apply (Oe h t); [set_solver|done]. }
  split; simpl; [..|done].
  - intros g. rewrite Oh. split.
    + intros [[->%elem_of_singleton|Hg]%elem_of_union|(t & y & Hy & Eg)]; [right|by left|right].
      * exists s, x'. by rewrite lookup_insert_eq.
      * exists t, y. rewrite lookup_insert_ne; [done|]. intros ->. congruence.
    + intros [Hg|(t & y & Hy & Eg)]; [set_solver|]. rewrite lookup_insert in Hy.
      case_decide; [left|right; by exists t, y]. injection Hy as <-. set_solver.
  - intros g t y Hg. rewrite lookup_insert. case_decide; [|apply Oe; set_solver].
    intros [= <-]. set_solver.
  - intros t t' y y' g. rewrite !lookup_insert. repeat case_decide; [congruence| | |apply Od].
    + intros [= <-] Hy' Eg Eg'. destruct (Hx t' y' Hy'). congruence.
    + intros Hy [= <-] Eg Eg'. destruct (Hx t y Hy). congruence.
  - intros t y. rewrite lookup_insert. case_decide; [subst; intros _; by apply (Of _ x)|apply Of].
Qed.

(** An object gives up its handle, which the library frees. *)
Lemma objects_drop extra db s x x' h c :
  objects_ok extra db -> slots db !! s = Some x -> slot_mysql x = Some h ->
  slot_mysql x' = None -> handles c = handles (client db) ∖ {[h]} ->
  objects_ok extra (with_slots (<[s := x']> (slots db)) (with_client c db)).
Proof.
  intros [Oh Oe Od Of Os] E Em Eh Hc. split; simpl; [..|done].
  - intros g. rewrite Hc, elem_of_difference, Oh, elem_of_singleton. split.
    + intros [[Hg|(t & y & Hy & Eg)] Hn]; [by left|right]. exists t, y.
      rewrite lookup_insert_ne; [done|]. intros ->. congruence.
    + intros [Hg|(t & y & Hy & Eg)].
      * split; [by left|]. intros ->. by apply (Oe h s x).
      * rewrite lookup_insert in Hy. case_decide; [congruence|].
        split; [right; by exists t, y|]. intros ->.
        pose proof (Od s t x y h E Hy Em Eg). congruence.
  - intros g t y Hg. rewrite lookup_insert. case_decide; [|by apply Oe]. intros [= <-]. congruence.
  - intros t t' y y' g. rewrite !lookup_insert. repeat case_decide; try congruence. apply Od.
  - intros t y. rewrite lookup_insert. case_decide; [subst; intros _; by apply (Of _ x)|apply Of].
Qed.

(** ** The operations on one object *)

(** Nothing but the library's state and the generation counter moves. *)
Record stays (extra : gset MYSQL) (db db' : Db) : Prop := {
  stays_frame : pool_frame db db';
  stays_slots : slots db' = slots db;
  stays_objects : objects_ok extra db';
}.

Lemma stays_trans extra extra' a b c : stays extra a b -> stays extra' b c -> stays extra' a c.
Proof. intros [] []. split; [by etrans|congruence|done]. Qed.

Lemma on_client_keeps {A} extra (m : ST Client A) (Q : A -> Db -> Prop) db :
  objects_ok extra db -> idles m (client db) ->
  (forall a db', stays extra db db' -> Q a db') -> wp (on_client m) Q db.
Proof.
  intros Ho Hm HQ. apply on_client_wp. eapply wp_mono; [apply Hm|]. intros a c [Hc Ht].
  apply HQ. split.
  - by apply frame_client.
  - done.
  - by apply objects_client.
Qed.

Lemma now_idles c : idles steady_clock_now c.
Proof. eapply wp_mono; [apply now_law|]. by intros t c' (? & ? & _). Qed.

Lemma draw_generation_wp extra (Q : N -> Db -> Prop) db :
  objects_ok extra db -> (forall g db', stays extra db db' -> Q g db') -> wp draw_generation Q db.
Proof. intros [] HQ. apply HQ. by split. Qed.

Lemma init_wp extra db :
  objects_ok extra db -> wp (on_client mysql_init) (fun r db' =>
    match r with
    | None => stays extra db db'
    | Some h => (h ∉ extra) /\ h ∈ handles (client db') /\ stays ({[h]} ∪ extra) db db'
    end) db.
Proof.
  intros Ho. pose proof Ho as [Oh Oe Od Of Os]. apply on_client_wp.
  eapply wp_mono; [apply init_law|]. intros [h|] c (Es & _ & Ht & Eh).
  - destruct Eh as [Hn Eh].
    assert (Hne : forall s x, slots db !! s = Some x -> slot_mysql x <> Some h).
    { intros s x Hs Hx. apply Hn, Oh. right. by exists s, x. }
    split; [intros Hx; apply Hn, Oh; by left|]. split; [simpl; rewrite Eh; set_solver|].
    split; [by split|done|]. split; simpl; try done.
    + intros g. rewrite Eh, elem_of_union, Oh. set_solver.
    + intros g s x [->%elem_of_singleton|Hg]%elem_of_union; [apply Hne|by apply Oe].
  - split; [by split|done|]. split; simpl; try done. intros g. by rewrite Eh.
Qed.

Lemma close_wp extra h db :
  objects_ok ({[h]} ∪ extra) db -> (h ∉ extra) ->
  wp (on_client (mysql_close h)) (fun _ => stays extra db) db.
Proof.
  intros Ho Hn. pose proof Ho as [Oh Oe Od Of Os]. apply on_client_wp.
  eapply wp_mono; [apply close_law, Oh; set_solver|]. intros [] c (Es & _ & Ht & Eh).
  split; [by split|done|]. split; simpl; try done.
  - intros g. rewrite Eh, elem_of_difference, Oh, elem_of_singleton. split; [set_solver|].
    intros [Hg|(s & x & Hs & Hx)]; [set_solver|]. split; [right; by exists s, x|].
    intros ->. by apply (Oe h s x ltac:(set_solver) Hs).
  - intros g s x Hg. apply Oe. set_solver.
Qed.

Lemma create_connection_spec extra db :
  objects_ok extra db -> wp create_connection (fun r db' =>
    match r with
    | None => stays extra db db'
    | Some h => (h ∉ extra) /\ stays ({[h]} ∪ extra) db db'
    end) db.
Proof.
  intros Ho. unfold create_connection. apply wp_bind.
  eapply wp_mono; [by apply init_wp|]. intros [h|] d0; [|intros; by apply wp_ret].
  intros (Hn & _ & S0). apply wp_bind, gets_wp.
  assert (Hin : forall d, stays ({[h]} ∪ extra) db d -> h ∈ handles (client d)).
  { intros d [_ _ Hd]. apply (ok_handles _ _ Hd). set_solver. }
  assert (Hstep : forall A B (m : ST Client A) (k : A -> ST Db B) (Q : B -> Db -> Prop) d, stays ({[h]} ∪ extra) db d ->
            (forall c, h ∈ handles c -> idles m c) ->
            (forall a d', stays ({[h]} ∪ extra) db d' -> wp (k a) Q d') ->
            wp (on_client m ≫= k) Q d).
  { intros A B m k Q d Sd Hm Hk.
    apply wp_bind, (on_client_keeps ({[h]} ∪ extra)); [apply Sd|by apply Hm, Hin|].
    intros a d' Sd'. apply Hk. by eapply stays_trans. }
  generalize (pool_config_ (pool d0)); intros config.
  do 3 (apply Hstep; [done|intros c; apply options_law|]; intros []; clear S0 d0; intros d0 S0).
  apply Hstep; [done|intros c; apply real_connect_law|].
  intros r. clear S0 d0. intros d0 S0.
  destruct r; simpl negb; cbv iota; [by apply wp_ret|].
  apply wp_bind. eapply wp_mono; [apply (close_wp extra h); [apply S0|done]|].
  intros [] d1 S1. apply wp_ret. by eapply stays_trans.
Qed.

(** The effect of an operation on object [s]: it holds [x] afterwards. *)
Record updates (extra : gset MYSQL) (s : Slot) (x : PooledConnection) (db db' : Db) : Prop := {
  updates_frame : pool_frame db db';
  updates_slots : slots db' = <[s := x]> (slots db);
  updates_objects : objects_ok extra db';
}.

Lemma updates_stays extra extra' s x db db' db'' :
  updates extra' s x db db' -> stays extra db' db'' -> updates extra s x db db''.
Proof. intros [] []. split; [by etrans|congruence|done]. Qed.

Lemma stays_updates extra extra' s x db db' db'' :
  stays extra' db db' -> updates extra s x db' db'' -> updates extra s x db db''.
Proof. intros [] []. split; [by etrans|congruence|done]. Qed.

Lemma updates_trans extra extra' s x y db db' db'' :
  updates extra' s x db db' -> updates extra s y db' db'' -> updates extra s y db db''.
Proof.
  intros [? E ?] [? E' ?]. split; [by etrans| |done]. by rewrite E', E, insert_insert_eq.
Qed.

Lemma updates_lookup extra s x db db' : updates extra s x db db' -> slots db' !! s = Some x.
Proof. intros [_ E _]. by rewrite E, lookup_insert_eq. Qed.

Lemma stays_lookup extra s db db' : stays extra db db' -> slots db' !! s = slots db !! s.
Proof. intros [_ E _]. by rewrite E. Qed.

Lemma updates_same extra s x db :
  objects_ok extra db -> slots db !! s = Some x -> updates extra s x db db.
Proof. intros Ho E. split; [done|by rewrite insert_id|done]. Qed.

(** The common shapes of the proofs below. *)
Lemma write_slot_updates extra s x f db :
  objects_ok extra db -> slots db !! s = Some x -> slot_mysql (f x) = slot_mysql x ->
  wp (write_slot s f) (fun _ => updates extra s (f x) db) db.
Proof.
  intros Ho E Em. eapply write_slot_wp; [done|]. split; [done|done|]. by eapply objects_write.
Qed.

Lemma now_wp extra (Q : Z -> Db -> Prop) db :
  objects_ok extra db -> (forall t db', stays extra db db' -> Q t db') ->
  wp (on_client steady_clock_now) Q db.
Proof. intros Ho HQ. apply (on_client_keeps extra); [done|apply now_idles|done]. Qed.

Lemma close_connection_spec extra s x db :
  objects_ok extra db -> slots db !! s = Some x ->
  wp (close_connection s) (fun _ db' =>
    exists x', slot_mysql x' = None /\ updates extra s x' db db') db.
Proof.
  intros Ho E. unfold close_connection. apply wp_bind, (read_slot_wp s x); [done|].
  destruct (slot_mysql x) as [h|] eqn:Em.
  2:{ apply wp_ret. exists x. split; [done|]. by apply updates_same. }
  apply wp_bind, on_client_wp. eapply wp_mono.
  { apply close_law, (ok_handles _ _ Ho). right. by exists s, x. }
  intros [] c (Es & _ & Ht & Eh). eapply write_slot_wp; [done|].
  eexists. split; [|split; [by split|done|]]; [done|by eapply (objects_drop extra db s x)].
Qed.

Lemma ping_connection_spec extra s x db :
  objects_ok extra db -> slots db !! s = Some x ->
  wp (ping_connection s) (fun r db' =>
    exists x', slot_mysql x' = slot_mysql x /\ updates extra s x' db db' /\
               (r = true -> slot_mysql x <> None)) db.
Proof.
  intros Ho E. unfold ping_connection. apply wp_bind, (read_slot_wp s x); [done|].
  destruct (slot_mysql x) as [h|] eqn:Em.
  2:{ apply wp_ret. exists x. split; [done|]. split; [by apply updates_same|done]. }
  apply wp_bind, (on_client_keeps extra); [done| |].
  { apply ping_law, (ok_handles _ _ Ho). right. by exists s, x. }
  intros status d1 S1. case_if.
  2:{ apply wp_ret. exists x. split; [done|]. split; [|done].
      eapply stays_updates; [done|]. apply updates_same; [apply S1|by rewrite (stays_lookup _ _ _ _ S1)]. }
  apply wp_bind, (now_wp extra); [apply S1|]. intros t d2 S2.
  pose proof (stays_trans _ _ _ _ _ S1 S2) as S12.
  apply wp_bind. eapply wp_mono.
  { eapply (write_slot_updates extra); [apply S2|by rewrite (stays_lookup _ _ _ _ S12)|done]. }
  intros [] d3 S3. apply wp_ret. eexists. split; [|split; [by eapply stays_updates|done]]. done.
Qed.

(** A fresh handle goes into an object that has none. *)
Lemma adopt_wp {A} extra h s x (k : ST Db A) (Q : A -> Db -> Prop) db d1 :
  (h ∉ extra) -> stays ({[h]} ∪ extra) db d1 -> slots db !! s = Some x -> slot_mysql x = None ->
  (forall x' d2, slot_mysql x' = Some h -> updates extra s x' db d2 -> wp k Q d2) ->
  wp (now ← on_client steady_clock_now; g ← draw_generation;
      write_slot s (fun _ => mkPooledConnection (Some h) now now g);; k) Q d1.
Proof.
  intros Hn S1 Hx Em Hk. apply wp_bind, (now_wp ({[h]} ∪ extra)); [apply S1|]. intros t d2 S2.
  apply wp_bind, (draw_generation_wp ({[h]} ∪ extra)); [apply S2|]. intros g d3 S3.
  pose proof (stays_trans _ _ _ _ _ S1 (stays_trans _ _ _ _ _ S2 S3)) as S.
  assert (E3 : slots d3 !! s = Some x) by (by rewrite (stays_lookup _ _ _ _ S)).
  apply wp_bind. eapply write_slot_wp; [done|].
  apply (Hk (mkPooledConnection (Some h) t t g)); [done|].
  eapply stays_updates; [done|]. split; [done|done|].
  eapply objects_adopt; [apply S|done|done|done|done].
Qed.

Lemma reconnect_loop_spec extra s x n db :
  objects_ok extra db -> slots db !! s = Some x -> slot_mysql x = None ->
  wp (reconnect_loop n s) (fun r db' =>
    exists x', updates extra s x' db db' /\
               if r then slot_mysql x' <> None else slot_mysql x' = None) db.
Proof.
  revert db. induction n as [|n IH]; intros db Ho E Em; cbn [reconnect_loop].
  { apply wp_ret. exists x. split; [by apply updates_same|done]. }
  apply wp_bind. eapply wp_mono; [by apply create_connection_spec|]. intros [h|] d1; cbn beta iota.
  - intros [Hn S1]. eapply adopt_wp; [done|done|done|done|]. intros x' d2 Ex U. apply wp_ret.
    exists x'. split; [done|]. by rewrite Ex.
  - intros S1. eapply wp_mono; [apply IH; [apply S1|by rewrite (stays_lookup _ _ _ _ S1)|done]|].
    intros r d2 (x' & U & Hr). exists x'. split; [by eapply stays_updates|done].
Qed.

Lemma ensure_healthy_spec extra s x db :
  objects_ok extra db -> slots db !! s = Some x ->
  wp (ensure_healthy s) (fun r db' =>
    exists x', updates extra s x' db db' /\ (r = true -> slot_mysql x' <> None)) db.
Proof.
  intros Ho E. unfold ensure_healthy. apply wp_bind, (now_wp extra); [done|]. intros t d1 S1.
  apply wp_bind, gets_wp. assert (E1 : slots d1 !! s = Some x) by (by rewrite (stays_lookup _ _ _ _ S1)).
  apply wp_bind, (read_slot_wp s x); [done|].
  destruct (negb _) eqn:Ep.
  { apply wp_ret. exists x. split; [eapply stays_updates, updates_same; [done|apply S1|done]|].
    intros _ Hx. by rewrite bool_decide_eq_true_2 in Ep. }
  apply wp_bind. eapply wp_mono; [by eapply (ping_connection_spec extra); [apply S1|]|].
  intros [] d2 (x2 & Em & U2 & Hl).
  { apply wp_ret. exists x2. split; [by eapply stays_updates|]. intros _. rewrite Em. by apply Hl. }
  apply wp_bind. eapply wp_mono.
  { eapply close_connection_spec; [apply U2|by eapply updates_lookup]. }
  intros [] d3 (x3 & Em3 & U3). apply wp_bind, gets_wp. eapply wp_mono.
  { eapply reconnect_loop_spec; [apply U3|by eapply updates_lookup|done]. }
  intros r d4 (x4 & U4 & Hr). exists x4. split; [|by destruct r].
  eapply stays_updates; [done|]. eapply updates_trans; [done|]. by eapply updates_trans.
Qed.

(** ** The pool *)

(** [lent] are the addresses somebody outside the pool holds. *)
Record pool_ok (lent : list Slot) (db : Db) : Prop := {
  po_objects : objects_ok ∅ db;
  po_owned : available_ (pool db) ++ lent ≡ₚ connections_ (pool db);
  po_nodup : NoDup (connections_ (pool db));
  po_slots s : s ∈ connections_ (pool db) <-> is_Some (slots db !! s);
  po_ready : pool_ready_ (pool db) = negb (pool_stopped_ (pool db));
  po_stopped : pool_stopped_ (pool db) = true -> connections_ (pool db) = [];
}.

(** What an operation leaves alone: the objects outside [l], the statements,
    the tables, the configuration. *)
Record outside (l : list Slot) (db db' : Db) : Prop := {
  outside_slots s : (s ∉ l) -> slots db' !! s = slots db !! s;
  outside_statements : statements (client db') = statements (client db);
  outside_tables : undisturbed (client db) (client db');
  outside_config : pool_config_ (pool db') = pool_config_ (pool db);
  outside_connections : connections_ (pool db') = connections_ (pool db);
  outside_stopped : pool_stopped_ (pool db') = pool_stopped_ (pool db);
}.

Lemma outside_refl l db : outside l db db.
Proof. by split. Qed.

Lemma outside_trans l a b c : outside l a b -> outside l b c -> outside l a c.
Proof.
  intros [S1 ? ? ? ? ?] [S2 ? ? ? ? ?]. split; try congruence; [|by etrans].
  intros s Hs. by rewrite S2, S1.
Qed.

Lemma outside_weaken l l' a b : (forall s, s ∈ l -> s ∈ l') -> outside l a b -> outside l' a b.
Proof. intros Hl []. split; auto. Qed.

Lemma outside_stays l extra a b : stays extra a b -> outside l a b.
Proof. intros [[] E _]. split; try done. intros s _. by rewrite E. Qed.

Lemma outside_updates l extra s x a b : s ∈ l -> updates extra s x a b -> outside l a b.
Proof.
  intros Hs [[] E _]. split; try done. intros t Ht. rewrite E, lookup_insert_ne; [done|].
  by intros ->.
Qed.

Lemma pool_ok_perm lent lent' db : lent ≡ₚ lent' -> pool_ok lent db -> pool_ok lent' db.
Proof. intros E [Ho Hp ? ? ? ?]. split; try done. by rewrite <- E. Qed.

Lemma pool_ok_stays lent db db' : pool_ok lent db -> stays ∅ db db' -> pool_ok lent db'.
Proof.
  intros [Ho Hp Hn Hs Hr Ht] [[Ea Ec _ _ Er Es _ _] E Ho'].
  split; rewrite ?Ea, ?Ec, ?Er, ?Es, ?E; done.
Qed.

Lemma pool_ok_lent lent db s : pool_ok lent db -> s ∈ lent -> exists x, slots db !! s = Some x.
Proof.
  intros [_ Hp _ Hs _ _] Hin. apply Hs. rewrite <- Hp. set_solver.
Qed.

Lemma pool_ok_updates lent db db' s x :
  pool_ok lent db -> s ∈ connections_ (pool db) -> updates ∅ s x db db' -> pool_ok lent db'.
Proof.
  intros [Ho Hp Hn Hs Hr Ht] Hin [[Ea Ec _ _ Er Es _ _] E Ho'].
  split; rewrite ?Ea, ?Ec, ?Er, ?Es; try done. intros t. rewrite E, lookup_insert, Hs.
  case_decide; [subst|done]. split; [by eexists|]. intros _. by apply Hs.
Qed.

(** A borrower's check of his object. *)
Lemma ensure_healthy_pool lent s db :
  pool_ok lent db -> s ∈ lent ->
  wp (ensure_healthy s) (fun r db' => pool_ok lent db' /\ outside [s] db db' /\
    (r = true -> exists x h, slots db' !! s = Some x /\ slot_mysql x = Some h)) db.
Proof.
  intros Hok Hin. destruct (pool_ok_lent lent db s Hok Hin) as [x Hx].
  eapply wp_mono; [apply (ensure_healthy_spec ∅ s x); [apply Hok|done]|].
  intros r db' (x' & U & Hr). split; [|split].
  - eapply pool_ok_updates; [done| |done]. apply (po_slots _ _ Hok). by exists x.
  - eapply outside_updates; [|done]. set_solver.
  - intros Et. destruct (slot_mysql x') as [h|] eqn:Em; [|by destruct (Hr Et)].
    exists x', h. split; [by eapply updates_lookup|done].
Qed.

(** An address that is lent shows that the pool runs. *)
Lemma lent_running s lent db : pool_ok (s :: lent) db -> pool_stopped_ (pool db) = false.
Proof.
  intros Hok. destruct (pool_stopped_ (pool db)) eqn:E; [|done].
  pose proof (po_owned _ _ Hok) as Hp. rewrite (po_stopped _ _ Hok E) in Hp.
  apply Permutation_length in Hp. rewrite length_app in Hp. simpl in Hp. lia.
Qed.

Lemma set_pool_wp f (Q : unit -> Db -> Prop) db :
  Q tt (mkDb _ (f (pool db)) (slots db) (next_slot db) (use_after_free db) (client db)) ->
  wp (set_pool f) Q db.
Proof. done. Qed.

Lemma objects_pool extra db p :
  objects_ok extra db ->
  objects_ok extra (mkDb _ p (slots db) (next_slot db) (use_after_free db) (client db)).
Proof. intros []. by split. Qed.

(** The object has a connection. *)
Definition live (db : Db) (s : Slot) : Prop :=
  exists x h, slots db !! s = Some x /\ slot_mysql x = Some h.

(** Giving an object back. *)
Lemma release_spec s lent db :
  pool_ok (s :: lent) db ->
  wp (release (Some s)) (fun _ db' =>
    pool_ok lent db' /\ outside [s] db db' /\ (live db s -> live db' s)) db.
Proof.
  intros Hok. destruct (pool_ok_lent _ db s Hok) as [x Hx]; [set_solver|].
  unfold release. apply wp_bind, gets_wp. rewrite (lent_running s lent db Hok).
  apply wp_bind, (now_wp ∅); [apply Hok|]. intros t d1 S1.
  assert (Hx1 : slots d1 !! s = Some x) by (by rewrite (stays_lookup _ _ _ _ S1)).
  apply wp_bind. eapply wp_mono.
  { apply (write_slot_updates ∅ s x); [apply S1|done|done]. }
  intros [] d2 U2. apply set_pool_wp.
  assert (Hok2 : pool_ok (s :: lent) d2).
  { eapply pool_ok_updates; [by eapply pool_ok_stays| |done].
    rewrite (frame_connections _ _ (stays_frame _ _ _ S1)). apply (po_slots _ _ Hok). by exists x. }
  destruct Hok2 as [Ho Hp Hn Hs Hr Ht]. split; [|split].
  - split; simpl; try done; [by apply objects_pool|]. rewrite <- Hp. solve_Permutation.
  - eapply outside_trans; [by eapply outside_stays|].
    pose proof (outside_updates [s] _ s _ _ _ ltac:(set_solver) U2) as []. by split.
  - intros (y & h & Hy & Eh). eexists _, h. split; [apply (updates_lookup _ _ _ _ _ U2)|].
    simpl. congruence.
Qed.

(** ** The idle check *)
Lemma split_idle_spec now interval db queue candidates keep :
  (forall s, s ∈ queue -> is_Some (slots db !! s)) ->
  exists cs ks, split_idle now interval queue candidates keep db = ((cs, ks), db) /\
    cs ++ ks ≡ₚ candidates ++ keep ++ queue.
Proof.
  revert candidates keep. induction queue as [|s queue IH]; intros candidates keep Hq.
  { exists candidates, keep. split; [done|by rewrite app_nil_r]. }
  cbn [split_idle]. unfold mbind, ST_bind, read_slot.
  destruct (Hq s) as [x Hx]; [set_solver|]. rewrite Hx. cbv beta iota.
  case_if; edestruct IH as (cs & ks & E1 & E2); try (rewrite E1; exists cs, ks; split; [done|]);
    try (intros; apply Hq; set_solver); rewrite E2; solve_Permutation.
Qed.

Lemma idle_health_check_spec lent db :
  pool_ok lent db ->
  wp idle_health_check_unlocked (fun candidates db' =>
    pool_ok (candidates ++ lent) db' /\ outside [] db db') db.
Proof.
  intros Hok. unfold idle_health_check_unlocked. apply wp_bind, gets_wp.
  case_if; [apply wp_ret; split; [done|apply outside_refl]|].
  apply wp_bind, (now_wp ∅); [apply Hok|]. intros t d1 S1.
  pose proof (pool_ok_stays _ _ _ Hok S1) as Hok1.
  case_if; [apply wp_ret; split; [done|by eapply outside_stays]|].
  apply wp_bind, set_pool_wp, wp_bind. set (d2 := mkDb _ _ _ _ _ _).
  destruct (split_idle_spec t
    (seconds (idle_ping_interval_seconds (pool_config_ (pool db)))) d2 (available_ (pool db)) [] [])
    as (cs & ks & Ec & Hp).
  { intros s Hs. apply (po_slots _ _ Hok1). rewrite <- (po_owned _ _ Hok1).
    rewrite (frame_available _ _ (stays_frame _ _ _ S1)). set_solver. }
  unfold wp at 1. rewrite Ec. cbn [fst snd]. apply wp_bind, set_pool_wp, wp_ret.
  destruct Hok1 as [Ho Hp1 Hn Hs Hr Ht].
  rewrite (frame_available _ _ (stays_frame _ _ _ S1)) in Hp1. split.
  - split; simpl; try done; [by apply objects_pool|]. rewrite <- Hp1.
    assert (Hk : cs ++ ks ≡ₚ available_ (pool db)) by (by rewrite Hp).
    rewrite <- Hk. solve_Permutation.
  - pose proof (outside_stays [] _ _ _ S1) as []. by split.
Qed.

Lemma check_candidates_spec candidates lent db :
  pool_ok (candidates ++ lent) db ->
  wp (check_candidates candidates) (fun _ db' =>
    pool_ok lent db' /\ outside candidates db db') db.
Proof.
  revert db. induction candidates as [|s candidates IH]; intros db Hok.
  { apply wp_ret. split; [done|apply outside_refl]. }
  cbn [check_candidates]. apply wp_bind. eapply wp_mono.
  { apply (ensure_healthy_pool ((s :: candidates) ++ lent) s); [done|set_solver]. }
  intros r d1 (Hok1 & O1 & _). apply wp_bind. eapply wp_mono; [by apply release_spec|].
  intros [] d2 (Hok2 & O2 & _). eapply wp_mono; [by apply IH|]. intros [] d3 (Hok3 & O3).
  split; [done|]. eapply outside_trans; [|eapply outside_trans];
    (eapply outside_weaken; [|done]); set_solver.
Qed.

Lemma take_available_spec lent db :
  pool_ok lent db ->
  wp take_available (fun r db' => outside [] db db' /\
    match r with None => pool_ok lent db' | Some s => pool_ok (s :: lent) db' end) db.
Proof.
  intros Hok. unfold take_available, wp. destruct (available_ (pool db)) as [|s rest] eqn:Ea.
  { split; [apply outside_refl|done]. }
  destruct (pool_stopped_ (pool db)) eqn:Es; simpl; [split; [apply outside_refl|done]|].
  split; [by split|]. destruct Hok as [Ho Hp Hn Hs Hr Ht].
  split; simpl; try done; [by apply objects_pool|]. rewrite <- Hp, Ea. solve_Permutation.
Qed.

(** ** [acquire] and the guard *)

(** What a guard holds of the pool. *)
Definition guard_ok (lent : list Slot) (g : PooledMySqlConnection) (db : Db) : Prop :=
  (g = empty_guard /\ pool_ok lent db) \/
  (exists s x h, g = mkGuard true (Some s) /\ pool_ok (s :: lent) db /\
     slots db !! s = Some x /\ slot_mysql x = Some h).

(** Objects lent to others are not touched. *)
Record bystander (lent : list Slot) (a b : Db) : Prop := {
  bystander_slots s : s ∈ lent -> slots b !! s = slots a !! s;
  bystander_statements : statements (client b) = statements (client a);
  bystander_tables : undisturbed (client a) (client b);
  bystander_config : pool_config_ (pool b) = pool_config_ (pool a);
  bystander_connections : connections_ (pool b) = connections_ (pool a);
  bystander_stopped : pool_stopped_ (pool b) = pool_stopped_ (pool a);
}.

#[export] Instance bystander_preorder lent : PreOrder (bystander lent).
Proof.
  split.
  - intros a. by split.
  - intros a b c [S1 ? ? ? ? ?] [S2 ? ? ? ? ?]. split; try congruence; [|by etrans].
    intros s Hs. by rewrite S2, S1.
Qed.

Lemma bystander_outside lent l a b :
  pool_ok (l ++ lent) a -> outside l a b -> bystander lent a b.
Proof.
  intros Hok [Hs ? ? ? ? ?]. split; try done. intros s Hin. apply Hs. intros Hl.
  pose proof (po_nodup _ _ Hok) as Hn. rewrite <- (po_owned _ _ Hok) in Hn.
  apply NoDup_app in Hn as (_ & _ & Hn). apply NoDup_app in Hn as (_ & Hn & _).
  by apply (Hn s).
Qed.

Lemma acquire_spec lent db :
  pool_ok lent db ->
  wp acquire (fun g db' => guard_ok lent g db' /\ bystander lent db db') db.
Proof.
  intros Hok. unfold acquire. apply wp_bind. eapply wp_mono; [by apply idle_health_check_spec|].
  intros cs d1 (Hok1 & O1). apply wp_bind. eapply wp_mono; [by apply check_candidates_spec|].
  intros [] d2 (Hok2 & O2). apply wp_bind. eapply wp_mono; [by apply take_available_spec|].
  intros r d3 (O3 & Hok3).
  assert (B3 : bystander lent db d3).
  { transitivity d1; [by apply (bystander_outside lent [])|].
    transitivity d2; [by apply (bystander_outside lent cs)|by apply (bystander_outside lent [])]. }
  destruct r as [s|]; [|apply wp_ret; split; [by left|done]].
  apply wp_bind. eapply wp_mono; [apply (ensure_healthy_pool (s :: lent) s); [done|set_solver]|].
  intros r d4 (Hok4 & O4 & Hr).
  assert (B4 : bystander lent db d4) by (etrans; [done|by apply (bystander_outside lent [s])]).
  destruct r; simpl negb; cbv iota.
  - apply wp_ret. split; [right|done]. destruct (Hr eq_refl) as (x & h & Hx & Hh). by exists s, x, h.
  - apply wp_bind. eapply wp_mono; [by apply release_spec|]. intros [] d5 (Hok5 & O5 & _).
    apply wp_ret. split; [by left|]. etrans; [done|by apply (bystander_outside lent [s])].
Qed.

Lemma guard_reset_spec s lent db :
  pool_ok (s :: lent) db ->
  wp (guard_reset (mkGuard true (Some s))) (fun g db' =>
    g = empty_guard /\ pool_ok lent db' /\ outside [s] db db') db.
Proof.
  intros Hok. unfold guard_reset. simpl. apply wp_bind. eapply wp_mono; [by apply release_spec|].
  intros [] d1 (Hok1 & O1 & _). by apply wp_ret.
Qed.

(** ** Closing and freeing *)
Lemma close_each_spec extra l db :
  objects_ok extra db -> (forall s, s ∈ l -> is_Some (slots db !! s)) ->
  wp (close_each l) (fun _ db' => objects_ok extra db' /\ pool_frame db db' /\
    (forall s, is_Some (slots db' !! s) <-> is_Some (slots db !! s)) /\
    (forall s, (s ∉ l) -> slots db' !! s = slots db !! s) /\
    (forall s x, s ∈ l -> slots db' !! s = Some x -> slot_mysql x = None)) db.
Proof.
  revert db. induction l as [|s l IH]; intros db Ho Hl.
  { apply wp_ret. split; [done|]. split; [done|]. split; [done|]. split; [done|]. set_solver. }
  cbn [close_each]. destruct (Hl s) as [x Hx]; [set_solver|]. apply wp_bind.
  eapply wp_mono; [by eapply close_connection_spec|]. intros [] d1 (x' & Em & [F1 E1 Ho1]).
  assert (Hd1 : forall t, is_Some (slots d1 !! t) <-> is_Some (slots db !! t)).
  { intros t. rewrite E1, lookup_insert. case_decide; [subst|done]. rewrite Hx. split; by eexists. }
  eapply wp_mono; [apply IH; [done|intros t Ht; apply Hd1, Hl; set_solver]|].
  intros [] d2 (Ho2 & F2 & Hd2 & He2 & Hc2). split; [done|]. split; [by etrans|].
  split; [intros t; by rewrite Hd2, Hd1|]. split.
  - intros t Ht. rewrite He2, E1, lookup_insert_ne; [done| |]; set_solver.
  - intros t y Ht Hy. destruct (decide (t ∈ l)) as [Hin|Hin]; [by apply (Hc2 t)|].
    rewrite He2, E1 in Hy by done. assert (t = s) as -> by set_solver.
    rewrite lookup_insert_eq in Hy. congruence.
Qed.

Lemma lookup_freed (m : gmap Slot PooledConnection) l s :
  foldr delete m l !! s = if decide (s ∈ l) then None else m !! s.
Proof.
  case_decide; [by apply lookup_foldr_delete|by apply lookup_foldr_delete_not_elem_of].
Qed.

Lemma free_slots_spec extra l db :
  objects_ok extra db -> (forall s x, s ∈ l -> slots db !! s = Some x -> slot_mysql x = None) ->
  wp (free_slots l) (fun _ db' => objects_ok extra db' /\ pool_frame db db' /\
    (forall s, slots db' !! s = if decide (s ∈ l) then None else slots db !! s)) db.
Proof.
  intros [Oh Oe Od Of Os] Hl. unfold free_slots, wp, modify. simpl.
  split; [|split; [by split|intros s; apply lookup_freed]].
  split; simpl; [..|done].
  - intros h. rewrite Oh. apply or_iff_compat_l. split; intros (s & x & Hx & Eh); exists s, x.
    + rewrite lookup_freed. case_decide; [|done]. by rewrite (Hl s x) in Eh.
    + rewrite lookup_freed in Hx. by case_decide.
  - intros h s x Hh. rewrite lookup_freed. case_decide; [done|]. by apply Oe.
  - intros s s' x x' h. rewrite !lookup_freed. repeat case_decide; try done. apply Od.
  - intros s x. rewrite lookup_freed. case_decide; [done|]. apply Of.
Qed.

(** What remains of the pool when all its objects are closed and freed. *)
Record emptied (db db' : Db) : Prop := {
  emptied_objects : objects_ok ∅ db';
  emptied_available : available_ (pool db') = [];
  emptied_connections : connections_ (pool db') = [];
  emptied_config : pool_config_ (pool db') = pool_config_ (pool db);
  emptied_ready : pool_ready_ (pool db') = pool_ready_ (pool db);
  emptied_stopped : pool_stopped_ (pool db') = pool_stopped_ (pool db);
  emptied_slots s :
    slots db' !! s = if decide (s ∈ connections_ (pool db)) then None else slots db !! s;
  emptied_statements : statements (client db') = statements (client db);
  emptied_tables : undisturbed (client db) (client db');
}.

Lemma close_all_spec db :
  objects_ok ∅ db -> (forall s, s ∈ connections_ (pool db) -> is_Some (slots db !! s)) ->
  wp close_all_unlocked (fun _ => emptied db) db.
Proof.
  intros Ho Hc. unfold close_all_unlocked. apply wp_bind, set_pool_wp, wp_bind, gets_wp, wp_bind.
  set (d1 := mkDb _ _ _ _ _ _). eapply wp_mono.
  { apply (close_each_spec ∅ (connections_ (pool db)) d1); [by apply objects_pool|done]. }
  intros [] d2 (Ho2 & F2 & Hd2 & He2 & Hc2). apply wp_bind. eapply wp_mono.
  { by apply (free_slots_spec ∅). }
  intros [] d3 (Ho3 & F3 & Hs3). apply set_pool_wp.
  destruct (transitivity F2 F3) as [Ea Ec Eg Ei Er Es Et Eu].
  split; simpl; try done; [by apply objects_pool|].
  intros s. rewrite Hs3. cbn [pool set_available connections_].
  repeat case_decide; try done. by rewrite He2.
Qed.

Lemma close_all_pool lent db :
  pool_ok lent db -> wp close_all_unlocked (fun _ => emptied db) db.
Proof. intros [Ho _ _ Hs _ _]. apply close_all_spec; [done|]. intros s. apply Hs. Qed.

(** A pool without objects holds no handle. *)
Lemma emptied_handles db db' :
  (forall s, s ∈ connections_ (pool db) <-> is_Some (slots db !! s)) -> emptied db db' ->
  slots db' = ∅ /\ handles (client db') = ∅.
Proof.
  intros Hok [Ho _ _ _ _ _ Hs _ _]. assert (Hn : forall s, slots db' !! s = None).
  { intros s. rewrite Hs. case_decide as Hin; [done|]. destruct (slots db !! s) eqn:E; [|done].
    destruct Hin. apply Hok. by rewrite E. }
  split; [by apply map_empty|]. apply set_eq. intros h. rewrite (ok_handles _ _ Ho).
  split; [|set_solver]. intros [?|(s & x & Hx & _)]; [set_solver|]. by rewrite Hn in Hx.
Qed.

(** ** [shutdown] *)

(** Every object is freed, lent or not. *)
Lemma shutdown_spec lent db :
  pool_ok lent db -> wp shutdown (fun _ db' =>
    objects_ok ∅ db' /\ slots db' = ∅ /\ handles (client db') = ∅ /\
    pool_stopped_ (pool db') = true /\ pool_ready_ (pool db') = false /\
    connections_ (pool db') = [] /\ available_ (pool db') = [] /\
    statements (client db') = statements (client db) /\ undisturbed (client db) (client db')) db.
Proof.
  intros Hok. unfold shutdown. apply wp_bind, gets_wp. case_if.
  - apply andb_prop in E as [Es Ec%bool_decide_eq_true]. apply wp_ret.
    pose proof Hok as [Ho Hp Hn Hs Hr Ht]. rewrite Es in Hr. rewrite Ec in Hp.
    assert (Ha : available_ (pool db) = []).
    { apply Permutation_length in Hp. rewrite length_app in Hp. by destruct (available_ (pool db)). }
    assert (Eself : emptied db db).
    { split; try done. intros s. rewrite Ec. case_decide; [set_solver|done]. }
    destruct (emptied_handles db db) as [E1 E2]; [done|done|]. rewrite Hr, Es. by split_and!.
  - apply wp_bind, set_pool_wp. set (d1 := mkDb _ _ _ _ _ _). eapply wp_mono.
    { apply (close_all_spec d1); [apply objects_pool, Hok|]. intros s. apply (po_slots _ _ Hok). }
    intros [] d2 E2. destruct (emptied_handles d1 d2) as [Hsl Hh]; [apply (po_slots _ _ Hok)|done|].
    destruct E2 as [Ho Ha Hc Hg Hr Hs _ Hst Htb]. by split_and!.
Qed.

(** ** [init] *)
Lemma objects_make db :
  objects_ok ∅ db ->
  wp make_slot (fun s db' => s = next_slot db /\ objects_ok ∅ db' /\ pool_frame db db' /\
    slots db !! s = None /\ slots db' = <[s := new_connection]> (slots db)) db.
Proof.
  intros [Oh Oe Od Of Os]. unfold make_slot, wp. simpl.
  assert (Hn : slots db !! next_slot db = None).
  { destruct (slots db !! next_slot db) as [x|] eqn:E; [|done]. apply Of in E. lia. }
  split; [done|]. split; [|split; [by split|done]].
  split; simpl; [..|done].
  - intros h. rewrite Oh. apply or_iff_compat_l. split; intros (s & x & Hx & Eh); exists s, x.
    + rewrite lookup_insert_ne; [done|]. intros <-. congruence.
    + rewrite lookup_insert in Hx. case_decide; [|done]. injection Hx as <-. done.
  - intros h s x Hh. set_solver.
  - intros s s' x x' h. rewrite !lookup_insert. repeat case_decide; try congruence; [|..|apply Od].
    + intros [= <-]. done.
    + intros _ [= <-]. done.
  - intros s x. rewrite lookup_insert. case_decide; [intros _; lia|]. intros Hx%Of. lia.
Qed.

Lemma create_slots_spec n created db :
  objects_ok ∅ db -> NoDup created -> (forall s, s ∈ created -> live db s) ->
  wp (create_slots n created) (fun r db' => objects_ok ∅ db' /\ pool_frame db db' /\
    match r with
    | Some l => NoDup l /\ length l = (length created + n)%nat /\ (forall s, s ∈ l -> live db' s) /\
        (forall s, s ∈ created -> s ∈ l) /\
        (forall s, is_Some (slots db' !! s) <-> s ∈ l \/ is_Some (slots db !! s))
    | None => forall s, is_Some (slots db' !! s) -> is_Some (slots db !! s) /\ (s ∉ created)
    end) db.
Proof.
  revert created db. induction n as [|n IH]; intros created db Ho Hn Hl; cbn [create_slots].
  { apply wp_ret. split; [done|]. split; [done|]. split; [done|]. split; [lia|]. split; [done|].
    split; [done|]. intros s. split; [by right|]. intros [Hs|]; [|done]. destruct (Hl s Hs) as (x & h & E & _). eauto. }
  apply wp_bind. eapply wp_mono; [by apply objects_make|]. intros s d1 (_ & Ho1 & F1 & Es & E1).
  assert (Hne : forall t, t ∈ created -> t <> s).
  { intros t Ht ->. destruct (Hl s Ht) as (x & h & Ex & _). congruence. }
  assert (Ex1 : slots d1 !! s = Some new_connection) by (by rewrite E1, lookup_insert_eq).
  assert (Hl1 : forall t, t ∈ created -> live d1 t).
  { intros t Ht. destruct (Hl t Ht) as (x & h & Ex & Eh). exists x, h.
    rewrite E1, lookup_insert_ne; [done|]. intros <-. by apply (Hne _ Ht). }
  assert (Hd1 : forall t, is_Some (slots d1 !! t) <-> t = s \/ is_Some (slots db !! t)).
  { intros t. rewrite E1, lookup_insert. case_decide; [subst|naive_solver].
    split; [by left|by eexists]. }
  apply wp_bind. eapply wp_mono; [by apply create_connection_spec|]. intros [h|] d2.
  - intros [_ S2]. eapply adopt_wp; [|done|done|done|]; [set_solver|]. intros x d3 Ex [F3 E3 Ho3].
    eapply wp_mono.
    { apply IH; [done| |].
      - apply NoDup_app. split; [done|]. split; [|apply NoDup_singleton].
        intros t Ht ->%list_elem_of_singleton. by apply (Hne s).
      - intros t [Ht| ->%list_elem_of_singleton]%elem_of_app.
        + destruct (Hl1 t Ht) as (y & g & Ey & Eg). exists y, g.
          rewrite E3, lookup_insert_ne; [done|]. intros <-. by apply (Hne _ Ht).
        + exists x, h. by rewrite E3, lookup_insert_eq. }
    intros r d4 (Ho4 & F4 & Hr). split; [done|]. split; [etrans; [done|by etrans]|].
    destruct r as [l|].
    + destruct Hr as (Hnl & Hlen & Hlive & Hsub & Hdom). rewrite length_app in Hlen. simpl in Hlen.
      assert (Hin : s ∈ l) by (apply Hsub; set_solver).
      split; [done|]. split; [lia|]. split; [done|]. split; [intros t Ht; apply Hsub; set_solver|].
      intros t. rewrite Hdom, E3, lookup_insert. case_decide; [subst|rewrite Hd1; naive_solver].
      naive_solver.
    + intros t [Ht Hnt]%Hr. rewrite E3, lookup_insert_ne in Ht by set_solver.
      apply Hd1 in Ht as [->|Ht]; [set_solver|]. split; [done|set_solver].
  - intros [F2 E2 Ho2]. apply wp_bind. eapply wp_mono.
    { apply (close_each_spec ∅ created d2); [done|]. intros t Ht. rewrite E2.
      destruct (Hl1 t Ht) as (x & h & Ex & _). eauto. }
    intros [] d3 (Ho3 & F3 & Hd3 & He3 & Hc3). apply wp_bind. eapply wp_mono.
    { apply (free_slots_spec ∅ (s :: created) d3); [done|].
      intros t x [->|Ht]%elem_of_cons Hx; [|by apply (Hc3 t)].
      rewrite He3, E2, Ex1 in Hx; [by injection Hx as <-|]. intros Hs. by apply (Hne s). }
    intros [] d4 (Ho4 & F4 & Hs4). apply wp_ret. split; [done|].
    split; [etrans; [done|etrans; [done|by etrans]]|]. intros t. rewrite Hs4.
    case_decide as Hin; [by intros []|]. rewrite Hd3, E2, Hd1. set_solver.
Qed.

(** A stopped pool is empty. *)
Lemma stopped_empty lent db :
  pool_ok lent db -> pool_stopped_ (pool db) = true ->
  lent = [] /\ available_ (pool db) = [] /\ connections_ (pool db) = [] /\ slots db = ∅.
Proof.
  intros [Ho Hp Hn Hs Hr Ht] Es. specialize (Ht Es). rewrite Ht in Hp, Hs.
  apply Permutation_length in Hp. rewrite length_app in Hp.
  destruct (available_ (pool db)), lent; try done. split_and!; try done.
  apply map_empty. intros s. destruct (slots db !! s) eqn:E; [|done].
  assert (Hin : s ∈ @nil Slot) by (apply Hs; by rewrite E). set_solver.
Qed.

(** A pool whose fields say that it is stopped and empty is in order. *)
Lemma pool_ok_stopped db :
  objects_ok ∅ db -> available_ (pool db) = [] -> connections_ (pool db) = [] ->
  slots db = ∅ -> pool_ready_ (pool db) = false -> pool_stopped_ (pool db) = true ->
  pool_ok [] db /\ handles (client db) = ∅.
Proof.
  intros Ho Ea Ec Es Er Et. split.
  - split; rewrite ?Ea, ?Ec, ?Er, ?Et; try done; [constructor|].
    intros s. rewrite Es, lookup_empty. split; [set_solver|by intros []].
  - apply set_eq. intros h. rewrite (ok_handles _ _ Ho), Es.
    split; [|set_solver]. intros [?|(s & x & Hx & _)]; [set_solver|].
    by rewrite lookup_empty in Hx.
Qed.

Definition init_post (config : MySqlConnectionPoolConfig) (lent : list Slot) (db : Db)
    (r : bool) (db' : Db) : Prop :=
  pool_ok lent db' /\ r = pool_ready_ (pool db') /\
  statements (client db') = statements (client db) /\ undisturbed (client db) (client db') /\
  if pool_ready_ (pool db) then db' = db
  else pool_config_ (pool db') = config /\
    if r then positive_pool_config config = true /\
              length (connections_ (pool db')) = Z.to_nat (pool_size config) /\
              (forall s, s ∈ connections_ (pool db') -> live db' s)
    else handles (client db') = ∅.

(** The end of [init]: the new objects become the pool's. *)
Lemma publish_spec l db :
  objects_ok ∅ db -> available_ (pool db) = [] -> connections_ (pool db) = [] ->
  pool_stopped_ (pool db) = false -> NoDup l -> (forall s, s ∈ l -> live db s) ->
  (forall s, is_Some (slots db !! s) <-> s ∈ l) ->
  wp (set_pool (fun p => set_connections (connections_ p ++ l)
                           (set_available (available_ p ++ l) p));;
      now ← on_client steady_clock_now;
      set_pool (set_last_idle_check now);;
      set_pool (fun p => set_flags true (pool_stopped_ p) p);;
      mret true) (fun r db' =>
    pool_ok [] db' /\ r = true /\ pool_ready_ (pool db') = true /\
    connections_ (pool db') = l /\ (forall s, s ∈ l -> live db' s) /\
    pool_config_ (pool db') = pool_config_ (pool db) /\
    statements (client db') = statements (client db) /\ undisturbed (client db) (client db')) db.
Proof.
  intros Ho Ea Ec Et Hn Hlive Hdom. apply wp_bind, set_pool_wp, wp_bind.
  set (d4 := mkDb _ _ _ _ _ _). apply (now_wp ∅); [by apply objects_pool|]. intros t d5 S5.
  apply wp_bind, set_pool_wp, wp_bind, set_pool_wp, wp_ret.
  destruct S5 as [[Ea5 Ec5 Eg5 Ei5 Er5 Et5 Est5 Eu5] Es5 Ho5]. unfold d4 in *.
  cbn [pool set_flags set_last_idle_check set_connections set_available connections_ available_
       pool_ready_ pool_stopped_ pool_config_ client slots] in *.
  rewrite Ea in Ea5. rewrite Ec in Ec5. simpl in Ea5, Ec5. split_and!; try done.
  - split; cbn; rewrite ?Ea5, ?Ec5; [destruct Ho5; by split|by rewrite app_nil_r|done| | |].
    + intros s. by rewrite Es5, Hdom.
    + by rewrite Et5, Et.
    + by rewrite Et5, Et.
  - intros s Hs. destruct (Hlive s Hs) as (x & h & Ex & Eh). exists x, h. simpl. by rewrite Es5.
Qed.

Lemma init_spec config lent db :
  pool_ok lent db -> wp (init config) (init_post config lent db) db.
Proof.
  intros Hok. unfold init_post, init. apply wp_bind, gets_wp.
  destruct (pool_ready_ (pool db)) eqn:Er; [by apply wp_ret|].
  pose proof (po_ready _ _ Hok) as Hr. rewrite Er in Hr. symmetry in Hr. apply negb_false_iff in Hr.
  destruct (stopped_empty _ _ Hok Hr) as (-> & Ea & Ec & Esl).
  apply wp_bind, set_pool_wp, wp_bind, set_pool_wp, wp_bind.
  set (d1 := mkDb _ _ _ _ _ _). eapply wp_mono.
  { apply (close_all_spec d1); [apply objects_pool, objects_pool, Hok|]. intros s. apply (po_slots _ _ Hok). }
  intros [] d2 [Ho2 Ea2 Ec2 Eg2 Er2 Et2 Es2 Est2 Eu2].
  change (client d1) with (client db) in *. change (pool_config_ (pool d1)) with config in Eg2.
  change (pool_stopped_ (pool d1)) with false in Et2.
  assert (Esl2 : slots d2 = ∅).
  { apply map_empty. intros s. rewrite Es2. case_decide; [done|]. simpl. by rewrite Esl. }
  case_if.
  { apply wp_bind, set_pool_wp, wp_ret.
    edestruct (pool_ok_stopped (mkDb _ (set_flags false true (pool d2)) (slots d2) (next_slot d2)
      (use_after_free d2) (client d2))); [by apply objects_pool|done..|]. by split_and!. }
  apply wp_bind. eapply wp_mono; [apply (create_slots_spec _ [] d2); [done|constructor|set_solver]|].
  intros r d3 (Ho3 & F3 & Hd3). destruct F3 as [Ea3 Ec3 Eg3 Ei3 Er3 Et3 Est3 Eu3].
  rewrite Esl2 in Hd3. destruct r as [l|].
  - destruct Hd3 as (Hn & Hlen & Hlive & _ & Hdom). eapply wp_mono.
    { apply (publish_spec l d3); [done|congruence|congruence|congruence|done|done|].
      intros s. rewrite Hdom, lookup_empty. split; [by intros [?|[]]|by left]. }
    intros r d4 (Hok4 & -> & Er4 & Ec4 & Hlive4 & Eg4 & Est4 & Eu4).
    split_and!; [done|congruence|congruence|by etrans; [|etrans]|congruence
      |by apply negb_false_iff|by rewrite Ec4|by rewrite Ec4].
  - apply wp_bind, set_pool_wp, wp_ret.
    assert (Esl3 : slots d3 = ∅).
    { apply map_empty. intros s. destruct (slots d3 !! s) eqn:E3; [|done].
      destruct (Hd3 s) as [[? Hs] _]; [by rewrite E3|]. by rewrite lookup_empty in Hs. }
    edestruct (pool_ok_stopped (mkDb _ (set_flags false true (pool d3)) (slots d3) (next_slot d3)
      (use_after_free d3) (client d3))); [by apply objects_pool|simpl; congruence..|done|done|].
    split_and!; try done; simpl; try congruence. by etrans.
Qed.

(** A new pool, on a client without connections. *)
Lemma new_db_ok c : handles c = ∅ -> pool_ok [] (new_db c).
Proof.
  intros Eh. split; try done; [|constructor|].
  - split; simpl; try done. intros h. rewrite Eh. split; [set_solver|].
    intros [?|(s & x & Hx & _)]; [set_solver|]. by rewrite lookup_empty in Hx.
  - intros s. simpl. rewrite lookup_empty. split; [set_solver|by intros []].
Qed.

(** Nobody is served from an empty queue. *)
Lemma acquire_none db : available_ (pool db) = [] -> acquire db = (empty_guard, db).
Proof.
  intros Ea. unfold acquire, idle_health_check_unlocked, take_available, mbind, ST_bind, gets. simpl.
  rewrite Ea, orb_true_r. simpl. by rewrite Ea.
Qed.

Lemma using_connection_none {A} (without : A) work db :
  available_ (pool db) = [] -> using_connection without work db = (without, db).
Proof.
  intros Ea. unfold using_connection, mbind, ST_bind. by rewrite acquire_none.
Qed.

(** ** The scope of a guard *)
Lemma pool_ok_client lent c db :
  pool_ok lent db -> same_objects (client db) c -> pool_ok lent (with_client c db).
Proof. intros [] Hc. split; try done. by apply objects_client. Qed.

(** The rule for code that works with a connection: it gets a live one, and
    whatever it does to the tables, the pool ends as it began. *)
Lemma using_connection_wp {A} lent (without : A) (work : MYSQL -> ST Client A)
    (Q : A -> Db -> Prop) db :
  pool_ok lent db ->
  (forall d, pool_ok lent d -> bystander lent db d -> Q without d) ->
  (forall h d, h ∈ handles (client d) -> bystander lent db d ->
     wp (work h) (fun r c => same_objects (client d) c /\
       forall d', pool_ok lent d' -> bystander lent (with_client c d) d' -> Q r d') (client d)) ->
  wp (using_connection without work) Q db.
Proof.
  intros Hok Hnone Hwork. unfold using_connection. apply wp_bind.
  eapply wp_mono; [by apply acquire_spec|]. intros g d1 [Hg B1].
  destruct Hg as [[-> Hok1]|(s & x & h & -> & Hok1 & Hx & Hh)]; apply wp_bind.
  - apply wp_ret, wp_bind, wp_bind, wp_ret, wp_ret. simpl. apply wp_ret. by apply Hnone.
  - unfold guard_get. simpl guard_connection_. cbv iota. apply wp_bind.
    eapply read_slot_wp; [done|]. apply wp_ret. rewrite Hh. cbv iota.
    apply wp_bind, on_client_wp. eapply wp_mono.
    { apply Hwork; [|done]. apply (ok_handles _ _ (po_objects _ _ Hok1)). right. by exists s, x. }
    intros r c [Hc HQ]. pose proof (pool_ok_client _ _ _ Hok1 Hc) as Hok2.
    apply wp_bind. eapply wp_mono; [by apply guard_reset_spec|].
    intros g d3 (_ & Hok3 & O3). apply wp_ret, HQ; [done|].
    by apply (bystander_outside lent [s]).
Qed.

(** Work that frees its statements leaves the pool, the objects lent to others
    and the statements as they were. *)
Lemma using_connection_balanced {A} lent (without : A) (work : MYSQL -> ST Client A) db :
  pool_ok lent db -> (forall h, balanced h (work h)) ->
  wp (using_connection without work) (fun _ d =>
    pool_ok lent d /\ (forall s, s ∈ lent -> slots d !! s = slots db !! s) /\
    statements (client d) = statements (client db)) db.
Proof.
  intros Hok Hb. apply (using_connection_wp lent); [done| |].
  - intros d Hd [Hs Ht _ _ _ _]. done.
  - intros h d Hh [Hs Ht _ _ _ _]. eapply wp_mono; [by apply Hb|]. intros r c Hc. split; [done|].
    intros d' Hd' [Hs' Ht' _ _ _ _]. split; [done|]. split.
    + intros s Hin. by rewrite (Hs' s Hin), <- (Hs s Hin).
    + rewrite Ht'. simpl. by rewrite (same_statements _ _ Hc).
Qed.
End objects.
