(* ===== verification/UserStoreDb.v ===== *)
(** * UserStoreDb: accounts in MySQL

    The MySQL mode of [src/src/storage/user_store.cpp] ([pool_ != nullptr]).
    Each query is one function on the client library; a method is that
    function in the scope of a connection of the pool.  Password hashing is
    that of [UserStore.v]. *)

From S2P Require Import Prelude.
From S2P Require Import SqlTables.
From S2P Require Import MySqlClient.
From S2P Require Import MySqlConnectionPool.
From S2P Require Import PoolSpec.
From S2P Require Import UserStore.
Open Scope N_scope.

(** ** Queries *)

Section queries.
Context `{MySql}.

(** [id], [username_buffer] and [hash_buffer] *)
Definition user_buffers : list Buffer := [INTEGER; CHARS 65; CHARS 256].

Definition user_of_row (row : list Cell) : UserRecord :=
  mkUserRecord (cell_integer (column row 0)) (fetched_string (column row 1)) (fetched_string (column row 2)).

Definition fetch_user_by_username (mysql : MYSQL) (username : bytes) :
    ST Client (option UserRecord) :=
  statement ← mysql_stmt_init mysql;
  match statement with
  | None => mret None
  | Some statement =>
      prepared ← mysql_stmt_prepare statement select_user_by_username;
      if fails prepared then closing statement None
      else
        failed ← either_fails (mysql_stmt_bind_param statement [STRING username])
                   (mysql_stmt_execute statement);
        if failed : bool then closing statement None
        else
          bound ← mysql_stmt_bind_result statement user_buffers;
          if fails bound then closing statement None
          else
            fetched ← mysql_stmt_fetch statement;
            let '(status, row) := fetched in
            if (status =? MYSQL_NO_DATA)%Z then closing statement None
            else if fetch_fails status then closing statement None
            else closing statement (Some (user_of_row row))
  end.

Definition fetch_user_by_id (mysql : MYSQL) (user_id : N) : ST Client (option UserRecord) :=
  statement ← mysql_stmt_init mysql;
  match statement with
  | None => mret None
  | Some statement =>
      prepared ← mysql_stmt_prepare statement select_user_by_id;
      if fails prepared then closing statement None
      else
        failed ← either_fails (mysql_stmt_bind_param statement [LONGLONG user_id])
                   (mysql_stmt_execute statement);
        if failed : bool then closing statement None
        else
          bound ← mysql_stmt_bind_result statement user_buffers;
          if fails bound then closing statement None
          else
            fetched ← mysql_stmt_fetch statement;
            let '(status, row) := fetched in
            if (status =? MYSQL_NO_DATA)%Z then closing statement None
            else if fetch_fails status then closing statement None
            else closing statement (Some (user_of_row row))
  end.
End queries.

(** ** Methods *)

Section methods.
Context `{OpenSSL} `{MySql}.

(** The constructor. *)
Definition open_user_store : ST Db unit :=
  using_connection tt (fun mysql => execute_query mysql create_users;; mret tt).

Definition database_error : RegisterResult := mkRegisterResult false 0 "database error".
Definition username_exists : RegisterResult := mkRegisterResult false 0 "username already exists".

(** [register_user] once it has a connection: the result, and what is left of
    the random generator. *)
Definition register_on_connection (username password : bytes) (e : Entropy) (mysql : MYSQL) :
    ST Client (RegisterResult * Entropy) :=
  existing ← fetch_user_by_username mysql username;
  match existing with
  | Some _ => mret (username_exists, e)
  | None =>
      let '(password_hash, e) := hash_password_pbkdf2 password e in
      if bool_decide (password_hash = []) then
        mret (mkRegisterResult false 0 "failed to hash password", e)
      else
        statement ← mysql_stmt_init mysql;
        match statement with
        | None => mret (database_error, e)
        | Some statement =>
            prepared ← mysql_stmt_prepare statement insert_user;
            if fails prepared then closing statement (database_error, e)
            else
              failed ← either_fails
                         (mysql_stmt_bind_param statement [STRING username; STRING password_hash])
                         (mysql_stmt_execute statement);
              if failed : bool then
                mysql_stmt_close statement;;
                errno ← mysql_errno mysql;
                mret (if errno =? ER_DUP_ENTRY then username_exists else database_error, e)
              else
                user_id ← mysql_insert_id mysql;
                closing statement (mkRegisterResult true user_id [], e)
        end
  end.

Definition mysql_register_user (username password : bytes) : ST (Db * Entropy) RegisterResult :=
  fun '(db, e) =>
  if bool_decide (username = []) || bool_decide (password = []) then
    (mkRegisterResult false 0 "username and password are required", (db, e))
  else if (64 <? length username)%nat then
    (mkRegisterResult false 0 "username too long", (db, e))
  else
    let '((result, e), db) :=
      using_connection (database_error, e) (register_on_connection username password e) db in
    (result, (db, e)).

Definition mysql_find_user_by_username (username : bytes) : ST Db (option UserRecord) :=
  using_connection None (fun mysql => fetch_user_by_username mysql username).

Definition mysql_find_user_by_id (user_id : N) : ST Db (option UserRecord) :=
  using_connection None (fun mysql => fetch_user_by_id mysql user_id).

Definition mysql_verify_login (username password : bytes) : ST Db (option UserRecord) :=
  user ← mysql_find_user_by_username username;
  match user with
  | None => mret None
  | Some user =>
      if negb (verify_password_pbkdf2 password (user_password_hash user)) then mret None
      else mret (Some user)
  end.
End methods.

(** ** Resources: every statement is freed, on every path *)

Section resources.
Context `{OpenSSL} `{MySqlProtocol}.

Lemma fetch_user_by_username_balanced h u : balanced h (fetch_user_by_username h u).
Proof. balance. Qed.

Lemma fetch_user_by_id_balanced h i : balanced h (fetch_user_by_id h i).
Proof. balance. Qed.

Lemma register_on_connection_balanced u p e h : balanced h (register_on_connection u p e h).
Proof.
  apply balanced_bind; [apply fetch_user_by_username_balanced|]. intros [r|]; [apply balanced_ret|].
  destruct (hash_password_pbkdf2 p e). balance.
Qed.
End resources.
