(* ===== verification/GroupStoreDb.v ===== *)
(** * GroupStoreDb: groups and members in MySQL

    The MySQL mode of [src/src/storage/group_store.cpp] and
    [src/src/storage/group_member_store.cpp] ([pool_ != nullptr]). *)

From S2P Require Import Prelude.
From S2P Require Import SqlTables.
From S2P Require Import MySqlClient.
From S2P Require Import MySqlConnectionPool.
From S2P Require Import PoolSpec.
From S2P Require Import GroupStore.
Open Scope N_scope.

(** ** Groups *)

Section groups.
Context `{MySql}.

Definition open_group_store : ST Db unit :=
  using_connection tt (fun mysql => execute_query mysql create_groups;; mret tt).

Definition create_group_error : CreateGroupResult := mkCreateGroupResult false no_group "database error".

Definition create_group_on (name : bytes) (owner_id : N) (mysql : MYSQL) :
    ST Client CreateGroupResult :=
  statement ← mysql_stmt_init mysql;
  match statement with
  | None => mret create_group_error
  | Some statement =>
      prepared ← mysql_stmt_prepare statement insert_group;
      if fails prepared then closing statement create_group_error
      else
        failed ← either_fails (mysql_stmt_bind_param statement [STRING name; LONGLONG owner_id])
                   (mysql_stmt_execute statement);
        if failed : bool then closing statement create_group_error
        else
          id ← mysql_insert_id mysql;
          closing statement (mkCreateGroupResult true (mkGroupRecord id name owner_id []) [])
  end.

Definition mysql_create_group (name : bytes) (owner_id : N) : ST Db CreateGroupResult :=
  if bool_decide (name = []) then
    mret (mkCreateGroupResult false no_group "group name is required")
  else using_connection create_group_error (create_group_on name owner_id).

(** [group.id], [name], [group.owner_id] and [created_at] *)
Definition group_buffers : list Buffer := [INTEGER; CHARS 129; INTEGER; CHARS 32].

Definition group_of_row (row : list Cell) : GroupRecord :=
  mkGroupRecord (cell_integer (column row 0)) (fetched_string (column row 1))
    (cell_integer (column row 2)) (fetched_string (column row 3)).

Definition find_group_on (group_id : N) (mysql : MYSQL) : ST Client (option GroupRecord) :=
  statement ← mysql_stmt_init mysql;
  match statement with
  | None => mret None
  | Some statement =>
      prepared ← mysql_stmt_prepare statement select_group;
      if fails prepared then closing statement None
      else
        failed ← either_fails (mysql_stmt_bind_param statement [LONGLONG group_id])
                   (mysql_stmt_execute statement);
        if failed : bool then closing statement None
        else
          bound ← mysql_stmt_bind_result statement group_buffers;
          if fails bound then closing statement None
          else
            fetched ← mysql_stmt_fetch statement;
            let '(status, row) := fetched in
            if fails status then closing statement None
            else closing statement (Some (group_of_row row))
  end.

Definition mysql_find_group (group_id : N) : ST Db (option GroupRecord) :=
  using_connection None (find_group_on group_id).

Definition mysql_group_exists (group_id : N) : ST Db bool :=
  group ← mysql_find_group group_id;
  mret (match group with Some _ => true | None => false end).
End groups.

(** ** Members *)

Section members.
Context `{MySql}.

Definition open_group_member_store : ST Db unit :=
  using_connection tt (fun mysql => execute_query mysql create_group_members;; mret tt).

(** [true] when the parameters are bound. *)
Definition bind_uint64_params (statement : MYSQL_STMT) (first second : N) : ST Client bool :=
  status ← mysql_stmt_bind_param statement [LONGLONG first; LONGLONG second];
  mret (status =? 0)%Z.

Definition member_error : GroupMemberResult := mkGroupMemberResult false false "database error".

Definition join_group_on (group_id user_id : N) (mysql : MYSQL) : ST Client GroupMemberResult :=
  statement ← mysql_stmt_init mysql;
  match statement with
  | None => mret member_error
  | Some statement =>
      prepared ← mysql_stmt_prepare statement insert_member;
      if fails prepared then closing statement member_error
      else
        bound ← bind_uint64_params statement group_id user_id;
        if negb bound then closing statement member_error
        else
          executed ← mysql_stmt_execute statement;
          if fails executed then closing statement member_error
          else
            affected_rows ← mysql_stmt_affected_rows statement;
            closing statement (mkGroupMemberResult true (affected_rows =? 0) [])
  end.

Definition mysql_join_group (group_id user_id : N) : ST Db GroupMemberResult :=
  using_connection member_error (join_group_on group_id user_id).

Definition leave_group_on (group_id user_id : N) (mysql : MYSQL) : ST Client GroupMemberResult :=
  statement ← mysql_stmt_init mysql;
  match statement with
  | None => mret member_error
  | Some statement =>
      prepared ← mysql_stmt_prepare statement delete_member;
      if fails prepared then closing statement member_error
      else
        bound ← bind_uint64_params statement group_id user_id;
        if negb bound then closing statement member_error
        else
          executed ← mysql_stmt_execute statement;
          if fails executed then closing statement member_error
          else
            affected_rows ← mysql_stmt_affected_rows statement;
            closing statement
              (if affected_rows =? 0 then
                 mkGroupMemberResult false false "not a member of this group"
               else mkGroupMemberResult true false [])
  end.

Definition mysql_leave_group (group_id user_id : N) : ST Db GroupMemberResult :=
  using_connection member_error (leave_group_on group_id user_id).

Definition is_group_member_on (group_id user_id : N) (mysql : MYSQL) : ST Client bool :=
  statement ← mysql_stmt_init mysql;
  match statement with
  | None => mret false
  | Some statement =>
      prepared ← mysql_stmt_prepare statement select_member;
      if fails prepared then closing statement false
      else
        bound ← bind_uint64_params statement group_id user_id;
        if negb bound then closing statement false
        else
          executed ← mysql_stmt_execute statement;
          if fails executed then closing statement false
          else
            bound ← mysql_stmt_bind_result statement [INTEGER];
            if fails bound then closing statement false
            else
              fetched ← mysql_stmt_fetch statement;
              closing statement (negb (fails fetched.1))
  end.

Definition mysql_is_group_member (group_id user_id : N) : ST Db bool :=
  using_connection false (is_group_member_on group_id user_id).

(** The id in the only column of a row. *)
Definition id_of_row (row : list Cell) : ST Client (option N) :=
  mret (Some (cell_integer (column row 0))).

Definition load_group_members_on (group_id : N) (mysql : MYSQL) : ST Client (list N) :=
  statement ← mysql_stmt_init mysql;
  match statement with
  | None => mret []
  | Some statement =>
      prepared ← mysql_stmt_prepare statement select_group_members;
      if fails prepared then closing statement []
      else
        failed ← either_fails (mysql_stmt_bind_param statement [LONGLONG group_id])
                   (mysql_stmt_execute statement);
        if failed : bool then closing statement []
        else
          bound ← mysql_stmt_bind_result statement [INTEGER];
          if fails bound then closing statement []
          else
            members ← fetch_all statement id_of_row;
            closing statement members
  end.

Definition mysql_load_group_members (group_id : N) : ST Db (list N) :=
  using_connection [] (load_group_members_on group_id).

Definition load_user_groups_on (user_id : N) (mysql : MYSQL) : ST Client (list N) :=
  statement ← mysql_stmt_init mysql;
  match statement with
  | None => mret []
  | Some statement =>
      prepared ← mysql_stmt_prepare statement select_user_groups;
      if fails prepared then closing statement []
      else
        failed ← either_fails (mysql_stmt_bind_param statement [LONGLONG user_id])
                   (mysql_stmt_execute statement);
        if failed : bool then closing statement []
        else
          bound ← mysql_stmt_bind_result statement [INTEGER];
          if fails bound then closing statement []
          else
            groups ← fetch_all statement id_of_row;
            closing statement groups
  end.

Definition mysql_load_user_groups (user_id : N) : ST Db (list N) :=
  using_connection [] (load_user_groups_on user_id).
End members.

(** ** Resources: every statement is freed, on every path *)

Section resources.
Context `{MySqlProtocol}.

Lemma create_group_on_balanced name owner h : balanced h (create_group_on name owner h).
Proof. balance. Qed.
Lemma find_group_on_balanced g h : balanced h (find_group_on g h).
Proof. balance. Qed.
Lemma join_group_on_balanced g u h : balanced h (join_group_on g u h).
Proof. balance. Qed.
Lemma leave_group_on_balanced g u h : balanced h (leave_group_on g u h).
Proof. balance. Qed.
Lemma is_group_member_on_balanced g u h : balanced h (is_group_member_on g u h).
Proof. balance. Qed.
Lemma load_group_members_on_balanced g h : balanced h (load_group_members_on g h).
Proof. balance. Qed.
Lemma load_user_groups_on_balanced u h : balanced h (load_user_groups_on u h).
Proof. balance. Qed.
End resources.
