(* ===== verification/MessageStoreDb.v ===== *)
(** * MessageStoreDb: the message log in MySQL

    The MySQL mode of [src/src/storage/message_store.cpp] ([pool_ != nullptr]):
    the schema set up by the constructor, the insertion of [append], and the
    history, page and unread queries.  The store keeps its in-memory copy in
    this mode too, and reads it when the pool has no connection. *)

From S2P Require Import Prelude.
From S2P Require Import SqlTables.
From S2P Require Import MySqlClient.
From S2P Require Import MySqlConnectionPool.
From S2P Require Import PoolSpec.
From S2P Require Import Message.
From S2P Require Import MessageStore.
Open Scope N_scope.

(** ** The schema *)

Section schema.
Context `{MySql}.

Definition table_column_exists (mysql : MYSQL) (table column_name : bytes) : ST Client bool :=
  statement ← mysql_stmt_init mysql;
  match statement with
  | None => mret false
  | Some statement =>
      prepared ← mysql_stmt_prepare statement count_columns;
      if fails prepared then closing statement false
      else
        failed ← either_fails (mysql_stmt_bind_param statement [STRING table; STRING column_name])
                   (mysql_stmt_execute statement);
        if failed : bool then closing statement false
        else
          bound ← mysql_stmt_bind_result statement [INTEGER];
          if fails bound then closing statement false
          else
            fetched ← mysql_stmt_fetch statement;
            let '(status, row) := fetched in
            if fails status then closing statement false
            else closing statement (0 <? cell_integer (column row 0))
  end.

Definition ensure_messages_schema (mysql : MYSQL) : ST Client unit :=
  has_type ← table_column_exists mysql "messages" "conversation_type";
  (if negb has_type then execute_query mysql add_conversation_type else mret true);;
  has_id ← table_column_exists mysql "messages" "conversation_id";
  (if negb has_id then execute_query mysql add_conversation_id else mret true);;
  execute_query mysql index_conversations;;
  execute_query mysql index_senders;;
  execute_query mysql update_conversations;;
  mret tt.

(** The constructor. *)
Definition setup_messages (mysql : MYSQL) : ST Client unit :=
  execute_query mysql create_messages;;
  ensure_messages_schema mysql.

Definition open_message_store : ST Db unit := using_connection tt setup_messages.
End schema.

(** ** Queries *)

Section queries.
Context `{MySql}.

(** [sender_id], [receiver_id] and the probe for the body *)
Definition history_buffers : list Buffer := [INTEGER; INTEGER; CHARS 0].

(** The body of the loop of [execute_history_query]. *)
Definition history_message (statement : MYSQL_STMT) (type : MessageType) (row : list Cell) :
    ST Client (option Message) :=
  body ← fetch_body statement (column row 2) 2;
  mret (match body with
        | None => None
        | Some body =>
            Some (mkMessage type (cell_integer (column row 0)) (cell_integer (column row 1)) body)
        end).

Definition execute_history_query (mysql : MYSQL) (query : bytes) (type : MessageType)
    (query_params : list N) : ST Client (list Message) :=
  statement ← mysql_stmt_init mysql;
  match statement with
  | None => mret []
  | Some statement =>
      prepared ← mysql_stmt_prepare statement query;
      if fails prepared then closing statement []
      else
        bound ← (if bool_decide (query_params = []) then mret 0%Z
                 else mysql_stmt_bind_param statement (map LONGLONG query_params));
        if fails bound then closing statement []
        else
          executed ← mysql_stmt_execute statement;
          if fails executed then closing statement []
          else
            bound ← mysql_stmt_bind_result statement history_buffers;
            if fails bound then closing statement []
            else
              messages ← fetch_all statement (history_message statement type);
              closing statement messages
  end.

(** [id], [sender_id], [receiver_id], the probe for the body, [created_at] *)
Definition page_buffers : list Buffer := [INTEGER; INTEGER; INTEGER; CHARS 0; CHARS 32].

(** The body of the loop of [execute_history_page_query]. *)
Definition page_message (statement : MYSQL_STMT) (type : MessageType) (row : list Cell) :
    ST Client (option StoredMessage) :=
  body ← fetch_body statement (column row 3) 3;
  mret (match body with
        | None => None
        | Some body =>
            Some (mkStoredMessage (cell_integer (column row 0)) type (cell_integer (column row 1))
                    (cell_integer (column row 2)) body (fetched_string (column row 4)))
        end).

Definition execute_history_page_query (mysql : MYSQL) (query : bytes) (type : MessageType)
    (id_params : list N) (limit : N) : ST Client (list StoredMessage) :=
  statement ← mysql_stmt_init mysql;
  match statement with
  | None => mret []
  | Some statement =>
      prepared ← mysql_stmt_prepare statement query;
      if fails prepared then closing statement []
      else
        bound ← mysql_stmt_bind_param statement (map LONGLONG id_params ++ [LONG limit]);
        if fails bound then closing statement []
        else
          executed ← mysql_stmt_execute statement;
          if fails executed then closing statement []
          else
            bound ← mysql_stmt_bind_result statement page_buffers;
            if fails bound then closing statement []
            else
              messages ← fetch_all statement (page_message statement type);
              closing statement messages
  end.

(** [id], [type_buffer], [sender_id], [receiver_id], the probe, [created_at] *)
Definition unread_buffers : list Buffer := [INTEGER; CHARS 32; INTEGER; INTEGER; CHARS 0; CHARS 32].

(** The body of the loop of [execute_unread_query]. *)
Definition unread_message (statement : MYSQL_STMT) (row : list Cell) :
    ST Client (option StoredMessage) :=
  body ← fetch_body statement (column row 4) 4;
  mret (match body with
        | None => None
        | Some body =>
            let type := fetched_string (column row 1) in
            let message_type := if bool_decide (type = bs "GroupChat") then GroupChat else DirectChat in
            Some (mkStoredMessage (cell_integer (column row 0)) message_type
                    (cell_integer (column row 2)) (cell_integer (column row 3)) body
                    (fetched_string (column row 5)))
        end).

Definition unread_params (user_id : N) (group_ids : list N) (last_seen_message_id limit : N) :
    list N :=
  [last_seen_message_id; user_id] ++ concat (map (fun group_id => [group_id; user_id]) group_ids)
    ++ [limit].

Definition execute_unread_query (mysql : MYSQL) (user_id : N) (group_ids : list N)
    (last_seen_message_id limit : N) : ST Client (list StoredMessage) :=
  let query := select_unread (length group_ids) in
  statement ← mysql_stmt_init mysql;
  match statement with
  | None => mret []
  | Some statement =>
      prepared ← mysql_stmt_prepare statement query;
      if fails prepared then closing statement []
      else
        bound ← mysql_stmt_bind_param statement
                  (map LONGLONG (unread_params user_id group_ids last_seen_message_id limit));
        if fails bound then closing statement []
        else
          executed ← mysql_stmt_execute statement;
          if fails executed then closing statement []
          else
            bound ← mysql_stmt_bind_result statement unread_buffers;
            if fails bound then closing statement []
            else
              messages ← fetch_all statement (unread_message statement);
              closing statement messages
  end.

(** The insertion of [append]: the stored message, under the id of its row if
    there is one. *)
Definition insert_on_connection (message : Message) (stored : StoredMessage) (mysql : MYSQL) :
    ST Client StoredMessage :=
  statement ← mysql_stmt_init mysql;
  match statement with
  | None => mret stored
  | Some statement =>
      prepared ← mysql_stmt_prepare statement insert_message;
      if fails prepared then closing statement stored
      else
        bound ← mysql_stmt_bind_param statement
                  [TINY (conversation_type_for (msg_type message));
                   LONGLONG (conversation_id_for message);
                   STRING (message_type_to_string (msg_type message));
                   LONGLONG (msg_sender_id message); LONGLONG (msg_receiver_id message);
                   STRING (msg_body message)];
        if fails bound then closing statement stored
        else
          executed ← mysql_stmt_execute statement;
          stored ← (if fails executed then mret stored
                    else
                      id ← mysql_insert_id mysql;
                      mret (mkStoredMessage id (stored_type stored) (stored_sender_id stored)
                              (stored_receiver_id stored) (stored_body stored)
                              (stored_created_at stored)));
          closing statement stored
  end.
End queries.

(** ** Methods *)

Section methods.
Context `{MySql}.

(** The store's copy in memory, and the pool. *)
Definition MessageDb : Type := MessageStore * Db.

Definition on_db {A} (m : ST Db A) : ST MessageDb A := fun '(st, db) =>
  let '(a, db) := m db in (a, (st, db)).

Definition mysql_append (message : Message) : ST MessageDb StoredMessage := fun '(st, db) =>
  let '(stored, st) := append message st in
  let '(stored, db) := using_connection stored (insert_on_connection message stored) db in
  (stored, (st, db)).

(** [if (connection) return ...;], and the scan of the copy otherwise. *)
Definition or_memory {A} (query : MYSQL -> ST Client A) (scan : MessageStore -> A) : ST MessageDb A :=
  fun '(st, db) =>
  let '(found, db) :=
    using_connection None (fun mysql => messages ← query mysql; mret (Some messages)) db in
  (match found with Some messages => messages | None => scan st end, (st, db)).

Definition mysql_direct_history (user_id peer_id : N) : ST MessageDb (list Message) :=
  or_memory (fun mysql => execute_history_query mysql select_direct_history DirectChat
                            [user_id; peer_id; peer_id; user_id])
    (direct_history user_id peer_id).

Definition direct_page_on (user_id peer_id limit before_id : N) (mysql : MYSQL) :
    ST Client (list StoredMessage) :=
  let conversation_id := make_direct_conversation_id user_id peer_id in
  if 0 <? before_id then
    execute_history_page_query mysql select_direct_page_before DirectChat
      [conversation_id; before_id] limit
  else
    execute_history_page_query mysql select_direct_page DirectChat [conversation_id] limit.

Definition mysql_direct_history_page (user_id peer_id limit before_id : N) :
    ST MessageDb (list StoredMessage) :=
  let limit := default_limit limit in
  or_memory (direct_page_on user_id peer_id limit before_id)
    (direct_history_page user_id peer_id limit before_id).

Definition mysql_group_history (group_id : N) : ST MessageDb (list Message) :=
  or_memory (fun mysql => execute_history_query mysql select_group_history GroupChat [group_id])
    (group_history group_id).

Definition group_page_on (group_id limit before_id : N) (mysql : MYSQL) :
    ST Client (list StoredMessage) :=
  if 0 <? before_id then
    execute_history_page_query mysql select_group_page_before GroupChat [group_id; before_id] limit
  else
    execute_history_page_query mysql select_group_page GroupChat [group_id] limit.

Definition mysql_group_history_page (group_id limit before_id : N) :
    ST MessageDb (list StoredMessage) :=
  let limit := default_limit limit in
  or_memory (group_page_on group_id limit before_id) (group_history_page group_id limit before_id).

Definition mysql_unread_page (user_id : N) (group_ids : list N) (last_seen_message_id limit : N) :
    ST MessageDb (list StoredMessage) :=
  let limit := default_limit limit in
  or_memory (fun mysql => execute_unread_query mysql user_id group_ids last_seen_message_id limit)
    (unread_page user_id group_ids last_seen_message_id limit).
End methods.

(** ** Resources: every statement is freed, on every path *)

Section resources.
Context `{MySqlProtocol}.

Lemma table_column_exists_balanced h t c : balanced h (table_column_exists h t c).
Proof. balance. Qed.

Lemma setup_messages_balanced h : balanced h (setup_messages h).
Proof.
  apply balanced_bind; [apply balanced_query|]. intros _.
  apply balanced_bind; [apply table_column_exists_balanced|]. intros b.
  apply balanced_bind; [balance|]. intros _.
  apply balanced_bind; [apply table_column_exists_balanced|]. balance.
Qed.

Lemma execute_history_query_balanced h q t ps : balanced h (execute_history_query h q t ps).
Proof. balance. Qed.

Lemma execute_history_page_query_balanced h q t ps n :
  balanced h (execute_history_page_query h q t ps n).
Proof. balance. Qed.

Lemma execute_unread_query_balanced h u gs last n : balanced h (execute_unread_query h u gs last n).
Proof. balance. Qed.

Lemma insert_on_connection_balanced m st h : balanced h (insert_on_connection m st h).
Proof. balance. Qed.

Lemma direct_page_on_balanced u p n b h : balanced h (direct_page_on u p n b h).
Proof. unfold direct_page_on. case_if; apply execute_history_page_query_balanced. Qed.

Lemma group_page_on_balanced g n b h : balanced h (group_page_on g n b h).
Proof. unfold group_page_on. case_if; apply execute_history_page_query_balanced. Qed.
End resources.
