(* ===== verification/PoolServe.v ===== *)
(** * PoolServe: a running pool of a working client serves everybody

    When library, network and server work, pings succeed, so every connection
    stays alive, [acquire] hands one out as long as one is left, and the work
    done with it starts from the tables as they are. *)

From S2P Require Import Prelude.
From S2P Require Import SqlTables.
From S2P Require Import MySqlClient.
From S2P Require Import MySqlTables.
From S2P Require Import ServerConfig.
From S2P Require Import MySqlConnectionPool.
From S2P Require Import PoolSpec.
Open Scope Z_scope.

Section serve.
Context `{Hview : MySqlView, Hprot : !MySqlProtocol, Htext : SqlText,
          Htab : !MySqlTables, Hspec : !MySqlTablesSpec}.

Definition all_live (db : Db) : Prop := forall s, is_Some (slots db !! s) -> live db s.

Lemma ensure_healthy_true lent s db :
  pool_ok lent db -> live db s -> healthy (client db) ->
  wp (ensure_healthy s) (fun r _ => r = true) db.
Proof.
  intros Hok (x & h & Hx & Eh) Hh. unfold ensure_healthy.
  apply wp_bind, (now_wp ∅); [apply Hok|]. intros t d1 S1. apply wp_bind, gets_wp.
  assert (E1 : slots d1 !! s = Some x) by (by rewrite (stays_lookup _ _ _ _ S1)).
  apply wp_bind, (read_slot_wp s x); [done|]. case_if; [by apply wp_ret|].
  apply wp_bind. eapply (wp_mono _ (fun r _ => r = true)); [|by intros r d2 ->; apply wp_ret].
  unfold ping_connection. apply wp_bind, (read_slot_wp s x); [done|]. rewrite Eh.
  assert (Hin : h ∈ handles (client d1)).
  { apply (ok_handles _ _ (stays_objects _ _ _ S1)). right. by exists s, x. }
  assert (Hh1 : healthy (client d1)) by (by apply (still_healthy _ _ (frame_tables _ _ (stays_frame _ _ _ S1)))).
  apply wp_bind, on_client_wp. eapply wp_mono; [by apply ping_healthy|]. intros r c ->. simpl.
  apply wp_bind, on_client_wp. unfold wp at 1. apply wp_bind.
  unfold wp at 1, write_slot. by destruct (slots _ !! s).
Qed.

(** The check of a live object keeps all objects alive. *)
Lemma ensure_healthy_live lent s db :
  pool_ok lent db -> s ∈ lent -> all_live db -> healthy (client db) ->
  wp (ensure_healthy s) (fun r db' => r = true /\ pool_ok lent db' /\ outside [s] db db' /\
    all_live db') db.
Proof.
  intros Hok Hin Hl Hh. destruct (pool_ok_lent lent db s Hok Hin) as [x Hx].
  eapply wp_mono.
  { eapply wp_and; [by apply (ensure_healthy_pool lent s)|].
    eapply (ensure_healthy_true lent); [done|apply Hl; by eexists|done]. }
  intros r d [(Hok1 & O1 & Hr) ->]. split; [done|]. split; [done|]. split; [done|].
  intros t Ht. destruct (decide (t = s)) as [->|Hne]; [by apply Hr|].
  assert (E : slots d !! t = slots db !! t) by (apply (outside_slots _ _ _ O1); set_solver).
  rewrite E in Ht. destruct (Hl t Ht) as (y & h & Hy & Eh). exists y, h. by rewrite E.
Qed.

Lemma release_live s lent db :
  pool_ok (s :: lent) db -> all_live db ->
  wp (release (Some s)) (fun _ db' => pool_ok lent db' /\ outside [s] db db' /\ all_live db') db.
Proof.
  intros Hok Hl. destruct (pool_ok_lent (s :: lent) db s Hok) as [x Hx]; [set_solver|].
  eapply wp_mono; [by apply release_spec|].
  intros [] d (Hok1 & O1 & Hr). split; [done|]. split; [done|].
  intros t Ht. destruct (decide (t = s)) as [->|Hne]; [apply Hr, Hl; by eexists|].
  assert (E : slots d !! t = slots db !! t) by (apply (outside_slots _ _ _ O1); set_solver).
  rewrite E in Ht. destruct (Hl t Ht) as (y & h & Hy & Eh). exists y, h. by rewrite E.
Qed.

Lemma outside_healthy l a b : outside l a b -> healthy (client a) -> healthy (client b).
Proof. intros O. apply (still_healthy _ _ (outside_tables _ _ _ O)). Qed.

Lemma check_candidates_live candidates lent db :
  pool_ok (candidates ++ lent) db -> all_live db -> healthy (client db) ->
  wp (check_candidates candidates) (fun _ db' =>
    pool_ok lent db' /\ outside candidates db db' /\ all_live db') db.
Proof.
  revert db. induction candidates as [|s candidates IH]; intros db Hok Hl Hh.
  { apply wp_ret. split; [done|]. split; [apply outside_refl|done]. }
  cbn [check_candidates]. apply wp_bind. eapply wp_mono.
  { apply (ensure_healthy_live ((s :: candidates) ++ lent) s); [done|set_solver|done|done]. }
  intros r d1 (_ & Hok1 & O1 & Hl1). apply wp_bind. eapply wp_mono; [by apply release_live|].
  intros [] d2 (Hok2 & O2 & Hl2). eapply wp_mono.
  { apply IH; [done|done|]. eapply outside_healthy; [done|]. by eapply outside_healthy. }
  intros [] d3 (Hok3 & O3 & Hl3). split; [done|]. split; [|done].
  eapply outside_trans; [|eapply outside_trans]; (eapply outside_weaken; [|done]); set_solver.
Qed.

(** [acquire] succeeds while somebody's connection is not lent. *)
Lemma acquire_live lent db :
  pool_ok lent db -> all_live db -> healthy (client db) -> pool_stopped_ (pool db) = false ->
  (length lent < length (connections_ (pool db)))%nat ->
  wp acquire (fun g db' => all_live db' /\ exists s x h, g = mkGuard true (Some s) /\
    pool_ok (s :: lent) db' /\ slots db' !! s = Some x /\ slot_mysql x = Some h /\
    bystander lent db db') db.
Proof.
  intros Hok Hl Hh Hrun Hlen. unfold acquire. apply wp_bind.
  eapply wp_mono; [by apply idle_health_check_spec|]. intros cs d1 (Hok1 & O1).
  assert (E1 : forall s, slots d1 !! s = slots db !! s).
  { intros s. apply (outside_slots _ _ _ O1). set_solver. }
  assert (Hl1 : all_live d1).
  { intros s. rewrite E1. intros Hs. destruct (Hl s Hs) as (x & h & Hx & Eh).
    exists x, h. by rewrite E1. }
  apply wp_bind. eapply wp_mono; [apply (check_candidates_live cs lent); [done|done|]|].
  { by eapply outside_healthy. }
  intros [] d2 (Hok2 & O2 & Hl2).
  assert (B2 : bystander lent db d2).
  { transitivity d1; [by apply (bystander_outside lent [])|by apply (bystander_outside lent cs)]. }
  apply wp_bind. unfold wp at 1, take_available.
  destruct (available_ (pool d2)) as [|s rest] eqn:Ea.
  { exfalso. pose proof (po_owned _ _ Hok2) as Hp. rewrite Ea in Hp.
    apply Permutation_length in Hp. rewrite (bystander_connections _ _ _ B2) in Hp. simpl in Hp. lia. }
  rewrite (bystander_stopped _ _ _ B2), Hrun. cbn [fst snd].
  pose proof (take_available_spec lent d2 Hok2) as W. unfold wp, take_available in W.
  rewrite Ea, (bystander_stopped _ _ _ B2), Hrun in W. cbn [fst snd] in W.
  set (d3 := (set_pool _ d2).2) in *. destruct W as [O3 Hok3].
  assert (B3 : bystander lent db d3) by (etrans; [done|by apply (bystander_outside lent [])]).
  apply wp_bind. eapply wp_mono.
  { apply (ensure_healthy_live (s :: lent) s); [done|set_solver|done|].
    by apply (still_healthy _ _ (bystander_tables _ _ _ B3)). }
  intros r d4 (-> & Hok4 & O4 & Hl4). simpl. apply wp_ret. split; [done|].
  destruct (pool_ok_lent (s :: lent) d4 s Hok4) as [y Hy]; [set_solver|].
  destruct (Hl4 s) as (x & h & Hx & Eh); [by eexists|]. exists s, x, h. split_and!; try done.
  etrans; [done|by apply (bystander_outside lent [s])].
Qed.

(** ** One user of the pool at a time *)

Record serviceable (db : Db) : Prop := {
  serves_ok : pool_ok [] db;
  serves_live : all_live db;
  serves_healthy : healthy (client db);
  serves_running : pool_stopped_ (pool db) = false;
  serves_some : connections_ (pool db) <> [];
}.

(** Work in the scope of a guard runs on the current tables, and leaves the
    pool ready for the next. *)
Lemma using_connection_serves {A} (without : A) (work : MYSQL -> ST Client A)
    (P : A -> Database -> Prop) db :
  serviceable db -> (forall h, balanced h (work h)) ->
  (forall h c, healthy c -> h ∈ handles c -> tables c = tables (client db) ->
     wp (work h) (fun r c' => healthy c' /\ P r (tables c')) c) ->
  wp (using_connection without work) (fun r db' =>
    serviceable db' /\ P r (tables (client db'))) db.
Proof.
  intros [Hok Hl Hh Hrun Hne] Hb Hwork. unfold using_connection. apply wp_bind. eapply wp_mono.
  { apply (acquire_live []); [done..|]. simpl. destruct (connections_ (pool db)); [done|simpl; lia]. }
  intros g d1 (Hl1 & s & x & h & -> & Hok1 & Hx & Eh & B1). apply wp_bind.
  unfold guard_get. simpl guard_connection_. cbv iota. apply wp_bind.
  eapply read_slot_wp; [done|]. apply wp_ret. rewrite Eh. cbv iota.
  assert (Hin : h ∈ handles (client d1)).
  { apply (ok_handles _ _ (po_objects _ _ Hok1)). right. by exists s, x. }
  pose proof (bystander_tables _ _ _ B1) as [Et Eu].
  apply wp_bind, on_client_wp. eapply wp_mono.
  { eapply wp_and; [by apply (Hb h)|]. apply Hwork; [by apply Eu|done|done]. }
  intros r c [Hc [Hh' HP]]. pose proof (pool_ok_client _ _ _ Hok1 Hc) as Hok2.
  unfold guard_reset. cbn [guard_pool_ guard_connection_ andb]. rewrite bool_decide_eq_false_2 by done.
  apply wp_bind. simpl negb. cbv iota. apply wp_bind.
  eapply wp_mono; [apply (release_live s []); [done|exact Hl1]|].
  intros [] d3 (Hok3 & O3 & Hl3). apply wp_ret, wp_ret.
  pose proof (outside_tables _ _ _ O3) as [Et3 Eu3].
  split; [split|]; try done.
  - by apply Eu3.
  - rewrite (outside_stopped _ _ _ O3). simpl. by rewrite (bystander_stopped _ _ _ B1).
  - rewrite (outside_connections _ _ _ O3). simpl. by rewrite (bystander_connections _ _ _ B1).
  - by rewrite Et3.
Qed.
End serve.
