(* ===== verification/PoolTheorems.v ===== *)
(** * PoolTheorems: the pool among threads

    Callers of [acquire] run concurrently; each critical section of [mutex_],
    and each check of a connection outside it, is a step.  [pool_step]
    interleaves the steps of any number of callers with [init] and, while
    nobody holds a connection, [shutdown]. *)

From S2P Require Import Prelude.
From S2P Require Import SqlTables.
From S2P Require Import MySqlClient.
From S2P Require Import MySqlTables.
From S2P Require Import ToyServer.
From S2P Require Import ServerConfig.
From S2P Require Import MySqlConnectionPool.
From S2P Require Import PoolSpec.
From S2P Require Import PoolServe.
Open Scope Z_scope.

(** ** Callers *)

(** Where a caller of [acquire] is, and which objects it has in its hands. *)
Inductive Activity : Type :=
  | Calling                                        (* before the first critical section *)
  | Checking (candidates : list Slot)              (* in the loop over the idle candidates *)
  | Checked (candidate : Slot) (rest : list Slot)  (* about to put a candidate back *)
  | Waiting                                        (* in [cv_.wait_for] *)
  | Taken (connection : Slot)                      (* about to check what it got *)
  | Refused (connection : Slot)                    (* about to give it up *)
  | Holding (connection : Slot)                    (* in the scope of the guard *)
  | Finished.

Definition held (a : Activity) : list Slot :=
  match a with
  | Checking candidates => candidates
  | Checked candidate rest => candidate :: rest
  | Taken s | Refused s | Holding s => [s]
  | Calling | Waiting | Finished => []
  end.

Definition lent_to (acts : list Activity) : list Slot := concat (map held acts).

Section steps.
Context `{MySqlProtocol}.

(** One step of one caller. *)
Inductive caller_step : Activity -> Db -> Activity -> Db -> Prop :=
  | step_candidates db cs db' : idle_health_check_unlocked db = (cs, db') ->
      caller_step Calling db (Checking cs) db'
  | step_check db s cs r db' : ensure_healthy s db = (r, db') ->
      caller_step (Checking (s :: cs)) db (Checked s cs) db'
  | step_put_back db s cs r db' : release (Some s) db = (r, db') ->
      caller_step (Checked s cs) db (Checking cs) db'
  | step_wait db : caller_step (Checking []) db Waiting db
  | step_take db s db' : take_available db = (Some s, db') ->
      caller_step Waiting db (Taken s) db'
  | step_give_up db db' : take_available db = (None, db') ->
      caller_step Waiting db Finished db'
  | step_healthy db s db' : ensure_healthy s db = (true, db') ->
      caller_step (Taken s) db (Holding s) db'
  | step_unhealthy db s db' : ensure_healthy s db = (false, db') ->
      caller_step (Taken s) db (Refused s) db'
  | step_refuse db s r db' : release (Some s) db = (r, db') ->
      caller_step (Refused s) db Finished db'
  | step_use {A} db s h (work : MYSQL -> ST Client A) r db' :
      guard_get (mkGuard true (Some s)) db = (Some h, db) -> balanced h (work h) ->
      on_client (work h) db = (r, db') ->
      caller_step (Holding s) db (Holding s) db'
  | step_return db s g db' : guard_reset (mkGuard true (Some s)) db = (g, db') ->
      caller_step (Holding s) db Finished db'.

(** A step of the whole: of a caller, a new caller, [init], or [shutdown] while
    nothing is lent.  The last is a restriction on the histories considered, not
    a guard of the code: [shutdown] frees every object, lent or not, which is
    the subject of [shutdown_frees_lent_connections].  The program calls it
    once, from the destructor of [ChatServerApp]. *)
Inductive pool_step : list Activity * Db -> list Activity * Db -> Prop :=
  | step_caller before a a' after db db' : caller_step a db a' db' ->
      pool_step (before ++ a :: after, db) (before ++ a' :: after, db')
  | step_call acts db : pool_step (acts, db) (acts ++ [Calling], db)
  | step_init acts config db r db' : init config db = (r, db') ->
      pool_step (acts, db) (acts, db')
  | step_shutdown acts db r db' : lent_to acts = [] -> shutdown db = (r, db') ->
      pool_step (acts, db) (acts, db').

(** ** The invariant *)

(** A caller that holds a connection holds a live one. *)
Definition served (a : Activity) (db : Db) : Prop :=
  match a with Holding s => live db s | _ => True end.

Record pool_inv (stmts : gset MYSQL_STMT) (x : list Activity * Db) : Prop := {
  inv_ok : pool_ok (lent_to x.1) x.2;
  inv_served : Forall (fun a => served a x.2) x.1;
  inv_statements : statements (client x.2) = stmts;
}.

Lemma lent_to_app a b : lent_to (a ++ b) = lent_to a ++ lent_to b.
Proof. unfold lent_to. by rewrite map_app, concat_app. Qed.

Lemma lent_to_middle before a after :
  lent_to (before ++ a :: after) ≡ₚ held a ++ lent_to (before ++ after).
Proof. rewrite !lent_to_app. unfold lent_to at 2. cbn [map concat]. solve_Permutation. Qed.

(** What a step of a caller does, given what the others hold. *)
Definition step_ok (a : Activity) (db : Db) (a' : Activity) (db' : Db) : Prop :=
  forall others, pool_ok (held a ++ others) db ->
  pool_ok (held a' ++ others) db' /\ (forall s, s ∈ others -> slots db' !! s = slots db !! s) /\
  statements (client db') = statements (client db) /\ (served a db -> served a' db').

Lemma step_ok_outside l a db db' others :
  pool_ok (held a ++ others) db -> outside l db db' -> (forall s, s ∈ l -> s ∈ held a) ->
  (forall s, s ∈ others -> slots db' !! s = slots db !! s) /\
  statements (client db') = statements (client db).
Proof.
  intros Hok [Hs Ht _ _ _ _] Hl. split; [|done]. intros s Hin. apply Hs. intros Hsl.
  pose proof (po_nodup _ _ Hok) as Hn. rewrite <- (po_owned _ _ Hok) in Hn.
  apply NoDup_app in Hn as (_ & _ & Hn). apply NoDup_app in Hn as (_ & Hn & _).
  by apply (Hn s); [apply Hl|].
Qed.

Lemma released s held' others db r db' :
  pool_ok (s :: held' ++ others) db -> release (Some s) db = (r, db') ->
  pool_ok (held' ++ others) db' /\ outside [s] db db'.
Proof.
  intros Hok E. pose proof (release_spec s (held' ++ others) db Hok) as W.
  destruct (wp_run _ _ _ _ _ W E) as (? & ? & _). done.
Qed.

Lemma checked s held' others db r db' :
  pool_ok (held' ++ others) db -> s ∈ held' -> ensure_healthy s db = (r, db') ->
  pool_ok (held' ++ others) db' /\ outside [s] db db' /\ (r = true -> live db' s).
Proof.
  intros Hok Hs E. apply (wp_run _ _ _ _ _ (ensure_healthy_pool (held' ++ others) s db Hok
    ltac:(set_solver)) E).
Qed.

Lemma used {A} s h (work : MYSQL -> ST Client A) others db r db' :
  pool_ok (s :: others) db -> guard_get (mkGuard true (Some s)) db = (Some h, db) ->
  balanced h (work h) -> on_client (work h) db = (r, db') ->
  pool_ok (s :: others) db' /\ slots db' = slots db /\
  statements (client db') = statements (client db).
Proof.
  intros Hok Hg Hb E. destruct (pool_ok_lent _ db s Hok) as [x Hx]; [set_solver|].
  unfold guard_get, mbind, ST_bind, read_slot in Hg. simpl in Hg. rewrite Hx in Hg. injection Hg as Eh.
  assert (Hin : h ∈ handles (client db)).
  { apply (ok_handles _ _ (po_objects _ _ Hok)). right. by exists s, x. }
  pose proof (Hb (client db) Hin) as Hk. unfold keeps, wp in Hk. unfold on_client in E.
  destruct (work h (client db)) as [r' c]. injection E as <- <-. cbn [snd] in Hk.
  split; [by apply pool_ok_client|]. split; [done|]. apply Hk.
Qed.

Lemma caller_step_ok a db a' db' : caller_step a db a' db' -> step_ok a db a' db'.
Proof.
  intros Hstep others Hok. destruct Hstep as
    [db cs db' E|db s cs r db' E|db s cs r db' E|db|db s db' E|db db' E|db s db' E|db s db' E
    |db s r db' E|A db s h work r db' Hg Hb E|db s g db' E]; cbn [held app served] in *.
  - destruct (wp_run _ _ _ _ _ (idle_health_check_spec others db Hok) E) as [Hok' O].
    split; [done|]. destruct (step_ok_outside [] Calling db db' others Hok O) as [? ?]; [set_solver|done].
  - destruct (checked s (s :: cs) others db r db' Hok) as (Hok' & O & _); [set_solver|done|].
    split; [done|]. destruct (step_ok_outside [s] (Checking (s :: cs)) db db' others Hok O);
      [set_solver|done].
  - destruct (released s cs others db r db' Hok E) as [Hok' O].
    split; [done|]. destruct (step_ok_outside [s] (Checked s cs) db db' others Hok O); [set_solver|done].
  - done.
  - destruct (wp_run _ _ _ _ _ (take_available_spec others db Hok) E) as [O Hok'].
    split; [done|]. destruct (step_ok_outside [] Waiting db db' others Hok O); [set_solver|done].
  - destruct (wp_run _ _ _ _ _ (take_available_spec others db Hok) E) as [O Hok'].
    split; [done|]. destruct (step_ok_outside [] Waiting db db' others Hok O); [set_solver|done].
  - destruct (checked s [s] others db true db' Hok) as (Hok' & O & Hl); [set_solver|done|].
    split; [done|]. destruct (step_ok_outside [s] (Taken s) db db' others Hok O); [set_solver|].
    split_and!; [done|done|]. intros _. by apply Hl.
  - destruct (checked s [s] others db false db' Hok) as (Hok' & O & _); [set_solver|done|].
    split; [done|]. destruct (step_ok_outside [s] (Taken s) db db' others Hok O); [set_solver|done].
  - destruct (released s [] others db r db' Hok E) as [Hok' O].
    split; [done|]. destruct (step_ok_outside [s] (Refused s) db db' others Hok O); [set_solver|done].
  - destruct (used s h work others db r db' Hok Hg Hb E) as (Hok' & Es & Et).
    split; [done|]. unfold live. rewrite Es. by split_and!.
  - destruct (wp_run _ _ _ _ _ (guard_reset_spec s others db Hok) E) as (_ & Hok' & O).
    split; [done|]. destruct (step_ok_outside [s] (Holding s) db db' others Hok O); [set_solver|done].
Qed.

Lemma served_kept (acts : list Activity) db db' :
  (forall s, s ∈ lent_to acts -> slots db' !! s = slots db !! s) ->
  Forall (fun a => served a db) acts -> Forall (fun a => served a db') acts.
Proof.
  unfold lent_to. intros Hs Ha. induction Ha as [|a acts Ha _ IH]; [constructor|].
  cbn [map concat] in Hs. constructor; [|apply IH; intros s Hin; apply Hs; set_solver].
  destruct a; try done. destruct Ha as (x & h & Hx & Eh). exists x, h.
  rewrite Hs; [done|]. cbn [held]. set_solver.
Qed.

Lemma not_lent_served acts db db' : lent_to acts = [] ->
  Forall (fun a => served a db) acts -> Forall (fun a => served a db') acts.
Proof. intros E. apply served_kept. rewrite E. set_solver. Qed.

Lemma pool_step_inv stmts x y : pool_step x y -> pool_inv stmts x -> pool_inv stmts y.
Proof.
  intros Hstep [Hok Hs Ht]. destruct Hstep as [before a a' after db db' Hc|acts db
    |acts config db r db' E|acts db r db' El E]; cbn [fst snd] in *.
  - pose proof (pool_ok_perm _ _ _ (lent_to_middle before a after) Hok) as Hok1.
    destruct (caller_step_ok a db a' db' Hc _ Hok1) as (Hok2 & Hsl & Hst & Hsv).
    apply Forall_app in Hs as [Hs1 Hs2]. apply Forall_cons in Hs2 as [Hs2 Hs3].
    rewrite lent_to_app in Hsl. split; cbn [fst snd].
    + eapply pool_ok_perm; [symmetry; apply lent_to_middle|done].
    + apply Forall_app. split; [|constructor; [by apply Hsv|]];
        (eapply served_kept; [|done]); set_solver.
    + congruence.
  - split; cbn [fst snd]; [by rewrite lent_to_app, app_nil_r| |done].
    apply Forall_app. split; [done|by repeat constructor].
  - pose proof (wp_run _ _ _ _ _ (init_spec config (lent_to acts) db Hok) E) as (Hok' & _ & Es & _ & Hr).
    split; cbn [fst snd]; [done| |congruence].
    destruct (pool_ready_ (pool db)) eqn:Er; [by subst|].
    pose proof (po_ready _ _ Hok) as E1. rewrite Er in E1. symmetry in E1. apply negb_false_iff in E1.
    destruct (stopped_empty _ _ Hok E1) as (El & _). by eapply not_lent_served.
  - rewrite El in Hok. destruct (wp_run _ _ _ _ _ (shutdown_spec [] db Hok) E)
      as (Ho & Esl & Eh & Est & Er & Ec & Ea & Es & _).
    split; cbn [fst snd]; [rewrite El|by eapply not_lent_served|congruence].
    by apply pool_ok_stopped.
Qed.
End steps.

(** ** Theorems *)

Section theorems.
Context `{MySqlProtocol}.

Definition pool_reachable (c : Client) (acts : list Activity) (db : Db) : Prop :=
  rtc pool_step ([], new_db c) (acts, db).

Lemma pool_reachable_inv c acts db :
  handles c = ∅ -> pool_reachable c acts db -> pool_inv (statements c) (acts, db).
Proof.
  intros Eh Hr. assert (Hinv : pool_inv (statements c) ([], new_db c)).
  { split; [by apply new_db_ok|constructor|done]. }
  unfold pool_reachable in Hr. remember ([], new_db c) as x eqn:Ex. clear Ex.
  remember (acts, db) as y eqn:Ey. clear Ey. induction Hr as [x|x y z Hxy _ IH]; [done|].
  by apply IH, (pool_step_inv _ x).
Qed.

Lemma pool_reachable_ok c acts l db :
  handles c = ∅ -> pool_reachable c acts db -> lent_to acts = l -> pool_ok l db.
Proof. intros Eh Hr <-. exact (inv_ok _ _ (pool_reachable_inv c acts db Eh Hr)). Qed.

(** C6: In every interleaving of the steps of any number of callers with calls
    of [init] and with calls of [shutdown] made while no caller has a connection
    in its hands, a connection has one owner: the queue and the callers never
    share one, no freed object is touched, what a caller holds is an open
    connection no other object names, every open connection of the library
    belongs to exactly one object, and the statements are those there were at
    the start.  The code does not enforce the condition on [shutdown]; without
    it the claim fails: see [shutdown_frees_lent_connections]. *)
Theorem connections_have_one_owner (c : Client) (acts : list Activity) (db : Db) :
  handles c = ∅ -> pool_reachable c acts db ->
  NoDup (available_ (pool db) ++ lent_to acts) /\
  use_after_free db = false /\
  (forall s, Holding s ∈ acts -> exists x h, slots db !! s = Some x /\ slot_mysql x = Some h /\
     h ∈ handles (client db) /\
     forall t y, slots db !! t = Some y -> slot_mysql y = Some h -> t = s) /\
  (forall h, h ∈ handles (client db) ->
     exists s x, s ∈ available_ (pool db) ++ lent_to acts /\ slots db !! s = Some x /\ slot_mysql x = Some h) /\
  statements (client db) = statements c.
Proof.
  intros Eh Hr. destruct (pool_reachable_inv c acts db Eh Hr) as [Hok Hs Ht]. cbn [fst snd] in *.
  pose proof Hok as [Ho Hp Hn Hsl _ _]. pose proof Ho as [Oh _ Od _ Os].
  split; [by rewrite Hp|]. split; [done|]. split; [|split; [|done]].
  - intros s Hin. rewrite Forall_forall in Hs. destruct (Hs _ Hin) as (x & h & Hx & Em).
    exists x, h. split; [done|]. split; [done|]. split; [apply Oh; right; by exists s, x|].
    intros t y Hy Ey. symmetry. by eapply (Od s t x y h).
  - intros h Hh. apply Oh in Hh as [?|(s & x & Hx & Em)]; [set_solver|].
    exists s, x. split; [|done]. rewrite Hp. apply Hsl. by exists x.
Qed.

(** At most [pool_size] callers hold a connection at the same time. *)
Theorem holders_bounded (c : Client) (acts : list Activity) (db : Db) :
  handles c = ∅ -> pool_reachable c acts db ->
  (length (lent_to acts) <= length (connections_ (pool db)))%nat.
Proof.
  intros Eh Hr. destruct (pool_reachable_inv c acts db Eh Hr) as [Hok _ _]. cbn [fst snd] in *.
  pose proof (po_owned _ _ Hok) as Hp. apply Permutation_length in Hp. rewrite length_app in Hp. lia.
Qed.

(** *** [acquire] is a run of these steps *)
Lemma caller_run before after x y :
  rtc (fun x y => caller_step x.1 x.2 y.1 y.2) x y ->
  rtc pool_step (before ++ x.1 :: after, x.2) (before ++ y.1 :: after, y.2).
Proof.
  induction 1 as [x|[a d] [b e] z Hxy _ IH]; [done|]. eapply rtc_l; [|exact IH].
  by apply step_caller.
Qed.

(** A step of [acquire] itself. *)
Definition acquire_step (x y : Activity * Db) : Prop :=
  caller_step x.1 x.2 y.1 y.2 /\ forall s, x.1 <> Holding s.

Lemma check_candidates_run cs db :
  rtc acquire_step (Checking cs, db) (Waiting, (check_candidates cs db).2).
Proof.
  revert db. induction cs as [|s cs IH]; intros db.
  { apply rtc_once. split; [constructor|done]. }
  cbn [check_candidates]. unfold mbind, ST_bind.
  destruct (ensure_healthy s db) as [r d1] eqn:E1. destruct (release (Some s) d1) as [u d2] eqn:E2.
  eapply (rtc_l _ _ (Checked s cs, d1)); [split; [by eapply step_check|done]|].
  eapply (rtc_l _ _ (Checking cs, d2)); [split; [by eapply step_put_back|done]|]. apply IH.
Qed.

(** The caller after [acquire] returned this guard. *)
Definition after_acquire (g : PooledMySqlConnection) : Activity :=
  match guard_connection_ g with Some s => Holding s | None => Finished end.

Lemma acquire_runs db :
  rtc acquire_step (Calling, db) (after_acquire (acquire db).1, (acquire db).2).
Proof.
  unfold acquire, mbind, ST_bind. destruct (idle_health_check_unlocked db) as [cs d1] eqn:E1.
  eapply (rtc_l _ _ (Checking cs, d1)); [split; [by eapply step_candidates|done]|].
  pose proof (check_candidates_run cs d1) as Hrun.
  destruct (check_candidates cs d1) as [u d2]. cbn [snd] in Hrun. etransitivity; [exact Hrun|].
  destruct (take_available d2) as [[s|] d3] eqn:E3;
    [|apply rtc_once; split; [by apply step_give_up|done]].
  eapply (rtc_l _ _ (Taken s, d3)); [split; [by eapply step_take|done]|].
  destruct (ensure_healthy s d3) as [[] d4] eqn:E4; cbn [negb].
  - apply rtc_once. split; [by apply step_healthy|done].
  - destruct (release (Some s) d4) as [u' d5] eqn:E5.
    eapply (rtc_l _ _ (Refused s, d4)); [split; [by eapply step_unhealthy|done]|].
    apply rtc_once. split; [by eapply step_refuse|done].
Qed.

Lemma acquire_steps db :
  rtc (fun x y => caller_step x.1 x.2 y.1 y.2) (Calling, db)
    (after_acquire (acquire db).1, (acquire db).2).
Proof. eapply rtc_subrel; [|apply acquire_runs]. by intros x y [? _]. Qed.

(** A pool that is started, and one caller. *)
Lemma init_reachable config c : pool_reachable c [] (init config (new_db c)).2.
Proof. apply rtc_once. by eapply step_init, surjective_pairing. Qed.

Lemma acquire_reachable c db :
  pool_reachable c [] db -> pool_reachable c [after_acquire (acquire db).1] (acquire db).2.
Proof.
  intros Hr. unfold pool_reachable. etransitivity; [exact Hr|].
  eapply rtc_l; [apply step_call|]. exact (caller_run [] [] (Calling, db) _ (acquire_steps db)).
Qed.

(** The sequential [acquire] that the stores are modelled with is one of the
    runs of the concurrent pool, in which nobody else takes a step. *)
Theorem acquire_is_a_run (before after : list Activity) (db : Db) :
  rtc pool_step (before ++ Calling :: after, db)
    (before ++ after_acquire (acquire db).1 :: after, (acquire db).2).
Proof.
  exact (caller_run before after (Calling, db) (after_acquire (acquire db).1, (acquire db).2)
           (acquire_steps db)).
Qed.

(** *** [init], [shutdown] *)

(** C28: [init] makes all its connections or none: it succeeds exactly when it has
    made [pool_size] live ones, and on failure every one it made is closed. *)
Theorem init_all_or_nothing (config : MySqlConnectionPoolConfig) (db : Db) :
  pool_ok [] db -> pool_ready_ (pool db) = false ->
  wp (init config) (fun ok db' => pool_ok [] db' /\ ready db' = ok /\
    statements (client db') = statements (client db) /\ tables (client db') = tables (client db) /\
    if ok then positive_pool_config config = true /\
               length (available_ (pool db')) = Z.to_nat (pool_size config) /\
               (forall s, s ∈ available_ (pool db') -> live db' s)
    else handles (client db') = ∅ /\ available_ (pool db') = []) db.
Proof.
  intros Hok Hnr. eapply wp_mono; [by apply (init_spec config [])|].
  intros ok db' (Hok' & -> & Hst & [Et _] & Hr). rewrite Hnr in Hr. destruct Hr as [_ Hr].
  pose proof (po_owned _ _ Hok') as Hp. rewrite app_nil_r in Hp.
  pose proof (po_ready _ _ Hok') as Hrd. split; [done|]. unfold ready.
  destruct (pool_ready_ (pool db')).
  - destruct Hr as (Hpos & Hl & Hlive). split; [by destruct (pool_stopped_ (pool db'))|].
    split; [done|]. split; [done|]. split; [done|]. split; [by rewrite Hp|].
    intros s. rewrite Hp. apply Hlive.
  - split; [done|]. split; [done|]. split; [done|]. split; [done|].
    symmetry in Hrd. apply negb_false_iff in Hrd. by destruct (stopped_empty _ _ Hok' Hrd) as (_ & ? & _).
Qed.

(** C29: After [shutdown] the pool holds nothing, hands out nothing, and can be
    started again. *)
Theorem shutdown_releases_all (db : Db) :
  pool_ok [] db ->
  wp shutdown (fun _ db' => pool_ok [] db' /\ handles (client db') = ∅ /\ slots db' = ∅ /\
    ready db' = false /\ acquire db' = (empty_guard, db') /\
    shutdown db' = (tt, db') /\ pool_ready_ (pool db') = false) db.
Proof.
  intros Hok. eapply wp_mono; [by apply (shutdown_spec [])|].
  intros _ db' (Ho & Esl & Eh & Est & Er & Ec & Ea & Es & _).
  destruct (pool_ok_stopped db' Ho Ea Ec Esl Er Est) as [Hok' _].
  split; [done|]. split; [done|]. split; [done|]. unfold ready. rewrite Er. split; [done|].
  split; [by apply acquire_none|]. split; [|done].
  unfold shutdown, mbind, ST_bind, gets. rewrite Est, bool_decide_eq_true_2 by done. done.
Qed.

(** [shutdown] does not wait for connections that are lent: it frees their
    objects too, and the guard's [reset], which looks at its connection to
    close it because the pool has stopped, touches freed memory. *)
Theorem shutdown_frees_lent_connections (s : Slot) (lent : list Slot) (db : Db) :
  pool_ok (s :: lent) db ->
  use_after_free db = false /\
  use_after_free (guard_reset (mkGuard true (Some s)) (shutdown db).2).2 = true.
Proof.
  intros Hok. split; [apply (ok_safe _ _ (po_objects _ _ Hok))|].
  pose proof (shutdown_spec (s :: lent) db Hok) as W. unfold wp in W.
  destruct (shutdown db) as [u d]. cbn [snd] in *. destruct W as (Ho & Esl & _ & Est & _).
  unfold guard_reset, release, close_connection, read_slot, mbind, ST_bind, gets. simpl.
  rewrite Est. by rewrite Esl, lookup_empty.
Qed.

(** A guard that is moved gives its connection back once. *)
Theorem moved_guard_releases_once (g : PooledMySqlConnection) (db : Db) :
  (g' ← guard_reset (guard_move g).2; guard_reset (guard_move g).1) db = guard_reset g db.
Proof. by destruct g as [[] [s|]]. Qed.
End theorems.

(** C23: While library, network and server work and a connection is left, [acquire]
    hands out a live one that nobody else has, and disturbs nobody: the objects
    lent to others, the statements and the tables stay as they are. *)
Theorem acquire_serves `{Hview : MySqlView, Hprot : !MySqlProtocol, Htext : SqlText,
      Htab : !MySqlTables, Hspec : !MySqlTablesSpec} (lent : list Slot) (db : Db) :
  pool_ok lent db -> all_live db -> healthy (client db) -> pool_stopped_ (pool db) = false ->
  (length lent < length (connections_ (pool db)))%nat ->
  wp acquire (fun g db' => exists s h, g = mkGuard true (Some s) /\ (s ∉ lent) /\
    pool_ok (s :: lent) db' /\ guard_get g db' = (Some h, db') /\ h ∈ handles (client db') /\
    (forall t, t ∈ lent -> slots db' !! t = slots db !! t) /\
    statements (client db') = statements (client db) /\ tables (client db') = tables (client db)) db.
Proof.
  intros Hok Hl Hh Hrun Hlen. eapply wp_mono; [by apply (acquire_live lent)|].
  intros g db' (_ & s & x & h & -> & Hok' & Hx & Eh & [Hs Hst [Ht _] _ _ _]).
  exists s, h. split; [done|]. split.
  { pose proof (po_nodup _ _ Hok') as Hn. rewrite <- (po_owned _ _ Hok') in Hn.
    apply NoDup_app in Hn as (_ & _ & Hn). by apply NoDup_cons in Hn as []. }
  split; [done|]. split.
  { unfold guard_get, mbind, ST_bind, read_slot. simpl. rewrite Hx. by rewrite Eh. }
  split; [|done]. apply (ok_handles _ _ (po_objects _ _ Hok')). right. by exists s, x.
Qed.

(** ** Concrete runs *)

Abbreviation toy_new := (@new_db (@toy_mysql plain_text) (toy_client empty_database true)).
Abbreviation toy_pool := ((@init (@toy_mysql plain_text) default_pool_config toy_new).2).
Abbreviation toy_lent := ((@acquire (@toy_mysql plain_text) toy_pool).2).

Lemma toy_new_ok : @pool_ok (@toy_mysql plain_text) toy_view [] toy_new.
Proof. apply (@new_db_ok (@toy_mysql plain_text) toy_view toy_protocol). reflexivity. Qed.

Lemma toy_pool_reachable :
  @pool_reachable (@toy_mysql plain_text) toy_view (toy_client empty_database true) [] toy_pool.
Proof. exact (init_reachable _ _). Qed.

Lemma toy_lent_reachable :
  @pool_reachable (@toy_mysql plain_text) toy_view (toy_client empty_database true)
    [after_acquire (@acquire (@toy_mysql plain_text) toy_pool).1] toy_lent.
Proof. exact (acquire_reachable _ _ toy_pool_reachable). Qed.

(** One connection is lent, three are left. *)
Lemma connections_have_one_owner_witness :
  after_acquire (@acquire (@toy_mysql plain_text) toy_pool).1 = Holding 0 /\
  available_ (pool toy_lent) = [1; 2; 3]%N /\
  NoDup (available_ (pool toy_lent) ++
    lent_to [after_acquire (@acquire (@toy_mysql plain_text) toy_pool).1]) /\
  use_after_free toy_lent = false.
Proof.
  split; [vm_compute; reflexivity|]. split; [vm_compute; reflexivity|].
  pose proof (@connections_have_one_owner (@toy_mysql plain_text) toy_view toy_protocol
    (toy_client empty_database true) _ _ eq_refl toy_lent_reachable) as W.
  exact (conj (proj1 W) (proj1 (proj2 W))).
Defined.

Lemma holders_bounded_witness :
  (length (lent_to [after_acquire (@acquire (@toy_mysql plain_text) toy_pool).1]) <=
   length (connections_ (pool toy_lent)))%nat.
Proof.
  exact (@holders_bounded (@toy_mysql plain_text) toy_view toy_protocol
    (toy_client empty_database true) _ _ eq_refl toy_lent_reachable).
Defined.

Lemma init_all_or_nothing_witness :
  wp (@init (@toy_mysql plain_text) default_pool_config) (fun ok db' =>
    @ready (@toy_mysql plain_text) db' = ok) toy_new.
Proof.
  eapply wp_mono; [apply (@init_all_or_nothing (@toy_mysql plain_text) toy_view toy_protocol
    default_pool_config toy_new)|].
  - exact toy_new_ok.
  - reflexivity.
  - intros ok db' (_ & Hr & _). exact Hr.
Defined.

Lemma toy_pool_ok : @pool_ok (@toy_mysql plain_text) toy_view [] toy_pool.
Proof.
  exact (@pool_reachable_ok (@toy_mysql plain_text) toy_view toy_protocol
    (toy_client empty_database true) [] [] _ eq_refl toy_pool_reachable eq_refl).
Qed.

Lemma shutdown_releases_all_witness :
  wp (@shutdown (@toy_mysql plain_text)) (fun _ db' =>
    @handles _ (@toy_view plain_text) (client db') = ∅ /\ slots db' = ∅) toy_pool.
Proof.
  eapply wp_mono; [exact (@shutdown_releases_all (@toy_mysql plain_text) toy_view toy_protocol
    toy_pool toy_pool_ok)|].
  intros _ db' (_ & Hh & Hs & _). exact (conj Hh Hs).
Defined.

Lemma toy_lent_ok : @pool_ok (@toy_mysql plain_text) toy_view [0%N] toy_lent.
Proof.
  apply (@pool_reachable_ok (@toy_mysql plain_text) toy_view toy_protocol
    (toy_client empty_database true) _ _ _ eq_refl toy_lent_reachable). vm_compute. reflexivity.
Qed.

Lemma shutdown_frees_lent_connections_witness :
  use_after_free toy_lent = false /\
  use_after_free (@guard_reset (@toy_mysql plain_text) (mkGuard true (Some 0%N))
    (@shutdown (@toy_mysql plain_text) toy_lent).2).2 = true.
Proof.
  exact (@shutdown_frees_lent_connections (@toy_mysql plain_text) toy_view toy_protocol
    0%N [] toy_lent toy_lent_ok).
Defined.

Lemma toy_pool_live : @all_live (@toy_mysql plain_text) toy_pool.
Proof.
  pose proof (@init_spec (@toy_mysql plain_text) toy_view toy_protocol default_pool_config []
    toy_new toy_new_ok) as W.
  unfold wp, init_post in W. destruct W as (Hok & Er & _ & _ & Hr).
  assert (Hready : (@init (@toy_mysql plain_text) default_pool_config toy_new).1 = true)
    by (vm_compute; reflexivity).
  rewrite Hready in Hr. destruct Hr as (_ & _ & _ & Hlive).
  intros s Hs. apply Hlive. by apply (po_slots _ _ Hok).
Qed.

Lemma acquire_serves_witness :
  wp (@acquire (@toy_mysql plain_text)) (fun g db' => exists s h, g = mkGuard true (Some s) /\
    guard_get g db' = (Some h, db')) toy_pool.
Proof.
  eapply wp_mono.
  - apply (@acquire_serves (@toy_mysql plain_text) toy_view toy_protocol plain_text toy_tables_view
      toy_tables_spec [] toy_pool toy_pool_ok toy_pool_live); vm_compute; [reflexivity..|lia].
  - intros g db' (s & h & Eg & _ & _ & Hg & _). exact (ex_intro _ s (ex_intro _ h (conj Eg Hg))).
Defined.

Lemma toy_pool_serves : @serviceable (@toy_mysql plain_text) (@toy_view plain_text) toy_pool.
Proof.
  split; [exact toy_pool_ok|exact toy_pool_live|vm_compute; reflexivity..|].
  intros E. assert (El : length (connections_ (pool toy_pool)) = 4%nat) by (vm_compute; reflexivity).
  rewrite E in El. discriminate El.
Qed.
