(* ===== verification/DbSpec.v ===== *)
(** * DbSpec: what the queries of the stores compute

    One lemma per query function of [UserStoreDb.v], [GroupStoreDb.v] and
    [MessageStoreDb.v]: run on a live connection of a client that works, it
    answers from the tables as [SqlTables.v] says and changes them so, and the
    fixed-size buffers hold what they fetch. *)

From S2P Require Import Prelude.
From S2P Require Import SqlTables.
From S2P Require Import MySqlClient.
From S2P Require Import MySqlTables.
From S2P Require Import MySqlConnectionPool.
From S2P Require Import PoolSpec.
From S2P Require Import UserStore.
From S2P Require Import UserStoreDb.
From S2P Require Import GroupStore.
From S2P Require Import GroupStoreDb.
From S2P Require Import Message.
From S2P Require Import MessageStore.
From S2P Require Import MessageStoreDb.
Open Scope N_scope.

(** ** Rows the buffers can hold *)

Definition user_row_ok (r : UserRow) : Prop :=
  row_user_id r < u64_modulus /\ (length (row_username r) <= 64)%nat /\
  (length (row_password_hash r) <= 255)%nat.

Definition group_row_ok (r : GroupRow) : Prop :=
  row_group_id r < u64_modulus /\ row_owner_id r < u64_modulus /\
  (length (row_group_created_at r) <= 32)%nat.

Definition member_row_ok (r : MemberRow) : Prop :=
  row_member_group r < u64_modulus /\ row_member_user r < u64_modulus.

Definition message_row_ok (r : MessageRow) : Prop :=
  row_id r < u64_modulus /\ row_sender_id r < u64_modulus /\ row_receiver_id r < u64_modulus /\
  (length (row_created_at r) <= 32)%nat /\ (length (row_type r) <= 32)%nat.

Record rows_ok (db : Database) : Prop := {
  user_rows_ok : Forall user_row_ok (users db);
  group_rows_ok : Forall group_row_ok (groups db);
  member_rows_ok : Forall member_row_ok (group_members db);
  message_rows_ok : Forall message_row_ok (message_rows db);
}.

Lemma Forall_filter_bool {A} (P : A -> Prop) (f : A -> bool) (l : list A) :
  Forall P l -> Forall P (List.filter f l).
Proof.
  induction 1 as [|x l Hx Hl IH]; [constructor|]. simpl. destruct (f x); [by constructor|done].
Qed.

(** Steps through a query function: each consumes one call. *)
Ltac sql_tidy := cbv beta iota; change (fails 0) with false; cbv beta iota.
Ltac sql_begin text q :=
  eapply work_stmt_init; [done|done|];
  let s := fresh "s" in let c := fresh "c" in let W := fresh "W" in
  intros s c W; cbv beta iota; change text with (sql_text q);
  eapply work_prepare; [exact W|]; clear c W; intros c W; sql_tidy.
Ltac sql_execute :=
  first [eapply work_bind_execute; [eassumption|reflexivity|reflexivity|]];
  let c := fresh "c" in let now := fresh "now" in let a := fresh "a" in let W := fresh "W" in
  let Hnow := fresh "Hnow" in let Hrem := fresh "Hrem" in
  intros c now Hnow a Hrem W; unfold a in *; clear a;
  cbn [run run_users run_groups run_members run_messages run_logs st_params with_params] in *.
Ltac sql_buffers :=
  cbn [is_error executed answer_database] in *; cbv iota;
  eapply work_bind_result; [eassumption|];
  let c := fresh "c" in let W := fresh "W" in intros c W; sql_tidy.
Ltac sql_close := eapply work_closing; [eassumption|intros; split_and!; try done].
Ltac sql_execute_alone :=
  eapply work_execute; [eassumption|reflexivity|reflexivity|];
  let r := fresh "status" in let c := fresh "c" in let now := fresh "now" in let a := fresh "a" in
  let W := fresh "W" in let Hnow := fresh "Hnow" in let Hrem := fresh "Hrem" in
  let Hf := fresh "Hf" in
  intros r c now Hnow a Hf Hrem W; unfold a in *; clear a; rewrite Hf; clear Hf;
  cbn [run run_users run_groups run_members run_messages run_logs st_params with_params] in *.

Section specs.
Context `{OpenSSL} `{Hview : MySqlView, Hprot : !MySqlProtocol, Htext : SqlText,
          Htab : !MySqlTables, Hspec : !MySqlTablesSpec}.

(** A connection of a working client. *)
Record ready_for (h : MYSQL) (c : Client) : Prop := {
  ready_healthy : healthy c;
  ready_handle : h ∈ handles c;
}.

(** The outcome of a query: the answer, and the tables afterwards. *)
Definition answers {A} (h : MYSQL) (m : ST Client A) (c : Client) (r : A) (db : Database) : Prop :=
  wp m (fun r' c' => r' = r /\ ready_for h c' /\ tables c' = db) c.

Lemma answers_bind {A B} h (m : ST Client A) (k : A -> ST Client B) Q c r db :
  answers h m c r db ->
  (forall c', ready_for h c' -> tables c' = db -> wp (k r) Q c') -> wp (m ≫= k) Q c.
Proof.
  intros Hm Hk. apply wp_bind. eapply wp_mono; [apply Hm|]. intros r' c' (-> & Hr & Et). by apply Hk.
Qed.

(** ** Variables after a fetch *)
Lemma fetched_integer row bufs cells i n :
  cells_hold bufs row cells -> bufs !! i = Some INTEGER -> row !! i = Some (Number n) ->
  n < u64_modulus -> cell_integer (column cells i) = n.
Proof. intros Hc Hb Hr Hn. rewrite (Hc _ _ _ Hb Hr). by apply N.mod_small. Qed.

Lemma fetched_text row bufs cells i size t :
  cells_hold bufs row cells -> bufs !! i = Some (CHARS size) -> row !! i = Some (Text t) ->
  (length t <= size)%nat -> fetched_string (column cells i) = t.
Proof.
  intros Hc Hb Hr Ht. destruct (Hc _ _ _ Hb Hr) as (El & _ & Es & Et).
  unfold fetched_string. rewrite El, Es. replace (N.of_nat (length t) <=? N.of_nat size) with true by lia.
  rewrite Nat2N.id, Et. by apply take_ge.
Qed.

Definition record_of (r : UserRow) : UserRecord :=
  mkUserRecord (row_user_id r) (row_username r) (row_password_hash r).

(** The row the statement holds next goes into [user_buffers]. *)
Lemma user_row_fetched r cells :
  user_row_ok r -> cells_hold user_buffers (user_row r) cells -> user_of_row cells = record_of r.
Proof.
  intros (Hi & Hn & Hp) Hc. unfold user_of_row, record_of. f_equal.
  - by eapply (fetched_integer _ _ _ 0).
  - eapply (fetched_text _ _ _ 1); [done|done|done|lia].
  - eapply (fetched_text _ _ _ 2); [done|done|done|lia].
Qed.

(** Both queries for an account end alike. *)
Lemma user_result h s st db rows c :
  at_work h s st db c -> st_buffers st = user_buffers -> st_rows st = map user_row rows ->
  Forall user_row_ok rows ->
  wp (fetched ← mysql_stmt_fetch s;
      let '(status, row) := fetched in
      if (status =? MYSQL_NO_DATA)%Z then closing s None
      else if fetch_fails status then closing s None
      else closing s (Some (user_of_row row)))
    (fun r c' => r = record_of <$> head rows /\ ready_for h c' /\ tables c' = db) c.
Proof.
  intros W Eb Er Hok. destruct rows as [|r rows]; cbn [map] in Er.
  - eapply work_fetch_end; [done|done|]. intros cells c' W'. simpl. sql_close.
  - inversion Hok. eapply work_fetch_next; [done|done|rewrite Eb; by repeat constructor|].
    rewrite Eb. intros cells c' Hc W'. destruct (fetch_status_row user_buffers (user_row r)) as [-> ->].
    cbv iota. rewrite (user_row_fetched r) by done. sql_close.
Qed.

Lemma fetch_user_by_username_spec h u c :
  ready_for h c -> rows_ok (tables c) ->
  answers h (fetch_user_by_username h u) c
    (record_of <$> head (List.filter (fun r => sql_equal (row_username r) u) (users (tables c))))
    (tables c).
Proof.
  intros [Hh Hin] Hok. unfold answers, fetch_user_by_username.
  sql_begin select_user_by_username SelectUserByUsername. sql_execute. sql_buffers.
  eapply user_result; [done|done|done|]. by apply Forall_filter_bool, user_rows_ok.
Qed.

Lemma fetch_user_by_id_spec h i c :
  ready_for h c -> rows_ok (tables c) ->
  answers h (fetch_user_by_id h i) c
    (record_of <$> head (List.filter (fun r => row_user_id r =? i) (users (tables c)))) (tables c).
Proof.
  intros [Hh Hin] Hok. unfold answers, fetch_user_by_id.
  sql_begin select_user_by_id SelectUserById. sql_execute. sql_buffers.
  eapply user_result; [done|done|done|]. by apply Forall_filter_bool, user_rows_ok.
Qed.

Lemma fetch_user_uses_tables u db :
  head (List.filter (fun r => sql_equal (row_username r) u) (users db)) = None <->
  existsb (fun r => sql_equal (row_username r) u) (users db) = false.
Proof.
  induction (users db) as [|r rs IH]; [done|]. simpl. by destruct (sql_equal (row_username r) u).
Qed.

(** What [register_user] does once it has a connection. *)
Definition register_outcome (u p : bytes) (e : Entropy) (db : Database)
    (r : RegisterResult) (e' : Entropy) (db' : Database) : Prop :=
  match head (List.filter (fun r => sql_equal (row_username r) u) (users db)) with
  | Some _ => r = username_exists /\ e' = e /\ db' = db
  | None =>
      e' = (hash_password_pbkdf2 p e).2 /\
      let hash := (hash_password_pbkdf2 p e).1 in
      if bool_decide (hash = []) then
        r = mkRegisterResult false 0 "failed to hash password" /\ db' = db
      else
        match run_users InsertUser [STRING u; STRING hash] db with
        | Changed _ id db1 => r = mkRegisterResult true id [] /\ db' = db1
        | _ => (r = username_exists \/ r = database_error) /\ db' = db
        end
  end.

(** A failed insertion: the statement is freed and the error looked up. *)
Lemma register_error h s st db (e : Entropy) c :
  at_work h s st db c ->
  wp (mysql_stmt_close s;;
      errno ← mysql_errno h;
      mret (if errno =? ER_DUP_ENTRY then username_exists else database_error, e))
    (fun r c' => ready_for h c' /\ r.2 = e /\ (r.1 = username_exists \/ r.1 = database_error) /\
                 tables c' = db) c.
Proof.
  intros W. eapply work_close; [done|]. intros c1 Hh1 Hin1 Et1. apply wp_bind.
  eapply wp_mono; [by apply errno_law|]. intros n c2 [[Eh _ _] [Et Hh2]]. apply wp_ret.
  split; [split; [by apply Hh2|by rewrite Eh]|]. split; [done|].
  split; [case_if; [by left|by right]|by rewrite Et].
Qed.

Lemma register_on_connection_spec u p e h c :
  ready_for h c -> rows_ok (tables c) ->
  wp (register_on_connection u p e h) (fun r c' =>
    ready_for h c' /\ register_outcome u p e (tables c) r.1 r.2 (tables c')) c.
Proof.
  intros Hr Hok. unfold register_on_connection, register_outcome.
  eapply answers_bind; [by apply fetch_user_by_username_spec|]. intros c1 [Hh1 Hin1] Et1.
  destruct (head _) as [r|]; cbn [fmap option_fmap option_map].
  { apply wp_ret. by split_and!. }
  destruct (hash_password_pbkdf2 p e) as [hash e1]. cbn [fst snd].
  destruct (bool_decide (hash = [])); [by apply wp_ret|].
  rewrite <- Et1. sql_begin insert_user InsertUser. sql_execute.
  destruct (negb _); [|destruct (existsb _ _)]; cbn [is_error executed answer_database remembers] in *;
    cbv iota.
  1,2: eapply wp_mono; [by eapply register_error|]; intros r c4 (Hr4 & -> & He & Et4); by split_and!.
  eapply work_insert_id; [done|]. intros c3 W3. rewrite Hrem. by sql_close.
Qed.

(** ** Groups and members *)
Lemma create_group_on_spec name owner h c :
  ready_for h c ->
  wp (create_group_on name owner h) (fun r c' => ready_for h c' /\
    match run_groups [] InsertGroup [STRING name; LONGLONG owner] (tables c) with
    | Changed _ id _ => r = mkCreateGroupResult true (mkGroupRecord id name owner []) [] /\
        exists now, length now = 19%nat /\
          tables c' = set_groups (groups (tables c) ++ [mkGroupRow id name owner now]) (id + 1) (tables c)
    | _ => r = create_group_error /\ tables c' = tables c
    end) c.
Proof.
  intros [Hh Hin]. unfold create_group_on. sql_begin insert_group InsertGroup. sql_execute.
  destruct (negb (fits_varchar 128 name)); [|destruct (negb (user_exists owner (tables c)))];
    cbn [is_error executed answer_database remembers] in *; cbv iota; [by sql_close|by sql_close|].
  eapply work_insert_id; [done|]. intros c3 W3. rewrite Hrem. sql_close. by exists now.
Qed.

Definition group_of (r : GroupRow) : GroupRecord :=
  mkGroupRecord (row_group_id r) (row_group_name r) (row_owner_id r) (row_group_created_at r).

(** A name that does not fit [name] truncates the row, and the group is not
    found. *)
Lemma find_group_on_spec g h c :
  ready_for h c -> rows_ok (tables c) ->
  answers h (find_group_on g h) c
    (match head (List.filter (fun r => row_group_id r =? g) (groups (tables c))) with
     | Some r => if (length (row_group_name r) <=? 129)%nat then Some (group_of r) else None
     | None => None
     end) (tables c).
Proof.
  intros [Hh Hin] Hok. unfold answers, find_group_on.
  sql_begin select_group SelectGroup. sql_execute. sql_buffers.
  pose proof (Forall_filter_bool group_row_ok (fun r => row_group_id r =? g) _ (group_rows_ok _ Hok)) as Hf.
  destruct (List.filter _ _) as [|r rs]; cbn [head take map] in *.
  - eapply work_fetch_end; [done|done|]. intros cells c4 W4. simpl. by sql_close.
  - inversion Hf as [|? ? (Hi & Ho & Hc) _]; subst.
    eapply work_fetch_next; [done|done|by repeat constructor|]. intros cells c4 Hcells W4.
    unfold fetch_status. cbn [zip_with zip existsb truncated group_buffers st_buffers with_buffers].
    replace (32 <? length (row_group_created_at r))%nat with false by lia.
    rewrite Nat.ltb_antisym. destruct (length (row_group_name r) <=? 129)%nat eqn:El; simpl; sql_close.
    unfold group_of_row, group_of. f_equal. f_equal.
    + by eapply (fetched_integer _ _ _ 0).
    + eapply (fetched_text _ _ _ 1); [done|done|done|lia].
    + by eapply (fetched_integer _ _ _ 2).
    + by eapply (fetched_text _ _ _ 3).
Qed.

(** [bind_uint64_params] *)
Lemma work_bind_uint64 {A} h s st db a b (k : bool -> ST Client A) Q c :
  at_work h s st db c ->
  (forall c', at_work h s (with_params [LONGLONG a; LONGLONG b] st) db c' -> wp (k true) Q c') ->
  wp (bind_uint64_params s a b ≫= k) Q c.
Proof.
  intros Hw Hk. unfold bind_uint64_params. apply wp_bind_assoc. eapply work_bind_param; [done|].
  intros c' Hw'. apply wp_bind, wp_ret. by apply Hk.
Qed.

Ltac sql_bind_uint64 :=
  eapply work_bind_uint64; [eassumption|];
  let c := fresh "c" in let W := fresh "W" in intros c W; cbn [negb]; cbv iota.
Lemma join_group_on_spec g u h c :
  ready_for h c ->
  let dup := bool_decide (mkMemberRow g u ∈ group_members (tables c)) || negb (user_exists u (tables c)) in
  answers h (join_group_on g u h) c (mkGroupMemberResult true dup [])
    (if dup then tables c
     else set_members (group_members (tables c) ++ [mkMemberRow g u]) (tables c)).
Proof.
  intros [Hh Hin] dup. unfold answers, join_group_on, dup.
  sql_begin insert_member InsertMember. sql_bind_uint64. sql_execute_alone.
  case_if; cbn [is_error executed answer_database] in *; cbv iota;
    (eapply work_affected; [done|]; intros; sql_close).
Qed.

Lemma leave_group_on_spec g u h c :
  ready_for h c ->
  let gone := List.filter (fun r => bool_decide (r = mkMemberRow g u)) (group_members (tables c)) in
  answers h (leave_group_on g u h) c
    (if (length gone =? 0)%nat then mkGroupMemberResult false false "not a member of this group"
     else mkGroupMemberResult true false [])
    (set_members (List.filter (fun r => negb (bool_decide (r = mkMemberRow g u)))
                    (group_members (tables c))) (tables c)).
Proof.
  intros [Hh Hin] gone. unfold answers, leave_group_on.
  sql_begin delete_member DeleteMember. sql_bind_uint64. sql_execute_alone.
  cbn [is_error executed answer_database] in *; cbv iota.
  eapply work_affected; [done|]. intros c4 W4. cbn [st_affected executed]. fold gone.
  replace (N.of_nat (length gone) =? 0) with (length gone =? 0)%nat by lia. sql_close.
Qed.

Lemma is_group_member_on_spec g u h c :
  ready_for h c ->
  answers h (is_group_member_on g u h) c
    (bool_decide (mkMemberRow g u ∈ group_members (tables c))) (tables c).
Proof.
  intros [Hh Hin]. unfold answers, is_group_member_on.
  sql_begin select_member SelectMember. sql_bind_uint64. sql_execute_alone. sql_buffers.
  destruct (List.filter _ _) as [|row rows] eqn:Ef; cbn [take map] in *.
  - eapply work_fetch_end; [done|done|]. intros cells c5 W5. simpl. sql_close.
    rewrite bool_decide_eq_false_2; [done|]. intros Hm.
    assert (Hm' : mkMemberRow g u ∈ @nil MemberRow); [|set_solver].
    rewrite <- Ef. apply elem_of_filter_In. by rewrite bool_decide_eq_true_2.
  - eapply work_fetch_next; [done|done|by repeat constructor|]. intros cells c5 Hc W5. simpl. sql_close.
    rewrite bool_decide_eq_true_2; [done|].
    assert (Hm : row ∈ row :: rows) by set_solver. rewrite <- Ef in Hm.
    apply elem_of_filter_In in Hm as [Hm ->%bool_decide_eq_true]. done.
Qed.

(** The loops that collect ids. *)
Lemma collect_ids h s st db ids c (Q : list N -> Client -> Prop) :
  at_work h s st db c -> st_buffers st = [INTEGER] -> st_rows st = map (fun i => [Number i]) ids ->
  Forall (fun i => i < u64_modulus) ids ->
  (forall c', ready_for h c' -> tables c' = db -> Q ids c') ->
  wp (rows ← fetch_all s id_of_row; closing s rows) Q c.
Proof.
  intros W Eb Er Hok HQ.
  eapply (work_fetch_all _ _ _ _ (fun v => match v with [Number i] => Some i | _ => None end)); [done|..].
  - rewrite Eb, Er. apply Forall_map, Forall_true. intros i. by repeat constructor.
  - rewrite Eb, Er. intros row rest cells st' c' Hrow Hc W'.
    apply list_elem_of_fmap in Hrow as (i & -> & Hi). rewrite Forall_forall in Hok.
    apply wp_ret. split; [|done]. f_equal. eapply (fetched_integer _ _ _ 0); [done|done|done|by apply Hok].
  - intros st' c' W'. eapply work_closing; [done|]. intros c3 Hh Hin Et.
    replace (omap _ (st_rows st)) with ids; [by apply HQ|]. rewrite Er. clear.
    induction ids as [|i ids IH]; [done|]. simpl. by f_equal.
Qed.

Lemma load_group_members_on_spec g h c :
  ready_for h c -> rows_ok (tables c) ->
  answers h (load_group_members_on g h) c
    (merge_sort N.le (map row_member_user
       (List.filter (fun r => row_member_group r =? g) (group_members (tables c))))) (tables c).
Proof.
  intros [Hh Hin] Hok. unfold answers, load_group_members_on.
  sql_begin select_group_members SelectGroupMembers. sql_execute. sql_buffers.
  eapply collect_ids; [done|done|done| |done].
  rewrite merge_sort_Permutation. apply Forall_map, Forall_filter_bool.
  eapply Forall_impl; [apply (member_rows_ok _ Hok)|]. by intros r [].
Qed.

Lemma load_user_groups_on_spec u h c :
  ready_for h c -> rows_ok (tables c) ->
  answers h (load_user_groups_on u h) c
    (merge_sort N.le (map row_member_group
       (List.filter (fun r => row_member_user r =? u) (group_members (tables c))))) (tables c).
Proof.
  intros [Hh Hin] Hok. unfold answers, load_user_groups_on.
  sql_begin select_user_groups SelectUserGroups. sql_execute. sql_buffers.
  eapply collect_ids; [done|done|done| |done].
  rewrite merge_sort_Permutation. apply Forall_map, Forall_filter_bool.
  eapply Forall_impl; [apply (member_rows_ok _ Hok)|]. by intros r [].
Qed.

(** ** Messages *)

(** The loops that collect messages: every row becomes one element, which [g]
    reads off the row. *)
Lemma collect_rows {A} h s st db (on_row : list Cell -> ST Client (option A))
    (row_of : MessageRow -> list Value) (g : list Value -> option A) (f : MessageRow -> A)
    rs c (Q : list A -> Client -> Prop) :
  at_work h s st db c -> st_rows st = map row_of rs ->
  Forall message_row_ok rs -> (forall r, row_fits (st_buffers st) (row_of r)) ->
  (forall r, g (row_of r) = Some (f r)) ->
  (forall r st' cells c', message_row_ok r -> cells_hold (st_buffers st) (row_of r) cells ->
     st_row st' = row_of r -> at_work h s st' db c' ->
     wp (on_row cells) (fun v c'' => v = Some (f r) /\ at_work h s st' db c'') c') ->
  (forall c', ready_for h c' -> tables c' = db -> Q (map f rs) c') ->
  wp (rows ← fetch_all s on_row; closing s rows) Q c.
Proof.
  intros W Er Hok Hfit Hg Hrow HQ. eapply (work_fetch_all _ _ _ _ g); [done|..].
  - rewrite Er. by apply Forall_map, Forall_true.
  - rewrite Er. intros row rest cells st' c' Hin Hc W'.
    apply list_elem_of_fmap in Hin as (r & -> & Hr). rewrite Hg.
    rewrite Forall_forall in Hok. apply Hrow; [by apply Hok|done|done|done].
  - intros st' c' W'. eapply work_closing; [done|]. intros c3 Hh Hin Et.
    replace (omap g (st_rows st)) with (map f rs); [by apply HQ|]. rewrite Er.
    clear - Hg. induction rs as [|r rs IH]; [done|]. simpl. rewrite Hg. by f_equal.
Qed.

Definition message_of_row (type : MessageType) (r : MessageRow) : Message :=
  mkMessage type (row_sender_id r) (row_receiver_id r) (row_body r).

Lemma history_message_spec h s db type r st cells c :
  message_row_ok r -> cells_hold history_buffers (history_row r) cells ->
  st_row st = history_row r -> at_work h s st db c ->
  wp (history_message s type cells) (fun v c' =>
    v = Some (message_of_row type r) /\ at_work h s st db c') c.
Proof.
  intros (_ & Hs & Hr & _) Hc Er W. unfold history_message. apply wp_bind.
  eapply wp_mono; [eapply (work_fetch_body h s st db _ 2 (row_body r)); [done|by rewrite Er|]|].
  { by apply (Hc 2%nat). }
  intros v c' [-> W']. apply wp_ret. split; [|done]. unfold message_of_row. do 2 f_equal.
  - by eapply (fetched_integer _ _ _ 0).
  - by eapply (fetched_integer _ _ _ 1).
Qed.

Lemma execute_history_query_spec h q type ps rs c :
  ready_for h c -> ps <> [] -> Forall message_row_ok rs ->
  (forall now, run now q (map LONGLONG ps) (tables c) = Rows (map history_row rs)) ->
  answers h (execute_history_query h (sql_text q) type ps) c (map (message_of_row type) rs) (tables c).
Proof.
  intros [Hh Hin] Hps Hok Hrun. unfold answers, execute_history_query.
  sql_begin (sql_text q) q. rewrite bool_decide_eq_false_2 by done.
  eapply work_bind_param; [done|]. intros c2 W2. sql_tidy. sql_execute_alone.
  rewrite Hrun in *. sql_buffers.
  eapply (collect_rows _ _ _ _ _ history_row (fun v =>
    match v with [Number a; Number b; Text t] => Some (mkMessage type a b t) | _ => None end));
    [done|done|done|by repeat constructor|done| |done].
  intros r st' cells c' Hr Hc Er W'. by apply history_message_spec.
Qed.

Definition stored_row (type : MessageType) (r : MessageRow) : StoredMessage :=
  mkStoredMessage (row_id r) type (row_sender_id r) (row_receiver_id r) (row_body r)
    (row_created_at r).

Lemma page_message_spec h s db type r st cells c :
  message_row_ok r -> cells_hold page_buffers (page_row r) cells ->
  st_row st = page_row r -> at_work h s st db c ->
  wp (page_message s type cells) (fun v c' =>
    v = Some (stored_row type r) /\ at_work h s st db c') c.
Proof.
  intros (Hi & Hs & Hr & Ht & _) Hc Er W. unfold page_message. apply wp_bind.
  eapply wp_mono; [eapply (work_fetch_body h s st db _ 3 (row_body r)); [done|by rewrite Er|]|].
  { by apply (Hc 3%nat). }
  intros v c' [-> W']. apply wp_ret. split; [|done]. unfold stored_row. do 2 f_equal.
  - by eapply (fetched_integer _ _ _ 0).
  - by eapply (fetched_integer _ _ _ 1).
  - by eapply (fetched_integer _ _ _ 2).
  - by eapply (fetched_text _ _ _ 4).
Qed.

Lemma execute_history_page_query_spec h q type ids limit rs c :
  ready_for h c -> Forall message_row_ok rs ->
  (forall now, run now q (map LONGLONG ids ++ [LONG limit]) (tables c) = Rows (map page_row rs)) ->
  answers h (execute_history_page_query h (sql_text q) type ids limit) c
    (map (stored_row type) rs) (tables c).
Proof.
  intros [Hh Hin] Hok Hrun. unfold answers, execute_history_page_query.
  sql_begin (sql_text q) q.
  eapply work_bind_param; [done|]. intros c2 W2. sql_tidy. sql_execute_alone.
  rewrite Hrun in *. sql_buffers.
  eapply (collect_rows _ _ _ _ _ page_row (fun v =>
    match v with
    | [Number i; Number a; Number b; Text t; Text w] => Some (mkStoredMessage i type a b t w)
    | _ => None
    end)); [done|done|done|by repeat constructor|done| |done].
  intros r st' cells c' Hr Hc Er W'. by apply page_message_spec.
Qed.

(** The type an unread row is given back. *)
Definition type_of_row (r : MessageRow) : MessageType :=
  if bool_decide (row_type r = bs "GroupChat") then GroupChat else DirectChat.

Lemma unread_message_spec h s db r st cells c :
  message_row_ok r -> cells_hold unread_buffers (unread_row r) cells ->
  st_row st = unread_row r -> at_work h s st db c ->
  wp (unread_message s cells) (fun v c' =>
    v = Some (stored_row (type_of_row r) r) /\ at_work h s st db c') c.
Proof.
  intros (Hi & Hs & Hr & Ht & Hy) Hc Er W. unfold unread_message. apply wp_bind.
  eapply wp_mono; [eapply (work_fetch_body h s st db _ 4 (row_body r)); [done|by rewrite Er|]|].
  { by apply (Hc 4%nat). }
  intros v c' [-> W']. apply wp_ret. split; [|done]. unfold stored_row, type_of_row.
  rewrite (fetched_text _ _ _ 1 32 (row_type r) Hc), (fetched_text _ _ _ 5 32 (row_created_at r) Hc)
    by done.
  do 2 f_equal.
  - by eapply (fetched_integer _ _ _ 0).
  - by eapply (fetched_integer _ _ _ 2).
  - by eapply (fetched_integer _ _ _ 3).
Qed.

Lemma execute_unread_query_spec h u gs last limit rs c :
  ready_for h c -> Forall message_row_ok rs ->
  (forall now, run now (SelectUnread (length gs)) (map LONGLONG (unread_params u gs last limit))
                 (tables c) = Rows (map unread_row rs)) ->
  answers h (execute_unread_query h u gs last limit) c
    (map (fun r => stored_row (type_of_row r) r) rs) (tables c).
Proof.
  intros [Hh Hin] Hok Hrun. unfold answers, execute_unread_query.
  sql_begin (select_unread (length gs)) (SelectUnread (length gs)).
  eapply work_bind_param; [done|]. intros c2 W2. sql_tidy. sql_execute_alone.
  specialize (Hrun now). cbn [run run_messages] in Hrun. rewrite Hrun in *. sql_buffers.
  eapply (collect_rows _ _ _ _ _ unread_row (fun v =>
    match v with
    | [Number i; Text y; Number a; Number b; Text t; Text w] =>
        Some (mkStoredMessage i (if bool_decide (y = bs "GroupChat") then GroupChat else DirectChat)
                a b t w)
    | _ => None
    end)); [done|done|done|by repeat constructor|done| |done].
  intros r st' cells c' Hr Hc Er W'. by apply unread_message_spec.
Qed.

(** The row [append] inserts. *)
Definition row_for (id : N) (now : bytes) (m : Message) : MessageRow :=
  mkMessageRow id (conversation_type_for (msg_type m)) (conversation_id_for m) now
    (message_type_to_string (msg_type m)) (msg_sender_id m) (msg_receiver_id m) (msg_body m).

Definition with_id (id : N) (s : StoredMessage) : StoredMessage :=
  mkStoredMessage id (stored_type s) (stored_sender_id s) (stored_receiver_id s) (stored_body s)
    (stored_created_at s).

Lemma insert_on_connection_spec m st h c :
  ready_for h c ->
  wp (insert_on_connection m st h) (fun r c' => ready_for h c' /\
    if fits_varchar 32 (message_type_to_string (msg_type m)) && fits_text (msg_body m) then
      r = with_id (messages_auto (tables c)) st /\
      exists now, length now = 19%nat /\
        tables c' = set_messages (messages_columns (tables c))
          (message_rows (tables c) ++ [row_for (messages_auto (tables c)) now m])
          (messages_auto (tables c) + 1) (tables c)
    else r = st /\ tables c' = tables c) c.
Proof.
  intros [Hh Hin]. unfold insert_on_connection. sql_begin insert_message InsertMessage.
  eapply work_bind_param; [done|]. intros c2 W2. sql_tidy. sql_execute_alone.
  destruct (_ && _); cbn [negb is_error executed answer_database remembers] in *; cbv iota.
  - apply wp_bind_assoc. eapply work_insert_id; [done|]. intros c4 W4. rewrite Hrem.
    apply wp_bind, wp_ret. sql_close. by exists now.
  - apply wp_bind, wp_ret. by sql_close.
Qed.

(** ** The schema of [messages] *)
Lemma table_column_exists_spec h col c :
  ready_for h c ->
  (N.of_nat (length (messages_columns (tables c))) < u64_modulus) ->
  answers h (table_column_exists h "messages" col) c
    (bool_decide (col ∈ messages_columns (tables c))) (tables c).
Proof.
  intros [Hh Hin] Hlen. unfold answers, table_column_exists.
  sql_begin count_columns CountColumns. sql_execute. sql_buffers.
  rewrite bool_decide_eq_true_2 in * by done.
  set (l := List.filter (fun k : list ascii => bool_decide (k = col)) (messages_columns (tables c))) in *.
  assert (Hl : (length l <= length (messages_columns (tables c)))%nat) by apply filter_length_le.
  eapply work_fetch_next; [done|done|by repeat constructor|]. intros cells c4 Hc W4. simpl.
  rewrite (fetched_integer _ _ _ 0 (N.of_nat (length l)) Hc) by (done || lia).
  sql_close. unfold l. clear. induction (messages_columns (tables c)) as [|k ks IH]; [done|]. simpl.
  destruct (decide (k = col)) as [->|Hk].
  - rewrite bool_decide_eq_true_2 by done. rewrite bool_decide_eq_true_2 by set_solver. simpl. lia.
  - rewrite (bool_decide_eq_false_2 (k = col)) by done. rewrite IH. apply bool_decide_ext. set_solver.
Qed.
End specs.
