(* ===== verification/TableRefinement.v ===== *)
(** * TableRefinement: the tables hold what the memory mode holds

    A relation per store between the tables of [SqlTables.v] and the in-memory
    state of [UserStore.v] and [GroupStore.v], and a lemma per statement: on
    related states the SQL answers what the memory mode's method answers, and
    its effect keeps them related.  Creation times are the one thing only the
    tables have; a name must not be another spelling, to the collation, of a
    name in use ([spelled_alone]).
    [MessageRefinement.v] does the same for the messages. *)

From S2P Require Import Prelude.
From S2P Require Import CStd.
From S2P Require Import SqlTables.
From S2P Require Import UserStore.
From S2P Require Import UserStoreDb.
From S2P Require Import GroupStore.
From S2P Require Import GroupStoreDb.
From S2P Require Import MessageStore.
From S2P Require Import DbSpec.
Open Scope N_scope.

(** No account has a name that the collation confuses with [u]. *)
Definition spelled_alone `{OpenSSL} `{SqlText} (u : bytes) (st : UserStore) : Prop :=
  map_Forall (fun v _ => collate v = collate u -> v = u) (us_users_by_username_ st).

(** ** Lemmas: the first row of a selection *)
Lemma filter_app_none {A} (f : A -> bool) (l : list A) (x : A) :
  head (List.filter f (l ++ [x])) =
    match head (List.filter f l) with
    | Some y => Some y
    | None => if f x then Some x else None
    end.
Proof.
  rewrite List.filter_app. destruct (List.filter f l); [|done]. simpl. by destruct (f x).
Qed.

Lemma head_filter_None {A} (f : A -> bool) (l : list A) :
  head (List.filter f l) = None <-> existsb f l = false.
Proof. induction l as [|x l IH]; [done|]. simpl. by destruct (f x). Qed.

Lemma head_filter_Some {A} (f : A -> bool) (l : list A) x :
  head (List.filter f l) = Some x -> x ∈ l /\ f x = true.
Proof.
  intros E. apply elem_of_filter_In. destruct (List.filter f l); [done|]. injection E as ->. set_solver.
Qed.

Lemma head_filter_key {A K} `{EqDecision K} (key : A -> K) (l : list A) (x : A) :
  NoDup (map key l) -> x ∈ l -> head (List.filter (fun y => bool_decide (key y = key x)) l) = Some x.
Proof.
  induction l as [|y l IH]; [set_solver|]. cbn [map]. intros [Hn Hd]%NoDup_cons Hx. simpl.
  case_bool_decide as E.
  - simpl. f_equal. apply elem_of_cons in Hx as [->|Hx]; [done|]. destruct Hn. rewrite E.
    by apply list_elem_of_fmap_2.
  - apply IH; [done|]. apply elem_of_cons in Hx as [->|Hx]; [done|done].
Qed.

(** ** Accounts *)

Section accounts.
Context `{OpenSSL} `{SqlText}.

Record users_refine (db : Database) (st : UserStore) : Prop := {
  ur_ok : users_ok st;
  ur_name u : us_users_by_username_ st !! u =
    record_of <$> head (List.filter (fun r => bool_decide (row_username r = u)) (users db));
  ur_id i : us_usernames_by_id_ st !! i =
    row_username <$> head (List.filter (fun r => row_user_id r =? i) (users db));
  ur_names : NoDup (map row_username (users db));
  ur_next : users_auto db = us_next_memory_id_ st;
}.

Lemma refine_find_by_username db st u :
  users_refine db st -> spelled_alone u st ->
  record_of <$> head (List.filter (fun r => sql_equal (row_username r) u) (users db)) =
    find_user_by_username u st.
Proof.
  intros [_ Hn _ Hd _] Hu. unfold find_user_by_username. rewrite Hn. do 2 f_equal.
  apply List.filter_ext_in. intros r Hr. unfold sql_equal. apply bool_decide_ext.
  split; [|by intros ->]. apply (Hu _ (record_of r)). rewrite Hn, (head_filter_key row_username);
    [done|done|by apply list_elem_of_In].
Qed.

Lemma refine_find_by_id db st i :
  users_refine db st ->
  record_of <$> head (List.filter (fun r => row_user_id r =? i) (users db)) = find_user_by_id i st.
Proof.
  intros [_ Hn Hi Hd _]. unfold find_user_by_id. rewrite Hi.
  destruct (head _) as [r|] eqn:E; [|done]. simpl. rewrite Hn.
  apply head_filter_Some in E as [Hin _]. by rewrite (head_filter_key row_username).
Qed.

Lemma refine_user_exists db st i :
  users_refine db st -> user_exists i db = true <-> is_Some (us_usernames_by_id_ st !! i).
Proof.
  intros [_ _ Hi _ _]. rewrite Hi. unfold user_exists.
  destruct (existsb _ _) eqn:E.
  - destruct (head _) eqn:Eh; [by split|]. apply head_filter_None in Eh. congruence.
  - apply head_filter_None in E. rewrite E. split; [done|by intros []].
Qed.

(** The printed form of a hash is ASCII and short. *)
Lemma to_hex_ascii s : Forall (fun c => code c < 128) (to_hex s).
Proof.
  unfold to_hex. induction s as [|c s IH]; [constructor|]. cbn [map concat].
  assert (Hd : forall n, n < 16 -> code (hex_digit n) < 128).
  { intros n Hn. unfold hex_digit. rewrite N_ascii_embedding; case_if; lia. }
  pose proof (N_ascii_bounded c). apply Forall_app. split; [|done].
  constructor; [|constructor; [|constructor]]; apply Hd.
  - apply N.Div0.div_lt_upper_bound. lia.
  - apply N.mod_lt. lia.
Qed.

Lemma hash_password_text `{!OpenSSLSpec} p h e e' :
  hash_password_pbkdf2 p e = (h, e') -> h <> [] ->
  length h = 118%nat /\ Forall (fun c => code c < 128) h.
Proof.
  intros E Hne. unfold hash_password_pbkdf2 in E.
  destruct (RAND_bytes kSaltBytes e) as [[salt|] e1] eqn:Er; [|by injection E as <- _].
  injection E as <- _. unfold make_hash in *.
  destruct (PKCS5_PBKDF2_HMAC p salt kPbkdf2Iterations kHashBytes) as [key|] eqn:Ek; [|done].
  apply RAND_bytes_length in Er. apply PBKDF2_length in Ek.
  split.
  - rewrite !length_app, !to_hex_length, Er, Ek. reflexivity.
  - rewrite !Forall_app. split_and!; try apply to_hex_ascii;
      apply (bool_decide_unpack _); vm_compute; exact I.
Qed.

Lemma hash_password_fits `{!OpenSSLSpec, !SqlTextSpec} p h e e' :
  hash_password_pbkdf2 p e = (h, e') -> h <> [] -> fits_varchar 255 h = true.
Proof.
  intros E Hne. destruct (hash_password_text p h e e' E Hne) as [Hl Ha].
  unfold fits_varchar. rewrite ascii_well_formed by done. pose proof (characters_le h). simpl. lia.
Qed.

(** A new row for a new name. *)
Lemma users_refine_insert db st u h :
  let st' := mkUserStore
    (<[u := mkUserRecord (us_next_memory_id_ st) u h]> (us_users_by_username_ st))
    (<[us_next_memory_id_ st := u]> (us_usernames_by_id_ st)) (u64_succ (us_next_memory_id_ st)) in
  users_refine db st -> users_room st -> users_ok st' -> us_users_by_username_ st !! u = None ->
  users_refine (set_users (users db ++ [mkUserRow (users_auto db) u h]) (users_auto db + 1) db) st'.
Proof.
  intros st' [Hok Hn Hi Hd Hx] [Hr1 Hr2] Hok' Hu.
  assert (Hfresh : us_usernames_by_id_ st !! us_next_memory_id_ st = None).
  { destruct (us_usernames_by_id_ st !! _) as [n|] eqn:En; [|done].
    apply (users_by_id st Hok) in En as [? _]. lia. }
  split; simpl; [done|..].
  - intros n. rewrite filter_app_none, lookup_insert, Hx. cbn [row_username]. case_decide as Hdn.
    + subst. rewrite Hn in Hu. destruct (head _); [done|]. by rewrite bool_decide_eq_true_2.
    + rewrite Hn. destruct (head _); [done|]. by rewrite bool_decide_eq_false_2.
  - intros i. rewrite filter_app_none, lookup_insert, Hx. cbn [row_user_id]. case_decide as Hdi.
    + subst. rewrite Hi in Hfresh. destruct (head _); [done|]. by rewrite N.eqb_refl.
    + rewrite Hi. destruct (head _); [done|]. by replace (us_next_memory_id_ st =? i) with false by lia.
  - rewrite map_app. apply NoDup_app. split; [done|]. split; [|apply NoDup_singleton].
    intros n Hin ->%list_elem_of_singleton. simpl in Hin. apply list_elem_of_fmap in Hin as (r & -> & Hr).
    rewrite Hn, (head_filter_key row_username) in Hu by done. done.
  - by rewrite Hx, u64_succ_small.
Qed.

Lemma refine_register `{!OpenSSLSpec, !SqlTextSpec} u p e db st r e' st' r2 e2 db2 :
  users_refine db st -> users_room st -> u <> [] -> p <> [] -> (length u <= 64)%nat ->
  well_formed u = true -> spelled_alone u st ->
  register_user u p (st, e) = (r, (st', e')) -> register_outcome u p e db r2 e2 db2 ->
  r2 = r /\ e2 = e' /\ users_refine db2 st' /\
  (db2 = db \/ exists h, (length h <= 255)%nat /\
     db2 = set_users (users db ++ [mkUserRow (users_auto db) u h]) (users_auto db + 1) db).
Proof.
  intros R Hroom Hu Hp Hl Hw Hal E. pose proof (register_user_ok _ _ _ _ _ _ _ (ur_ok _ _ R) Hroom E) as U.
  revert E U. unfold register_user, register_outcome.
  rewrite !bool_decide_eq_false_2 by done. simpl orb. cbv iota.
  replace (64 <? length u)%nat with false by lia.
  pose proof (refine_find_by_username db st u R Hal) as Hf. unfold find_user_by_username in Hf.
  rewrite <- Hf. destruct (head _) as [row|] eqn:Eh; simpl.
  { intros [= <- <- <-] U (-> & -> & ->). split_and!; [done|done|done|by left]. }
  destruct (hash_password_pbkdf2 p e) as [h e1] eqn:Eq. cbn [fst snd].
  destruct (bool_decide (h = [])) eqn:Ebd.
  { intros [= <- <- <-] U (-> & -> & ->). split_and!; [done|done|done|by left]. }
  apply bool_decide_eq_false in Ebd.
  intros [= <- <- <-] U [-> Hrun]. apply head_filter_None in Eh. rewrite Eh in Hrun.
  pose proof (hash_password_fits p h e e1 Eq Ebd) as Hh. rewrite Hh in Hrun.
  assert (Hfu : fits_varchar 64 u = true).
  { unfold fits_varchar. rewrite Hw. pose proof (characters_le u). simpl. lia. }
  rewrite Hfu in Hrun. simpl in Hrun. destruct Hrun as [-> ->]. simpl in Hf.
  split; [by rewrite (ur_next _ _ R)|]. split; [done|]. split; [by apply users_refine_insert|].
  right. exists h. split; [|done].
  apply hash_password_text in Eq as [-> _]; [lia|done].
Qed.
End accounts.

(** ** Groups *)

(** The record the memory mode keeps of a group: it has no creation time. *)
Definition timeless_group (g : GroupRecord) : GroupRecord :=
  mkGroupRecord (group_id g) (group_name g) (group_owner_id g) [].

Record groups_refine (db : Database) (st : GroupStore) : Prop := {
  gr_id i : memory_groups_ st !! i =
    (fun r => timeless_group (group_of r)) <$>
      head (List.filter (fun r => row_group_id r =? i) (groups db));
  gr_next : groups_auto db = next_group_id_ st;
}.

Lemma refine_find_group db st i :
  groups_refine db st ->
  (fun r => timeless_group (group_of r)) <$>
    head (List.filter (fun r => row_group_id r =? i) (groups db)) = find_group i st.
Proof. intros [Hg _]. unfold find_group. by rewrite Hg. Qed.

Lemma refine_create_group db st name owner now r st' :
  groups_refine db st -> groups_ok st -> groups_room st -> name <> [] ->
  create_group name owner st = (r, st') ->
  r = mkCreateGroupResult true (mkGroupRecord (groups_auto db) name owner []) [] /\
  groups_refine
    (set_groups (groups db ++ [mkGroupRow (groups_auto db) name owner now]) (groups_auto db + 1) db) st'.
Proof.
  intros [Hg Hx] Hok [Hr1 Hr2] Hn. unfold create_group. rewrite bool_decide_eq_false_2 by done.
  intros [= <- <-]. split; [by rewrite Hx|]. split; simpl; [|by rewrite Hx, u64_succ_small].
  intros i. rewrite filter_app_none, lookup_insert, Hx. cbn [row_group_id]. case_decide as Hd.
  - subst. assert (E : memory_groups_ st !! next_group_id_ st = None).
    { destruct (memory_groups_ st !! _) eqn:E; [|done]. apply Hok in E as (_ & ? & _). lia. }
    rewrite Hg in E. destruct (head _); [done|]. by rewrite N.eqb_refl.
  - rewrite Hg. destruct (head _); [done|]. by replace (next_group_id_ st =? i) with false by lia.
Qed.

(** ** Members *)

Record members_refine (db : Database) (st : GroupMemberStore) : Prop := {
  mr_member g u : is_group_member g u st = bool_decide (mkMemberRow g u ∈ group_members db);
  mr_nodup : NoDup (group_members db);
}.

Lemma refine_join db st g u :
  members_refine db st -> user_exists u db = true ->
  let dup := bool_decide (mkMemberRow g u ∈ group_members db) || negb (user_exists u db) in
  mkGroupMemberResult true dup [] = (join_group g u st).1 /\
  members_refine (if dup then db else set_members (group_members db ++ [mkMemberRow g u]) db)
    (join_group g u st).2.
Proof.
  intros [Hm Hd] Hu. rewrite Hu, orb_false_r. cbv zeta. split.
  - unfold join_group. simpl. rewrite negb_involutive, <- Hm. unfold is_group_member.
    destruct (memory_members_ st !! g); simpl; [done|]. by rewrite bool_decide_eq_false_2 by set_solver.
  - destruct (decide (mkMemberRow g u ∈ group_members db)) as [Hin|Hin].
    + rewrite bool_decide_eq_true_2 by done. split; [|done]. intros g' u'.
      rewrite is_group_member_join, Hm. case_bool_decide as E; [|done]. destruct E as [-> ->].
      by rewrite bool_decide_eq_true_2.
    + rewrite bool_decide_eq_false_2 by done. split; cbn [group_members set_members].
      * intros g' u'. rewrite is_group_member_join, Hm. apply eq_true_iff_eq.
        rewrite orb_true_iff, !bool_decide_eq_true, elem_of_app, list_elem_of_singleton.
        split; [intros [[-> ->]|?]; auto|intros [?|[= -> ->]]; auto].
      * apply NoDup_app. split; [done|]. split; [set_solver|apply NoDup_singleton].
Qed.

Lemma refine_leave db st g u r st' :
  members_refine db st -> leave_group g u st = (r, st') ->
  let gone := List.filter (fun r => bool_decide (r = mkMemberRow g u)) (group_members db) in
  (if (length gone =? 0)%nat then mkGroupMemberResult false false "not a member of this group"
   else mkGroupMemberResult true false []) = r /\
  members_refine (set_members (List.filter (fun r => negb (bool_decide (r = mkMemberRow g u)))
                                 (group_members db)) db) st'.
Proof.
  intros [Hm Hd] E gone. split.
  - assert (Hg : (length gone =? 0)%nat = negb (is_group_member g u st)).
    { rewrite Hm. unfold gone. clear. induction (group_members db) as [|x l IH]; [done|]. simpl.
      destruct (decide (x = mkMemberRow g u)) as [->|Ex].
      - rewrite !bool_decide_eq_true_2 by set_solver. done.
      - rewrite (bool_decide_eq_false_2 (x = _)) by done. rewrite IH. f_equal.
        apply bool_decide_ext. set_solver. }
    rewrite Hg. revert E. unfold leave_group, is_group_member.
    destruct (memory_members_ st !! g) as [ms|]; simpl; [|by intros [= <- _]].
    case_bool_decide; simpl; by intros [= <- _].
  - assert (Es : st' = (leave_group g u st).2) by (by rewrite E). subst st'. split; cbn [group_members set_members].
    + intros g' u'. rewrite is_group_member_leave, Hm. apply eq_true_iff_eq.
      rewrite andb_true_iff, negb_true_iff, bool_decide_eq_false, !bool_decide_eq_true.
      rewrite elem_of_filter_In, negb_true_iff, bool_decide_eq_false.
      naive_solver.
    + clear - Hd. induction Hd as [|x l Hx Hl IH]; [constructor|]. simpl.
      destruct (negb _); [|done]. constructor; [|done]. rewrite elem_of_filter_In. by intros [? _].
Qed.

(** Two duplicate-free sorted lists with the same elements are equal. *)
Lemma sorted_eq (l k : list N) :
  NoDup l -> NoDup k -> (forall x, x ∈ l <-> x ∈ k) -> StronglySorted N.le k -> merge_sort N.le l = k.
Proof.
  intros Hl Hk E Hs. apply (StronglySorted_unique N.le); [apply (StronglySorted_merge_sort N.le)|done|].
  rewrite merge_sort_Permutation. by apply NoDup_Permutation.
Qed.

Lemma NoDup_filter_bool {A} (f : A -> bool) (l : list A) : NoDup l -> NoDup (List.filter f l).
Proof.
  induction 1 as [|x l Hx Hl IH]; [constructor|]. simpl. destruct (f x); [|done].
  constructor; [|done]. rewrite elem_of_filter_In. by intros [? _].
Qed.

Lemma refine_load_members db st g :
  members_refine db st ->
  merge_sort N.le (map row_member_user
    (List.filter (fun r => row_member_group r =? g) (group_members db))) = load_group_members g st.
Proof.
  intros [Hm Hd]. apply sorted_eq.
  - apply NoDup_fmap_2_strong; [|by apply NoDup_filter_bool].
    intros [g1 u1] [g2 u2] [_ H1]%elem_of_filter_In [_ H2]%elem_of_filter_In. simpl in *.
    intros ->. f_equal. lia.
  - apply load_group_members_NoDup.
  - intros u. rewrite elem_of_load_group_members, Hm, bool_decide_eq_true, list_elem_of_fmap. split.
    + intros ([g' u'] & -> & [Hin Hg]%elem_of_filter_In). simpl in *.
      by replace g with g' by lia.
    + intros Hin. exists (mkMemberRow g u). split; [done|]. apply elem_of_filter_In. simpl.
      split; [done|lia].
  - apply load_group_members_sorted.
Qed.

Lemma load_user_groups_sorted u st : StronglySorted N.le (load_user_groups u st).
Proof. apply (StronglySorted_merge_sort N.le). Qed.

Lemma load_user_groups_NoDup u st : NoDup (load_user_groups u st).
Proof.
  unfold load_user_groups. rewrite merge_sort_Permutation.
  pose proof (NoDup_fst_map_to_list (memory_members_ st)) as Hn.
  induction (map_to_list (memory_members_ st)) as [|[g ms] l IH]; [constructor|].
  cbn [fmap list_fmap fst] in Hn. apply NoDup_cons in Hn as [Hg Hn]. simpl.
  case_bool_decide; [|by apply IH]. simpl. constructor; [|by apply IH].
  intros ([g' ms'] & Hin & E)%list_elem_of_omap. simpl in E. case_bool_decide; [|done].
  injection E as ->. apply Hg. apply list_elem_of_fmap. by exists (g, ms').
Qed.

Lemma refine_load_groups db st u :
  members_refine db st ->
  merge_sort N.le (map row_member_group
    (List.filter (fun r => row_member_user r =? u) (group_members db))) = load_user_groups u st.
Proof.
  intros [Hm Hd]. apply sorted_eq.
  - apply NoDup_fmap_2_strong; [|by apply NoDup_filter_bool].
    intros [g1 u1] [g2 u2] [_ H1]%elem_of_filter_In [_ H2]%elem_of_filter_In. simpl in *.
    intros ->. f_equal. lia.
  - apply load_user_groups_NoDup.
  - intros g. rewrite elem_of_load_user_groups, Hm, bool_decide_eq_true, list_elem_of_fmap. split.
    + intros ([g' u'] & -> & [Hin Hu]%elem_of_filter_In). simpl in *.
      by replace u with u' by lia.
    + intros Hin. exists (mkMemberRow g u). split; [done|]. apply elem_of_filter_In. simpl.
      split; [done|lia].
  - apply load_user_groups_sorted.
Qed.
