(* ===== verification/MessageRefinement.v ===== *)
(** * MessageRefinement: the [messages] table holds the log of the memory mode

    The rows of the table are the messages of the log, numbered by
    [AUTO_INCREMENT] as the memory mode numbers them, and each query selects
    what the memory mode's loop selects; only the rows have a creation time. *)

From S2P Require Import Prelude.
From S2P Require Import SqlTables.
From S2P Require Import Message.
From S2P Require Import MessageStore.
From S2P Require Import MessageStoreDb.
From S2P Require Import DbSpec.
From S2P Require Import TableRefinement.
Open Scope N_scope.

(** ** The relation *)

(** The rows are the messages of the log, numbered from [i]. *)
Fixpoint rows_from (i : N) (rows : list MessageRow) (l : list Message) : Prop :=
  match rows, l with
  | [], [] => True
  | r :: rows, m :: l =>
      (exists now, length now = 19%nat /\ r = row_for i now m) /\ rows_from (i + 1) rows l
  | _, _ => False
  end.

(** The ids of a direct conversation fit its conversation id. *)
Definition small_ids (m : Message) : Prop :=
  msg_type m = DirectChat -> msg_sender_id m < 2 ^ 32 /\ msg_receiver_id m < 2 ^ 32.

Record messages_refine (db : Database) (st : MessageStore) : Prop := {
  ms_rows : rows_from 1 (message_rows db) (messages_ st);
  ms_small : Forall small_ids (messages_ st);
  ms_next : messages_auto db = N.of_nat (length (messages_ st)) + 1;
}.

Lemma rows_from_app i rows l now m :
  rows_from i rows l -> length now = 19%nat ->
  rows_from i (rows ++ [row_for (i + N.of_nat (length l)) now m]) (l ++ [m]).
Proof.
  intros Hr Hn. revert i l Hr. induction rows as [|r rows IH]; intros i [|m' l]; cbn [rows_from length app]; try done.
  - intros _. split; [|done]. exists now. by rewrite N.add_0_r.
  - intros [Hr Hrs]. split; [done|].
    replace (i + N.of_nat (S (length l))) with (i + 1 + N.of_nat (length l)) by lia. by apply IH.
Qed.

Lemma refine_append db st m now r st' :
  messages_refine db st -> small_ids m -> length now = 19%nat -> append m st = (r, st') ->
  with_id (messages_auto db) r = r /\
  messages_refine (set_messages (messages_columns db)
    (message_rows db ++ [row_for (messages_auto db) now m]) (messages_auto db + 1) db) st'.
Proof.
  intros [Hr Hs Hn] Hm Hnow [= <- <-]. rewrite Hn, length_app. split.
  - unfold with_id. simpl. f_equal. lia.
  - split; simpl.
    + replace (N.of_nat (length (messages_ st)) + 1) with (1 + N.of_nat (length (messages_ st))) by lia.
      by apply rows_from_app.
    + by apply Forall_app_2; [|constructor].
    + rewrite length_app. simpl. lia.
Qed.

(** Ids grow along the rows, so [ORDER BY id] keeps their order. *)
Lemma rows_from_ids i rows l :
  rows_from i rows l -> forall r, r ∈ rows -> i <= row_id r.
Proof.
  revert i l. induction rows as [|r rows IH]; intros i [|m l]; simpl; try done; [set_solver|].
  intros [(now & _ & ->) Hrs] r' [->|Hr']%elem_of_cons; [simpl; lia|].
  specialize (IH _ _ Hrs _ Hr'). lia.
Qed.

Lemma rows_from_sorted i rows l :
  rows_from i rows l -> StronglySorted (fun a b => row_id a < row_id b) rows.
Proof.
  revert i l. induction rows as [|r rows IH]; intros i [|m l]; simpl; try done; [constructor|].
  intros [(now & _ & ->) Hrs]. constructor; [by eapply IH|].
  apply Forall_forall. intros r' Hr'. pose proof (rows_from_ids _ _ _ Hrs r' Hr'). simpl. lia.
Qed.

Lemma sorted_filter {A} (R : A -> A -> Prop) (f : A -> bool) (l : list A) :
  StronglySorted R l -> StronglySorted R (List.filter f l).
Proof.
  induction 1 as [|x l Hl IH Hx]; [constructor|]. simpl. destruct (f x); [|done].
  constructor; [done|by apply Forall_filter_bool].
Qed.

#[export] Instance id_le_total : Total id_le.
Proof. intros a b. unfold id_le. lia. Qed.
#[export] Instance id_le_trans : Transitive id_le.
Proof. intros a b c. unfold id_le. lia. Qed.

Lemma sorted_key_inj l a b :
  StronglySorted (fun a b => row_id a < row_id b) l -> a ∈ l -> b ∈ l -> row_id a = row_id b -> a = b.
Proof.
  induction 1 as [|x l Hl IH Hx]; [set_solver|]. rewrite Forall_forall in Hx.
  intros [->|Ha]%elem_of_cons [->|Hb]%elem_of_cons E; [done| | |by apply IH].
  - specialize (Hx _ Hb). lia.
  - specialize (Hx _ Ha). lia.
Qed.

Lemma order_by_id_sorted l :
  StronglySorted (fun a b => row_id a < row_id b) l -> order_by_id l = l.
Proof.
  intros Hs. unfold order_by_id. apply (StronglySorted_unique_strong id_le).
  - intros a b Ha Hb Hab Hba. rewrite merge_sort_Permutation in Ha.
    apply (sorted_key_inj l); [done..|]. unfold id_le in *. lia.
  - apply (StronglySorted_merge_sort id_le); apply _.
  - rewrite <- (list_fmap_id l). eapply StronglySorted_fmap; [|done]. intros a b. unfold id_le. simpl. lia.
  - apply merge_sort_Permutation.
Qed.

(** A stored message without its creation time. *)
Definition timeless (s : StoredMessage) : StoredMessage :=
  mkStoredMessage (stored_id s) (stored_type s) (stored_sender_id s) (stored_receiver_id s)
    (stored_body s) [].

(** A selection of the rows is a selection of the numbered log. *)
Lemma rows_matching f test rng (type : MessageRow -> MessageType) i rows l :
  rows_from i rows l ->
  (forall j now m, m ∈ l -> f (row_for j now m) = rng j && test m) ->
  (forall j now m, m ∈ l -> test m = true -> type (row_for j now m) = msg_type m) ->
  map (fun r => timeless (stored_row (type r) r)) (List.filter f rows) =
    matching test rng (number_from i l).
Proof.
  intros Hr Hf Ht. revert i l Hr Hf Ht. induction rows as [|r rows IH]; intros i [|m l]; try done.
  intros [(now & _ & ->) Hrs] Hf Ht. cbn [List.filter number_from]. rewrite matching_cons.
  rewrite Hf by set_solver. rewrite <- (IH (i + 1) l Hrs) by (intros; (apply Hf || apply Ht); set_solver).
  destruct (rng i && test m) eqn:E; [|done]. apply andb_prop in E as [_ E].
  cbn [map app]. f_equal. unfold timeless, stored_row, stored, row_for. simpl.
  f_equal. apply (Ht i now m); [set_solver|done].
Qed.

Lemma rows_messages f test type i rows l :
  rows_from i rows l ->
  (forall j now m, m ∈ l -> f (row_for j now m) = test m) ->
  (forall m, m ∈ l -> test m = true -> msg_type m = type) ->
  map (message_of_row type) (List.filter f rows) = List.filter test l.
Proof.
  intros Hr Hf Ht. revert i l Hr Hf Ht. induction rows as [|r rows IH]; intros i [|m l]; try done.
  intros [(now & _ & ->) Hrs] Hf Ht. cbn [List.filter]. rewrite Hf by set_solver.
  rewrite <- (IH (i + 1) l Hrs) by (intros; (apply Hf || apply Ht); set_solver).
  destruct (test m) eqn:E; [|done]. cbn [map]. f_equal. unfold message_of_row. simpl.
  rewrite <- (Ht m) by (set_solver || done). by destruct m.
Qed.

(** ** Pages *)

(** Do the columns say that the row belongs to a conversation? *)
Definition in_conversation (t c : N) (r : MessageRow) : bool :=
  (row_conversation_type r =? t) && (row_conversation_id r =? c).

Lemma in_direct_conversation u p i now m :
  small_ids m -> u < 2 ^ 32 -> p < 2 ^ 32 ->
  in_conversation 1 (make_direct_conversation_id u p) (row_for i now m) = is_direct_between u p m.
Proof.
  intros Hm Hu Hp. unfold in_conversation, is_direct_between, row_for, conversation_id_for. simpl.
  unfold small_ids in Hm. destruct (msg_type m); try done. destruct (Hm eq_refl) as [Hs Hr]. simpl.
  pose proof (conversation_id_injective (msg_sender_id m) (msg_receiver_id m) u p Hs Hr Hu Hp). lia.
Qed.

Lemma in_group_conversation g i now m :
  in_conversation 2 g (row_for i now m) = is_group_message g m.
Proof.
  unfold in_conversation, is_group_message, row_for, conversation_id_for. simpl.
  by destruct (msg_type m).
Qed.

(** The cursor of a page query. *)
Definition below (before : option N) (i : N) : bool :=
  match before with Some b => i <? b | None => true end.

(** The rows of a page, as the page queries fetch them. *)
Definition page_selection (t c : N) (before : option N) (limit : N) (db : Database) :
    list MessageRow :=
  take (N.to_nat limit) (reverse (order_by_id
    (List.filter (fun r => in_conversation t c r && below before (row_id r)) (message_rows db)))).

Lemma page_rows_selection t c before limit db :
  page_rows t c before limit db = map page_row (page_selection t c before limit db).
Proof. done. Qed.

Lemma map_reverse {A B} (f : A -> B) l : map f (reverse l) = reverse (map f l).
Proof. unfold reverse. by rewrite !rev_append_rev, !app_nil_r, List.map_rev. Qed.

Lemma refine_page db st type test t c before limit :
  messages_refine db st ->
  (forall i now m, m ∈ messages_ st -> in_conversation t c (row_for i now m) = test m) ->
  (forall m, test m = true -> msg_type m = type) ->
  map (fun r => timeless (stored_row type r)) (page_selection t c before limit db) =
    take (N.to_nat limit) (reverse (matching test (below before) (numbered st))).
Proof.
  intros [Hr _ _] Hc Ht. unfold page_selection, numbered.
  rewrite <- firstn_map, map_reverse. f_equal. f_equal.
  rewrite order_by_id_sorted by (by eapply sorted_filter, rows_from_sorted).
  eapply (rows_matching _ test (below before) (fun _ => type)); [done|..].
  - intros j now m Hm. by rewrite Hc, andb_comm.
  - intros j now m Hm Htest. symmetry. by apply Ht.
Qed.

(** The cursor of a page call, and the range it selects. *)
Definition cursor (before_id : N) : option N := if 0 <? before_id then Some before_id else None.

Lemma below_cursor before_id i : below (cursor before_id) i = (before_id =? 0) || (i <? before_id).
Proof. unfold below, cursor. case_if; lia. Qed.

Lemma matching_range test rng rng' l :
  (forall i, rng i = rng' i) -> matching test rng l = matching test rng' l.
Proof.
  intros E. induction l as [|[i m] l IH]; [done|]. by rewrite !matching_cons, IH, E.
Qed.

Lemma refine_history db st type test t c before limit :
  messages_refine db st ->
  (forall i now m, m ∈ messages_ st -> in_conversation t c (row_for i now m) = test m) ->
  (forall m, test m = true -> msg_type m = type) ->
  map (fun r => timeless (stored_row type r)) (page_selection t c (cursor before) limit db) =
    take (N.to_nat limit) (history_before test before st).
Proof.
  intros R Hc Ht. rewrite (refine_page db st type test) by done. unfold history_before. do 2 f_equal.
  apply matching_range. intros i. apply below_cursor.
Qed.

Lemma direct_type u p m : is_direct_between u p m = true -> msg_type m = DirectChat.
Proof. unfold is_direct_between. intros [E%bool_decide_eq_true _]%andb_prop. done. Qed.

Lemma group_type g m : is_group_message g m = true -> msg_type m = GroupChat.
Proof. unfold is_group_message. intros [E%bool_decide_eq_true _]%andb_prop. done. Qed.

Lemma refine_direct_page db st u p before limit :
  messages_refine db st -> u < 2 ^ 32 -> p < 2 ^ 32 ->
  map (fun r => timeless (stored_row DirectChat r))
    (page_selection 1 (make_direct_conversation_id u p) (cursor before) (default_limit limit) db) =
    direct_history_page u p limit before st.
Proof.
  intros R Hu Hp. rewrite direct_history_page_spec. apply refine_history; [done| |apply direct_type].
  intros i now m Hm. apply in_direct_conversation; [|done|done].
  pose proof (ms_small _ _ R) as Hs. rewrite Forall_forall in Hs. by apply Hs.
Qed.

Lemma refine_group_page db st g before limit :
  messages_refine db st ->
  map (fun r => timeless (stored_row GroupChat r))
    (page_selection 2 g (cursor before) (default_limit limit) db) =
    group_history_page g limit before st.
Proof.
  intros R. rewrite group_history_page_spec. apply refine_history; [done| |apply group_type].
  intros i now m _. apply in_group_conversation.
Qed.

(** ** Unread messages *)
Lemma unread_groups_params u gs limit :
  unread_groups (length gs) (map LONGLONG (concat (map (fun g => [g; u]) gs) ++ [limit])) =
    Some (map (fun g => (g, u)) gs, [LONGLONG limit]).
Proof.
  induction gs as [|g gs IH]; [done|]. cbn [length map concat app unread_groups]. by rewrite IH.
Qed.

Lemma unread_row_for last u gs i now m :
  unread_row_matches last u (map (fun g => (g, u)) gs) (row_for i now m) =
    (last <? i) && is_unread u (list_to_set gs) m.
Proof.
  unfold unread_row_matches, is_unread, row_for, conversation_id_for. simpl. f_equal.
  assert (Hg : existsb (fun '(g, v) => (conversation_type_for (msg_type m) =? 2) &&
      ((if bool_decide (msg_type m = DirectChat) then
          make_direct_conversation_id (msg_sender_id m) (msg_receiver_id m)
        else if bool_decide (msg_type m = GroupChat) then msg_receiver_id m else 0) =? g) &&
      negb (msg_sender_id m =? v)) (map (fun g => (g, u)) gs) =
    bool_decide (msg_type m = GroupChat) && negb (msg_sender_id m =? u) &&
    bool_decide (msg_receiver_id m ∈ (list_to_set gs : gset N))).
  { induction gs as [|g gs IH]; [by rewrite andb_false_r|]. cbn [map existsb]. rewrite IH.
    destruct (msg_type m); simpl; try done. apply eq_true_iff_eq.
    rewrite orb_true_iff, !andb_true_iff, !bool_decide_eq_true, N.eqb_eq.
    set_solver. }
  rewrite Hg. f_equal. by destruct (msg_type m).
Qed.

(** The rows the unread query fetches. *)
Definition unread_selection (u : N) (gs : list N) (last limit : N) (db : Database) : list MessageRow :=
  take (N.to_nat limit) (order_by_id
    (List.filter (unread_row_matches last u (map (fun g => (g, u)) gs)) (message_rows db))).

Lemma run_unread `{SqlText} now u gs last limit db :
  run now (SelectUnread (length gs)) (map LONGLONG (unread_params u gs last limit)) db =
    Rows (map unread_row (unread_selection u gs last limit db)).
Proof. cbn [run run_messages unread_params app map]. by rewrite unread_groups_params. Qed.

Lemma type_of_row_for i now m u gs :
  is_unread u gs m = true -> type_of_row (row_for i now m) = msg_type m.
Proof. unfold type_of_row, row_for, is_unread. simpl. by destruct (msg_type m). Qed.

Lemma refine_unread db st u gs last limit :
  messages_refine db st ->
  map (fun r => timeless (stored_row (type_of_row r) r))
    (unread_selection u gs last (default_limit limit) db) = unread_page u gs last limit st.
Proof.
  intros [Hr _ _]. rewrite unread_page_spec. unfold unread_selection, unread_after, numbered.
  rewrite <- firstn_map. f_equal.
  rewrite order_by_id_sorted by (by eapply sorted_filter, rows_from_sorted).
  eapply rows_matching; [done|..].
  - intros j now m _. apply unread_row_for.
  - intros j now m _. apply type_of_row_for.
Qed.

(** ** Whole conversations *)

Definition direct_selection `{SqlText} (a b : N) (db : Database) : list MessageRow :=
  order_by_id (List.filter (fun r => sql_equal (row_type r) "DirectChat" &&
    (((row_sender_id r =? a) && (row_receiver_id r =? b)) ||
     ((row_sender_id r =? b) && (row_receiver_id r =? a)))) (message_rows db)).

Definition group_selection `{SqlText} (g : N) (db : Database) : list MessageRow :=
  order_by_id (List.filter (fun r =>
    sql_equal (row_type r) "GroupChat" && (row_receiver_id r =? g)) (message_rows db)).

Lemma refine_selection f test type db st :
  messages_refine db st ->
  (forall i now m, m ∈ messages_ st -> f (row_for i now m) = test m) ->
  (forall m, test m = true -> msg_type m = type) ->
  map (message_of_row type) (order_by_id (List.filter f (message_rows db))) =
    select test (messages_ st) [].
Proof.
  intros [Hr _ _] Hf Ht. rewrite select_filter. simpl.
  rewrite order_by_id_sorted by (by eapply sorted_filter, rows_from_sorted).
  eapply rows_messages; [done|done|]. intros m _. apply Ht.
Qed.

(** The collation tells the names of the message types apart. *)
Definition types_apart `{SqlText} : Prop := forall t,
  sql_equal (message_type_to_string t) "DirectChat" = bool_decide (t = DirectChat) /\
  sql_equal (message_type_to_string t) "GroupChat" = bool_decide (t = GroupChat).

Lemma refine_direct_history `{SqlText} db st u p :
  types_apart -> messages_refine db st ->
  map (message_of_row DirectChat) (direct_selection u p db) = direct_history u p st.
Proof.
  intros A R. eapply refine_selection; [done| |apply (direct_type u p)]. intros i now m _.
  cbn [row_for row_type row_sender_id row_receiver_id]. by rewrite (proj1 (A _)).
Qed.

Lemma refine_group_history `{SqlText} db st g :
  types_apart -> messages_refine db st ->
  map (message_of_row GroupChat) (group_selection g db) = group_history g st.
Proof.
  intros A R. eapply refine_selection; [done| |apply (group_type g)]. intros i now m _.
  cbn [row_for row_type row_sender_id row_receiver_id]. by rewrite (proj2 (A _)).
Qed.
