(* ===== verification/Logger.v ===== *)
(** * Logger: log lines on the console and in the database

    [src/src/logging/logger.cpp].  A call prints one line on [std::cout], in one
    piece because of [mutex_], and then, with [mutex_] released, inserts one row
    into [server_logs] when the logger has a pool and the pool a connection.
    [print_line] and [insert_row] are these two parts, and [write] runs them one
    after the other, as one thread does; what several threads do to each other
    in between is the subject of [LogThreads.v].  The local time, formatted by
    [std::put_time], is an argument. *)

From S2P Require Import Prelude.
From S2P Require Import Log.
From S2P Require Import SqlTables.
From S2P Require Import MySqlClient.
From S2P Require Import MySqlTables.
From S2P Require Import MySqlConnectionPool.
From S2P Require Import PoolSpec.
From S2P Require Import PoolServe.
From S2P Require Import ToyServer.
From S2P Require Import PoolTheorems.
From S2P Require Import DbSpec.
Open Scope N_scope.

(** ** State *)

(** The lines on [std::cout], oldest first, and the pool. *)
Definition LoggerState `{MySql} : Type := list bytes * Db.

(** ** Operations *)

Section logger.
Context `{MySql}.

(** The constructor with a pool. *)
Definition open_logger : ST Db unit :=
  using_connection tt (fun mysql => execute_query mysql create_server_logs;; mret tt).

Definition insert_log_on (level_name message : bytes) (mysql : MYSQL) : ST Client unit :=
  statement ← mysql_stmt_init mysql;
  match statement with
  | None => mret tt
  | Some statement =>
      prepared ← mysql_stmt_prepare statement insert_log;
      if fails prepared then closing statement tt
      else
        bound ← mysql_stmt_bind_param statement [STRING level_name; STRING message];
        if fails bound then closing statement tt
        else
          mysql_stmt_execute statement;;
          closing statement tt
  end.

(** The critical section of [mutex_]. *)
Definition print_line (call : LogCall) (out : list bytes) : list bytes := out ++ [log_line call].

(** The rest of [write], after [mutex_]; [has_pool] is [pool_ != nullptr]. *)
Definition insert_row (has_pool : bool) (call : LogCall) : ST Db unit :=
  if negb has_pool then mret tt
  else using_connection tt (insert_log_on (level_to_string (call_level call)) (call_message call)).

(** [write], in one thread: nothing else is logged between its two parts. *)
Definition write (has_pool : bool) (call : LogCall) : ST LoggerState unit := fun '(out, db) =>
  let out := print_line call out in
  let '(_, db) := insert_row has_pool call db in
  (tt, (out, db)).

Definition info (has_pool : bool) (now message : bytes) : ST LoggerState unit :=
  write has_pool (mkLogCall now Info message).
Definition warn (has_pool : bool) (now message : bytes) : ST LoggerState unit :=
  write has_pool (mkLogCall now Warn message).
Definition error (has_pool : bool) (now message : bytes) : ST LoggerState unit :=
  write has_pool (mkLogCall now Error message).

Fixpoint write_all (has_pool : bool) (calls : list LogCall) : ST LoggerState unit :=
  match calls with
  | [] => mret tt
  | call :: calls => write has_pool call;; write_all has_pool calls
  end.
End logger.

(** ** Lemmas *)

Section resources.
Context `{MySqlProtocol}.

Lemma insert_log_on_balanced level message h : balanced h (insert_log_on level message h).
Proof. balance. Qed.
End resources.

(** The row a call inserts. *)
Definition log_row (c : LogCall) : LogRow :=
  mkLogRow (level_to_string (call_level c)) (call_message c).

Section specs.
Context `{Hview : MySqlView, Hprot : !MySqlProtocol, Htext : SqlText, Htexts : !SqlTextSpec,
          Htab : !MySqlTables, Hspec : !MySqlTablesSpec}.

(** The rows of the calls whose message the column can hold. *)
Definition storable (c : LogCall) : bool := fits_text (call_message c).

Lemma level_fits level : fits_varchar 16 (level_to_string level) = true.
Proof.
  unfold fits_varchar. rewrite ascii_well_formed.
  - pose proof (characters_le (level_to_string level)).
    assert (length (level_to_string level) <= 16)%nat by (destruct level; simpl; lia). simpl. lia.
  - destruct level; apply (bool_decide_unpack _); vm_compute; exact I.
Qed.

Lemma insert_log_on_spec c h cl :
  ready_for h cl ->
  answers h (insert_log_on (level_to_string (call_level c)) (call_message c) h) cl tt
    (if storable c then set_logs (server_logs (tables cl) ++ [log_row c]) (tables cl) else tables cl).
Proof.
  intros [Hh Hin]. unfold answers, insert_log_on, storable.
  sql_begin insert_log InsertLog. eapply work_bind_param; [done|]. intros c2 W2. sql_tidy.
  eapply work_execute; [done|done|done|]. intros r c3 now Hnow a Hf Hrem W3. unfold a in *.
  cbn [run run_logs st_params with_params] in *. rewrite level_fits in *. cbn [andb] in *.
  destruct (fits_text (call_message c)); cbn [negb executed answer_database] in *; sql_close.
Qed.

Lemma write_spec c out db :
  serviceable db ->
  wp (write true c) (fun _ '(out', db') => out' = out ++ [log_line c] /\ serviceable db' /\
    tables (client db') =
      if storable c then set_logs (server_logs (tables (client db)) ++ [log_row c]) (tables (client db))
      else tables (client db)) (out, db).
Proof.
  intros Hs. unfold wp, write, insert_row, print_line. cbn [negb].
  pose proof (using_connection_serves tt
    (insert_log_on (level_to_string (call_level c)) (call_message c))
    (fun _ t => t = if storable c then set_logs (server_logs (tables (client db)) ++ [log_row c])
       (tables (client db)) else tables (client db)) db Hs
    (insert_log_on_balanced _ _)) as Hw. unfold wp in Hw.
  destruct (using_connection _ _ _) as [r db']. cbn [fst snd] in *. split; [done|]. apply Hw.
  intros h cl Hh Hin Et. destruct (insert_log_on_spec c h cl) as (_ & [? _] & E); [done|].
  by rewrite E, Et.
Qed.

(** ** Theorems *)

(** In one thread every call prints its line, in order, and inserts its row, in
    order too: with a database that works, console and table tell the same
    story, except for messages the column cannot hold, whose row is lost. *)
Theorem log_follows_console (calls : list LogCall) (out : list bytes) (db : Db) :
  serviceable db ->
  wp (write_all true calls) (fun _ '(out', db') =>
    out' = out ++ map log_line calls /\ serviceable db' /\
    server_logs (tables (client db')) =
      server_logs (tables (client db)) ++ map log_row (List.filter storable calls) /\
    users (tables (client db')) = users (tables (client db)) /\
    message_rows (tables (client db')) = message_rows (tables (client db))) (out, db).
Proof.
  revert out db. induction calls as [|c calls IH]; intros out db Hs; cbn [write_all].
  { cbn. by rewrite !app_nil_r. }
  apply wp_bind. unfold wp at 1. pose proof (write_spec c out db Hs) as W. unfold wp in W.
  destruct (write true c (out, db)) as [[] [out1 db1]]. cbn [fst snd] in W.
  destruct W as (-> & Hs1 & E1). cbn [fst snd].
  eapply wp_mono; [apply (IH (out ++ [log_line c]) db1 Hs1)|].
  intros _ [out2 db2] (-> & Hs2 & L & U & M).
  split; [by rewrite <- app_assoc|]. split; [done|]. rewrite L, U, M, E1. cbn [List.filter map].
  destruct (storable c); [|done]. cbn [set_logs server_logs users message_rows map].
  by rewrite <- app_assoc.
Qed.
End specs.

(** Without a connection the logger is a console logger, and no call disturbs
    the pool: whatever the library answers, the line is printed, every
    statement is freed and the connection given back. *)
Theorem console_always `{MySqlProtocol} (has_pool : bool) (calls : list LogCall) (lent : list Slot)
    (out : list bytes) (db : Db) :
  pool_ok lent db ->
  wp (write_all has_pool calls) (fun _ '(out', db') =>
    out' = out ++ map log_line calls /\ pool_ok lent db' /\
    (forall s, s ∈ lent -> slots db' !! s = slots db !! s) /\
    statements (client db') = statements (client db)) (out, db).
Proof.
  revert out db. induction calls as [|c calls IH]; intros out db Hok; cbn [write_all].
  { cbn. by rewrite app_nil_r. }
  apply wp_bind. unfold wp at 1, write, insert_row, print_line. destruct has_pool; cbn [negb].
  - pose proof (using_connection_balanced lent tt (insert_log_on (level_to_string (call_level c))
      (call_message c)) db Hok (insert_log_on_balanced _ _)) as W. unfold wp in W.
    destruct (using_connection _ _ _) as [[] db1]. cbn [fst snd] in W. destruct W as (Hok1 & S1 & T1).
    eapply wp_mono; [apply (IH (out ++ [log_line c]) db1 Hok1)|].
    intros _ [out2 db2] (-> & Hok2 & S2 & T2).
    split; [by rewrite <- app_assoc|]. split; [done|]. split; [|congruence].
    intros s Hin. by rewrite S2, S1.
  - cbn [fst snd]. eapply wp_mono; [apply (IH (out ++ [log_line c]) db Hok)|].
    intros _ [out2 db2] (-> & IH'). split; [by rewrite <- app_assoc|]. done.
Qed.

Definition toy_log : list LogCall :=
  [mkLogCall "2024-01-01 12:00:00" Info "starting"; mkLogCall "2024-01-01 12:00:01" Error "bind failed"].

Lemma log_follows_console_witness :
  wp (@write_all (@toy_mysql plain_text) true toy_log) (fun _ '(out', db') =>
    out' = [bs "2024-01-01 12:00:00 [INFO] starting"; bs "2024-01-01 12:00:01 [ERROR] bind failed"] /\
    server_logs (@tables _ (@toy_view plain_text) (client db')) =
      [mkLogRow "INFO" "starting"; mkLogRow "ERROR" "bind failed"]) ([], toy_pool).
Proof.
  eapply wp_mono.
  - apply (@log_follows_console (@toy_mysql plain_text) toy_view toy_protocol plain_text plain_text_spec
      toy_tables_view toy_tables_spec toy_log [] toy_pool toy_pool_serves).
  - intros _ [out' db'] (-> & _ & -> & _). split; vm_compute; reflexivity.
Defined.

Lemma console_always_witness :
  wp (@write_all (@toy_mysql plain_text) true toy_log) (fun _ '(out', db') =>
    out' = map log_line toy_log) ([], toy_lent).
Proof.
  eapply wp_mono.
  - apply (@console_always (@toy_mysql plain_text) toy_view toy_protocol true toy_log [0%N]).
    exact toy_lent_ok.
  - intros _ [out' db'] (Ho & _). exact Ho.
Defined.
