(* ===== verification/LogThreads.v ===== *)
(** * LogThreads: the logger among threads

    [Logger::write] is called by the reactor and by every worker.  [mutex_]
    covers the console line only; the row is inserted afterwards, on a
    connection of the pool.  [log_step] interleaves the parts of any number of
    calls, one per thread at a time: the critical section of [mutex_], every
    step of [acquire] ([PoolTheorems.caller_step]), the statement, the guard's
    destructor; and between them the steps of the pool's other users.  Two ghost
    histories record which thread printed what, and how its row was settled. *)

From S2P Require Import Prelude.
From S2P Require Import Log.
From S2P Require Import SqlTables.
From S2P Require Import MySqlClient.
From S2P Require Import MySqlTables.
From S2P Require Import MySqlConnectionPool.
From S2P Require Import PoolSpec.
From S2P Require Import PoolServe.
From S2P Require Import ToyServer.
From S2P Require Import PoolTheorems.
From S2P Require Import DbSpec.
From S2P Require Import Logger.
Open Scope nat_scope.

(** ** State *)

(** Where a thread is in [write]. *)
Inductive Logging : Type :=
  | Away                                    (* not in a call *)
  | Asking (call : LogCall) (a : Activity)  (* the line is out; in [acquire], or holding what it got *)
  | Storing (connection : Slot).            (* the statement is closed; the guard goes out of scope *)

Definition lent_of (l : Logging) : list Slot :=
  match l with Away => [] | Asking _ a => held a | Storing s => [s] end.

Definition in_hands (threads : list Logging) : list Slot := concat (map lent_of threads).

(** The threads, the pool's other users, console and database; then the ghost
    histories: the lines in the order of printing, and the rows in the order in
    which they were inserted ([true]) or given up for want of a connection. *)
Record LogSystem `{MySql} : Type := mkLogSystem {
  ls_threads : list Logging;
  ls_others : list Activity;
  ls_out : list bytes;
  ls_db : Db;
  ls_printed : list (nat * LogCall);
  ls_settled : list (nat * LogCall * bool);
}.
Arguments mkLogSystem {_} ls_threads ls_others ls_out ls_db ls_printed ls_settled.

Definition log_start `{MySql} (n : nat) (others : list Activity) (out : list bytes) (db : Db) : LogSystem :=
  mkLogSystem (replicate n Away) others out db [] [].

(** ** Steps *)

Section steps.
Context `{MySqlProtocol}.

Inductive log_step : LogSystem -> LogSystem -> Prop :=
  | log_prints t call threads others out db printed settled :
      threads !! t = Some Away ->
      log_step (mkLogSystem threads others out db printed settled)
        (mkLogSystem (<[t := Asking call Calling]> threads) others (print_line call out) db
           (printed ++ [(t, call)]) settled)
  | log_acquires t call a a' threads others out db db' printed settled :
      threads !! t = Some (Asking call a) -> (forall s, a <> Holding s) -> caller_step a db a' db' ->
      log_step (mkLogSystem threads others out db printed settled)
        (mkLogSystem (<[t := Asking call a']> threads) others out db' printed settled)
  | log_gives_up t call threads others out db printed settled :
      threads !! t = Some (Asking call Finished) ->
      log_step (mkLogSystem threads others out db printed settled)
        (mkLogSystem (<[t := Away]> threads) others out db printed (settled ++ [(t, call, false)]))
  | log_inserts t call s h threads others out db r db' printed settled :
      threads !! t = Some (Asking call (Holding s)) ->
      guard_get (mkGuard true (Some s)) db = (Some h, db) ->
      on_client (insert_log_on (level_to_string (call_level call)) (call_message call) h) db = (r, db') ->
      log_step (mkLogSystem threads others out db printed settled)
        (mkLogSystem (<[t := Storing s]> threads) others out db' printed (settled ++ [(t, call, true)]))
  | log_returns t s g threads others out db db' printed settled :
      threads !! t = Some (Storing s) -> guard_reset (mkGuard true (Some s)) db = (g, db') ->
      log_step (mkLogSystem threads others out db printed settled)
        (mkLogSystem (<[t := Away]> threads) others out db' printed settled)
  (** Somebody else's step in the pool; what he does with a connection leaves
      [server_logs] alone, and the client working. *)
  | log_other before a a' after threads out db db' printed settled :
      caller_step a db a' db' -> (healthy (client db) -> healthy (client db')) ->
      server_logs (tables (client db')) = server_logs (tables (client db)) ->
      log_step (mkLogSystem threads (before ++ a :: after) out db printed settled)
        (mkLogSystem threads (before ++ a' :: after) out db' printed settled)
  | log_newcomer threads others out db printed settled :
      log_step (mkLogSystem threads others out db printed settled)
        (mkLogSystem threads (others ++ [Calling]) out db printed settled).
End steps.

(** ** What is claimed *)

(** The calls of one thread in a history. *)
Definition calls_of (t : nat) (l : list (nat * LogCall)) : list LogCall :=
  map snd (List.filter (fun x => x.1 =? t) l).

(** The call whose row is not settled yet. *)
Definition unsettled (threads : list Logging) (t : nat) : list LogCall :=
  match threads !! t with Some (Asking call _) => [call] | _ => [] end.

(** The rows of a history. *)
Definition rows_of `{SqlText} (settled : list (nat * LogCall * bool)) : list LogRow :=
  map (fun x => log_row x.1.2) (List.filter (fun x => x.2 && storable x.1.2) settled).

(** ** Lemmas *)
Lemma calls_of_app t xs ys : calls_of t (xs ++ ys) = calls_of t xs ++ calls_of t ys.
Proof. unfold calls_of. by rewrite List.filter_app, map_app. Qed.

Lemma calls_of_one t u c : calls_of t [(u, c)] = if u =? t then [c] else [].
Proof. unfold calls_of. simpl. by destruct (u =? t). Qed.

Lemma rows_of_snoc `{SqlText} settled x :
  rows_of (settled ++ [x]) = rows_of settled ++ if x.2 && storable x.1.2 then [log_row x.1.2] else [].
Proof. unfold rows_of. rewrite List.filter_app, map_app. simpl. by destruct (x.2 && storable x.1.2). Qed.

(** Two histories with the same calls of every thread have the same calls. *)
Lemma calls_of_split t c l rest :
  calls_of t l = c :: rest -> exists l1 l2, l = l1 ++ (t, c) :: l2 /\ calls_of t l1 = [].
Proof.
  induction l as [|[u d] l IH]; [done|]. change ((u, d) :: l) with ([(u, d)] ++ l).
  rewrite calls_of_app, calls_of_one. destruct (Nat.eqb_spec u t) as [->|Hne].
  - intros [= <- _]. by exists [], l.
  - intros (l1 & l2 & -> & E)%IH. exists ((u, d) :: l1), l2. split; [done|].
    change ((u, d) :: l1) with ([(u, d)] ++ l1). rewrite calls_of_app, calls_of_one, E.
    by rewrite (proj2 (Nat.eqb_neq u t)).
Qed.

Lemma same_calls_permutation xs ys :
  (forall t, calls_of t xs = calls_of t ys) -> xs ≡ₚ ys.
Proof.
  revert ys. induction xs as [|[t c] xs IH]; intros ys E.
  - destruct ys as [|[t c] ys]; [done|]. specialize (E t). unfold calls_of in E. simpl in E.
    by rewrite Nat.eqb_refl in E.
  - change ((t, c) :: xs) with ([(t, c)] ++ xs) in E. setoid_rewrite calls_of_app in E.
    setoid_rewrite calls_of_one in E. pose proof (E t) as Et. rewrite Nat.eqb_refl in Et.
    destruct (calls_of_split t c ys (calls_of t xs) (eq_sym Et)) as (l1 & l2 & -> & El).
    rewrite <- Permutation_middle. constructor. apply IH. intros u. specialize (E u).
    change ((t, c) :: l2) with ([(t, c)] ++ l2) in E. rewrite !calls_of_app, calls_of_one in E.
    rewrite calls_of_app. destruct (Nat.eqb_spec t u) as [->|Hne]; [|exact E].
    rewrite El in *. simpl in *. by injection E.
Qed.

(** What a thread holds, and what it holds in its next state. *)
Lemma in_hands_update t l threads :
  threads !! t = Some l ->
  exists rest, in_hands threads ≡ₚ lent_of l ++ rest /\
    forall l', in_hands (<[t := l']> threads) ≡ₚ lent_of l' ++ rest.
Proof.
  intros Hl. exists (in_hands (take t threads) ++ in_hands (drop (S t) threads)). unfold in_hands.
  pose proof (lookup_lt_Some _ _ _ Hl). split.
  - rewrite <- (take_drop_middle threads t l Hl) at 1. rewrite map_app, concat_app. cbn [map concat].
    solve_Permutation.
  - intros l'. rewrite insert_take_drop by done. rewrite map_app, concat_app. cbn [map concat].
    solve_Permutation.
Qed.

Lemma in_hands_member t l threads s :
  threads !! t = Some l -> s ∈ lent_of l -> s ∈ in_hands threads.
Proof. intros Hl Hs. destruct (in_hands_update t l threads Hl) as (rest & -> & _). set_solver. Qed.

Lemma unsettled_update t l threads u :
  t < length threads -> unsettled (<[t := l]> threads) u =
    if t =? u then match l with Asking call _ => [call] | _ => [] end else unsettled threads u.
Proof.
  intros Ht. unfold unsettled. destruct (Nat.eqb_spec t u) as [->|Hne].
  - by rewrite list_lookup_insert_eq.
  - by rewrite list_lookup_insert_ne.
Qed.

Section acquiring.
Context `{MySqlProtocol}.

Definition thread_served (db : Db) (l : Logging) : Prop :=
  match l with Asking _ a => served a db | _ => True end.

(** The steps of [acquire] run no statements. *)
Lemma acquire_undisturbed a db a' db' others :
  caller_step a db a' db' -> (forall s, a <> Holding s) -> pool_ok (held a ++ others) db ->
  undisturbed (client db) (client db').
Proof.
  intros Hstep Hne Hok. destruct Hstep as
    [db cs db' E|db s cs r db' E|db s cs r db' E|db|db s db' E|db db' E|db s db' E|db s db' E
    |db s r db' E|A db s h work r db' Hg Hb E|db s g db' E]; cbn [held app] in *;
    try by edestruct Hne.
  - destruct (wp_run _ _ _ _ _ (idle_health_check_spec others db Hok) E) as [_ O]. apply O.
  - destruct (checked s (s :: cs) others db r db' Hok) as (_ & O & _); [set_solver|done|]. apply O.
  - destruct (released s cs others db r db' Hok E) as [_ O]. apply O.
  - by split.
  - destruct (wp_run _ _ _ _ _ (take_available_spec others db Hok) E) as [O _]. apply O.
  - destruct (wp_run _ _ _ _ _ (take_available_spec others db Hok) E) as [O _]. apply O.
  - destruct (checked s [s] others db true db' Hok) as (_ & O & _); [set_solver|done|]. apply O.
  - destruct (checked s [s] others db false db' Hok) as (_ & O & _); [set_solver|done|]. apply O.
  - destruct (released s [] others db r db' Hok E) as [_ O]. apply O.
Qed.

(** The other threads' connections are still there. *)
Lemma threads_served_kept threads db db' :
  (forall s, s ∈ in_hands threads -> slots db' !! s = slots db !! s) ->
  Forall (thread_served db) threads -> Forall (thread_served db') threads.
Proof.
  unfold in_hands. intros Hs Ha. induction Ha as [|l threads Hl _ IH]; [constructor|].
  cbn [map concat] in Hs. constructor; [|apply IH; intros s Hin; apply Hs; set_solver].
  destruct l as [|call a|]; try done. destruct a; try done. destruct Hl as (x & h & Hx & Eh).
  exists x, h. rewrite Hs; [done|]. cbn [lent_of held]. set_solver.
Qed.

Lemma threads_served_update t l threads db db' :
  threads !! t = Some l -> Forall (thread_served db) threads ->
  (forall s, s ∈ in_hands (<[t := Away]> threads) -> slots db' !! s = slots db !! s) ->
  forall l', thread_served db' l' -> Forall (thread_served db') (<[t := l']> threads).
Proof.
  intros Hl Hs Hk l' Hl'. replace (<[t := l']> threads) with (<[t := l']> (<[t := Away]> threads))
    by apply list_insert_insert_eq.
  apply Forall_insert; [|done]. apply (threads_served_kept _ db); [done|]. by apply Forall_insert.
Qed.
End acquiring.

(** ** The invariant *)

Ltac fields := cbn [ls_threads ls_others ls_out ls_db ls_printed ls_settled] in *.

Section invariant.
Context `{Hview : MySqlView, Hprot : !MySqlProtocol, Htext : SqlText, Htexts : !SqlTextSpec,
          Htab : !MySqlTables, Hspec : !MySqlTablesSpec}.

(** What the pool and the client are in. *)
Record connected (x : LogSystem) : Prop := {
  con_ok : pool_ok (in_hands (ls_threads x) ++ lent_to (ls_others x)) (ls_db x);
  con_served : Forall (thread_served (ls_db x)) (ls_threads x);
  con_healthy : healthy (client (ls_db x));
}.

(** What console, table and histories say of each other. *)
Record recorded (out : list bytes) (logs : list LogRow) (x : LogSystem) : Prop := {
  rec_lines : ls_out x = out ++ map (fun p => log_line p.2) (ls_printed x);
  rec_rows : server_logs (tables (client (ls_db x))) = logs ++ rows_of (ls_settled x);
  rec_calls t : calls_of t (ls_printed x) =
    calls_of t (map fst (ls_settled x)) ++ unsettled (ls_threads x) t;
}.

(** A step of one thread: it changes what it has in its hands, and the pool. *)
Lemma connected_thread t l l' threads others out out' db db' printed printed' settled settled' :
  connected (mkLogSystem threads others out db printed settled) -> threads !! t = Some l ->
  (forall rest, pool_ok (lent_of l ++ rest) db -> thread_served db l ->
     pool_ok (lent_of l' ++ rest) db' /\ (forall s, s ∈ rest -> slots db' !! s = slots db !! s) /\
     thread_served db' l') ->
  (healthy (client db) -> healthy (client db')) ->
  connected (mkLogSystem (<[t := l']> threads) others out' db' printed' settled').
Proof.
  intros [Hok Hs Hh] Hl Hstep Hc. fields. destruct (in_hands_update t l threads Hl) as (rest & E & E').
  assert (Hok1 : pool_ok (lent_of l ++ rest ++ lent_to others) db).
  { eapply pool_ok_perm; [|exact Hok]. rewrite E. by rewrite app_assoc. }
  pose proof (Forall_lookup_1 _ _ _ _ Hs Hl) as Hsl.
  destruct (Hstep _ Hok1 Hsl) as (Hok2 & Hsame & Hsv). split; fields.
  - eapply pool_ok_perm; [|exact Hok2]. rewrite (E' l'). by rewrite app_assoc.
  - apply (threads_served_update t l threads db); [done|done| |done].
    intros s. rewrite (E' Away). intros Hin. apply Hsame. set_solver.
  - by apply Hc.
Qed.

Lemma unsettled_at t l threads : threads !! t = Some l ->
  unsettled threads t = match l with Asking call _ => [call] | _ => [] end.
Proof. intros Hl. unfold unsettled. by rewrite Hl. Qed.

(** The histories after a step that keeps the thread's call unsettled, or has
    none. *)
Lemma recorded_quiet t l l' out logs threads others o db db' printed settled :
  recorded out logs (mkLogSystem threads others o db printed settled) -> threads !! t = Some l ->
  match l' with Asking call _ => [call] | _ => [] end = match l with Asking call _ => [call] | _ => [] end ->
  server_logs (tables (client db')) = server_logs (tables (client db)) ->
  recorded out logs (mkLogSystem (<[t := l']> threads) others o db' printed settled).
Proof.
  intros [El Er Ec] Hl E Et. fields. split; fields; [done|by rewrite Et|]. intros u.
  rewrite unsettled_update by (by eapply lookup_lt_Some). rewrite Ec, E.
  destruct (Nat.eqb_spec t u) as [->|]; [|done]. by rewrite (unsettled_at u l).
Qed.

(** The histories after a row has been settled. *)
Lemma recorded_settled t call a l' b out logs threads others o db db' printed settled :
  recorded out logs (mkLogSystem threads others o db printed settled) ->
  threads !! t = Some (Asking call a) -> (forall c a', l' <> Asking c a') ->
  server_logs (tables (client db')) =
    server_logs (tables (client db)) ++ (if b && storable call then [log_row call] else []) ->
  recorded out logs (mkLogSystem (<[t := l']> threads) others o db' printed (settled ++ [(t, call, b)])).
Proof.
  intros [El Er Ec] Hl Hl' Et. fields. split; fields; [done| |].
  - by rewrite Et, Er, rows_of_snoc, <- app_assoc.
  - intros u. rewrite unsettled_update by (by eapply lookup_lt_Some). rewrite Ec, map_app, calls_of_app.
    cbn [map fst]. rewrite calls_of_one, <- app_assoc. f_equal.
    destruct (Nat.eqb_spec t u) as [->|]; [|done]. rewrite (unsettled_at u (Asking call a)) by done.
    destruct l'; [done| |done]. by edestruct Hl'.
Qed.

(** The INSERT on the connection in hand. *)
Lemma insert_step call s h others db r db' :
  pool_ok (s :: others) db -> guard_get (mkGuard true (Some s)) db = (Some h, db) ->
  on_client (insert_log_on (level_to_string (call_level call)) (call_message call) h) db = (r, db') ->
  pool_ok (s :: others) db' /\ slots db' = slots db /\
  (healthy (client db) -> healthy (client db') /\
     server_logs (tables (client db')) = server_logs (tables (client db)) ++
       (if storable call then [log_row call] else [])).
Proof.
  intros Hok Hg E. destruct (used s h _ others db r db' Hok Hg (insert_log_on_balanced _ _ _) E)
    as (Hok' & Es & _).
  split; [done|]. split; [done|]. intros Hh.
  destruct (pool_ok_lent _ db s Hok) as [x Hx]; [set_solver|].
  unfold guard_get, mbind, ST_bind, read_slot in Hg. simpl in Hg. rewrite Hx in Hg. injection Hg as Eh.
  assert (Hin : h ∈ handles (client db)).
  { apply (ok_handles _ _ (po_objects _ _ Hok)). right. by exists s, x. }
  pose proof (insert_log_on_spec call h (client db)) as A. unfold answers, wp in A.
  destruct A as (_ & [Hh' _] & Et); [done|]. unfold on_client in E.
  destruct (insert_log_on _ _ h (client db)) as [r' c]. injection E as <- <-. cbn in *.
  split; [done|]. rewrite Et. destruct (storable call); [done|by rewrite app_nil_r].
Qed.

(** A thread's hands, apart from everybody else's. *)
Lemma connected_at t l threads others out db printed settled :
  connected (mkLogSystem threads others out db printed settled) -> threads !! t = Some l ->
  exists rest, pool_ok (lent_of l ++ rest) db.
Proof.
  intros [Hok _ _] Hl. fields. destruct (in_hands_update t l threads Hl) as (rest & E & _).
  exists (rest ++ lent_to others). eapply pool_ok_perm; [|exact Hok]. rewrite E. by rewrite app_assoc.
Qed.

(** What a step does to the tables. *)
Lemma guard_reset_undisturbed s rest g db db' :
  pool_ok (s :: rest) db -> guard_reset (mkGuard true (Some s)) db = (g, db') ->
  undisturbed (client db) (client db') /\ pool_ok rest db' /\
  forall u, u ∈ rest -> slots db' !! u = slots db !! u.
Proof.
  intros Hok E. destruct (wp_run _ _ _ _ _ (guard_reset_spec s rest db Hok) E) as (_ & Hok' & O).
  split; [apply O|]. split; [done|].
  by destruct (step_ok_outside [s] (Holding s) db db' rest Hok O) as [? _]; [set_solver|].
Qed.

Lemma connected_other before a a' after threads out db db' printed settled :
  connected (mkLogSystem threads (before ++ a :: after) out db printed settled) ->
  caller_step a db a' db' -> (healthy (client db) -> healthy (client db')) ->
  connected (mkLogSystem threads (before ++ a' :: after) out db' printed settled).
Proof.
  intros [Hok Hs Hh] Hcall Hc. fields.
  assert (E : forall b, in_hands threads ++ lent_to (before ++ b :: after) ≡ₚ
    held b ++ in_hands threads ++ lent_to (before ++ after)).
  { intros b. rewrite lent_to_middle. solve_Permutation. }
  destruct (caller_step_ok _ _ _ _ Hcall (in_hands threads ++ lent_to (before ++ after)))
    as (Hok' & Hsl & _); [eapply pool_ok_perm; [apply E|done]|].
  split; fields; [eapply pool_ok_perm; [symmetry; apply E|done]| |by apply Hc].
  apply (threads_served_kept _ db); [|done]. intros s Hin. apply Hsl. set_solver.
Qed.

Lemma connected_step x y : log_step x y -> connected x -> connected y.
Proof.
  intros Hstep C. destruct Hstep as [t call threads others out db printed settled Hl
    |t call a a' threads others out db db' printed settled Hl Hne Hcall
    |t call threads others out db printed settled Hl
    |t call s h threads others out db r db' printed settled Hl Hg E
    |t s g threads others out db db' printed settled Hl E
    |before a a' after threads out db db' printed settled Hcall Hh E
    |threads others out db printed settled].
  - eapply connected_thread; [exact C|done| |done]. by intros rest Hok _.
  - destruct (connected_at _ _ _ _ _ _ _ _ C Hl) as [rest Hok].
    eapply connected_thread; [exact C|done| |].
    + intros rest' Hok' Hs. destruct (caller_step_ok _ _ _ _ Hcall rest' Hok') as (? & ? & _ & Hsv).
      split; [done|]. split; [done|by apply Hsv].
    + by apply (still_healthy _ _ (acquire_undisturbed _ _ _ _ rest Hcall Hne Hok)).
  - eapply connected_thread; [exact C|done| |done]. by intros rest Hok _.
  - destruct (connected_at _ _ _ _ _ _ _ _ C Hl) as [rest Hok].
    eapply connected_thread; [exact C|done| |intros Hh; by apply (insert_step call s h rest db r db')].
    intros rest' Hok' _. destruct (insert_step call s h rest' db r db' Hok' Hg E) as (? & Es & _).
    split; [done|]. by rewrite Es.
  - destruct (connected_at _ _ _ _ _ _ _ _ C Hl) as [rest Hok].
    eapply connected_thread; [exact C|done| |].
    + intros rest' Hok' _. by destruct (guard_reset_undisturbed s rest' g db db' Hok' E) as (_ & ? & ?).
    + by apply (still_healthy _ _ (proj1 (guard_reset_undisturbed s rest g db db' Hok E))).
  - by eapply connected_other.
  - destruct C as [Hok Hs Hh]. fields. split; fields; [|done|done]. by rewrite lent_to_app, app_nil_r.
Qed.

Lemma recorded_step out logs x y :
  log_step x y -> connected x -> recorded out logs x -> recorded out logs y.
Proof.
  intros Hstep C R. destruct Hstep as [t call threads others o db printed settled Hl
    |t call a a' threads others o db db' printed settled Hl Hne Hcall
    |t call threads others o db printed settled Hl
    |t call s h threads others o db r db' printed settled Hl Hg E
    |t s g threads others o db db' printed settled Hl E
    |before a a' after threads o db db' printed settled Hcall Hh E
    |threads others o db printed settled].
  - destruct R as [El Er Ec]. fields. split; fields; [|done|].
    + unfold print_line. by rewrite El, map_app, <- app_assoc.
    + intros u. rewrite calls_of_app, calls_of_one, Ec, <- app_assoc. f_equal.
      rewrite unsettled_update by (by eapply lookup_lt_Some).
      destruct (Nat.eqb_spec t u) as [->|]; [|by rewrite app_nil_r]. by rewrite (unsettled_at u Away).
  - destruct (connected_at _ _ _ _ _ _ _ _ C Hl) as [rest Hok].
    eapply recorded_quiet; [exact R|done|done|].
    by rewrite (same_tables _ _ (acquire_undisturbed _ _ _ _ rest Hcall Hne Hok)).
  - eapply recorded_settled; [exact R|done|done|by rewrite app_nil_r].
  - destruct (connected_at _ _ _ _ _ _ _ _ C Hl) as [rest Hok].
    eapply recorded_settled; [exact R|done|done|].
    apply (insert_step call s h rest db r db'); [done..|]. apply (con_healthy _ C).
  - destruct (connected_at _ _ _ _ _ _ _ _ C Hl) as [rest Hok].
    eapply recorded_quiet; [exact R|done|done|].
    by rewrite (same_tables _ _ (proj1 (guard_reset_undisturbed s rest g db db' Hok E))).
  - destruct R as [El Er Ec]. fields. split; fields; [done|by rewrite E|done].
  - destruct R as [El Er Ec]. by split.
Qed.

Lemma log_start_connected n others out db :
  pool_ok (lent_to others) db -> healthy (client db) -> connected (log_start n others out db).
Proof.
  intros Hok Hh. assert (E : in_hands (replicate n Away) = []).
  { unfold in_hands. induction n as [|n IH]; [done|]. exact IH. }
  split; unfold log_start; fields; [by rewrite E|by apply Forall_replicate|done].
Qed.

Lemma log_start_recorded n others out db :
  recorded out (server_logs (tables (client db))) (log_start n others out db).
Proof.
  split; fields; cbn [log_start ls_out ls_db ls_printed ls_settled ls_threads map];
    [by rewrite app_nil_r|unfold rows_of; simpl; by rewrite app_nil_r|].
  intros t. unfold unsettled. destruct (replicate n Away !! t) as [l|] eqn:E; [|done].
  by apply lookup_replicate in E as [-> _].
Qed.

Lemma log_reachable_inv out logs x y :
  rtc log_step x y -> connected x -> recorded out logs x -> connected y /\ recorded out logs y.
Proof.
  induction 1 as [x|x y z Hxy _ IH]; intros C R; [done|].
  apply IH; [by eapply connected_step|by eapply recorded_step].
Qed.

(** ** Theorems *)

(** C25: However any number of threads interleave their log calls with each
    other and with the pool's other users (whose statements leave
    [server_logs] alone), on a client that works: the console gets the line of
    every call, in the order in which the threads got [mutex_];
    [server_logs] gets the row of every settled call that got a connection and
    whose message the column can hold, in the order of the INSERTs; and of each
    thread, the calls settled so far, with the one it is in the middle of, are
    the calls it has printed, in the same order, none missing, none twice.  So
    once no call is under way the settled calls are the printed ones, up to the
    order between threads, which can differ: see [rows_out_of_order]. *)
Theorem rows_follow_lines n others out db x :
  pool_ok (lent_to others) db -> healthy (client db) ->
  rtc log_step (log_start n others out db) x ->
  ls_out x = out ++ map (fun p => log_line p.2) (ls_printed x) /\
  server_logs (tables (client (ls_db x))) =
    server_logs (tables (client db)) ++ rows_of (ls_settled x) /\
  (forall t, calls_of t (ls_printed x) =
     calls_of t (map fst (ls_settled x)) ++ unsettled (ls_threads x) t) /\
  (Forall (eq Away) (ls_threads x) -> ls_printed x ≡ₚ map fst (ls_settled x)).
Proof.
  intros Hok Hh Hr. destruct (log_reachable_inv out (server_logs (tables (client db))) _ _ Hr)
    as [_ [El Er Ec]]; [by apply log_start_connected|apply log_start_recorded|].
  split; [done|]. split; [done|]. split; [done|]. intros Ha. apply same_calls_permutation. intros t.
  rewrite Ec. unfold unsettled. destruct (ls_threads x !! t) as [l|] eqn:E; [|by rewrite app_nil_r].
  rewrite <- (Forall_lookup_1 _ _ _ _ Ha E). by rewrite app_nil_r.
Qed.

(** [insert_row] of the sequential [write] is one of the runs. *)
Lemma acquiring_steps t call threads others out db printed settled a' db' :
  threads !! t = Some (Asking call Calling) -> rtc acquire_step (Calling, db) (a', db') ->
  rtc log_step (mkLogSystem threads others out db printed settled)
    (mkLogSystem (<[t := Asking call a']> threads) others out db' printed settled).
Proof.
  intros Hl Hr. remember (Calling, db) as x eqn:Ex. remember (a', db') as y eqn:Ey.
  assert (E : threads = <[t := Asking call x.1]> threads) by (subst; by rewrite list_insert_id).
  assert (Hlt : t < length threads) by (by eapply lookup_lt_Some).
  rewrite E at 1. replace db with x.2 by by subst. replace a' with y.1 by by subst.
  replace db' with y.2 by by subst. clear E Ex Ey Hl.
  induction Hr as [x|x z y [Hc Hne] _ IH]; [done|]. eapply rtc_l; [|exact IH].
  replace (<[t := Asking call z.1]> threads)
    with (<[t := Asking call z.1]> (<[t := Asking call x.1]> threads)) by apply list_insert_insert_eq.
  eapply log_acquires; [by apply list_lookup_insert_eq|done|done].
Qed.

Lemma insert_row_steps lent t call threads others out db printed settled :
  pool_ok lent db -> threads !! t = Some (Asking call Calling) ->
  exists b, rtc log_step (mkLogSystem threads others out db printed settled)
    (mkLogSystem (<[t := Away]> threads) others out (insert_row true call db).2 printed
       (settled ++ [(t, call, b)])).
Proof.
  intros Hok Hl. pose proof (acquiring_steps t call threads others out db printed settled _ _ Hl
    (acquire_runs db)) as Hr. assert (Hlt : t < length threads) by (by eapply lookup_lt_Some).
  unfold insert_row, using_connection, mbind, ST_bind. cbn [negb].
  pose proof (acquire_spec lent db Hok) as W. unfold wp in W.
  destruct (acquire db) as [g d1]. cbn [fst snd] in *.
  destruct W as [[[-> _]|(s & x & h & -> & _ & Hx & Eh)] _].
  - exists false. etransitivity; [exact Hr|]. apply rtc_once. cbn.
    rewrite <- (list_insert_insert_eq threads t Away (Asking call Finished)).
    apply log_gives_up. by apply list_lookup_insert_eq.
  - exists true. etransitivity; [exact Hr|]. cbn [after_acquire guard_connection_].
    assert (Hg : guard_get (mkGuard true (Some s)) d1 = (Some h, d1)).
    { unfold guard_get, mbind, ST_bind, read_slot. simpl. rewrite Hx. by rewrite Eh. }
    rewrite Hg. destruct (on_client _ d1) as [r d2] eqn:E2.
    destruct (guard_reset _ d2) as [g' d3] eqn:E3. cbn [snd].
    eapply rtc_l; [eapply log_inserts; [by apply list_lookup_insert_eq|done|done]|].
    rewrite list_insert_insert_eq. apply rtc_once.
    rewrite <- (list_insert_insert_eq threads t Away (Storing s)).
    eapply log_returns; [by apply list_lookup_insert_eq|done].
Qed.
End invariant.

(** ** A run *)

Definition first_call : LogCall := mkLogCall "2024-01-01 12:00:00" Info "first".
Definition second_call : LogCall := mkLogCall "2024-01-01 12:00:00" Warn "second".

Abbreviation toy_logging := (@log_start (@toy_mysql plain_text) 2 [] [] toy_pool).
Abbreviation toy_inserted call db := ((@insert_row (@toy_mysql plain_text) true call db).2).

(** Both threads print, and the second is the first to get to the database:
    the rows are the other way round than the lines. *)
Lemma rows_out_of_order :
  exists x, rtc (@log_step (@toy_mysql plain_text) toy_view) toy_logging x /\
    Forall (eq Away) (ls_threads x) /\
    ls_out x = [bs "2024-01-01 12:00:00 [INFO] first"; bs "2024-01-01 12:00:00 [WARN] second"] /\
    server_logs (@tables _ (@toy_view plain_text) (client (ls_db x))) =
      [mkLogRow "WARN" "second"; mkLogRow "INFO" "first"].
Proof.
  pose proof (serves_ok _ toy_pool_serves) as Hok.
  destruct (@insert_row_steps (@toy_mysql plain_text) toy_view toy_protocol []
    1 second_call [Asking first_call Calling; Asking second_call Calling] []
    (map log_line [first_call; second_call]) toy_pool [(0, first_call); (1, second_call)] [] Hok eq_refl)
    as [b R1].
  change (<[1 := Away]> [Asking first_call Calling; Asking second_call Calling])
    with [Asking first_call Calling; Away] in R1.
  cbn [app] in R1.
  assert (Hok1 : @pool_ok (@toy_mysql plain_text) toy_view [] (toy_inserted second_call toy_pool)).
  { pose proof (@using_connection_balanced (@toy_mysql plain_text) toy_view toy_protocol unit [] tt _
      toy_pool Hok (@insert_log_on_balanced (@toy_mysql plain_text) toy_view toy_protocol
        (level_to_string (call_level second_call)) (call_message second_call)))
      as W. apply W. }
  destruct (@insert_row_steps (@toy_mysql plain_text) toy_view toy_protocol []
    0 first_call [Asking first_call Calling; Away] [] (map log_line [first_call; second_call])
    (toy_inserted second_call toy_pool) [(0, first_call); (1, second_call)] [(1, second_call, b)] Hok1 eq_refl)
    as [b' R2].
  change (<[0 := Away]> [Asking first_call Calling; Away]) with [Away; Away] in R2.
  eexists. split.
  - eapply rtc_l; [exact (log_prints 0 first_call [Away; Away] [] [] toy_pool [] [] eq_refl)|].
    eapply rtc_l; [exact (log_prints 1 second_call [Asking first_call Calling; Away] []
      [log_line first_call] toy_pool [(0, first_call)] [] eq_refl)|].
    etransitivity; [exact R1|exact R2].
  - split; [by repeat constructor|]. split; vm_compute; reflexivity.
Qed.

Lemma rows_follow_lines_witness :
  exists x, rtc (@log_step (@toy_mysql plain_text) toy_view) toy_logging x /\
    server_logs (@tables _ (@toy_view plain_text) (client (ls_db x))) =
      [mkLogRow "WARN" "second"; mkLogRow "INFO" "first"] /\
    ls_printed x ≡ₚ map fst (ls_settled x).
Proof.
  destruct rows_out_of_order as (x & Hr & Ha & _ & Hrows). exists x. split; [exact Hr|].
  split; [exact Hrows|].
  destruct (@rows_follow_lines (@toy_mysql plain_text) toy_view toy_protocol plain_text plain_text_spec
    toy_tables_view toy_tables_spec 2 [] [] toy_pool x) as (_ & _ & _ & Hp);
    [exact (serves_ok _ toy_pool_serves)|exact (serves_healthy _ toy_pool_serves)|exact Hr|].
  exact (Hp Ha).
Defined.
