(* ===== verification/Storage.v ===== *)
(** * Storage: what the chat service asks of the four stores

    [ChatService] holds references to a [UserStore], a [GroupStore], a
    [GroupMemberStore] and a [MessageStore], each of which has a memory and a
    MySQL mode behind the same methods.  The class [Storage] lists the methods
    the service calls, on one state; [StorageSpec] is the contract they keep,
    stated on three views of that state; [memory_storage] is the composition
    of the memory modes, and [memory_storage_spec] shows that it keeps it. *)

From S2P Require Import Prelude.
From S2P Require Import CStd.
From S2P Require Import Message.
From S2P Require Import UserStore.
From S2P Require Import GroupStore.
From S2P Require Import MessageStore.
Open Scope N_scope.

(** ** The methods *)

Class Storage : Type := {
  World : Type;
  user_store_register_user : bytes -> bytes -> ST World RegisterResult;
  user_store_verify_login : bytes -> bytes -> ST World (option UserRecord);
  user_store_find_user_by_username : bytes -> ST World (option UserRecord);
  user_store_find_user_by_id : N -> ST World (option UserRecord);
  group_store_create_group : bytes -> N -> ST World CreateGroupResult;
  member_store_join_group : N -> N -> ST World GroupMemberResult;
  member_store_leave_group : N -> N -> ST World GroupMemberResult;
  member_store_is_group_member : N -> N -> ST World bool;
  member_store_load_group_members : N -> ST World (list N);
  member_store_load_user_groups : N -> ST World (list N);
  message_store_append : Message -> ST World StoredMessage;
  message_store_direct_history_page : N -> N -> N -> N -> ST World (list StoredMessage);
  message_store_group_history_page : N -> N -> N -> ST World (list StoredMessage);
  message_store_unread_page : N -> list N -> N -> N -> ST World (list StoredMessage);
}.

(** ** The views *)

Class StorageView `{Storage} : Type := {
  (** The id of an account. *)
  account : World -> bytes -> option N;
  (** Does the password open the account? *)
  credentials : World -> bytes -> bytes -> bool;
  (** Is the user in the group? *)
  in_group : World -> N -> N -> bool;
  (** The messages stored so far, oldest first. *)
  messages : World -> list Message;
  (** At most [n] operations have drawn an id, and the state is consistent. *)
  storage_ok : N -> World -> Prop;
}.

(** Two states that no view tells apart. *)
Record same_view `{StorageView} (w w' : World) : Prop := {
  same_account n : account w' n = account w n;
  same_credentials n p : credentials w' n p = credentials w n p;
  same_in_group g u : in_group w' g u = in_group w g u;
  same_messages : messages w' = messages w;
}.

(** [op] answers as [P] says and changes nothing visible. *)
Definition reads `{StorageView} {A} (op : ST World A) (P : World -> A -> Prop) : Prop :=
  forall n w r w', storage_ok n w -> op w = (r, w') ->
  P w r /\ same_view w w' /\ storage_ok n w'.

(** Ids can still be drawn: the 64-bit counters do not wrap. *)
Definition room (n : N) : Prop := n + 3 < u64_modulus.

(** The log as a [MessageStore], for the page specifications. *)
Definition message_log `{StorageView} (w : World) : MessageStore := mkMessageStore (messages w).

(** ** The contract *)

Class StorageSpec `{StorageView} : Prop := {
  storage_ok_le n n' w : storage_ok n w -> n <= n' -> storage_ok n' w;
  account_inj n w a b i :
    storage_ok n w -> account w a = Some i -> account w b = Some i -> a = b;
  credentials_account n w a p :
    storage_ok n w -> credentials w a p = true -> exists i, account w a = Some i;

  register_user_spec n w u p r w' :
    storage_ok n w -> room n -> user_store_register_user u p w = (r, w') ->
    storage_ok (n + 1) w' /\
    if register_success r then
      account w u = None /\ u <> [] /\
      (forall a, account w' a = if bool_decide (a = u) then Some (register_user_id r)
                                else account w a) /\
      (forall a q, a <> u -> credentials w' a q = credentials w a q) /\
      credentials w' u p = true /\
      (forall g v, in_group w' g v = in_group w g v) /\
      messages w' = messages w
    else same_view w w';

  verify_login_spec u p :
    reads (user_store_verify_login u p) (fun w r =>
      match r with
      | Some user => credentials w u p = true /\ user_username user = u /\
                     account w u = Some (user_id user)
      | None => credentials w u p = false
      end);
  find_user_by_username_spec u :
    reads (user_store_find_user_by_username u) (fun w r =>
      match r with
      | Some user => user_username user = u /\ account w u = Some (user_id user)
      | None => account w u = None
      end);
  find_user_by_id_spec' i :
    reads (user_store_find_user_by_id i) (fun w r =>
      match r with
      | Some user => user_id user = i /\ account w (user_username user) = Some i
      | None => forall a, account w a <> Some i
      end);

  create_group_spec n w name owner r w' :
    storage_ok n w -> room n -> group_store_create_group name owner w = (r, w') ->
    storage_ok (n + 1) w' /\ same_view w w' /\
    if create_success r then group_name (create_group_record r) = name else create_reason r <> [];
  join_group_spec n w g u r w' :
    storage_ok n w -> member_store_join_group g u w = (r, w') ->
    storage_ok n w' /\
    if member_success r then
      (forall a, account w' a = account w a) /\
      (forall a q, credentials w' a q = credentials w a q) /\
      (forall g' u', in_group w' g' u' = bool_decide (g' = g /\ u' = u) || in_group w g' u') /\
      messages w' = messages w
    else same_view w w' /\ member_reason r <> [];
  leave_group_spec n w g u r w' :
    storage_ok n w -> member_store_leave_group g u w = (r, w') ->
    storage_ok n w' /\
    if member_success r then
      in_group w g u = true /\
      (forall a, account w' a = account w a) /\
      (forall a q, credentials w' a q = credentials w a q) /\
      (forall g' u', in_group w' g' u' =
                     negb (bool_decide (g' = g /\ u' = u)) && in_group w g' u') /\
      messages w' = messages w
    else same_view w w' /\ member_reason r <> [];
  is_group_member_spec g u :
    reads (member_store_is_group_member g u) (fun w r => r = in_group w g u);
  load_group_members_spec g :
    reads (member_store_load_group_members g) (fun w r =>
      NoDup r /\ forall u, u ∈ r <-> in_group w g u = true);
  load_user_groups_spec u :
    reads (member_store_load_user_groups u) (fun w r => forall g, g ∈ r <-> in_group w g u = true);

  append_spec n w m r w' :
    storage_ok n w -> room n -> message_store_append m w = (r, w') ->
    storage_ok (n + 1) w' /\ stored_id r = N.of_nat (S (length (messages w))) /\
    (forall a, account w' a = account w a) /\
    (forall a q, credentials w' a q = credentials w a q) /\
    (forall g u, in_group w' g u = in_group w g u) /\
    messages w' = messages w ++ [m];
  direct_history_page_spec' u p limit before :
    reads (message_store_direct_history_page u p limit before) (fun w r =>
      r = take (N.to_nat (default_limit limit))
            (history_before (is_direct_between u p) before (message_log w)));
  group_history_page_spec' g limit before :
    reads (message_store_group_history_page g limit before) (fun w r =>
      r = take (N.to_nat (default_limit limit))
            (history_before (is_group_message g) before (message_log w)));
  unread_page_spec' u gs last limit :
    reads (message_store_unread_page u gs last limit) (fun w r =>
      r = take (N.to_nat (default_limit limit))
            (unread_after (is_unread u (list_to_set gs)) last (message_log w)));
}.

(** ** Being indistinguishable is an equivalence the views respect *)

Section same_view.
Context `{StorageView}.

#[export] Instance same_view_equivalence : Equivalence same_view.
Proof.
  split.
  - intros w. by split.
  - intros w w' []. by split.
  - intros w w' w'' [] []. split; intros; etrans; eauto.
Qed.

#[export] Instance account_proper : Proper (same_view ==> eq ==> eq) account.
Proof. intros w w' E a _ <-. symmetry. apply (same_account _ _ E). Qed.

#[export] Instance credentials_proper : Proper (same_view ==> eq ==> eq ==> eq) credentials.
Proof. intros w w' E a _ <- p _ <-. symmetry. apply (same_credentials _ _ E). Qed.

#[export] Instance in_group_proper : Proper (same_view ==> eq ==> eq ==> eq) in_group.
Proof. intros w w' E g _ <- u _ <-. symmetry. apply (same_in_group _ _ E). Qed.

#[export] Instance messages_proper : Proper (same_view ==> eq) messages.
Proof. intros w w' E. symmetry. apply (same_messages _ _ E). Qed.

#[export] Instance message_log_proper : Proper (same_view ==> eq) message_log.
Proof. intros w w' E. unfold message_log. by rewrite E. Qed.
End same_view.

(** ** The memory mode *)

Section memory.
Context `{OpenSSL}.

Record MemoryWorld : Type := mkMemoryWorld {
  mw_users : UserStore;
  mw_groups : GroupStore;
  mw_members : GroupMemberStore;
  mw_messages : MessageStore;
  mw_entropy : Entropy;
}.

Definition memory_start (e : Entropy) : MemoryWorld :=
  mkMemoryWorld no_users no_groups no_members (mkMessageStore []) e.

(** A method of one store, as a step of the whole. *)
Definition on_users {A} (op : ST (UserStore * Entropy) A) : ST MemoryWorld A := fun w =>
  let '(r, (users, e)) := op (mw_users w, mw_entropy w) in
  (r, mkMemoryWorld users (mw_groups w) (mw_members w) (mw_messages w) e).
Definition on_group_store {A} (op : ST GroupStore A) : ST MemoryWorld A := fun w =>
  let '(r, groups) := op (mw_groups w) in
  (r, mkMemoryWorld (mw_users w) groups (mw_members w) (mw_messages w) (mw_entropy w)).
Definition on_members {A} (op : ST GroupMemberStore A) : ST MemoryWorld A := fun w =>
  let '(r, members) := op (mw_members w) in
  (r, mkMemoryWorld (mw_users w) (mw_groups w) members (mw_messages w) (mw_entropy w)).
Definition on_messages {A} (op : ST MessageStore A) : ST MemoryWorld A := fun w =>
  let '(r, messages) := op (mw_messages w) in
  (r, mkMemoryWorld (mw_users w) (mw_groups w) (mw_members w) messages (mw_entropy w)).

#[export] Instance memory_storage : Storage := {
  World := MemoryWorld;
  user_store_register_user u p := on_users (register_user u p);
  user_store_verify_login u p := gets (fun w => verify_login u p (mw_users w));
  user_store_find_user_by_username u := gets (fun w => find_user_by_username u (mw_users w));
  user_store_find_user_by_id i := gets (fun w => find_user_by_id i (mw_users w));
  group_store_create_group name owner := on_group_store (create_group name owner);
  member_store_join_group g u := on_members (join_group g u);
  member_store_leave_group g u := on_members (leave_group g u);
  member_store_is_group_member g u := gets (fun w => is_group_member g u (mw_members w));
  member_store_load_group_members g := gets (fun w => load_group_members g (mw_members w));
  member_store_load_user_groups u := gets (fun w => load_user_groups u (mw_members w));
  message_store_append m := on_messages (append m);
  message_store_direct_history_page u p limit before :=
    gets (fun w => direct_history_page u p limit before (mw_messages w));
  message_store_group_history_page g limit before :=
    gets (fun w => group_history_page g limit before (mw_messages w));
  message_store_unread_page u gs last limit :=
    gets (fun w => unread_page u gs last limit (mw_messages w));
}.

#[export] Instance memory_view : StorageView := {
  account w u := user_id <$> us_users_by_username_ (mw_users w) !! u;
  credentials w u p := match verify_login u p (mw_users w) with Some _ => true | None => false end;
  in_group w g u := is_group_member g u (mw_members w);
  messages w := messages_ (mw_messages w);
  storage_ok n w :=
    users_ok (mw_users w) /\ groups_ok (mw_groups w) /\
    1 <= us_next_memory_id_ (mw_users w) <= n + 1 /\
    1 <= next_group_id_ (mw_groups w) <= n + 1;
}.

(** *** The memory mode keeps the contract *)
Lemma reads_gets {A} (f : World -> A) (P : World -> A -> Prop) :
  (forall n w, storage_ok n w -> P w (f w)) -> reads (gets f) P.
Proof. intros Hf n w r w' Hw [= <- <-]. split; [by eapply Hf|]. by split. Qed.

Lemma storage_room_users n (w : MemoryWorld) :
  storage_ok n w -> room n -> users_room (mw_users w).
Proof. unfold room, users_room. intros (_ & _ & ? & _) ?. lia. Qed.

Lemma storage_room_groups n (w : MemoryWorld) :
  storage_ok n w -> room n -> groups_room (mw_groups w).
Proof. unfold room, groups_room. intros (_ & _ & _ & ?) ?. lia. Qed.

Lemma memory_account_inj n (w : MemoryWorld) a b i :
  storage_ok n w -> account w a = Some i -> account w b = Some i -> a = b.
Proof.
  intros (U & _) Ha Hb. simpl in Ha, Hb.
  apply fmap_Some in Ha as (ra & Ha & ->), Hb as (rb & Hb & E).
  by destruct (users_ok_id_inj _ a b ra rb U Ha Hb E).
Qed.

Lemma memory_register_spec {Hspec : OpenSSLSpec} n (w w' : MemoryWorld) u p r :
  storage_ok n w -> room n -> user_store_register_user u p w = (r, w') ->
  storage_ok (n + 1) w' /\
  if register_success r then
    account w u = None /\ u <> [] /\
    (forall a, account w' a = if bool_decide (a = u) then Some (register_user_id r)
                              else account w a) /\
    (forall a q, a <> u -> credentials w' a q = credentials w a q) /\
    credentials w' u p = true /\
    (forall g v, in_group w' g v = in_group w g v) /\
    messages w' = messages w
  else same_view w w'.
Proof.
  intros Hw Hr E. cbn in E. unfold on_users in E.
  destruct (register_user u p (mw_users w, mw_entropy w)) as [r1 [users e]] eqn:Er.
  injection E as <- <-.
  pose proof (storage_room_users n w Hw Hr) as Hroom. destruct Hw as (U & G & Hu & Hg).
  pose proof (register_user_ok _ _ _ _ _ _ _ U Hroom Er) as U'.
  pose proof (register_user_next _ _ _ _ _ _ _ Hroom Er) as Hn.
  split; [split; [done|split; [done|]]; simpl in *; lia|].
  apply register_user_cases in Er
    as [(-> & _ & _ & ->)|(h & -> & Hid & Hune & Hp & _ & Hnone & Hh & Eh & ->)]; [done|].
  rewrite Hid. simpl. rewrite Hnone. repeat split; try done.
  - intros a. rewrite lookup_insert. case_decide; case_bool_decide; by subst.
  - intros a q Ha. unfold verify_login, find_user_by_username. simpl.
    by rewrite lookup_insert_ne.
  - unfold verify_login, find_user_by_username. simpl. rewrite lookup_insert_eq. simpl.
    by rewrite (verify_own_hash _ _ _ _ Eh Hh).
Qed.

Lemma memory_create_group_spec n (w w' : MemoryWorld) name owner r :
  storage_ok n w -> room n -> group_store_create_group name owner w = (r, w') ->
  storage_ok (n + 1) w' /\ same_view w w' /\
  if create_success r then group_name (create_group_record r) = name else create_reason r <> [].
Proof.
  intros Hw Hr E. cbn in E. unfold on_group_store in E.
  destruct (create_group name owner (mw_groups w)) as [r1 groups] eqn:Er.
  injection E as <- <-.
  pose proof (storage_room_groups n w Hw Hr) as Hroom. destruct Hw as (U & G & Hu & Hg).
  pose proof (create_group_ok _ _ _ _ _ G Hroom Er) as G'.
  apply create_group_cases in Er as [(_ & -> & Hw & ->)|(_ & -> & Hrec & _ & Hnx)].
  - split; [split; [done|split; [done|]]; simpl in *; lia|done].
  - destruct Hroom. unfold u64_succ, to_u64 in Hnx. rewrite N.mod_small in Hnx by done.
    split; [split; [done|split; [done|]]; simpl in *; lia|]. split; [done|by rewrite Hrec].
Qed.

Lemma memory_leave_group_spec n (w w' : MemoryWorld) g u r :
  storage_ok n w -> member_store_leave_group g u w = (r, w') ->
  storage_ok n w' /\
  if member_success r then
    in_group w g u = true /\
    (forall a, account w' a = account w a) /\
    (forall a q, credentials w' a q = credentials w a q) /\
    (forall g' u', in_group w' g' u' =
                   negb (bool_decide (g' = g /\ u' = u)) && in_group w g' u') /\
    messages w' = messages w
  else same_view w w' /\ member_reason r <> [].
Proof.
  intros (U & G & Hu & Hg) E. cbn in E. unfold on_members in E.
  destruct (leave_group g u (mw_members w)) as [r1 members] eqn:Er. injection E as <- <-.
  split; [split; [done|split; [done|]]; simpl in *; lia|].
  assert (Hm : members = (leave_group g u (mw_members w)).2) by (by rewrite Er).
  apply leave_group_cases in Er. simpl. destruct (is_group_member g u (mw_members w)).
  - rewrite Er. repeat split. intros g' u'. rewrite Hm. apply is_group_member_leave.
  - destruct Er as (-> & -> & ->). done.
Qed.

#[export] Instance memory_storage_spec {Hspec : OpenSSLSpec} : StorageSpec.
Proof.
  split.
  - intros n n' w (U & G & Hu & Hg) Hn. split; [done|split; [done|]]; simpl in *; lia.
  - intros n w a b i. apply memory_account_inj.
  - intros n w a p _. simpl. destruct (verify_login a p (mw_users w)) as [user|] eqn:E; [|done].
    intros _. apply verify_login_found in E as [-> _]. by exists (user_id user).
  - intros n w u p r w'. apply memory_register_spec.
  - intros u p. apply reads_gets. intros n w (U & _). simpl.
    destruct (verify_login u p (mw_users w)) as [user|] eqn:E; [|done].
    apply verify_login_found in E as [E _]. destruct (users_by_name _ U _ _ E) as [<- _].
    by rewrite E.
  - intros u. apply reads_gets. intros n w (U & _). unfold find_user_by_username. simpl.
    destruct (us_users_by_username_ (mw_users w) !! u) as [user|] eqn:E; [|done].
    by destruct (users_by_name _ U _ _ E) as [<- _].
  - intros i. apply reads_gets. intros n w (U & _). simpl.
    destruct (find_user_by_id i (mw_users w)) as [user|] eqn:E.
    + apply find_user_by_id_spec in E as [-> <-]; done.
    + intros a Ha. apply fmap_Some in Ha as (user & Ha & ->).
      destruct (users_by_name _ U _ _ Ha) as [Hn _]. rewrite <- Hn in Ha.
      by rewrite (proj2 (find_user_by_id_spec _ _ _ U) (conj Ha eq_refl)) in E.
  - intros n w name owner r w'. apply memory_create_group_spec.
  - intros n w g u r w' (U & G & Hu & Hg) [= <- <-].
    split; [split; [done|split; [done|]]; simpl in *; lia|]. simpl.
    repeat split. intros g' u'. apply is_group_member_join.
  - intros n w g u r w'. apply memory_leave_group_spec.
  - intros g u. by apply reads_gets.
  - intros g. apply reads_gets. intros n w _. split; [apply load_group_members_NoDup|].
    intros u. apply elem_of_load_group_members.
  - intros u. apply reads_gets. intros n w _ g. apply elem_of_load_user_groups.
  - intros n w m r w' (U & G & Hu & Hg) _ [= <- <-].
    split; [split; [done|split; [done|]]; simpl in *; lia|]. simpl. repeat split.
    rewrite length_app. simpl. lia.
  - intros u p limit before. apply reads_gets. intros n w _. simpl.
    rewrite direct_history_page_spec. unfold message_log. simpl. by destruct (mw_messages w).
  - intros g limit before. apply reads_gets. intros n w _. simpl.
    rewrite group_history_page_spec. unfold message_log. simpl. by destruct (mw_messages w).
  - intros u gs last limit. apply reads_gets. intros n w _. simpl.
    rewrite unread_page_spec. unfold message_log. simpl. by destruct (mw_messages w).
Qed.

Lemma memory_start_ok (e : Entropy) : storage_ok 0 (memory_start e).
Proof.
  split; [apply users_ok_no_users|]. split; [intros i g; simpl; by rewrite lookup_empty|].
  simpl. lia.
Qed.
End memory.
