(* ===== verification/StorageDb.v ===== *)
(** * StorageDb: the four stores in MySQL mode

    The MySQL modes of the stores behind the interface [Storage] of the chat
    service: one pool for all of them, and the message store's copy of the log.
    A service run is a sequence of calls; here is what they do when the
    database does not answer, and what becomes of connections and statements
    whatever it answers.  [StorageRefinement.v] is about a database that works. *)

From S2P Require Import Prelude.
From S2P Require Import SqlTables.
From S2P Require Import MySqlClient.
From S2P Require Import ToyServer.
From S2P Require Import ServerConfig.
From S2P Require Import MySqlConnectionPool.
From S2P Require Import PoolSpec.
From S2P Require Import PoolTheorems.
From S2P Require Import UserStore.
From S2P Require Import UserStoreDb.
From S2P Require Import GroupStore.
From S2P Require Import GroupStoreDb.
From S2P Require Import Message.
From S2P Require Import MessageStore.
From S2P Require Import MessageStoreDb.
From S2P Require Import Storage.
Open Scope N_scope.

(** ** The stores *)

Record MySqlWorld `{OpenSSL} `{MySql} : Type := mkMySqlWorld {
  dbw_log : MessageStore;
  dbw_db : Db;
  dbw_entropy : Entropy;
}.

Section stores.
Context `{OpenSSL} `{MySql}.

Definition on_pool {A} (op : ST Db A) : ST MySqlWorld A := fun w =>
  let '(r, db) := op (dbw_db w) in (r, mkMySqlWorld _ _ (dbw_log w) db (dbw_entropy w)).
Definition on_accounts {A} (op : ST (Db * Entropy) A) : ST MySqlWorld A := fun w =>
  let '(r, (db, e)) := op (dbw_db w, dbw_entropy w) in (r, mkMySqlWorld _ _ (dbw_log w) db e).
Definition on_log {A} (op : ST MessageDb A) : ST MySqlWorld A := fun w =>
  let '(r, (log, db)) := op (dbw_log w, dbw_db w) in (r, mkMySqlWorld _ _ log db (dbw_entropy w)).

(** Not an instance: a theorem says which storage it is about. *)
Definition mysql_storage : Storage := {|
  World := MySqlWorld;
  user_store_register_user u p := on_accounts (mysql_register_user u p);
  user_store_verify_login u p := on_pool (mysql_verify_login u p);
  user_store_find_user_by_username u := on_pool (mysql_find_user_by_username u);
  user_store_find_user_by_id i := on_pool (mysql_find_user_by_id i);
  group_store_create_group name owner := on_pool (mysql_create_group name owner);
  member_store_join_group g u := on_pool (mysql_join_group g u);
  member_store_leave_group g u := on_pool (mysql_leave_group g u);
  member_store_is_group_member g u := on_pool (mysql_is_group_member g u);
  member_store_load_group_members g := on_pool (mysql_load_group_members g);
  member_store_load_user_groups u := on_pool (mysql_load_user_groups u);
  message_store_append m := on_log (mysql_append m);
  message_store_direct_history_page u p limit before :=
    on_log (mysql_direct_history_page u p limit before);
  message_store_group_history_page g limit before :=
    on_log (mysql_group_history_page g limit before);
  message_store_unread_page u gs last limit := on_log (mysql_unread_page u gs last limit);
|}.
End stores.

(** ** Calls *)

Inductive StoreCall : Type :=
  | RegisterUser (username password : bytes)
  | VerifyLogin (username password : bytes)
  | FindUserByUsername (username : bytes)
  | FindUserById (user_id : N)
  | CreateGroup (name : bytes) (owner_id : N)
  | JoinGroup (group_id user_id : N)
  | LeaveGroup (group_id user_id : N)
  | IsGroupMember (group_id user_id : N)
  | LoadGroupMembers (group_id : N)
  | LoadUserGroups (user_id : N)
  | Append (message : Message)
  | DirectHistoryPage (user_id peer_id limit before_id : N)
  | GroupHistoryPage (group_id limit before_id : N)
  | UnreadPage (user_id : N) (group_ids : list N) (last_seen limit : N).

Inductive StoreAnswer : Type :=
  | Registration (r : RegisterResult)
  | Account (r : option UserRecord)
  | GroupCreation (r : CreateGroupResult)
  | Membership (r : GroupMemberResult)
  | Flag (r : bool)
  | Ids (r : list N)
  | Appended (r : StoredMessage)
  | Page (r : list StoredMessage).

Definition perform `{Storage} (c : StoreCall) : ST World StoreAnswer :=
  match c with
  | RegisterUser u p => r ← user_store_register_user u p; mret (Registration r)
  | VerifyLogin u p => r ← user_store_verify_login u p; mret (Account r)
  | FindUserByUsername u => r ← user_store_find_user_by_username u; mret (Account r)
  | FindUserById i => r ← user_store_find_user_by_id i; mret (Account r)
  | CreateGroup name owner => r ← group_store_create_group name owner; mret (GroupCreation r)
  | JoinGroup g u => r ← member_store_join_group g u; mret (Membership r)
  | LeaveGroup g u => r ← member_store_leave_group g u; mret (Membership r)
  | IsGroupMember g u => r ← member_store_is_group_member g u; mret (Flag r)
  | LoadGroupMembers g => r ← member_store_load_group_members g; mret (Ids r)
  | LoadUserGroups u => r ← member_store_load_user_groups u; mret (Ids r)
  | Append m => r ← message_store_append m; mret (Appended r)
  | DirectHistoryPage u p limit before =>
      r ← message_store_direct_history_page u p limit before; mret (Page r)
  | GroupHistoryPage g limit before =>
      r ← message_store_group_history_page g limit before; mret (Page r)
  | UnreadPage u gs last limit => r ← message_store_unread_page u gs last limit; mret (Page r)
  end.

Fixpoint run_calls `{Storage} (calls : list StoreCall) : ST World (list StoreAnswer) :=
  match calls with
  | [] => mret []
  | c :: calls => r ← perform c; rs ← run_calls calls; mret (r :: rs)
  end.

(** What a call answers without the database: the messages of the copy, and
    the stores' error results otherwise. *)
Definition fallback (c : StoreCall) (log : MessageStore) : StoreAnswer :=
  match c with
  | RegisterUser u p =>
      Registration
        (if bool_decide (u = []) || bool_decide (p = []) then
           mkRegisterResult false 0 "username and password are required"
         else if (64 <? length u)%nat then mkRegisterResult false 0 "username too long"
         else database_error)
  | VerifyLogin _ _ | FindUserByUsername _ | FindUserById _ => Account None
  | CreateGroup name _ =>
      GroupCreation (if bool_decide (name = []) then
                       mkCreateGroupResult false no_group "group name is required"
                     else create_group_error)
  | JoinGroup _ _ | LeaveGroup _ _ => Membership member_error
  | IsGroupMember _ _ => Flag false
  | LoadGroupMembers _ | LoadUserGroups _ => Ids []
  | Append m => Appended (append m log).1
  | DirectHistoryPage u p limit before => Page (direct_history_page u p limit before log)
  | GroupHistoryPage g limit before => Page (group_history_page g limit before log)
  | UnreadPage u gs last limit => Page (unread_page u gs last limit log)
  end.

Definition logged (c : StoreCall) (log : MessageStore) : MessageStore :=
  match c with Append m => (append m log).2 | _ => log end.

(** ** Without a connection *)
Lemma default_limit_twice limit : default_limit (default_limit limit) = default_limit limit.
Proof. unfold default_limit. by destruct (limit =? 0) eqn:E; rewrite ?E. Qed.

(** The methods behind the interface. *)
Ltac store_methods :=
  cbn [user_store_register_user user_store_verify_login user_store_find_user_by_username
       user_store_find_user_by_id group_store_create_group member_store_join_group
       member_store_leave_group member_store_is_group_member member_store_load_group_members
       member_store_load_user_groups message_store_append message_store_direct_history_page
       message_store_group_history_page message_store_unread_page].

Section fallback.
Context `{OpenSSL} `{MySql}.

Lemma or_memory_none {A} (query : MYSQL -> ST Client A) scan log db :
  available_ (pool db) = [] -> or_memory query scan (log, db) = (scan log, (log, db)).
Proof. intros Ea. unfold or_memory. by rewrite using_connection_none. Qed.

Lemma perform_fallback (w : MySqlWorld) (c : StoreCall) :
  available_ (pool (dbw_db w)) = [] ->
  @perform mysql_storage c w =
    (fallback c (dbw_log w), mkMySqlWorld _ _ (logged c (dbw_log w)) (dbw_db w) (dbw_entropy w)).
Proof.
  intros Ea. destruct w as [log db e]. simpl in Ea.
  destruct c; unfold perform, mysql_storage, mbind, ST_bind; store_methods;
    unfold on_accounts, on_pool, on_log; cbn [dbw_log dbw_db dbw_entropy fallback logged].
  - unfold mysql_register_user. case_if; [done|]. case_if; [done|]. by rewrite using_connection_none.
  - unfold mysql_verify_login, mysql_find_user_by_username, mbind, ST_bind.
    by rewrite using_connection_none.
  - unfold mysql_find_user_by_username. by rewrite using_connection_none.
  - unfold mysql_find_user_by_id. by rewrite using_connection_none.
  - unfold mysql_create_group. case_if; [done|]. by rewrite using_connection_none.
  - unfold mysql_join_group. by rewrite using_connection_none.
  - unfold mysql_leave_group. by rewrite using_connection_none.
  - unfold mysql_is_group_member. by rewrite using_connection_none.
  - unfold mysql_load_group_members. by rewrite using_connection_none.
  - unfold mysql_load_user_groups. by rewrite using_connection_none.
  - unfold mysql_append. destruct (append message log) as [s log']. by rewrite using_connection_none.
  - unfold mysql_direct_history_page. rewrite or_memory_none by done.
    unfold direct_history_page. by rewrite default_limit_twice.
  - unfold mysql_group_history_page. rewrite or_memory_none by done.
    unfold group_history_page. by rewrite default_limit_twice.
  - unfold mysql_unread_page. rewrite or_memory_none by done.
    unfold unread_page. by rewrite default_limit_twice.
Qed.
End fallback.

(** ** Whatever the library answers *)

(** No statement is left, the connections lent to others are theirs, and the
    pool is in order. *)
Record kept `{OpenSSL} `{MySqlProtocol} (lent : list Slot) (db db' : Db) : Prop := {
  kept_ok : pool_ok lent db';
  kept_lent s : s ∈ lent -> slots db' !! s = slots db !! s;
  kept_statements : statements (client db') = statements (client db);
}.

Section keeping.
Context `{OpenSSL} `{MySqlProtocol}.

Lemma using_connection_kept {A} lent (without : A) work db :
  pool_ok lent db -> (forall h, balanced h (work h)) ->
  wp (using_connection without work) (fun _ => kept lent db) db.
Proof.
  intros Hok Hb. eapply wp_mono; [by apply using_connection_balanced|].
  by intros r d (? & ? & ?).
Qed.

Lemma kept_refl lent db : pool_ok lent db -> kept lent db db.
Proof. by split. Qed.

Lemma kept_trans lent a b c : kept lent a b -> kept lent b c -> kept lent a c.
Proof.
  intros [_ S1 T1] [Hok S2 T2]. split; [done| |congruence]. intros s Hs. by rewrite S2, S1.
Qed.

Lemma on_pool_kept {A} lent (op : ST Db A) w :
  wp op (fun _ => kept lent (dbw_db w)) (dbw_db w) ->
  wp (on_pool op) (fun _ w' => kept lent (dbw_db w) (dbw_db w')) w.
Proof. unfold wp, on_pool. by destruct (op (dbw_db w)). Qed.

Lemma or_memory_kept {A} lent (query : MYSQL -> ST Client A) scan w :
  pool_ok lent (dbw_db w) -> (forall h, balanced h (query h)) ->
  wp (on_log (or_memory query scan)) (fun _ w' => kept lent (dbw_db w) (dbw_db w')) w.
Proof.
  intros Hok Hb. unfold wp, on_log, or_memory.
  pose proof (using_connection_kept lent None
    (fun mysql => messages ← query mysql; mret (Some messages)) (dbw_db w) Hok) as Hk.
  unfold wp in Hk. destruct (using_connection _ _ _) as [r db]. apply Hk.
  intros h. apply balanced_bind; [done|]. intros a. apply balanced_ret.
Qed.

Lemma mysql_register_kept lent u p w :
  pool_ok lent (dbw_db w) ->
  wp (on_accounts (mysql_register_user u p)) (fun _ w' => kept lent (dbw_db w) (dbw_db w')) w.
Proof.
  intros Hok. unfold wp, on_accounts, mysql_register_user. pose proof (kept_refl _ _ Hok).
  case_if; [done|]. case_if; [done|].
  pose proof (using_connection_kept lent (database_error, dbw_entropy w)
    (register_on_connection u p (dbw_entropy w)) (dbw_db w) Hok) as Hk. unfold wp in Hk.
  cbn [dbw_db dbw_entropy].
  destruct (using_connection _ _ _) as [[r e] db]. apply Hk. apply register_on_connection_balanced.
Qed.

Lemma mysql_append_kept lent m w :
  pool_ok lent (dbw_db w) ->
  wp (on_log (mysql_append m)) (fun _ w' => kept lent (dbw_db w) (dbw_db w')) w.
Proof.
  intros Hok. unfold wp, on_log, mysql_append. destruct (append m (dbw_log w)) as [s log].
  pose proof (using_connection_kept lent s (insert_on_connection m s) (dbw_db w) Hok) as Hk.
  unfold wp in Hk. destruct (using_connection _ _ _) as [r db]. apply Hk.
  intros h. apply insert_on_connection_balanced.
Qed.

Lemma mysql_verify_login_kept lent u p db :
  pool_ok lent db -> wp (mysql_verify_login u p) (fun _ => kept lent db) db.
Proof.
  intros Hok. unfold mysql_verify_login. apply wp_bind. eapply wp_mono.
  { apply using_connection_kept; [done|]. intros h. apply fetch_user_by_username_balanced. }
  intros [user|] d Hd; [|done]. by case_if.
Qed.

Lemma mysql_create_group_kept lent name owner db :
  pool_ok lent db -> wp (mysql_create_group name owner) (fun _ => kept lent db) db.
Proof.
  intros Hok. unfold mysql_create_group. case_if; [by apply wp_ret, kept_refl|].
  apply using_connection_kept; [done|]. apply create_group_on_balanced.
Qed.

Lemma wp_answer {S A B} (op : ST S A) (f : A -> B) (P : S -> Prop) s :
  wp op (fun _ => P) s -> wp (r ← op; mret (f r)) (fun _ => P) s.
Proof. intros Hop. apply wp_bind. by eapply wp_mono. Qed.

Lemma perform_kept lent c w :
  pool_ok lent (dbw_db w) ->
  wp (@perform mysql_storage c) (fun _ w' => kept lent (dbw_db w) (dbw_db w')) w.
Proof.
  intros Hok. destruct c; unfold perform, mysql_storage; store_methods;
    apply wp_answer; try apply on_pool_kept.
  - by apply mysql_register_kept.
  - by apply mysql_verify_login_kept.
  - apply using_connection_kept; [done|]. intros h. apply fetch_user_by_username_balanced.
  - apply using_connection_kept; [done|]. intros h. apply fetch_user_by_id_balanced.
  - by apply mysql_create_group_kept.
  - apply using_connection_kept; [done|]. apply join_group_on_balanced.
  - apply using_connection_kept; [done|]. apply leave_group_on_balanced.
  - apply using_connection_kept; [done|]. apply is_group_member_on_balanced.
  - apply using_connection_kept; [done|]. apply load_group_members_on_balanced.
  - apply using_connection_kept; [done|]. apply load_user_groups_on_balanced.
  - by apply mysql_append_kept.
  - apply or_memory_kept; [done|]. apply direct_page_on_balanced.
  - apply or_memory_kept; [done|]. apply group_page_on_balanced.
  - apply or_memory_kept; [done|]. intros h. apply execute_unread_query_balanced.
Qed.

Lemma run_calls_kept lent calls w :
  pool_ok lent (dbw_db w) ->
  wp (@run_calls mysql_storage calls) (fun _ w' => kept lent (dbw_db w) (dbw_db w')) w.
Proof.
  revert w. induction calls as [|c calls IH]; intros w Hok; [by apply wp_ret, kept_refl|].
  cbn [run_calls]. apply wp_bind. eapply wp_mono; [by apply perform_kept|]. intros r w1 K1.
  apply wp_bind. eapply wp_mono; [by apply IH, (kept_ok _ _ _ K1)|]. intros rs w2 K2.
  apply wp_ret. exact (kept_trans _ _ _ _ K1 K2).
Qed.
End keeping.

(** ** Theorems *)

(** Whatever the client library answers, error or row, a sequence of store calls
    leaves the pool in order with the connections lent to others untouched,
    frees every statement it allocated, gives back every connection it was
    lent, and touches no freed object. *)
Theorem stores_keep_pool `{OpenSSL} `{MySqlProtocol} (lent : list Slot) (calls : list StoreCall)
    (w : MySqlWorld) :
  pool_ok lent (dbw_db w) ->
  wp (@run_calls mysql_storage calls) (fun _ w' =>
    pool_ok lent (dbw_db w') /\
    (forall s, s ∈ lent -> slots (dbw_db w') !! s = slots (dbw_db w) !! s) /\
    available_ (pool (dbw_db w')) ++ lent ≡ₚ connections_ (pool (dbw_db w')) /\
    statements (client (dbw_db w')) = statements (client (dbw_db w)) /\
    use_after_free (dbw_db w') = false) w.
Proof.
  intros Hok. eapply wp_mono; [by apply run_calls_kept|]. intros rs w' [Hok' Hl Hs].
  pose proof Hok' as [Ho Hp _ _ _ _]. split_and!; try done. apply Ho.
Qed.

(** What a sequence of calls answers without the database. *)
Fixpoint fallback_run (calls : list StoreCall) (log : MessageStore) : list StoreAnswer * MessageStore :=
  match calls with
  | [] => ([], log)
  | c :: calls =>
      let '(rs, log') := fallback_run calls (logged c log) in (fallback c log :: rs, log')
  end.

(** C16: While the pool has no connection to give, because it never started, was
    shut down, or lent them all, the service degrades and nothing breaks: every
    call gives its documented error, and messages are still stored in and read
    from the copy; database, pool and random generator stay exactly as they
    are. *)
Theorem degraded_service `{OpenSSL} `{MySql} (calls : list StoreCall) (w : MySqlWorld) :
  available_ (pool (dbw_db w)) = [] ->
  @run_calls mysql_storage calls w =
    ((fallback_run calls (dbw_log w)).1,
     mkMySqlWorld _ _ (fallback_run calls (dbw_log w)).2 (dbw_db w) (dbw_entropy w)).
Proof.
  revert w. induction calls as [|c calls IH]; intros w Ea; [by destruct w|].
  cbn [run_calls fallback_run]. unfold mbind, ST_bind. rewrite perform_fallback by done.
  rewrite IH by done. cbn [dbw_log dbw_db dbw_entropy]. by destruct (fallback_run calls _).
Qed.

Lemma stores_keep_pool_witness :
  wp (@run_calls (@mysql_storage toy_openssl (@toy_mysql plain_text))
        [RegisterUser "alice" "secret"; UnreadPage 1 [1; 2] 0 10])
    (fun _ w' => use_after_free (dbw_db w') = false)
    (@mkMySqlWorld toy_openssl (@toy_mysql plain_text) no_messages toy_lent tt).
Proof.
  eapply wp_mono; [apply (@stores_keep_pool toy_openssl (@toy_mysql plain_text) toy_view toy_protocol
    [0%N]); exact toy_lent_ok|].
  intros rs w' (_ & _ & _ & _ & Hu). exact Hu.
Defined.

Lemma degraded_service_witness :
  (@run_calls (@mysql_storage toy_openssl (@toy_mysql plain_text))
     [RegisterUser "alice" "secret"; Append (mkMessage GroupChat 1 7 "hi"); GroupHistoryPage 7 0 0]
     (@mkMySqlWorld toy_openssl (@toy_mysql plain_text) no_messages toy_new tt)).1 =
  [Registration database_error; Appended (mkStoredMessage 1 GroupChat 1 7 "hi" []);
   Page [mkStoredMessage 1 GroupChat 1 7 "hi" []]].
Proof.
  rewrite (@degraded_service toy_openssl (@toy_mysql plain_text)) by reflexivity. reflexivity.
Defined.
