(* ===== verification/StorageRefinement.v ===== *)
(** * StorageRefinement: a working database behaves like the memory mode

    [same_store] relates a MySQL store whose pool serves ([PoolServe.v]) to a
    memory store with the same content; every admissible call keeps it and
    answers alike, up to the creation times only the tables have. *)

From S2P Require Import Prelude.
From S2P Require Import SqlTables.
From S2P Require Import MySqlClient.
From S2P Require Import MySqlTables.
From S2P Require Import MySqlConnectionPool.
From S2P Require Import PoolSpec.
From S2P Require Import PoolServe.
From S2P Require Import UserStore.
From S2P Require Import UserStoreDb.
From S2P Require Import GroupStore.
From S2P Require Import GroupStoreDb.
From S2P Require Import Message.
From S2P Require Import MessageStore.
From S2P Require Import MessageStoreDb.
From S2P Require Import DbSpec.
From S2P Require Import TableRefinement.
From S2P Require Import MessageRefinement.
From S2P Require Import Storage.
From S2P Require Import StorageDb.
Open Scope N_scope.

(** ** A database that works *)

(** The tables hold the stores of the memory mode, in rows the buffers can
    hold. *)
Record tables_refine `{OpenSSL} (db : Database) (m : MemoryWorld) : Prop := {
  tr_rows : rows_ok db;
  tr_users : users_refine db (mw_users m);
  tr_groups_ok : groups_ok (mw_groups m);
  tr_groups : groups_refine db (mw_groups m);
  tr_members : members_refine db (mw_members m);
  tr_messages : messages_refine db (mw_messages m);
}.

(** A MySQL store with a pool that serves, and the memory store with the same
    content. *)
Record same_store `{OpenSSL} `{MySqlTables} (w : MySqlWorld) (m : MemoryWorld) : Prop := {
  ss_serves : serviceable (dbw_db w);
  ss_tables : tables_refine (tables (client (dbw_db w))) m;
  ss_log : dbw_log w = mw_messages m;
  ss_entropy : dbw_entropy w = mw_entropy m;
}.

(** Two stored messages that differ in the creation time at most. *)
Definition timeless_answer (a : StoreAnswer) : StoreAnswer :=
  match a with
  | Page l => Page (map timeless l)
  | _ => a
  end.

(** The calls on which the modes agree: names with one spelling, texts MySQL
    can store, references it can follow, ids that fit the columns, and counters
    that do not wrap. *)
Definition admissible `{OpenSSL} `{SqlText} (m : MemoryWorld) (c : StoreCall) : Prop :=
  match c with
  | RegisterUser u _ =>
      well_formed u = true /\ spelled_alone u (mw_users m) /\ users_room (mw_users m)
  | VerifyLogin u _ => spelled_alone u (mw_users m)
  | FindUserByUsername u => spelled_alone u (mw_users m)
  | CreateGroup name owner =>
      fits_varchar 128 name = true /\ owner < u64_modulus /\
      is_Some (us_usernames_by_id_ (mw_users m) !! owner) /\ groups_room (mw_groups m)
  | JoinGroup g u =>
      g < u64_modulus /\ u < u64_modulus /\ is_Some (us_usernames_by_id_ (mw_users m) !! u)
  | Append msg =>
      fits_text (msg_body msg) = true /\ small_ids msg /\
      msg_sender_id msg < u64_modulus /\ msg_receiver_id msg < u64_modulus /\
      N.of_nat (length (messages_ (mw_messages m))) + 1 < u64_modulus
  | DirectHistoryPage u p _ _ => u < 2 ^ 32 /\ p < 2 ^ 32
  | _ => True
  end.

Fixpoint admissible_run `{OpenSSL} `{SqlText} (m : MemoryWorld) (calls : list StoreCall) : Prop :=
  match calls with
  | [] => True
  | c :: calls => admissible m c /\ admissible_run (@perform memory_storage c m).2 calls
  end.

#[export] Instance admissible_dec `{OpenSSL} `{SqlText} m c : Decision (admissible m c).
Proof.
  destruct c; unfold admissible, spelled_alone, users_room, groups_room, small_ids; apply _.
Defined.

#[export] Instance admissible_run_dec `{OpenSSL} `{SqlText} m calls : Decision (admissible_run m calls).
Proof.
  revert m. induction calls as [|c calls IH]; intros m; cbn [admissible_run]; apply _.
Defined.

Section simulation.
Context `{Hssl : OpenSSL, Hspecs : !OpenSSLSpec, Hview : MySqlView, Hprot : !MySqlProtocol,
          Htext : SqlText, Htexts : !SqlTextSpec,
          Htab : !MySqlTables, Hspec : !MySqlTablesSpec}.

Implicit Types (w : MySqlWorld) (m : MemoryWorld).

(** A call of the MySQL mode does what the call of the memory mode does. *)
Definition simulated (c : StoreCall) : Prop := forall w m,
  same_store w m -> admissible m c ->
  wp (@perform mysql_storage c) (fun r w' =>
    timeless_answer r = (@perform memory_storage c m).1 /\
    same_store w' (@perform memory_storage c m).2) w.

(** Work on the tables in the scope of a connection. *)
Lemma serve {A} (without : A) work (P : A -> Database -> Prop) db :
  serviceable db -> (forall h, balanced h (work h)) ->
  (forall h c, ready_for h c -> tables c = tables (client db) ->
     wp (work h) (fun r c' => ready_for h c' /\ P r (tables c')) c) ->
  wp (using_connection without work) (fun r db' => serviceable db' /\ P r (tables (client db'))) db.
Proof.
  intros Hs Hb Hw. apply using_connection_serves; [done|done|]. intros h c Hh Hin Et.
  eapply wp_mono; [by apply Hw|]. by intros r c' [[Hh' _] HP].
Qed.

(** Work that only reads. *)
Lemma serve_read {A} (without : A) work r db :
  serviceable db -> (forall h, balanced h (work h)) ->
  (forall h c, ready_for h c -> tables c = tables (client db) ->
     answers h (work h) c r (tables c)) ->
  wp (using_connection without work) (fun r' db' =>
    r' = r /\ serviceable db' /\ tables (client db') = tables (client db)) db.
Proof.
  intros Hs Hb Hw. eapply wp_mono.
  { apply (serve _ _ (fun r' t => r' = r /\ t = tables (client db)) db Hs Hb).
    intros h c Hr Et. eapply wp_mono; [by apply Hw|]. rewrite Et. by intros r' c' (-> & ? & ->). }
  by intros r' db' (? & -> & ?).
Qed.

Lemma same_store_reads w m db :
  same_store w m -> serviceable db -> tables (client db) = tables (client (dbw_db w)) ->
  same_store (mkMySqlWorld _ _ (dbw_log w) db (dbw_entropy w)) m.
Proof. intros [_ Ht Hl He] Hs Et. split; simpl; [done|by rewrite Et|done|done]. Qed.

Lemma on_pool_read {A} w m (op : ST Db A) r :
  same_store w m ->
  wp op (fun r' db' => r' = r /\ serviceable db' /\
    tables (client db') = tables (client (dbw_db w))) (dbw_db w) ->
  wp (on_pool op) (fun r' w' => r' = r /\ same_store w' m) w.
Proof.
  intros Hs Hop. unfold wp, on_pool in *. destruct (op (dbw_db w)) as [r' db'].
  cbn [fst snd] in *.
  destruct Hop as (-> & Hs' & Et). split; [done|]. by eapply same_store_reads.
Qed.

Lemma wp_perform {A} (op : ST MySqlWorld A) (f : A -> StoreAnswer) Q w :
  wp op (fun r w' => Q (f r) w') w -> wp (r ← op; mret (f r)) Q w.
Proof. intros Hop. apply wp_bind. by eapply wp_mono. Qed.

(** *** Calls that read *)

(** A call that only reads: one lemma about its query is enough. *)
Lemma simulated_read {A} (op : ST Db A) (f : A -> StoreAnswer) w m r Q :
  same_store w m ->
  wp op (fun r' db' => r' = r /\ serviceable db' /\
    tables (client db') = tables (client (dbw_db w))) (dbw_db w) ->
  (forall w', same_store w' m -> Q (f r) w') ->
  wp (r ← on_pool op; mret (f r)) Q w.
Proof.
  intros Hs Hop HQ. apply wp_perform. eapply wp_mono; [by eapply on_pool_read|].
  intros r' w' [-> Hs']. by apply HQ.
Qed.

Lemma read_user_by_username w m u :
  same_store w m -> spelled_alone u (mw_users m) ->
  wp (mysql_find_user_by_username u) (fun r db' => r = find_user_by_username u (mw_users m) /\
    serviceable db' /\ tables (client db') = tables (client (dbw_db w))) (dbw_db w).
Proof.
  intros [Hs Ht _ _] Hu. apply serve_read; [done|intros h; apply fetch_user_by_username_balanced|].
  intros h c Hr Et. rewrite Et, <- (refine_find_by_username _ _ u (tr_users _ _ Ht) Hu), <- Et.
  apply fetch_user_by_username_spec; [done|]. rewrite Et. apply Ht.
Qed.

Lemma simulated_find_by_username u : simulated (FindUserByUsername u).
Proof.
  intros w m Hs Hu. eapply simulated_read; [done|by apply read_user_by_username|]. by intros w' Hs'.
Qed.

Lemma simulated_verify_login u p : simulated (VerifyLogin u p).
Proof.
  intros w m Hs Hu. eapply (simulated_read _ _ w m (verify_login u p (mw_users m))); [done| |by intros w' Hs'].
  apply wp_bind. eapply wp_mono; [by apply (read_user_by_username w m)|].
  intros r db (-> & Hs' & Et). unfold verify_login.
  destruct (find_user_by_username u (mw_users m)); [|done]. by case_if.
Qed.

Lemma simulated_find_by_id i : simulated (FindUserById i).
Proof.
  intros w m Hs _. eapply (simulated_read _ _ w m (find_user_by_id i (mw_users m))); [done| |by intros w' Hs'].
  destruct Hs as [Hs Ht _ _]. apply serve_read; [done|intros h; apply fetch_user_by_id_balanced|].
  intros h c Hr Et. rewrite Et, <- (refine_find_by_id _ _ i (tr_users _ _ Ht)), <- Et.
  apply fetch_user_by_id_spec; [done|]. rewrite Et. apply Ht.
Qed.

Lemma simulated_is_member g u : simulated (IsGroupMember g u).
Proof.
  intros w m Hs _. eapply (simulated_read _ _ w m (is_group_member g u (mw_members m)));
    [done| |by intros w' Hs'].
  destruct Hs as [Hs Ht _ _]. apply serve_read; [done|apply is_group_member_on_balanced|].
  intros h c Hr Et. rewrite (mr_member _ _ (tr_members _ _ Ht)), <- Et.
  by apply is_group_member_on_spec.
Qed.

Lemma simulated_load_members g : simulated (LoadGroupMembers g).
Proof.
  intros w m Hs _. eapply (simulated_read _ _ w m (load_group_members g (mw_members m)));
    [done| |by intros w' Hs'].
  destruct Hs as [Hs Ht _ _]. apply serve_read; [done|apply load_group_members_on_balanced|].
  intros h c Hr Et. rewrite <- (refine_load_members _ _ g (tr_members _ _ Ht)), <- Et.
  apply load_group_members_on_spec; [done|]. rewrite Et. apply Ht.
Qed.

Lemma simulated_load_groups u : simulated (LoadUserGroups u).
Proof.
  intros w m Hs _. eapply (simulated_read _ _ w m (load_user_groups u (mw_members m)));
    [done| |by intros w' Hs'].
  destruct Hs as [Hs Ht _ _]. apply serve_read; [done|apply load_user_groups_on_balanced|].
  intros h c Hr Et. rewrite <- (refine_load_groups _ _ u (tr_members _ _ Ht)), <- Et.
  apply load_user_groups_on_spec; [done|]. rewrite Et. apply Ht.
Qed.

(** *** Pages *)

(** A page call: the query answers from the tables, the copy is not read. *)
Lemma simulated_page (query : MYSQL -> ST Client (list StoredMessage)) scan w m r page Q :
  same_store w m -> (forall h, balanced h (query h)) ->
  (forall h c, ready_for h c -> tables c = tables (client (dbw_db w)) ->
     answers h (query h) c r (tables c)) ->
  map timeless r = page ->
  (forall w', map timeless r = page -> same_store w' m -> Q (Page r) w') ->
  wp (r ← on_log (or_memory query scan); mret (Page r)) Q w.
Proof.
  intros Hs Hb Hq Er HQ. apply wp_perform. unfold wp, on_log, or_memory.
  pose proof (serve_read None (fun mysql => messages ← query mysql; mret (Some messages)) (Some r)
    (dbw_db w) (ss_serves _ _ Hs)) as Hw. unfold wp in Hw.
  destruct (using_connection _ _ _) as [found db]. cbn [fst snd] in *.
  destruct Hw as (-> & Hs' & Et).
  - intros h. apply balanced_bind; [done|]. intros a. apply balanced_ret.
  - intros h c Hr Et. eapply answers_bind; [by apply Hq|]. intros c' Hr' Et'. by apply wp_ret.
  - apply HQ; [done|]. by eapply same_store_reads.
Qed.

Lemma page_rows_ok db (l : list MessageRow) :
  rows_ok db -> (forall r, r ∈ l -> r ∈ message_rows db) -> Forall message_row_ok l.
Proof.
  intros Hok Hl. apply Forall_forall. intros r Hr.
  pose proof (message_rows_ok _ Hok) as Hm. rewrite Forall_forall in Hm. by apply Hm, Hl.
Qed.

Lemma page_selection_rows t c before limit db r :
  r ∈ page_selection t c before limit db -> r ∈ message_rows db.
Proof.
  unfold page_selection, order_by_id. intros Hr%subseteq_take.
  rewrite elem_of_reverse, merge_sort_Permutation in Hr.
  by apply elem_of_filter_In in Hr as [].
Qed.

Lemma unread_selection_rows u gs last limit db r :
  r ∈ unread_selection u gs last limit db -> r ∈ message_rows db.
Proof.
  unfold unread_selection, order_by_id. intros Hr%subseteq_take.
  rewrite merge_sort_Permutation in Hr.
  by apply elem_of_filter_In in Hr as [].
Qed.

Lemma simulated_direct_page u p limit before : simulated (DirectHistoryPage u p limit before).
Proof.
  intros w m Hs [Hu Hp]. pose proof (ss_tables _ _ Hs) as Ht.
  pose proof (refine_direct_page _ _ u p before limit (tr_messages _ _ Ht) Hu Hp) as Er.
  rewrite <- map_map in Er. eapply simulated_page; [done| | |exact Er|intros w' E Hs'; exact (conj (f_equal Page E) Hs')].
  { intros h. apply direct_page_on_balanced. }
  intros h c Hr Et. rewrite <- Et. pose proof (tr_rows _ _ Ht) as Hok. rewrite <- Et in Hok.
  unfold direct_page_on, cursor. case_if;
    [change select_direct_page_before with (sql_text SelectDirectPageBefore)
    |change select_direct_page with (sql_text SelectDirectPage)];
    (apply execute_history_page_query_spec; [done| |done]);
    (eapply page_rows_ok; [done|]; apply page_selection_rows).
Qed.

Lemma simulated_group_page g limit before : simulated (GroupHistoryPage g limit before).
Proof.
  intros w m Hs _. pose proof (ss_tables _ _ Hs) as Ht.
  pose proof (refine_group_page _ _ g before limit (tr_messages _ _ Ht)) as Er.
  rewrite <- map_map in Er. eapply simulated_page; [done| | |exact Er|intros w' E Hs'; exact (conj (f_equal Page E) Hs')].
  { intros h. apply group_page_on_balanced. }
  intros h c Hr Et. rewrite <- Et. pose proof (tr_rows _ _ Ht) as Hok. rewrite <- Et in Hok.
  unfold group_page_on, cursor. case_if;
    [change select_group_page_before with (sql_text SelectGroupPageBefore)
    |change select_group_page with (sql_text SelectGroupPage)];
    (apply execute_history_page_query_spec; [done| |done]);
    (eapply page_rows_ok; [done|]; apply page_selection_rows).
Qed.

Lemma simulated_unread_page u gs last limit : simulated (UnreadPage u gs last limit).
Proof.
  intros w m Hs _. pose proof (ss_tables _ _ Hs) as Ht.
  pose proof (refine_unread _ _ u gs last limit (tr_messages _ _ Ht)) as Er.
  rewrite <- (map_map (fun r => stored_row (type_of_row r) r)) in Er.
  eapply simulated_page; [done| | |exact Er|intros w' E Hs'; exact (conj (f_equal Page E) Hs')].
  { intros h. apply execute_unread_query_balanced. }
  intros h c Hr Et. rewrite <- Et. pose proof (tr_rows _ _ Ht) as Hok. rewrite <- Et in Hok.
  apply execute_unread_query_spec; [done| |intros now; apply run_unread].
  eapply page_rows_ok; [done|]. apply unread_selection_rows.
Qed.

(** *** Calls that write *)

(** Rows added to one table, the others as they were. *)
Lemma rows_ok_users db rows auto :
  rows_ok db -> Forall user_row_ok rows -> rows_ok (set_users (users db ++ rows) auto db).
Proof. intros [] Hr. split; simpl; try done. by apply Forall_app_2. Qed.
Lemma rows_ok_groups db rows auto :
  rows_ok db -> Forall group_row_ok rows -> rows_ok (set_groups (groups db ++ rows) auto db).
Proof. intros [] Hr. split; simpl; try done. by apply Forall_app_2. Qed.
Lemma rows_ok_messages db rows auto :
  rows_ok db -> Forall message_row_ok rows ->
  rows_ok (set_messages (messages_columns db) (message_rows db ++ rows) auto db).
Proof. intros [] Hr. split; simpl; try done. by apply Forall_app_2. Qed.
Lemma rows_ok_members db rows :
  rows_ok db -> Forall member_row_ok rows -> rows_ok (set_members rows db).
Proof. intros [] Hr. split; simpl; done. Qed.

(** The relations look at their own table only. *)
Lemma users_refine_tables db db' st :
  users_refine db st -> users db' = users db -> users_auto db' = users_auto db -> users_refine db' st.
Proof. intros [] E1 E2. split; rewrite ?E1, ?E2; done. Qed.
Lemma groups_refine_tables db db' st :
  groups_refine db st -> groups db' = groups db -> groups_auto db' = groups_auto db ->
  groups_refine db' st.
Proof. intros [] E1 E2. split; rewrite ?E1, ?E2; done. Qed.
Lemma members_refine_tables db db' st :
  members_refine db st -> group_members db' = group_members db -> members_refine db' st.
Proof. intros [] E. split; rewrite ?E; done. Qed.
Lemma messages_refine_tables db db' st :
  messages_refine db st -> message_rows db' = message_rows db -> messages_auto db' = messages_auto db ->
  messages_refine db' st.
Proof. intros [] E1 E2. split; rewrite ?E1, ?E2; done. Qed.

Lemma simulated_register u p : simulated (RegisterUser u p).
Proof.
  intros w m [Hs Ht Hl He] (Hw & Hal & Hroom).
  destruct (register_user u p (mw_users m, mw_entropy m)) as [r [st e']] eqn:Er.
  assert (Em : @perform memory_storage (RegisterUser u p) m = (Registration r,
    mkMemoryWorld st (mw_groups m) (mw_members m) (mw_messages m) e')).
  { cbn [perform memory_storage user_store_register_user]. unfold on_users, mbind, ST_bind.
    by rewrite Er. }
  rewrite Em. cbn [fst snd]. apply wp_perform.
  cbn [mysql_storage user_store_register_user]. unfold wp, on_accounts, mysql_register_user.
  destruct (bool_decide (u = []) || bool_decide (p = [])) eqn:Eb.
  { unfold register_user in Er. rewrite Eb in Er. injection Er as <- <- <-. destruct m. by split. }
  destruct (64 <? length u)%nat eqn:El.
  { unfold register_user in Er. rewrite Eb, El in Er. injection Er as <- <- <-. destruct m. by split. }
  pose proof (serve (database_error, dbw_entropy w) (register_on_connection u p (dbw_entropy w))
    (fun r t => register_outcome u p (dbw_entropy w) (tables (client (dbw_db w))) r.1 r.2 t)
    (dbw_db w) Hs) as Hk. unfold wp in Hk.
  destruct (using_connection _ _ _) as [[r2 e2] db2]. cbn [fst snd] in *. destruct Hk as [Hs2 Ho].
  - intros h. apply register_on_connection_balanced.
  - intros h c Hr Et. pose proof (tr_rows _ _ Ht) as Hok. rewrite <- Et in *.
    by apply register_on_connection_spec.
  - apply orb_false_iff in Eb as [Eu%bool_decide_eq_false Ep%bool_decide_eq_false].
    rewrite He in Ho. destruct (refine_register u p _ _ _ _ _ _ _ _ _
      (tr_users _ _ Ht) Hroom Eu Ep ltac:(lia) Hw Hal Er Ho) as (-> & -> & Hu & Hdb).
    split; [done|]. split; [done| |done|done].
    cbn [fst snd dbw_db].
    destruct Ht as [T1 T2 T3 T4 T5 T6], Hdb as [E|(h & Hh & E)]; rewrite E in *; [by split|].
    split; try done; [|by eapply groups_refine_tables|by eapply members_refine_tables
      |by eapply messages_refine_tables].
    apply rows_ok_users; [done|]. apply Forall_singleton.
    unfold user_row_ok. simpl. rewrite (ur_next _ _ T2). destruct Hroom. lia.
Qed.

(** The three stores whose methods run on the pool alone. *)
Lemma simulated_on_pool {A} (op : ST Db A) (f : A -> StoreAnswer) w m r m' Q :
  same_store w m ->
  wp op (fun r' db' => r' = r /\ serviceable db' /\ tables_refine (tables (client db')) m') (dbw_db w) ->
  mw_messages m' = mw_messages m -> mw_entropy m' = mw_entropy m ->
  (forall w', same_store w' m' -> Q (f r) w') ->
  wp (r ← on_pool op; mret (f r)) Q w.
Proof.
  intros [_ _ Hl He] Hop El Ee HQ. apply wp_perform. unfold wp, on_pool in *.
  destruct (op (dbw_db w)) as [r' db']. cbn [fst snd] in *. destruct Hop as (-> & Hs & Ht).
  apply HQ. split; simpl; congruence.
Qed.

Lemma simulated_create_group name owner : simulated (CreateGroup name owner).
Proof.
  intros w m Hs (Hn & Ho & Hex & Hroom). destruct (create_group name owner (mw_groups m)) as [r st] eqn:Er.
  assert (Em : @perform memory_storage (CreateGroup name owner) m = (GroupCreation r,
    mkMemoryWorld (mw_users m) st (mw_members m) (mw_messages m) (mw_entropy m))).
  { cbn [perform memory_storage group_store_create_group]. unfold on_group_store, mbind, ST_bind.
    by rewrite Er. }
  rewrite Em. cbn [fst snd].
  eapply (simulated_on_pool _ _ w m r (mkMemoryWorld (mw_users m) st (mw_members m)
    (mw_messages m) (mw_entropy m))); [done| |reflexivity|reflexivity|by intros w' Hs'].
  destruct Hs as [Hs Ht _ _]. unfold mysql_create_group.
  destruct (decide (name = [])) as [Ename|Hne].
  { unfold create_group in Er. rewrite bool_decide_eq_true_2 in Er by done. injection Er as <- <-.
    rewrite bool_decide_eq_true_2 by done. apply wp_ret. split; [done|]. split; [done|].
    by destruct Ht, m. }
  rewrite bool_decide_eq_false_2 by done. eapply wp_mono.
  { apply (serve _ _ (fun r' t => r' = r /\ tables_refine t (mkMemoryWorld (mw_users m) st
      (mw_members m) (mw_messages m) (mw_entropy m))) _ Hs); [apply create_group_on_balanced|].
    intros h c Hr Et. eapply wp_mono; [by apply create_group_on_spec|].
    intros r' c' [Hr' Hrun]. split; [done|]. revert Hrun. rewrite Et. simpl.
    destruct Ht as [T1 T2 T3 T4 T5 T6]. rewrite Hn.
    rewrite (proj2 (refine_user_exists _ _ owner T2) Hex). simpl.
    intros (-> & now & Hnow & ->).
    destruct (refine_create_group _ _ name owner now r st T4 T3 Hroom Hne Er) as [-> Hg].
    split; [done|]. split; try done.
    - apply rows_ok_groups; [done|]. apply Forall_singleton.
      unfold group_row_ok. simpl. rewrite (gr_next _ _ T4). destruct Hroom. lia.
    - eapply users_refine_tables; done.
    - eapply create_group_ok; done.
    - by eapply members_refine_tables.
    - by eapply messages_refine_tables. }
  by intros r' db' (? & -> & ?).
Qed.

(** What the calls on members leave of the tables. *)
Lemma tables_refine_members db m rows st :
  tables_refine db m -> Forall member_row_ok rows -> members_refine (set_members rows db) st ->
  tables_refine (set_members rows db)
    (mkMemoryWorld (mw_users m) (mw_groups m) st (mw_messages m) (mw_entropy m)).
Proof.
  intros [T1 T2 T3 T4 T5 T6] Hr Hst. split; try done; [by apply rows_ok_members
    |by eapply users_refine_tables|by eapply groups_refine_tables|by eapply messages_refine_tables].
Qed.

Lemma simulated_join g u : simulated (JoinGroup g u).
Proof.
  intros w m Hs (Hg & Hu & Hex).
  set (m' := mkMemoryWorld (mw_users m) (mw_groups m) (join_group g u (mw_members m)).2
               (mw_messages m) (mw_entropy m)).
  change (@perform memory_storage (JoinGroup g u) m) with
    (Membership (join_group g u (mw_members m)).1, m'). cbn [fst snd].
  eapply (simulated_on_pool _ _ w m _ m'); [done| |reflexivity|reflexivity|by intros w' Hs'].
  destruct Hs as [Hs Ht _ _]. eapply wp_mono.
  { apply (serve _ _ (fun r' t => r' = (join_group g u (mw_members m)).1 /\ tables_refine t m') _ Hs);
      [apply join_group_on_balanced|].
    intros h c Hr Et. eapply wp_mono; [by apply join_group_on_spec|].
    intros r' c' (-> & Hr' & ->). split; [done|]. rewrite Et.
    pose proof (proj2 (refine_user_exists _ _ u (tr_users _ _ Ht)) Hex) as Hue.
    destruct (refine_join _ _ g u (tr_members _ _ Ht) Hue) as [E Hm]. split; [done|].
    case_if; [|apply tables_refine_members; [done| |done]].
    - by destruct Ht.
    - apply Forall_app_2; [apply Ht|]. by apply Forall_singleton. }
  by intros r' db' (? & -> & ?).
Qed.

Lemma simulated_leave g u : simulated (LeaveGroup g u).
Proof.
  intros w m Hs _. destruct (leave_group g u (mw_members m)) as [r st] eqn:Er.
  set (m' := mkMemoryWorld (mw_users m) (mw_groups m) st (mw_messages m) (mw_entropy m)).
  assert (Em : @perform memory_storage (LeaveGroup g u) m = (Membership r, m')).
  { cbn [perform memory_storage member_store_leave_group]. unfold on_members, mbind, ST_bind.
    by rewrite Er. }
  rewrite Em. cbn [fst snd].
  eapply (simulated_on_pool _ _ w m r m'); [done| |reflexivity|reflexivity|by intros w' Hs'].
  destruct Hs as [Hs Ht _ _]. eapply wp_mono.
  { apply (serve _ _ (fun r' t => r' = r /\ tables_refine t m') _ Hs); [apply leave_group_on_balanced|].
    intros h c Hr Et. eapply wp_mono; [by apply leave_group_on_spec|].
    intros r' c' (-> & Hr' & ->). split; [done|]. rewrite Et.
    destruct (refine_leave _ _ g u r st (tr_members _ _ Ht) Er) as [E Hm]. split; [done|].
    apply tables_refine_members; [done|apply Forall_filter_bool, Ht|done]. }
  by intros r' db' (? & -> & ?).
Qed.

Lemma type_text_fits t : fits_varchar 32 (message_type_to_string t) = true.
Proof.
  unfold fits_varchar. rewrite ascii_well_formed.
  - pose proof (characters_le (message_type_to_string t)).
    assert (length (message_type_to_string t) <= 32)%nat by (destruct t; simpl; lia). simpl. lia.
  - destruct t; apply (bool_decide_unpack _); vm_compute; exact I.
Qed.

Lemma message_row_for_ok i now msg :
  i < u64_modulus -> length now = 19%nat -> msg_sender_id msg < u64_modulus ->
  msg_receiver_id msg < u64_modulus -> message_row_ok (row_for i now msg).
Proof.
  intros Hi Hn Hs Hr. unfold message_row_ok, row_for. simpl. split_and!; try done; [lia|].
  destruct (msg_type msg); simpl; lia.
Qed.

Lemma simulated_append msg : simulated (Append msg).
Proof.
  intros w m [Hs Ht Hl He] (Hb & Hsmall & Hsd & Hrc & Hlen).
  destruct (append msg (mw_messages m)) as [r st] eqn:Er.
  assert (Em : @perform memory_storage (Append msg) m = (Appended r,
    mkMemoryWorld (mw_users m) (mw_groups m) (mw_members m) st (mw_entropy m))).
  { cbn [perform memory_storage message_store_append]. unfold on_messages, mbind, ST_bind.
    by rewrite Er. }
  rewrite Em. cbn [fst snd]. apply wp_perform. cbn [mysql_storage message_store_append].
  unfold wp, on_log, mysql_append. rewrite Hl, Er.
  pose proof (serve r (insert_on_connection msg r) (fun r' t => r' = r /\
    tables_refine t (mkMemoryWorld (mw_users m) (mw_groups m) (mw_members m) st (mw_entropy m)))
    (dbw_db w) Hs) as Hk. unfold wp in Hk.
  destruct (using_connection _ _ _) as [r2 db2]. cbn [fst snd] in *. destruct Hk as (Hs2 & -> & Ht2).
  - intros h. apply insert_on_connection_balanced.
  - intros h c Hr Et. eapply wp_mono; [by apply insert_on_connection_spec|].
    intros r' c' [Hr' Hrun]. split; [done|]. rewrite type_text_fits, Hb in Hrun.
    cbn [andb] in Hrun. destruct Hrun as (-> & now & Hnow & ->). rewrite Et.
    destruct Ht as [T1 T2 T3 T4 T5 T6].
    destruct (refine_append _ _ msg now r st T6 Hsmall Hnow Er) as [-> Hm]. split; [done|].
    split; try done; [|by eapply users_refine_tables|by eapply groups_refine_tables
      |by eapply members_refine_tables].
    apply rows_ok_messages; [done|]. apply Forall_singleton, message_row_for_ok; try done.
    by rewrite (ms_next _ _ T6).
  - split; [done|]. by split.
Qed.

Lemma perform_simulated c : simulated c.
Proof.
  destruct c; [apply simulated_register|apply simulated_verify_login|apply simulated_find_by_username
    |apply simulated_find_by_id|apply simulated_create_group|apply simulated_join|apply simulated_leave
    |apply simulated_is_member|apply simulated_load_members|apply simulated_load_groups
    |apply simulated_append|apply simulated_direct_page|apply simulated_group_page
    |apply simulated_unread_page].
Qed.

Lemma run_calls_simulated calls w m :
  same_store w m -> admissible_run m calls ->
  wp (@run_calls mysql_storage calls) (fun rs w' =>
    map timeless_answer rs = (@run_calls memory_storage calls m).1 /\
    same_store w' (@run_calls memory_storage calls m).2) w.
Proof.
  revert w m. induction calls as [|c calls IH]; intros w m Hs; [by intros _|].
  intros [Hc Hcs]. cbn [run_calls]. apply wp_bind.
  eapply wp_mono; [by apply perform_simulated|]. intros r w1 [E1 S1].
  apply wp_bind. unfold mbind, ST_bind.
  destruct (@perform memory_storage c m) as [a m1]. cbn [fst snd] in *.
  eapply wp_mono; [by apply (IH w1 m1)|]. intros rs w2 [E2 S2].
  destruct (@run_calls memory_storage calls m1) as [rs' m2]. cbn [fst snd] in *.
  apply wp_ret. split; [|done]. cbn [map]. by rewrite E1, E2.
Qed.
End simulation.
