(* ===== verification/Startup.v ===== *)
(** * Startup: from the configuration to the stores

    [src/src/app/chat_server_app.cpp]: the constructor of [ChatServerApp] makes
    the pool and hands it to the logger and the stores, whose constructors
    create their tables; [run] serves only if the pool is ready.  The event
    loop itself is an argument of [app_run]: it is the subject of
    [TcpServer.v]. *)

From S2P Require Import Prelude.
From S2P Require Import SqlTables.
From S2P Require Import MySqlClient.
From S2P Require Import MySqlTables.
From S2P Require Import ToyServer.
From S2P Require Import ServerConfig.
From S2P Require Import MySqlConnectionPool.
From S2P Require Import PoolSpec.
From S2P Require Import PoolServe.
From S2P Require Import UserStore.
From S2P Require Import UserStoreDb.
From S2P Require Import GroupStore.
From S2P Require Import GroupStoreDb.
From S2P Require Import Message.
From S2P Require Import MessageStore.
From S2P Require Import MessageStoreDb.
From S2P Require Import DbSpec.
From S2P Require Import TableRefinement.
From S2P Require Import MessageRefinement.
From S2P Require Import Logger.
From S2P Require Import Storage.
From S2P Require Import StorageDb.
From S2P Require Import StorageRefinement.
Open Scope N_scope.

(** ** Operations *)

Section app.
Context `{MySql}.

(** The constructor of [ChatServerApp], as far as the database sees it: its
    members are made in the order of their declarations. *)
Definition open_stores : ST Db unit :=
  open_logger;;
  open_message_store;;
  open_user_store;;
  open_group_store;;
  open_group_member_store.

Definition chat_server_app (config : ServerConfig) : ST Db unit :=
  init (pool_config config);;
  open_stores.

(** The database as the constructor leaves it. *)
Definition started (config : ServerConfig) (c : Client) : Db :=
  (chat_server_app config (new_db c)).2.

(** [ChatServerApp::run]; [start] is [tcp_server_.start()], which has returned
    when it gives [Some] of what it leaves, and is still running when it gives
    [None]; so [run] gives [None] while it is running, and the exit code when it
    returns.  The times are those the logger reads. *)
Definition app_run {A} (before after : bytes) (start : ST Db (option A)) :
    ST LoggerState (option (Z * option A)) := fun '(out, db) =>
  if negb (ready db) then (Some (1%Z, None), (out, db))
  else
    let '(_, (out, db)) := info true before "starting chat server" (out, db) in
    let '(returned, db) := start db in
    match returned with
    | None => (None, (out, db))
    | Some a =>
        let '(_, (out, db)) := info true after "chat server stopped" (out, db) in
        (Some (0%Z, Some a), (out, db))
    end.
End app.

(** ** The schema of [messages] *)

Section schema.
Context `{Hview : MySqlView, Hprot : !MySqlProtocol, Htext : SqlText,
          Htab : !MySqlTables, Hspec : !MySqlTablesSpec}.

(** The tables after [setup_messages]. *)
Definition messages_set_up (db : Database) : Database :=
  run_ddl UpdateConversations (run_ddl AddConversationId (run_ddl AddConversationType
    (run_ddl CreateMessages db))).

Lemma add_column_there name fill db :
  name ∈ messages_columns db -> add_column name fill db = db.
Proof. intros Hin. unfold add_column. by rewrite bool_decide_eq_true_2. Qed.

(** The columns are looked up first, and added if they are missing. *)
Lemma ensure_column h name q fill (k : unit -> ST Client unit) Q c :
  ready_for h c -> N.of_nat (length (messages_columns (tables c))) < u64_modulus ->
  (forall db, run_ddl q db = add_column name fill db) ->
  (forall c', ready_for h c' -> tables c' = run_ddl q (tables c) -> wp (k tt) Q c') ->
  wp (has ← table_column_exists h "messages" name;
      (if negb has then execute_query h (ddl_text q) else mret true);;
      k tt) Q c.
Proof.
  intros Hr Hlen Hq Hk. eapply answers_bind; [by apply table_column_exists_spec|].
  intros c1 Hr1 Et1. case_bool_decide as Hin; cbn [negb].
  - apply wp_bind, wp_ret. apply Hk; [done|]. by rewrite Hq, add_column_there.
  - destruct Hr1 as [Hh1 Hin1]. eapply work_query; [done..|]. intros r c2 Hh2 Hin2 Et2.
    apply Hk; [by split|]. by rewrite Et2, Et1.
Qed.

Lemma add_column_length name fill db :
  (length (messages_columns (add_column name fill db)) <= S (length (messages_columns db)))%nat.
Proof.
  unfold add_column. case_if; [lia|]. cbn [set_messages messages_columns]. rewrite length_app. simpl. lia.
Qed.

Lemma run_ddl_id db q : (q = IndexConversations \/ q = IndexSenders) -> run_ddl q db = db.
Proof. by intros [-> | ->]. Qed.

Lemma setup_messages_spec h c :
  ready_for h c -> N.of_nat (length (messages_columns (tables c))) < u64_modulus - 9 ->
  answers h (setup_messages h) c tt (messages_set_up (tables c)).
Proof.
  intros [Hh Hin] Hlen. unfold answers, setup_messages, ensure_messages_schema.
  change create_messages with (ddl_text CreateMessages). eapply work_query; [done..|].
  intros r c1 Hh1 Hin1 Et1.
  assert (Hlen1 : N.of_nat (length (messages_columns (tables c1))) < u64_modulus - 1).
  { rewrite Et1. cbn [run_ddl]. unfold u64_modulus in *. destruct (messages_columns (tables c)) eqn:E; [simpl; lia|].
    rewrite E. lia. }
  change add_conversation_type with (ddl_text AddConversationType).
  eapply (ensure_column h _ _ _ (fun _ => _)); [done|lia|done|]. intros c2 Hr2 Et2.
  change add_conversation_id with (ddl_text AddConversationId).
  eapply (ensure_column h _ _ _ (fun _ => _)); [done| |done|].
  { rewrite Et2. cbn [run_ddl]. pose proof (add_column_length "conversation_type"
      (fun r => set_conversation 0 (row_conversation_id r) r) (tables c1)). lia. }
  intros c3 [Hh3 Hin3] Et3. change index_conversations with (ddl_text IndexConversations).
  eapply work_query; [done..|]. intros r4 c4 Hh4 Hin4 Et4.
  change index_senders with (ddl_text IndexSenders).
  eapply work_query; [done..|]. intros r5 c5 Hh5 Hin5 Et5.
  change update_conversations with (ddl_text UpdateConversations).
  eapply work_query; [done..|]. intros r6 c6 Hh6 Hin6 Et6. apply wp_ret.
  split; [done|]. split; [done|]. unfold messages_set_up.
  rewrite Et6, Et5, (run_ddl_id _ IndexSenders) by (by right).
  rewrite Et4, (run_ddl_id _ IndexConversations) by (by left).
  by rewrite Et3, Et2, Et1.
Qed.
End schema.

(** *** Migration *)

Section migration.
Context `{Hview : MySqlView, Hprot : !MySqlProtocol, Htext : SqlText,
          Htab : !MySqlTables, Hspec : !MySqlTablesSpec}.

(** The row [append] writes for a message, and the row of a version without
    the conversation columns. *)
Definition written (x : N * bytes * Message) : MessageRow := let '(i, now, m) := x in row_for i now m.

Definition older (r : MessageRow) (x : N * bytes * Message) : Prop :=
  set_conversation 0 0 r = set_conversation 0 0 (written x).

(** The table was left by this version, or by one without the columns. *)
Definition left_by_some_version (db : Database) (l : list (N * bytes * Message)) : Prop :=
  (messages_columns db = all_columns /\ message_rows db = map written l) \/
  (messages_columns db <> [] /\ (bs "conversation_type" ∉ messages_columns db) /\
   (bs "conversation_id" ∉ messages_columns db) /\ Forall2 older (message_rows db) l).

Lemma case_written r x :
  types_apart -> older r x -> set_conversation (case_type r) (case_id r) r = written x.
Proof.
  intros Hd Ho. destruct x as [[i now] m]. unfold older, written, row_for, set_conversation in *.
  destruct r; simpl in *. injection Ho as -> -> -> -> -> ->.
  unfold case_type, case_id, conversation_type_for, conversation_id_for. cbn [row_type row_sender_id row_receiver_id].
  destruct (Hd (msg_type m)) as [-> ->]. do 2 f_equal; by destruct (msg_type m).
Qed.

Lemma older_written x : older (written x) x.
Proof. done. Qed.

Lemma older_filled r x t c : older r x -> older (set_conversation t c r) x.
Proof. done. Qed.

Lemma update_written l :
  types_apart ->
  map (fun r => if row_conversation_type r =? 0 then set_conversation (case_type r) (case_id r) r else r)
    (map written l) = map written l.
Proof.
  intros Hd. rewrite map_map. apply map_ext. intros x. case_if; [|done].
  by apply case_written, older_written.
Qed.

Lemma update_older rows l :
  types_apart -> Forall2 older rows l ->
  map (fun r => if row_conversation_type r =? 0 then set_conversation (case_type r) (case_id r) r else r)
    (map (fun r => set_conversation (row_conversation_type r) 0 r)
       (map (fun r => set_conversation 0 (row_conversation_id r) r) rows)) = map written l.
Proof.
  intros Hd Ho. rewrite !map_map. induction Ho as [|r x rows l Hr Ho IH]; [done|].
  cbn [map]. rewrite IH. f_equal. cbn [set_conversation row_conversation_type N.eqb].
  by apply case_written.
Qed.

(** C17: Whichever version of the program wrote the table, after the constructor
    every row has the conversation columns [append] would have given it, so
    that the page queries find old messages too; nothing else changes. *)
Theorem schema_migration (h : MYSQL) (c : Client) (l : list (N * bytes * Message)) :
  ready_for h c -> types_apart ->
  N.of_nat (length (messages_columns (tables c))) < u64_modulus - 9 ->
  left_by_some_version (tables c) l ->
  wp (setup_messages h) (fun _ c' =>
    ready_for h c' /\ message_rows (tables c') = map written l /\
    bs "conversation_type" ∈ messages_columns (tables c') /\
    bs "conversation_id" ∈ messages_columns (tables c') /\
    messages_auto (tables c') = messages_auto (tables c) /\
    users (tables c') = users (tables c) /\ groups (tables c') = groups (tables c) /\
    group_members (tables c') = group_members (tables c)) c.
Proof.
  intros Hr Hd Hlen Hl. eapply wp_mono; [by apply setup_messages_spec|].
  intros _ c' (_ & Hr' & ->).
  split; [done|]. unfold messages_set_up. destruct Hl as [[Ec El]|(Hne & Ht & Hi & Ho)].
  - assert (E1 : run_ddl CreateMessages (tables c) = tables c) by (cbn [run_ddl]; by rewrite Ec).
    assert (E2 : forall q, q = AddConversationType \/ q = AddConversationId ->
      run_ddl q (tables c) = tables c).
    { intros q [-> | ->]; apply add_column_there; rewrite Ec; set_solver. }
    rewrite E1, (E2 AddConversationType), (E2 AddConversationId) by auto. cbn [run_ddl].
    cbn [set_messages message_rows messages_columns messages_auto users groups group_members].
    rewrite El, update_written, Ec by done. split_and!; (done || set_solver).
  - assert (E1 : run_ddl CreateMessages (tables c) = tables c).
    { cbn [run_ddl]. by destruct (messages_columns (tables c)). }
    rewrite E1. cbn [run_ddl]. unfold add_column. rewrite (bool_decide_eq_false_2 _ Ht).
    cbn [set_messages messages_columns]. rewrite bool_decide_eq_false_2 by set_solver.
    cbn [set_messages message_rows messages_columns messages_auto users groups group_members].
    rewrite (update_older _ l) by done. split_and!; (done || set_solver).
Qed.
End migration.

(** ** Starting *)

Section pool.
Context `{MySqlProtocol}.

(** Work in the scope of a guard does not stop the pool. *)
Lemma using_connection_running {A} lent (without : A) (work : MYSQL -> ST Client A) db :
  pool_ok lent db -> (forall h, balanced h (work h)) ->
  wp (using_connection without work) (fun _ d =>
    pool_ok lent d /\ pool_stopped_ (pool d) = pool_stopped_ (pool db)) db.
Proof.
  intros Hok Hb. apply (using_connection_wp lent); [done| |].
  - intros d Hd [_ _ _ _ _ Hs]. done.
  - intros h d Hh [_ _ _ _ _ Hs]. eapply wp_mono; [by apply Hb|]. intros r c Hc. split; [done|].
    intros d' Hd' [_ _ _ _ _ Hs']. split; [done|]. rewrite Hs'. exact Hs.
Qed.

(** The constructors of logger and stores, on any pool. *)
Lemma open_stores_running db :
  pool_ok [] db ->
  wp open_stores (fun _ db' => pool_ok [] db' /\ pool_stopped_ (pool db') = pool_stopped_ (pool db)) db.
Proof.
  intros Hok. assert (Hb : forall q h, balanced h (execute_query h q;; mret tt)).
  { intros q h. apply balanced_bind; [apply balanced_query|]. intros b. apply balanced_ret. }
  apply wp_bind. eapply wp_mono; [by apply using_connection_running|].
  intros _ d1 (Hok1 & E1). apply wp_bind. eapply wp_mono.
  { apply using_connection_running; [exact Hok1|]. apply setup_messages_balanced. }
  intros _ d2 (Hok2 & E2). apply wp_bind.
  eapply wp_mono; [by apply using_connection_running|]. intros _ d3 (Hok3 & E3).
  apply wp_bind. eapply wp_mono; [by apply using_connection_running|].
  intros _ d4 (Hok4 & E4). eapply wp_mono; [by apply using_connection_running|].
  intros _ d5 (Hok5 & E5). split; [done|congruence].
Qed.

Lemma open_stores_none db :
  available_ (pool db) = [] ->
  open_stores db = (tt, db).
Proof.
  intros Ea. unfold open_stores, open_logger, open_message_store, open_user_store, open_group_store,
    open_group_member_store, mbind, ST_bind. by rewrite !using_connection_none.
Qed.

(** A server that cannot connect gives everything back and says so: if one of
    the pool's connections fails, or the configuration asks for none, the pool
    is not ready, no connection is left open, no table is touched, and [run]
    returns 1 without a line of log or a connection accepted. *)
Theorem failed_start (config : ServerConfig) (c : Client) (before after : bytes)
    (out : list bytes) {A} (start : ST Db (option A)) :
  handles c = ∅ ->
  ready (started config c) = false ->
  handles (client (started config c)) = ∅ /\
  statements (client (started config c)) = statements c /\
  tables (client (started config c)) = tables c /\
  use_after_free (started config c) = false /\
  app_run before after start (out, started config c) = (Some (1%Z, None), (out, started config c)).
Proof.
  intros Eh. pose proof (init_spec (pool_config config) [] (new_db c) (new_db_ok c Eh)) as W.
  unfold started, chat_server_app, mbind, ST_bind. unfold wp in W.
  destruct (init (pool_config config) (new_db c)) as [r d1]. cbn [fst snd] in W.
  destruct W as (Hok1 & -> & Es1 & [Et1 _] & _ & Hr).
  pose proof (po_ready _ _ Hok1) as Hrd. destruct (pool_ready_ (pool d1)) eqn:Er.
  - pose proof (open_stores_running d1 Hok1) as W. unfold wp in W.
    destruct (open_stores d1) as [[] d2]. cbn [fst snd] in *. destruct W as [Hok2 E2].
    pose proof (po_ready _ _ Hok2) as Hrd2. unfold ready. rewrite Hrd2, E2. 
    destruct (pool_stopped_ (pool d1)); done.
  - symmetry in Hrd. apply negb_false_iff in Hrd.
    destruct (stopped_empty _ _ Hok1 Hrd) as (_ & Ea & _ & _).
    rewrite open_stores_none by done. cbn [snd]. intros Hready. split_and!; try done.
    + apply (ok_safe _ _ (po_objects _ _ Hok1)).
    + unfold app_run. by rewrite Hready.
Qed.
End pool.

Section fresh.
Context `{Hssl : OpenSSL, Hspecs : !OpenSSLSpec, Hview : MySqlView, Hprot : !MySqlProtocol,
          Htext : SqlText, Htexts : !SqlTextSpec,
          Htab : !MySqlTables, Hspec : !MySqlTablesSpec}.

(** A constructor that sends one statement. *)
Lemma open_table q db :
  serviceable db ->
  wp (using_connection tt (fun mysql => execute_query mysql (ddl_text q);; mret tt)) (fun _ db' =>
    serviceable db' /\ tables (client db') = run_ddl q (tables (client db))) db.
Proof.
  intros Hs. apply (serve _ _ (fun _ t => t = run_ddl q (tables (client db))) db Hs).
  - intros h. apply balanced_bind; [apply balanced_query|]. intros b. apply balanced_ret.
  - intros h c [Hh Hin] Et. eapply work_query; [done..|]. intros r c' Hh' Hin' Et'.
    apply wp_ret. split; [done|]. by rewrite Et', Et.
Qed.

Lemma open_messages db :
  serviceable db -> N.of_nat (length (messages_columns (tables (client db)))) < u64_modulus - 9 ->
  wp open_message_store (fun _ db' =>
    serviceable db' /\ tables (client db') = messages_set_up (tables (client db))) db.
Proof.
  intros Hs Hl. apply (serve _ _ (fun _ t => t = messages_set_up (tables (client db))) db Hs).
  - apply setup_messages_balanced.
  - intros h c Hr Et. rewrite <- Et in *. eapply wp_mono; [by apply setup_messages_spec|].
    by intros r c' (_ & ? & ->).
Qed.

Lemma open_stores_spec db :
  serviceable db -> N.of_nat (length (messages_columns (tables (client db)))) < u64_modulus - 9 ->
  wp open_stores (fun _ db' =>
    serviceable db' /\ tables (client db') = messages_set_up (tables (client db))) db.
Proof.
  intros Hs Hl. unfold open_stores. apply wp_bind.
  eapply wp_mono; [by apply (open_table CreateServerLogs)|]. intros _ d1 [Hs1 E1]. simpl in E1.
  rewrite <- E1 in *. apply wp_bind. eapply wp_mono; [by apply open_messages|]. intros _ d2 [Hs2 E2].
  apply wp_bind. eapply wp_mono; [by apply (open_table CreateUsers)|]. intros _ d3 [Hs3 E3].
  apply wp_bind. eapply wp_mono; [by apply (open_table CreateGroups)|]. intros _ d4 [Hs4 E4].
  eapply wp_mono; [by apply (open_table CreateGroupMembers)|]. intros _ d5 [Hs5 E5].
  split; [done|]. by rewrite E5, E4, E3, E2.
Qed.

Lemma init_serviceable config c :
  handles c = ∅ -> healthy c ->
  wp (init config) (fun r db => r = true -> serviceable db /\ tables (client db) = tables c) (new_db c).
Proof.
  intros Eh Hc. eapply wp_mono; [apply (init_spec config []), new_db_ok, Eh|].
  intros r db (Hok & -> & _ & [Et Hhe] & Hr) Hready. simpl in Hr. destruct Hr as [Ecfg Hr].
  rewrite Hready in Hr. destruct Hr as (Hpos & Hlen & Hlive).
  assert (Hst : pool_stopped_ (pool db) = false).
  { pose proof (po_ready _ _ Hok) as E. rewrite Hready in E. by destruct (pool_stopped_ (pool db)). }
  split; [|done]. split; [done| |by apply Hhe|done|].
  - intros s Hin. by apply Hlive, (po_slots _ _ Hok).
  - intros Hnil. rewrite Hnil in Hlen. simpl in Hlen.
    unfold positive_pool_config in Hpos. rewrite !andb_true_iff in Hpos. lia.
Qed.

(** A pool that is ready serves the stores, on the tables their constructors
    leave. *)
Lemma started_serviceable config c :
  handles c = ∅ -> healthy c ->
  N.of_nat (length (messages_columns (tables c))) < u64_modulus - 9 ->
  ready (started config c) = true ->
  serviceable (started config c) /\ tables (client (started config c)) = messages_set_up (tables c).
Proof.
  intros Eh Hc Hl. pose proof (init_serviceable (pool_config config) c Eh Hc) as Hi.
  pose proof (init_spec (pool_config config) [] (new_db c) (new_db_ok c Eh)) as Hok.
  unfold started, chat_server_app, mbind, ST_bind, wp in *.
  destruct (init (pool_config config) (new_db c)) as [r d1]. cbn [fst snd] in *.
  destruct Hok as (Hok1 & -> & _). destruct (pool_ready_ (pool d1)) eqn:Er.
  - destruct (Hi eq_refl) as [Hs1 Et1].
    pose proof (open_stores_spec d1 Hs1) as W. unfold wp in W. rewrite Et1 in W.
    destruct (W Hl) as [Hs2 Et2]. by destruct (open_stores d1).
  - pose proof (po_ready _ _ Hok1) as Hrd. rewrite Er in Hrd. symmetry in Hrd.
    apply negb_false_iff in Hrd. destruct (stopped_empty _ _ Hok1 Hrd) as (_ & Ea & _ & _).
    rewrite open_stores_none by done. cbn [snd]. unfold ready. by rewrite Er.
Qed.

Lemma empty_refined e : tables_refine (messages_set_up empty_database) (memory_start e).
Proof.
  split.
  - split; constructor.
  - split; simpl; [apply users_ok_no_users|done|done|constructor|done].
  - intros i g. simpl. by rewrite lookup_empty.
  - by split.
  - split; [done|constructor].
  - split; [done|constructor|done].
Qed.

(** C5: A server started on an empty database that works behaves as in memory mode:
    once the pool is ready, every sequence of admissible calls of the service
    gets the answers of the memory mode started with the same randomness, up to
    the creation times of messages, and ends with the same content. *)
Theorem database_refines_memory (config : ServerConfig) (c : Client) (e : Entropy)
    (calls : list StoreCall) :
  handles c = ∅ -> healthy c -> tables c = empty_database ->
  admissible_run (memory_start e) calls ->
  ready (started config c) = true ->
  map timeless_answer
    (@run_calls mysql_storage calls (mkMySqlWorld _ _ no_messages (started config c) e)).1 =
    (@run_calls memory_storage calls (memory_start e)).1 /\
  same_store (@run_calls mysql_storage calls (mkMySqlWorld _ _ no_messages (started config c) e)).2
    (@run_calls memory_storage calls (memory_start e)).2.
Proof.
  intros Eh Hc Et Hadm Hready.
  destruct (started_serviceable config c Eh Hc) as [Hs Ets]; [by rewrite Et|done|].
  rewrite Et in Ets. apply (run_calls_simulated calls _ _); [|exact Hadm].
  split; simpl; [done| |done|done]. rewrite Ets. apply empty_refined.
Qed.
End fresh.

(** ** Concrete runs *)

Abbreviation toy_started config reachable :=
  (@started (@toy_mysql plain_text) config (toy_client empty_database reachable)).

(** Two accounts, a group, a message to each, and what they read. *)
Definition toy_calls : list StoreCall :=
  [RegisterUser "alice" "secret"; RegisterUser "bob" "hunter2"; RegisterUser "alice" "again";
   VerifyLogin "alice" "secret"; CreateGroup "team" 1; JoinGroup 1 1; JoinGroup 1 2;
   Append (mkMessage DirectChat 1 2 "hi"); Append (mkMessage GroupChat 1 1 "all");
   DirectHistoryPage 2 1 10 0; UnreadPage 2 [1] 0 0; LeaveGroup 1 2; LoadGroupMembers 1].

(** The same on a server that, like MySQL, compares names ignoring case. *)
Abbreviation folding_started config reachable :=
  (@started (@toy_mysql folding_text) config (toy_client empty_database reachable)).

Lemma toy_calls_admissible :
  @admissible_run toy_openssl folding_text (@memory_start toy_openssl tt) toy_calls.
Proof. by apply (bool_decide_unpack _); vm_compute. Qed.

Lemma database_refines_memory_witness :
  ready (folding_started default_config true) = true /\
  map timeless_answer (@run_calls (@mysql_storage toy_openssl (@toy_mysql folding_text)) toy_calls
    (@mkMySqlWorld toy_openssl (@toy_mysql folding_text) no_messages (folding_started default_config true) tt)).1 =
  (@run_calls (@memory_storage toy_openssl) toy_calls (@memory_start toy_openssl tt)).1.
Proof.
  assert (Hr : ready (folding_started default_config true) = true) by (vm_compute; reflexivity).
  split; [exact Hr|].
  exact (proj1 (@database_refines_memory toy_openssl toy_openssl_spec (@toy_mysql folding_text)
    (@toy_view folding_text) toy_protocol folding_text folding_text_spec toy_tables_view
    toy_tables_spec default_config (toy_client empty_database true) tt toy_calls
    eq_refl eq_refl eq_refl toy_calls_admissible Hr)).
Defined.

Lemma failed_start_witness :
  ready (toy_started default_config false) = false /\
  @handles _ (@toy_view plain_text) (client (toy_started default_config false)) = ∅.
Proof.
  assert (Hr : ready (toy_started default_config false) = false) by (vm_compute; reflexivity).
  split; [exact Hr|].
  exact (proj1 (@failed_start (@toy_mysql plain_text) toy_view toy_protocol default_config
    (toy_client empty_database false) [] [] [] unit (mret (Some tt)) eq_refl Hr)).
Defined.

(** A table with one row, left by a version without the conversation columns. *)
Definition old_database : Database :=
  mkDatabase [] 1 [] 1 []
    [bs "id"; bs "created_at"; bs "type"; bs "sender_id"; bs "receiver_id"; bs "body"]
    [set_conversation 0 0 (row_for 1 toy_time (mkMessage DirectChat 2 1 "old"))] 2 [].

Lemma schema_migration_witness :
  wp (@setup_messages (@toy_mysql plain_text) 0) (fun _ c' =>
    message_rows (@tables _ toy_view c') = [row_for 1 toy_time (mkMessage DirectChat 2 1 "old")])
    (with_handles {[0]} (toy_client old_database true)).
Proof.
  eapply wp_mono.
  - apply (@schema_migration (@toy_mysql plain_text) toy_view toy_protocol plain_text
      toy_tables_view toy_tables_spec 0 (with_handles {[0]} (toy_client old_database true))
      [(1, toy_time, mkMessage DirectChat 2 1 "old")]).
    + split; [reflexivity|]. reflexivity.
    + intros t; split; destruct t; vm_compute; reflexivity.
    + reflexivity.
    + right. split; [discriminate|].
      split; [by apply (bool_decide_unpack _); vm_compute|].
      split; [by apply (bool_decide_unpack _); vm_compute|]. repeat constructor.
  - intros _ c' (_ & Hm & _). exact Hm.
Defined.
