(* ===== verification/ChatService.v ===== *)
(** * ChatService: one client line in, the responses out

    [src/src/chat/chat_service.cpp].  The state is the session manager, the
    storage behind the interface of [Storage.v] and the log lines written;
    [handle_client_line] is the source's function, with a definition per
    branch.  One call is one sequence of store and session operations, run
    here without interleaving. *)

From S2P Require Import Prelude.
From S2P Require Import CStd.
From S2P Require Import Json.
From S2P Require Import Message.
From S2P Require Import SessionManager.
From S2P Require Import UserStore.
From S2P Require Import GroupStore.
From S2P Require Import MessageStore.
From S2P Require Import Storage.
From S2P Require Import Log.
Open Scope N_scope.

(** ** Data *)

Record OutboundMessage : Type := mkOutbound {
  out_connection_id : N;
  out_data : bytes;
  close_after_send : bool;
}.

Record ChatState `{Storage} : Type := mkChatState {
  st_sessions : SessionManager;
  st_world : World;
  st_logged : list (LogLevel * bytes);
}.
Arguments mkChatState {_} st_sessions st_world st_logged.

(** [{{connection_id, data}}] *)
Definition reply (connection_id : N) (data : bytes) : list OutboundMessage :=
  [mkOutbound connection_id data false].

Definition kDefaultHistoryLimit : N := 20.
Definition kMaxHistoryLimit : N := 100.

Definition normalize_history_limit (limit : N) : N :=
  if limit =? 0 then kDefaultHistoryLimit else N.min limit kMaxHistoryLimit.

Section service.
Context `{Storage}.

Abbreviation Chat := (ST ChatState).

(** ** Calls to the parts *)

Definition sessions_get {A} (f : SessionManager -> A) : Chat A := fun s => (f (st_sessions s), s).

Definition sessions_do (f : SessionManager -> SessionManager) : Chat unit := fun s =>
  (tt, mkChatState (f (st_sessions s)) (st_world s) (st_logged s)).

Definition store {A} (op : ST World A) : Chat A := fun s =>
  let '(a, w) := op (st_world s) in
  (a, mkChatState (st_sessions s) w (st_logged s)).

Definition log_write (level : LogLevel) (message : bytes) : Chat unit := fun s =>
  (tt, mkChatState (st_sessions s) (st_world s) (st_logged s ++ [(level, message)])).

Definition log_info (message : bytes) : Chat unit := log_write Info message.
Definition log_warn (message : bytes) : Chat unit := log_write Warn message.

(** ** [handle_message] *)

Definition handle_message (message : Message) : Chat unit :=
  _ ← store (message_store_append message);
  log_info (bs "stored message type=" ++ type_to_string (msg_type message)).

(** ** The branches of [handle_client_line] *)

Definition handle_register (connection_id : N) (command : ClientCommand)
    : Chat (list OutboundMessage) :=
  session ← sessions_get (find_by_connection connection_id);
  match session with
  | Some _ => mret (reply connection_id (format_error "already logged in"))
  | None =>
      result ← store (user_store_register_user (cmd_username command) (cmd_password command));
      if negb (register_success result) then
        mret (reply connection_id (format_register_failed (register_reason result)))
      else
        log_info (bs "user registered username=" ++ cmd_username command ++
                  bs " user_id=" ++ to_string (register_user_id result));;
        mret (reply connection_id (format_register_success (register_user_id result)))
  end.

Definition handle_login (connection_id : N) (command : ClientCommand)
    : Chat (list OutboundMessage) :=
  session ← sessions_get (find_by_connection connection_id);
  match session with
  | Some _ => mret (reply connection_id (format_login_failed "already logged in"))
  | None =>
      online ← sessions_get (is_username_online (cmd_username command));
      if (online : bool) then
        mret (reply connection_id (format_login_failed "user already online"))
      else
        verified ← store (user_store_verify_login (cmd_username command) (cmd_password command));
        match verified with
        | None =>
            mret (reply connection_id (format_login_failed "invalid username or password"))
        | Some user =>
            sessions_do (bind (mkSession (user_id user) connection_id (user_username user)));;
            log_info (bs "user logged in username=" ++ user_username user ++
                      bs " user_id=" ++ to_string (user_id user) ++
                      bs " connection_id=" ++ to_string connection_id);;
            mret (reply connection_id (format_login_success (user_id user) (user_username user)))
        end
  end.

Definition handle_logout (connection_id : N) (sender : Session) : Chat (list OutboundMessage) :=
  sessions_do (unbind_connection connection_id);;
  log_info (bs "user logged out username=" ++ session_username sender ++
            bs " connection_id=" ++ to_string connection_id);;
  mret [mkOutbound connection_id (format_ok "logout") true].

Definition handle_create_group (connection_id : N) (sender : Session) (command : ClientCommand)
    : Chat (list OutboundMessage) :=
  result ← store (group_store_create_group (cmd_group_name command) (session_user_id sender));
  if negb (create_success result) then
    mret (reply connection_id (format_error (create_reason result)))
  else
    let group := create_group_record result in
    join_result ← store (member_store_join_group (group_id group) (session_user_id sender));
    if negb (member_success join_result) then
      mret (reply connection_id (format_error (member_reason join_result)))
    else
      sessions_do (SessionManager.join_group (group_id group) (session_user_id sender));;
      log_info (bs "group created group_id=" ++ to_string (group_id group) ++
                bs " name=" ++ group_name group ++ bs " owner=" ++ session_username sender);;
      mret (reply connection_id
              (format_create_group_success (group_id group) (group_name group))).

Definition handle_join_group (connection_id : N) (sender : Session) (command : ClientCommand)
    : Chat (list OutboundMessage) :=
  let group_id := cmd_group_id command in
  result ← store (member_store_join_group group_id (session_user_id sender));
  if negb (member_success result) then
    mret (reply connection_id (format_error (member_reason result)))
  else
    sessions_do (SessionManager.join_group group_id (session_user_id sender));;
    log_info (bs "user joined group username=" ++ session_username sender ++
              bs " group_id=" ++ to_string group_id);;
    mret (reply connection_id (format_ok (bs "joined group " ++ to_string group_id))).

Definition handle_leave_group (connection_id : N) (sender : Session) (command : ClientCommand)
    : Chat (list OutboundMessage) :=
  let group_id := cmd_group_id command in
  result ← store (member_store_leave_group group_id (session_user_id sender));
  if negb (member_success result) then
    mret (reply connection_id (format_error (member_reason result)))
  else
    sessions_do (SessionManager.leave_group group_id (session_user_id sender));;
    log_info (bs "user left group username=" ++ session_username sender ++
              bs " group_id=" ++ to_string group_id);;
    mret (reply connection_id (format_ok (bs "left group " ++ to_string group_id))).

(** The loop over the members; [delivered] and [out] are its variables. *)
Fixpoint deliver_to_members (sender : Session) (formatted : bytes) (members : list N)
    (delivered : bool) (out : list OutboundMessage) : Chat (bool * list OutboundMessage) :=
  match members with
  | [] => mret (delivered, out)
  | member_id :: members =>
      if member_id =? session_user_id sender then
        deliver_to_members sender formatted members delivered out
      else
        member_session ← sessions_get (find member_id);
        match member_session with
        | Some s =>
            deliver_to_members sender formatted members true
              (out ++ [mkOutbound (session_connection_id s) formatted false])
        | None => deliver_to_members sender formatted members delivered out
        end
  end.

Definition handle_group_message (connection_id : N) (sender : Session) (command : ClientCommand)
    : Chat (list OutboundMessage) :=
  let group_id := cmd_group_id command in
  is_member ← store (member_store_is_group_member group_id (session_user_id sender));
  if negb is_member then
    mret (reply connection_id (format_error "not a member of this group"))
  else
    let message := mkMessage GroupChat (session_user_id sender) group_id (cmd_body command) in
    stored ← store (message_store_append message);
    members ← store (member_store_load_group_members group_id);
    let formatted := format_group_message group_id (session_username sender) (cmd_body command) in
    '(delivered, out) ← deliver_to_members sender formatted members false [];
    let out := out ++ reply connection_id (format_message_ack (stored_id stored) true delivered) in
    log_info (bs "group message from username=" ++ session_username sender ++
              bs " to group_id=" ++ to_string group_id);;
    mret out.

(** [user.has_value() ? user->username : std::to_string(id)] *)
Definition name_of (id : N) : Chat bytes :=
  user ← store (user_store_find_user_by_id id);
  mret (match user with Some user => user_username user | None => to_string id end).

(** The two ways an item is printed. *)
Definition group_item (connection_id : N) (msg : StoredMessage) : Chat OutboundMessage :=
  from ← name_of (stored_sender_id msg);
  mret (mkOutbound connection_id
          (format_history_item (stored_id msg) "gc" from (to_string (stored_receiver_id msg))
             (stored_body msg) (stored_created_at msg)) false).

Definition direct_item (connection_id : N) (msg : StoredMessage) : Chat OutboundMessage :=
  from ← name_of (stored_sender_id msg);
  to ← name_of (stored_receiver_id msg);
  mret (mkOutbound connection_id
          (format_history_item (stored_id msg) "dm" from to (stored_body msg)
             (stored_created_at msg)) false).

(** The loop over the reversed page. *)
Fixpoint history_loop (item : StoredMessage -> Chat OutboundMessage)
    (history : list StoredMessage) (next_before_id : N) (out : list OutboundMessage)
    : Chat (N * list OutboundMessage) :=
  match history with
  | [] => mret (next_before_id, out)
  | msg :: history =>
      let next_before_id :=
        if (next_before_id =? 0) || (stored_id msg <? next_before_id) then stored_id msg
        else next_before_id in
      o ← item msg;
      history_loop item history next_before_id (out ++ [o])
  end.

Definition handle_group_history (connection_id : N) (sender : Session) (command : ClientCommand)
    : Chat (list OutboundMessage) :=
  let limit := normalize_history_limit (cmd_limit command) in
  let group_id := cmd_group_id command in
  is_member ← store (member_store_is_group_member group_id (session_user_id sender));
  if negb is_member then
    mret (reply connection_id (format_error "not a member of this group"))
  else
    history ← store (message_store_group_history_page group_id limit (cmd_before_id command));
    let history := reverse history in
    '(next_before_id, out) ← history_loop (group_item connection_id) history 0 [];
    mret (out ++ reply connection_id
            (format_history_end (N.of_nat (length history) =? limit) next_before_id)).

Definition handle_direct_history (connection_id : N) (sender : Session) (command : ClientCommand)
    : Chat (list OutboundMessage) :=
  let limit := normalize_history_limit (cmd_limit command) in
  peer ← store (user_store_find_user_by_username (cmd_target_username command));
  match peer with
  | None => mret (reply connection_id (format_error "peer not found"))
  | Some peer =>
      history ← store (message_store_direct_history_page (session_user_id sender) (user_id peer)
                         limit (cmd_before_id command));
      let history := reverse history in
      '(next_before_id, out) ← history_loop (direct_item connection_id) history 0 [];
      mret (out ++ reply connection_id
              (format_history_end (N.of_nat (length history) =? limit) next_before_id))
  end.

Definition handle_history (connection_id : N) (sender : Session) (command : ClientCommand)
    : Chat (list OutboundMessage) :=
  if cmd_group_history command then handle_group_history connection_id sender command
  else handle_direct_history connection_id sender command.

Definition handle_direct_message (connection_id : N) (sender : Session) (command : ClientCommand)
    : Chat (list OutboundMessage) :=
  receiver_user ← store (user_store_find_user_by_username (cmd_target_username command));
  match receiver_user with
  | None => mret (reply connection_id (format_error "receiver not found"))
  | Some receiver_user =>
      let message := mkMessage DirectChat (session_user_id sender) (user_id receiver_user)
                       (cmd_body command) in
      stored ← store (message_store_append message);
      receiver_session ← sessions_get (find_by_username (cmd_target_username command));
      match receiver_session with
      | None =>
          log_info (bs "direct message stored for offline username=" ++
                    cmd_target_username command);;
          mret (reply connection_id (format_message_ack (stored_id stored) true false))
      | Some receiver =>
          log_info (bs "direct message from username=" ++ session_username sender ++
                    bs " to username=" ++ cmd_target_username command);;
          mret (reply (session_connection_id receiver)
                  (format_direct_message (session_username sender) (cmd_body command)) ++
                reply connection_id (format_message_ack (stored_id stored) true true))
      end
  end.

(** The loop over the unread page. *)
Fixpoint unread_items (connection_id : N) (unread : list StoredMessage) (next_last_seen : N)
    (out : list OutboundMessage) : Chat (N * list OutboundMessage) :=
  match unread with
  | [] => mret (next_last_seen, out)
  | msg :: unread =>
      let next_last_seen := N.max next_last_seen (stored_id msg) in
      o ← (if bool_decide (stored_type msg = GroupChat) then group_item connection_id msg
           else direct_item connection_id msg);
      unread_items connection_id unread next_last_seen (out ++ [o])
  end.

Definition handle_unread (connection_id : N) (sender : Session) (command : ClientCommand)
    : Chat (list OutboundMessage) :=
  let limit := normalize_history_limit (cmd_limit command) in
  group_ids ← store (member_store_load_user_groups (session_user_id sender));
  unread ← store (message_store_unread_page (session_user_id sender) group_ids
                    (cmd_last_seen_message_id command) limit);
  '(next_last_seen, out) ←
    unread_items connection_id unread (cmd_last_seen_message_id command) [];
  mret (out ++ reply connection_id
          (format_unread_end (N.of_nat (length unread) =? limit) next_last_seen)).

(** ** [handle_client_line] and [handle_disconnect] *)

(** The commands that need a session. *)
Definition handle_logged_in (connection_id : N) (sender : Session) (command : ClientCommand)
    : Chat (list OutboundMessage) :=
  match cmd_type command with
  | Logout => handle_logout connection_id sender
  | CreateGroup => handle_create_group connection_id sender command
  | GroupJoin => handle_join_group connection_id sender command
  | GroupLeave => handle_leave_group connection_id sender command
  | GroupChat => handle_group_message connection_id sender command
  | HistoryQuery => handle_history connection_id sender command
  | DirectChat => handle_direct_message connection_id sender command
  | UnreadQuery => handle_unread connection_id sender command
  | _ =>
      log_warn (bs "unsupported command type=" ++ type_to_string (cmd_type command) ++
                bs " connection_id=" ++ to_string connection_id);;
      mret (reply connection_id (format_error "unsupported command"))
  end.

Definition handle_command (connection_id : N) (command : ClientCommand)
    : Chat (list OutboundMessage) :=
  match cmd_type command with
  | Ping => mret (reply connection_id format_pong)
  | Register => handle_register connection_id command
  | Login => handle_login connection_id command
  | _ =>
      sender ← sessions_get (find_by_connection connection_id);
      match sender with
      | None => mret (reply connection_id (format_error "please login first"))
      | Some sender => handle_logged_in connection_id sender command
      end
  end.

Definition handle_client_line (connection_id : N) (line : bytes) : Chat (list OutboundMessage) :=
  match parse_client_command line default_command [] with
  | (false, _, error) =>
      log_warn (bs "invalid client command connection_id=" ++ to_string connection_id ++
                bs " error=" ++ error);;
      mret (reply connection_id (format_error error))
  | (true, command, _) => handle_command connection_id command
  end.

Definition handle_disconnect (connection_id : N) : Chat unit :=
  sessions_do (unbind_connection connection_id).
End service.
