(* ===== verification/ChatSpec.v ===== *)
(** * ChatSpec: what a client line may do

    The contract of [ChatService]: [service_step] lists the effects one line
    can have on the sessions and on the storage views, [service_ok] is the
    invariant, and the [_outcome] lemmas say for each branch of
    [handle_client_line] what it answers and which step it takes.  Everything
    here is proved against the interface of [Storage.v], for any storage that
    keeps its contract. *)

From S2P Require Import Prelude.
From S2P Require Import CStd.
From S2P Require Import Json.
From S2P Require Import Message.
From S2P Require Import SessionManager.
From S2P Require Import UserStore.
From S2P Require Import GroupStore.
From S2P Require Import MessageStore.
From S2P Require Import Storage.
From S2P Require Import ChatService.
Open Scope N_scope.

Section specification.
Context `{StorageView}.

(** ** Effects *)

(** Accounts and passwords are untouched. *)
Definition same_users (w w' : World) : Prop :=
  (forall a, account w' a = account w a) /\ (forall a q, credentials w' a q = credentials w a q).

(** The commands a connection without a session may not use. *)
Definition needs_session (t : MessageType) : bool :=
  match t with Ping | Register | Login => false | _ => true end.

(** A message the user may store. *)
Definition may_post (w : World) (u : N) (m : Message) : Prop :=
  msg_sender_id m = u /\
  match msg_type m with
  | DirectChat => exists name, account w name = Some (msg_receiver_id m)
  | GroupChat => in_group w (msg_receiver_id m) u = true
  | _ => False
  end.

(** The effects of a line read on connection [c]. *)
Inductive service_step (c : N) (st st' : ChatState) : Prop :=
  | step_quiet :
      st_sessions st' = st_sessions st -> same_view (st_world st) (st_world st') ->
      service_step c st st'
  | step_register u p i :
      find_by_connection c (st_sessions st) = None ->
      st_sessions st' = st_sessions st ->
      account (st_world st) u = None -> u <> [] ->
      (forall a, account (st_world st') a =
                 if bool_decide (a = u) then Some i else account (st_world st) a) ->
      (forall a q, a <> u -> credentials (st_world st') a q = credentials (st_world st) a q) ->
      credentials (st_world st') u p = true ->
      (forall g v, in_group (st_world st') g v = in_group (st_world st) g v) ->
      messages (st_world st') = messages (st_world st) ->
      service_step c st st'
  | step_login u p i :
      find_by_connection c (st_sessions st) = None ->
      is_username_online u (st_sessions st) = false ->
      credentials (st_world st) u p = true -> account (st_world st) u = Some i ->
      st_sessions st' = bind (mkSession i c u) (st_sessions st) ->
      same_view (st_world st) (st_world st') ->
      service_step c st st'
  | step_logout s :
      find_by_connection c (st_sessions st) = Some s ->
      st_sessions st' = unbind_connection c (st_sessions st) ->
      same_view (st_world st) (st_world st') ->
      service_step c st st'
  | step_join s g :
      find_by_connection c (st_sessions st) = Some s ->
      st_sessions st' = SessionManager.join_group g (session_user_id s) (st_sessions st) ->
      same_users (st_world st) (st_world st') ->
      (forall g' u', in_group (st_world st') g' u' =
         bool_decide (g' = g /\ u' = session_user_id s) || in_group (st_world st) g' u') ->
      messages (st_world st') = messages (st_world st) ->
      service_step c st st'
  | step_leave s g :
      find_by_connection c (st_sessions st) = Some s ->
      st_sessions st' = SessionManager.leave_group g (session_user_id s) (st_sessions st) ->
      same_users (st_world st) (st_world st') ->
      (forall g' u', in_group (st_world st') g' u' =
         negb (bool_decide (g' = g /\ u' = session_user_id s)) && in_group (st_world st) g' u') ->
      messages (st_world st') = messages (st_world st) ->
      service_step c st st'
  | step_post s m :
      find_by_connection c (st_sessions st) = Some s ->
      st_sessions st' = st_sessions st ->
      same_users (st_world st) (st_world st') ->
      (forall g u, in_group (st_world st') g u = in_group (st_world st) g u) ->
      messages (st_world st') = messages (st_world st) ++ [m] ->
      may_post (st_world st) (session_user_id s) m ->
      service_step c st st'.

(** ** Invariant *)

Record service_ok (n : N) (st : ChatState) : Prop := {
  ok_linked : linked (st_sessions st);
  ok_named : named (st_sessions st);
  ok_storage : storage_ok n (st_world st);
  (** A session belongs to the account of its user name. *)
  ok_accounts u s :
    sessions_ (st_sessions st) !! u = Some s ->
    account (st_world st) (session_username s) = Some u;
  (** The session manager's groups mirror the stored ones. *)
  ok_groups g u :
    SessionManager.is_group_member g u (st_sessions st) = in_group (st_world st) g u;
}.

(** The result of a branch: an allowed step, and [P] of its responses. *)
Definition outcome (n c : N) (st : ChatState) (P : list OutboundMessage -> ChatState -> Prop)
    (out : list OutboundMessage) (st' : ChatState) : Prop :=
  service_step c st st' /\ storage_ok (n + 1) (st_world st') /\ P out st'.

(** ** Responses *)

(** The text the history shows for a user id. *)
Definition display_name (w : World) (i : N) (name : bytes) : Prop :=
  account w name = Some i \/ ((forall a, account w a <> Some i) /\ name = to_string i).

Definition is_group_item (c : N) (w : World) (m : StoredMessage) (o : OutboundMessage) : Prop :=
  exists from, display_name w (stored_sender_id m) from /\
    o = mkOutbound c (format_history_item (stored_id m) "gc" from
                        (to_string (stored_receiver_id m)) (stored_body m)
                        (stored_created_at m)) false.

Definition is_direct_item (c : N) (w : World) (m : StoredMessage) (o : OutboundMessage) : Prop :=
  exists from to, display_name w (stored_sender_id m) from /\
    display_name w (stored_receiver_id m) to /\
    o = mkOutbound c (format_history_item (stored_id m) "dm" from to (stored_body m)
                        (stored_created_at m)) false.

Definition is_unread_item (c : N) (w : World) (m : StoredMessage) (o : OutboundMessage) : Prop :=
  if bool_decide (stored_type m = GroupChat) then is_group_item c w m o
  else is_direct_item c w m o.

(** The copies of a group message: one per member online, the sender apart. *)
Definition deliveries (sender : N) (formatted : bytes) (m : SessionManager) (members : list N)
    : list OutboundMessage :=
  omap (fun u =>
    if u =? sender then None
    else match find u m with
         | Some s => Some (mkOutbound (session_connection_id s) formatted false)
         | None => None
         end) members.

(** A message the user may see as unread: sent to him, or to a group of his by
    somebody else. *)
Definition addressed_to (w : World) (u : N) (m : Message) : bool :=
  (bool_decide (msg_type m = DirectChat) && (msg_receiver_id m =? u)) ||
  (bool_decide (msg_type m = GroupChat) && negb (msg_sender_id m =? u) &&
   in_group w (msg_receiver_id m) u).

(** The number of messages of a page: the request's limit as the parser clamps
    it and the service normalises it. *)
Definition page_size (limit : option N) : N :=
  normalize_history_limit (N.min (default 20 limit) 100).

(** [out] answers [c] last, and otherwise only speaks to live sessions. *)
Definition answers (c : N) (m : SessionManager) (out : list OutboundMessage) : Prop :=
  exists front data close,
    out = front ++ [mkOutbound c data close] /\
    Forall (fun o => close_after_send o = false /\
      (out_connection_id o = c \/
       exists u s, sessions_ m !! u = Some s /\ session_connection_id s = out_connection_id o)) front.
End specification.

(** ** Lemmas: the invariant is preserved by every allowed step *)

Section invariant.
Context `{StorageSpec}.

Lemma find_by_connection_session c m s :
  linked m -> find_by_connection c m = Some s ->
  sessions_ m !! session_user_id s = Some s /\ session_connection_id s = c.
Proof.
  intros L. unfold find_by_connection. destruct (users_by_connection_ m !! c) as [u|] eqn:E; [|done].
  intros Hs. destruct (linked_connection m L _ _ E) as (s' & Hs' & Hc).
  rewrite Hs in Hs'. injection Hs' as <-. by destruct (linked_session m L _ _ Hs) as [-> _].
Qed.

Lemma unbind_connection_session c s m :
  linked m -> find_by_connection c m = Some s ->
  find_by_connection c (unbind_connection c m) = None /\
  sessions_ (unbind_connection c m) = delete (session_user_id s) (sessions_ m).
Proof.
  intros L Hs. destruct (find_by_connection_session c m s L Hs) as [Hu <-].
  destruct (linked_session m L _ _ Hu) as [_ Hc].
  rewrite (unbind_connection_unbind _ (session_user_id s)) by done. split.
  - unfold find_by_connection, unbind. simpl.
    rewrite connections_drop_user_indexes by done. rewrite Hc.
    by rewrite bool_decide_eq_true_2.
  - apply sessions_unbind.
Qed.

Lemma unbind_connection_free c m : linked m -> find_by_connection c (unbind_connection c m) = None.
Proof.
  intros L. destruct (find_by_connection c m) as [s|] eqn:Es.
  - by apply (unbind_connection_session c s).
  - unfold unbind_connection. pose proof Es as Es'. unfold find_by_connection in Es.
    destruct (users_by_connection_ m !! c) as [u|] eqn:Eu; [|done].
    by destruct (linked_connection _ L _ _ Eu) as (t & Ht & _); rewrite Ht in Es.
Qed.

Lemma not_online_free u m u' s :
  named m -> is_username_online u m = false -> sessions_ m !! u' = Some s ->
  session_username s <> u.
Proof.
  intros M Ho Hs <-. unfold is_username_online, find_by_username in Ho.
  rewrite (named_session m M _ _ Hs), Hs in Ho. discriminate Ho.
Qed.

(** An account that is not online has no session. *)
Lemma not_online_no_session n st u i :
  service_ok n st ->
  account (st_world st) u = Some i -> is_username_online u (st_sessions st) = false ->
  sessions_ (st_sessions st) !! i = None.
Proof.
  intros K Ha Ho. destruct (sessions_ (st_sessions st) !! i) as [s|] eqn:Hs; [exfalso|done].
  apply (not_online_free _ _ _ _ (ok_named n st K) Ho Hs).
  apply (account_inj n (st_world st) _ _ i (ok_storage n st K)); [|done].
  by apply (ok_accounts n st K).
Qed.

(** A name without an account is not online. *)
Lemma unregistered_not_online n st u :
  service_ok n st -> account (st_world st) u = None ->
  is_username_online u (st_sessions st) = false.
Proof.
  intros K Ha. unfold is_username_online, find_by_username.
  destruct (users_by_username_ (st_sessions st) !! u) as [v|] eqn:Ev; [|done].
  destruct (named_username _ (ok_named n st K) _ _ Ev) as (s & Hs & <-).
  by rewrite (ok_accounts n st K _ _ Hs) in Ha.
Qed.

(** Binding a new session of a user who is offline on a free connection only
    adds it. *)
Lemma sessions_bind_fresh n st u i c :
  service_ok n st -> account (st_world st) u = Some i ->
  is_username_online u (st_sessions st) = false ->
  find_by_connection c (st_sessions st) = None ->
  sessions_ (bind (mkSession i c u) (st_sessions st)) =
    <[i := mkSession i c u]> (sessions_ (st_sessions st)).
Proof.
  intros K Ha Ho Hc. pose proof (ok_linked n st K) as L. apply map_eq. intros v.
  rewrite sessions_bind, lookup_insert by done. simpl.
  case_decide; case_bool_decide; try congruence.
  destruct (sessions_ (st_sessions st) !! v) as [t|] eqn:Et; [|done].
  rewrite bool_decide_eq_false_2; [done|]. intros <-.
  destruct (linked_session _ L _ _ Et) as [_ Hk]. unfold find_by_connection in Hc.
  by rewrite Hk, Et in Hc.
Qed.

(** Sessions stay consistent when the tables and the views they mention do. *)
Lemma service_ok_frame n n' st st' :
  service_ok n st -> storage_ok n' (st_world st') -> st_sessions st' = st_sessions st ->
  (forall a i, account (st_world st) a = Some i -> account (st_world st') a = Some i) ->
  (forall g u, in_group (st_world st') g u = in_group (st_world st) g u) ->
  service_ok n' st'.
Proof.
  intros K Hs Hm Ha Hg. split; rewrite ?Hm.
  - apply (ok_linked n st K).
  - apply (ok_named n st K).
  - done.
  - intros u s Hu. by apply Ha, (ok_accounts n st K).
  - intros g u. rewrite Hg. apply (ok_groups n st K).
Qed.

Lemma service_step_ok n n' c st st' :
  service_ok n st -> storage_ok n' (st_world st') -> service_step c st st' -> service_ok n' st'.
Proof.
  intros K Hs Hstep. pose proof (ok_linked n st K) as L. pose proof (ok_named n st K) as M.
  destruct Hstep as [Hm Hv|u p i _ Hm Hu _ Ha _ _ Hg _|u p i _ Ho _ Ha Hm Hv|s _ Hm Hv
                    |s g _ Hm [Ha _] Hg _|s g _ Hm [Ha _] Hg _|s m _ Hm [Ha _] Hg _ _].
  - apply (service_ok_frame n n' st); [done|done|done| |].
    + intros a i. by rewrite (same_account _ _ Hv).
    + apply (same_in_group _ _ Hv).
  - apply (service_ok_frame n n' st); [done|done|done| |done].
    intros a j Hj. rewrite Ha. case_bool_decide; [congruence|done].
  - split; rewrite ?Hm; [by apply linked_bind| |done| |].
    + apply named_bind; [done|done|]. intros v s Hv' Hn.
      by destruct (not_online_free _ _ _ _ M Ho Hv').
    + intros v s. rewrite sessions_bind by done. rewrite (same_account _ _ Hv).
      case_bool_decide as Hvi; [intros [= <-]; by subst|]. intros Hs'.
      apply (ok_accounts n st K). destruct (sessions_ (st_sessions st) !! v); [|done].
      by case_bool_decide.
    + intros g v. unfold SessionManager.is_group_member. rewrite groups_bind.
      rewrite (same_in_group _ _ Hv). apply (ok_groups n st K).
  - split; rewrite ?Hm; [by apply linked_unbind_connection|by apply named_unbind_connection|done| |].
    + intros v t. rewrite sessions_unbind_connection by done. unfold spec_drop_connection.
      rewrite map_lookup_filter_Some, (same_account _ _ Hv). intros [Ht _].
      by apply (ok_accounts n st K).
    + intros g v. unfold SessionManager.is_group_member. rewrite groups_unbind_connection.
      rewrite (same_in_group _ _ Hv). apply (ok_groups n st K).
  - split; rewrite ?Hm; [by apply linked_join|by apply named_join|done| |].
    + intros v t Ht. rewrite Ha. by apply (ok_accounts n st K).
    + intros g' v. rewrite session_member_join, Hg. f_equal. apply (ok_groups n st K).
  - split; rewrite ?Hm; [by apply linked_leave|by apply named_leave|done| |].
    + intros v t. destruct (leave_group_tables g (session_user_id s) (st_sessions st)) as [-> _].
      rewrite Ha. apply (ok_accounts n st K).
    + intros g' v. rewrite session_member_leave, Hg. f_equal. apply (ok_groups n st K).
  - apply (service_ok_frame n n' st); [done|done|done| |done]. intros a i. by rewrite Ha.
Qed.

(** Closing a connection keeps it too. *)
Lemma disconnect_ok n c st :
  service_ok n st -> service_ok n (handle_disconnect c st).2.
Proof.
  intros K. pose proof (ok_linked n st K) as L. split; simpl.
  - by apply linked_unbind_connection.
  - apply named_unbind_connection; [done|apply (ok_named n st K)].
  - apply (ok_storage n st K).
  - intros v t. rewrite sessions_unbind_connection by done. unfold spec_drop_connection.
    rewrite map_lookup_filter_Some. intros [Ht _]. by apply (ok_accounts n st K).
  - intros g v. unfold SessionManager.is_group_member. rewrite groups_unbind_connection.
    apply (ok_groups n st K).
Qed.
End invariant.

(** ** Lemmas: running the calls *)

Section running.
Context `{StorageSpec}.

Lemma wp_sessions_get {A} (f : SessionManager -> A) (Q : A -> ChatState -> Prop) st :
  Q (f (st_sessions st)) st -> wp (sessions_get f) Q st.
Proof. done. Qed.

Lemma wp_sessions_do f (Q : unit -> ChatState -> Prop) st :
  Q tt (mkChatState (f (st_sessions st)) (st_world st) (st_logged st)) -> wp (sessions_do f) Q st.
Proof. done. Qed.

Lemma wp_log level text (Q : unit -> ChatState -> Prop) st :
  (forall logged, Q tt (mkChatState (st_sessions st) (st_world st) logged)) ->
  wp (log_write level text) Q st.
Proof. intros HQ. apply HQ. Qed.

Lemma wp_store {A} (op : ST World A) (Q : A -> ChatState -> Prop) st :
  (forall r w', op (st_world st) = (r, w') ->
     Q r (mkChatState (st_sessions st) w' (st_logged st))) ->
  wp (store op) Q st.
Proof.
  intros HQ. unfold wp, store. destruct (op (st_world st)) as [r w'] eqn:E. by apply HQ.
Qed.

Lemma wp_reads {A} (op : ST World A) (P : World -> A -> Prop) (Q : A -> ChatState -> Prop) n st :
  reads op P -> storage_ok n (st_world st) ->
  (forall r w', P (st_world st) r -> same_view (st_world st) w' -> storage_ok n w' ->
     Q r (mkChatState (st_sessions st) w' (st_logged st))) ->
  wp (store op) Q st.
Proof.
  intros Hr Hn HQ. apply wp_store. intros r w' E.
  destruct (Hr n _ _ _ Hn E) as (? & ? & ?). by apply HQ.
Qed.

Lemma wp_name_of n i (Q : bytes -> ChatState -> Prop) st :
  storage_ok n (st_world st) ->
  (forall name w', display_name (st_world st) i name -> same_view (st_world st) w' ->
     storage_ok n w' -> Q name (mkChatState (st_sessions st) w' (st_logged st))) ->
  wp (name_of i) Q st.
Proof.
  intros Hn HQ. unfold name_of. apply wp_bind.
  eapply wp_reads; [apply find_user_by_id_spec'|done|]. intros [user|] w' Hu Hv Hn'; apply wp_ret.
  - apply HQ; [left; by destruct Hu as [_ ?]|done|done].
  - apply HQ; [by right|done|done].
Qed.

Lemma display_name_view w w' i name :
  same_view w w' -> display_name w' i name -> display_name w i name.
Proof.
  intros Hv [Ha|[Ha Hn]]; [left; by rewrite Hv|right]. split; [|done].
  intros a. rewrite Hv. apply Ha.
Qed.

(** The items are printed from the state the page was read in. *)
Lemma wp_group_item n c m (Q : OutboundMessage -> ChatState -> Prop) st :
  storage_ok n (st_world st) ->
  (forall o w', is_group_item c (st_world st) m o -> same_view (st_world st) w' ->
     storage_ok n w' -> Q o (mkChatState (st_sessions st) w' (st_logged st))) ->
  wp (group_item c m) Q st.
Proof.
  intros Hn HQ. apply wp_bind. apply (wp_name_of n); [done|]. intros name w' Hd Hv Hn'.
  apply wp_ret, HQ; [|done|done]. by exists name.
Qed.

Lemma wp_direct_item n c m (Q : OutboundMessage -> ChatState -> Prop) st :
  storage_ok n (st_world st) ->
  (forall o w', is_direct_item c (st_world st) m o -> same_view (st_world st) w' ->
     storage_ok n w' -> Q o (mkChatState (st_sessions st) w' (st_logged st))) ->
  wp (direct_item c m) Q st.
Proof.
  intros Hn HQ. apply wp_bind. apply (wp_name_of n); [done|]. intros from w1 Hf Hv1 Hn1.
  apply wp_bind. apply (wp_name_of n); [done|]. intros to w2 Ht Hv2 Hn2.
  apply wp_ret, HQ; [|simpl in *; by etrans|done]. simpl in *. exists from, to.
  split; [done|]. split; [by apply (display_name_view _ w1)|done].
Qed.

(** The cursor the history loop computes. *)
Definition lowest (next : N) (history : list StoredMessage) : N :=
  foldl (fun next m => if (next =? 0) || (stored_id m <? next) then stored_id m else next)
    next history.

Definition prints (item : N -> StoredMessage -> ST ChatState OutboundMessage)
    (R : N -> World -> StoredMessage -> OutboundMessage -> Prop) : Prop :=
  forall n c m (Q : OutboundMessage -> ChatState -> Prop) st,
  storage_ok n (st_world st) ->
  (forall o w', R c (st_world st) m o -> same_view (st_world st) w' ->
     storage_ok n w' -> Q o (mkChatState (st_sessions st) w' (st_logged st))) ->
  wp (item c m) Q st.

Definition view_stable (R : N -> World -> StoredMessage -> OutboundMessage -> Prop) : Prop :=
  forall c w w' m o, same_view w w' -> R c w' m o -> R c w m o.

Lemma group_item_stable : view_stable is_group_item.
Proof.
  intros c w w' m o Hv (from & Hd & ->). exists from. split; [|done].
  by apply (display_name_view _ w').
Qed.

Lemma direct_item_stable : view_stable is_direct_item.
Proof.
  intros c w w' m o Hv (from & to & Hf & Ht & ->). exists from, to.
  split; [|split; [|done]]; by apply (display_name_view _ w').
Qed.

Lemma unread_item_stable : view_stable is_unread_item.
Proof.
  intros c w w' m o Hv. unfold is_unread_item.
  case_bool_decide; [by apply group_item_stable|by apply direct_item_stable].
Qed.

Lemma wp_history_loop item R n c history next out (Q : N * list OutboundMessage -> ChatState -> Prop) st :
  prints item R -> view_stable R -> storage_ok n (st_world st) ->
  (forall items w', Forall2 (R c (st_world st)) history items -> same_view (st_world st) w' ->
     storage_ok n w' ->
     Q (lowest next history, out ++ items) (mkChatState (st_sessions st) w' (st_logged st))) ->
  wp (history_loop (item c) history next out) Q st.
Proof.
  intros Hp Hs. revert next out st. induction history as [|m history IH];
    intros next out st Hn HQ; cbn [history_loop].
  - apply wp_ret. specialize (HQ [] (st_world st)). rewrite app_nil_r in HQ. destruct st.
    by apply HQ.
  - apply wp_bind. apply (Hp n); [done|]. intros o w1 Ho Hv1 Hn1. apply IH; [done|].
    intros items w2 Hi Hv2 Hn2. simpl in *. rewrite <- app_assoc. apply HQ; [|by etrans|done].
    constructor; [done|]. eapply Forall2_impl; [apply Hi|]. intros ? ?. by apply Hs.
Qed.

(** The cursor the unread loop computes. *)
Definition highest (next : N) (unread : list StoredMessage) : N :=
  foldl (fun next m => N.max next (stored_id m)) next unread.

Lemma wp_unread_items n c unread next out (Q : N * list OutboundMessage -> ChatState -> Prop) st :
  storage_ok n (st_world st) ->
  (forall items w', Forall2 (is_unread_item c (st_world st)) unread items ->
     same_view (st_world st) w' -> storage_ok n w' ->
     Q (highest next unread, out ++ items) (mkChatState (st_sessions st) w' (st_logged st))) ->
  wp (unread_items c unread next out) Q st.
Proof.
  revert next out st. induction unread as [|m unread IH]; intros next out st Hn HQ;
    cbn [unread_items].
  - apply wp_ret. specialize (HQ [] (st_world st)). rewrite app_nil_r in HQ. destruct st.
    by apply HQ.
  - assert (Hm : forall o w1, is_unread_item c (st_world st) m o -> same_view (st_world st) w1 ->
      storage_ok n w1 -> wp (unread_items c unread (N.max next (stored_id m)) (out ++ [o])) Q
        (mkChatState (st_sessions st) w1 (st_logged st))).
    { intros o w1 Ho Hv1 Hn1. apply IH; [done|]. intros items w2 Hi Hv2 Hn2. simpl in *.
      rewrite <- app_assoc. apply HQ; [|by etrans|done]. constructor; [done|].
      eapply Forall2_impl; [apply Hi|]. intros ? ?. by apply unread_item_stable. }
    apply wp_bind. unfold is_unread_item in Hm.
    case_bool_decide; [by apply (wp_group_item n)|by apply (wp_direct_item n)].
Qed.

(** The delivery loop only reads the sessions. *)
Lemma deliver_to_members_run sender formatted members delivered out (st : ChatState) :
  deliver_to_members sender formatted members delivered out st =
    (let sent := deliveries (session_user_id sender) formatted (st_sessions st) members in
     (delivered || negb (bool_decide (sent = [])), out ++ sent), st).
Proof.
  revert delivered out. induction members as [|u members IH]; intros delivered out.
  - simpl. by rewrite orb_false_r, app_nil_r.
  - cbn [deliver_to_members deliveries omap list_omap]. unfold deliveries in IH.
    destruct (u =? session_user_id sender); [apply IH|].
    unfold mbind, ST_bind, sessions_get.
    destruct (find u (st_sessions st)) as [s|]; [|apply IH]. rewrite IH. simpl.
    rewrite orb_true_r, <- app_assoc. done.
Qed.
End running.

(** ** Lemmas: what each branch answers *)

Section branches.
Context `{StorageSpec}.
Context (n c : N) (st : ChatState) (K : service_ok n st) (R : room n).

Lemma quiet_outcome P out w logged :
  same_view (st_world st) w -> storage_ok n w ->
  P out (mkChatState (st_sessions st) w logged) ->
  outcome n c st P out (mkChatState (st_sessions st) w logged).
Proof.
  intros Hv Hn HP. split; [by apply step_quiet|]. split; [|done].
  apply (storage_ok_le n); [done|lia].
Qed.

(** Nothing visible changed. *)
Definition unchanged (st' : ChatState) : Prop :=
  st_sessions st' = st_sessions st /\ same_view (st_world st) (st_world st').

Lemma same_state_outcome P out : P out st -> outcome n c st P out st.
Proof.
  intros HP. split; [by apply step_quiet|]. split; [|done].
  apply (storage_ok_le n); [apply (ok_storage n st K)|lia].
Qed.

Lemma register_outcome cmd :
  cmd_username cmd <> [] ->
  wp (handle_register c cmd) (outcome n c st (fun out st' =>
    match find_by_connection c (st_sessions st) with
    | Some _ => unchanged st' /\ out = reply c (format_error "already logged in")
    | None =>
        (exists i, account (st_world st) (cmd_username cmd) = None /\
           account (st_world st') (cmd_username cmd) = Some i /\
           credentials (st_world st') (cmd_username cmd) (cmd_password cmd) = true /\
           st_sessions st' = st_sessions st /\
           out = reply c (format_register_success i)) \/
        (exists reason, unchanged st' /\ out = reply c (format_register_failed reason))
    end)) st.
Proof.
  intros Hu. apply wp_bind, wp_sessions_get.
  destruct (find_by_connection c (st_sessions st)) eqn:Ec.
  { by apply wp_ret, same_state_outcome. }
  apply wp_bind, wp_store. intros r w' E.
  destruct (register_user_spec n _ _ _ _ _ (ok_storage n st K) R E) as [Hn Hr].
  destruct (register_success r); simpl negb; cbv iota.
  - destruct Hr as (Hnone & Hne & Ha & Hcq & Hc & Hg & Hm).
    apply wp_bind, wp_log. intros logged. apply wp_ret. split; [|split; [done|]].
    + by eapply (step_register _ _ _ (cmd_username cmd) (cmd_password cmd) (register_user_id r)).
    + left. exists (register_user_id r). simpl. rewrite Ha, bool_decide_eq_true_2 by done. done.
  - apply wp_ret. split; [by apply step_quiet|]. split; [done|]. right.
    by exists (register_reason r).
Qed.

Lemma login_outcome cmd :
  wp (handle_login c cmd) (outcome n c st (fun out st' =>
    same_view (st_world st) (st_world st') /\
    match find_by_connection c (st_sessions st) with
    | Some _ =>
        st_sessions st' = st_sessions st /\
        out = reply c (format_login_failed "already logged in")
    | None =>
        if is_username_online (cmd_username cmd) (st_sessions st) then
          st_sessions st' = st_sessions st /\
          out = reply c (format_login_failed "user already online")
        else if credentials (st_world st) (cmd_username cmd) (cmd_password cmd) then
          exists i, account (st_world st) (cmd_username cmd) = Some i /\
            st_sessions st' = bind (mkSession i c (cmd_username cmd)) (st_sessions st) /\
            out = reply c (format_login_success i (cmd_username cmd))
        else
          st_sessions st' = st_sessions st /\
          out = reply c (format_login_failed "invalid username or password")
    end)) st.
Proof.
  apply wp_bind, wp_sessions_get.
  destruct (find_by_connection c (st_sessions st)) eqn:Ec.
  { by apply wp_ret, same_state_outcome. }
  apply wp_bind, wp_sessions_get.
  destruct (is_username_online (cmd_username cmd) (st_sessions st)) eqn:Eo.
  { by apply wp_ret, same_state_outcome. }
  apply wp_bind. eapply wp_reads; [apply verify_login_spec|apply (ok_storage n st K)|].
  intros [user|] w' Hu Hv Hn.
  - destruct Hu as (Hc & Hname & Ha). rewrite Hname. apply wp_bind, wp_sessions_do, wp_bind, wp_log.
    intros logged. apply wp_ret. rewrite Hc. split; [|split; [apply (storage_ok_le n); [done|lia]|]].
    + by eapply (step_login _ _ _ _ (cmd_password cmd) (user_id user)).
    + split; [done|]. by exists (user_id user).
  - rewrite Hu. apply wp_ret, quiet_outcome; done.
Qed.

(** On a free connection. *)
Lemma login_effect cmd :
  find_by_connection c (st_sessions st) = None ->
  wp (handle_login c cmd) (fun out st' =>
    same_view (st_world st) (st_world st') /\
    if is_username_online (cmd_username cmd) (st_sessions st) then
      sessions_ (st_sessions st') = sessions_ (st_sessions st) /\
      out = reply c (format_login_failed "user already online")
    else if credentials (st_world st) (cmd_username cmd) (cmd_password cmd) then
      exists i, account (st_world st) (cmd_username cmd) = Some i /\
        sessions_ (st_sessions st') =
          <[i := mkSession i c (cmd_username cmd)]> (sessions_ (st_sessions st)) /\
        out = reply c (format_login_success i (cmd_username cmd))
    else
      sessions_ (st_sessions st') = sessions_ (st_sessions st) /\
      out = reply c (format_login_failed "invalid username or password")) st.
Proof.
  intros Hc. eapply wp_mono; [apply login_outcome|]. intros out st' (_ & _ & Hv & Ho).
  split; [exact Hv|]. rewrite Hc in Ho.
  destruct (is_username_online (cmd_username cmd) (st_sessions st)) eqn:Eo;
    [by destruct Ho as [-> ->]|].
  destruct (credentials (st_world st) _ _); [|by destruct Ho as [-> ->]].
  destruct Ho as (i & Ha & -> & ->). exists i. split; [done|]. split; [|done].
  by apply (sessions_bind_fresh n st).
Qed.

Context (s : Session) (Hs : find_by_connection c (st_sessions st) = Some s).

Lemma logout_outcome :
  wp (handle_logout c s) (outcome n c st (fun out st' =>
    st_sessions st' = unbind_connection c (st_sessions st) /\
    same_view (st_world st) (st_world st') /\
    out = [mkOutbound c (format_ok "logout") true])) st.
Proof.
  apply wp_bind, wp_sessions_do, wp_bind, wp_log. intros logged. apply wp_ret.
  split; [by apply (step_logout _ _ _ s)|]. split; [|done].
  apply (storage_ok_le n); [apply (ok_storage n st K)|lia].
Qed.

Lemma create_group_outcome cmd :
  wp (handle_create_group c s cmd) (outcome n c st (fun out st' =>
    (exists g, in_group (st_world st') g (session_user_id s) = true /\
       out = reply c (format_create_group_success g (cmd_group_name cmd))) \/
    (exists reason, unchanged st' /\ out = reply c (format_error reason)))) st.
Proof.
  apply wp_bind, wp_store. intros r w1 E1.
  destruct (create_group_spec n _ _ _ _ _ (ok_storage n st K) R E1) as (Hn1 & Hv1 & Hr).
  destruct (create_success r); simpl negb; cbv iota.
  2:{ apply wp_ret. split; [by apply step_quiet|]. split; [done|]. right.
      by exists (create_reason r). }
  apply wp_bind, wp_store. intros r2 w2 E2. simpl in E2.
  destruct (join_group_spec _ _ _ _ _ _ Hn1 E2) as (Hn2 & Hj).
  destruct (member_success r2); simpl negb; cbv iota.
  - destruct Hj as (Ha & Hq & Hg & Hm).
    apply wp_bind, wp_sessions_do, wp_bind, wp_log. intros logged. apply wp_ret.
    split; [|split; [done|]].
    + apply (step_join _ _ _ s (group_id (create_group_record r))); [done|done|split| |].
      * intros a. rewrite Hv1. apply Ha.
      * intros a q. rewrite Hv1. apply Hq.
      * intros g' u'. rewrite Hv1. apply Hg.
      * simpl. rewrite Hv1. apply Hm.
    + left. exists (group_id (create_group_record r)). rewrite <- Hr. split; [|done].
      simpl. rewrite Hg. by rewrite bool_decide_eq_true_2.
  - destruct Hj as [Hv2 _]. apply wp_ret. split; [|split; [done|]].
    + apply step_quiet; [done|]. simpl. by etrans.
    + right. exists (member_reason r2). split; [|done]. split; [done|]. simpl. by etrans.
Qed.

Lemma join_group_outcome cmd :
  wp (handle_join_group c s cmd) (outcome n c st (fun out st' =>
    (in_group (st_world st') (cmd_group_id cmd) (session_user_id s) = true /\
     out = reply c (format_ok (bs "joined group " ++ to_string (cmd_group_id cmd)))) \/
    (exists reason, unchanged st' /\ out = reply c (format_error reason)))) st.
Proof.
  apply wp_bind, wp_store. intros r w1 E1.
  destruct (join_group_spec n _ _ _ _ _ (ok_storage n st K) E1) as (Hn1 & Hj).
  apply storage_ok_le with (n' := n + 1) in Hn1; [|lia].
  destruct (member_success r); simpl negb; cbv iota.
  - destruct Hj as (Ha & Hq & Hg & Hm).
    apply wp_bind, wp_sessions_do, wp_bind, wp_log. intros logged. apply wp_ret.
    split; [|split; [done|]].
    + by apply (step_join _ _ _ s (cmd_group_id cmd)).
    + left. split; [|done]. simpl. rewrite Hg. by rewrite bool_decide_eq_true_2.
  - destruct Hj as [Hv _]. apply wp_ret. split; [by apply step_quiet|]. split; [done|].
    right. by exists (member_reason r).
Qed.

Lemma leave_group_outcome cmd :
  wp (handle_leave_group c s cmd) (outcome n c st (fun out st' =>
    (in_group (st_world st) (cmd_group_id cmd) (session_user_id s) = true /\
     in_group (st_world st') (cmd_group_id cmd) (session_user_id s) = false /\
     out = reply c (format_ok (bs "left group " ++ to_string (cmd_group_id cmd)))) \/
    (exists reason, unchanged st' /\ out = reply c (format_error reason)))) st.
Proof.
  apply wp_bind, wp_store. intros r w1 E1.
  destruct (leave_group_spec n _ _ _ _ _ (ok_storage n st K) E1) as (Hn1 & Hj).
  apply storage_ok_le with (n' := n + 1) in Hn1; [|lia].
  destruct (member_success r); simpl negb; cbv iota.
  - destruct Hj as (Hin & Ha & Hq & Hg & Hm).
    apply wp_bind, wp_sessions_do, wp_bind, wp_log. intros logged. apply wp_ret.
    split; [|split; [done|]].
    + by apply (step_leave _ _ _ s (cmd_group_id cmd)).
    + left. split; [done|]. split; [|done]. simpl. rewrite Hg. by rewrite bool_decide_eq_true_2.
  - destruct Hj as [Hv _]. apply wp_ret. split; [by apply step_quiet|]. split; [done|].
    right. by exists (member_reason r).
Qed.
(** The same effects, spelled out for the one group. *)
Definition membership_effect (g : N) (joined : bool) (text : bytes) (out : list OutboundMessage)
    (st' : ChatState) : Prop :=
  (forall g' u', (g', u') <> (g, session_user_id s) ->
     in_group (st_world st') g' u' = in_group (st_world st) g' u') /\
  messages (st_world st') = messages (st_world st) /\
  ((in_group (st_world st') g (session_user_id s) = joined /\
    out = reply c (format_ok (text ++ to_string g))) \/
   (exists reason, unchanged st' /\ out = reply c (format_error reason))).

Lemma membership_refused g joined text reason st' :
  unchanged st' -> membership_effect g joined text (reply c (format_error reason)) st'.
Proof.
  intros Hu. pose proof Hu as [_ Hv]. split; [intros; apply (same_in_group _ _ Hv)|].
  split; [apply (same_messages _ _ Hv)|]. right. by exists reason.
Qed.

Lemma join_group_effect cmd :
  wp (handle_join_group c s cmd) (membership_effect (cmd_group_id cmd) true "joined group ") st.
Proof.
  apply wp_bind, wp_store. intros r w1 E1.
  destruct (join_group_spec n _ _ _ _ _ (ok_storage n st K) E1) as (_ & Hj).
  destruct (member_success r); simpl negb; cbv iota.
  - destruct Hj as (_ & _ & Hg & Hm). apply wp_bind, wp_sessions_do, wp_bind, wp_log.
    intros logged. apply wp_ret. split; [|split; [done|]]; simpl.
    + intros g' u' Hne. rewrite Hg, bool_decide_eq_false_2; [done|]. by intros [-> ->].
    + left. by rewrite Hg, bool_decide_eq_true_2.
  - destruct Hj as [Hv _]. apply wp_ret. by apply membership_refused.
Qed.

Lemma leave_group_effect cmd :
  wp (handle_leave_group c s cmd) (membership_effect (cmd_group_id cmd) false "left group ") st.
Proof.
  apply wp_bind, wp_store. intros r w1 E1.
  destruct (leave_group_spec n _ _ _ _ _ (ok_storage n st K) E1) as (_ & Hj).
  destruct (member_success r); simpl negb; cbv iota.
  - destruct Hj as (_ & _ & _ & Hg & Hm). apply wp_bind, wp_sessions_do, wp_bind, wp_log.
    intros logged. apply wp_ret. split; [|split; [done|]]; simpl.
    + intros g' u' Hne. rewrite Hg, bool_decide_eq_false_2; [done|]. by intros [-> ->].
    + left. by rewrite Hg, bool_decide_eq_true_2.
  - destruct Hj as [Hv _]. apply wp_ret. by apply membership_refused.
Qed.

Lemma group_message_outcome cmd :
  wp (handle_group_message c s cmd) (outcome n c st (fun out st' =>
    st_sessions st' = st_sessions st /\
    if in_group (st_world st) (cmd_group_id cmd) (session_user_id s) then
      messages (st_world st') = messages (st_world st) ++
        [mkMessage GroupChat (session_user_id s) (cmd_group_id cmd) (cmd_body cmd)] /\
      exists members, NoDup members /\
        (forall u, u ∈ members <-> in_group (st_world st) (cmd_group_id cmd) u = true) /\
        let sent := deliveries (session_user_id s)
          (format_group_message (cmd_group_id cmd) (session_username s) (cmd_body cmd))
          (st_sessions st) members in
        out = sent ++ reply c (format_message_ack (N.of_nat (S (length (messages (st_world st)))))
                                 true (negb (bool_decide (sent = []))))
    else same_view (st_world st) (st_world st') /\
      out = reply c (format_error "not a member of this group"))) st.
Proof.
  apply wp_bind. eapply wp_reads; [apply is_group_member_spec|apply (ok_storage n st K)|].
  intros b w1 -> Hv1 Hn1.
  destruct (in_group (st_world st) (cmd_group_id cmd) (session_user_id s)) eqn:Eg;
    simpl negb; cbv iota; [|by apply wp_ret, quiet_outcome].
  apply wp_bind, wp_store. intros m w2 E2. simpl in E2.
  destruct (append_spec n _ _ _ _ Hn1 R E2) as (Hn2 & Hid & Ha & Hq & Hg & Hm).
  apply wp_bind. eapply wp_reads; [apply load_group_members_spec|exact Hn2|].
  intros members w3 [Hnd Hin] Hv3 Hn3. simpl in Hin, Hv3.
  apply wp_bind. unfold wp at 1. rewrite deliver_to_members_run. simpl.
  apply wp_bind, wp_log. intros logged. apply wp_ret. simpl.
  assert (Hms : messages w3 = messages (st_world st) ++
    [mkMessage GroupChat (session_user_id s) (cmd_group_id cmd) (cmd_body cmd)]).
  { rewrite <- Hv3, Hm. by rewrite <- Hv1. }
  split; [|split; [done|]].
  - apply (step_post _ _ _ s
      (mkMessage GroupChat (session_user_id s) (cmd_group_id cmd) (cmd_body cmd)));
      [done|done|split| |done|done]; simpl.
    + intros a. rewrite <- Hv3, Ha. apply (same_account _ _ Hv1).
    + intros a q. rewrite <- Hv3, Hq. apply (same_credentials _ _ Hv1).
    + intros g u. rewrite <- Hv3, Hg. apply (same_in_group _ _ Hv1).
  - split; [done|]. split; [done|]. exists members. split; [done|]. split.
    + intros u. rewrite Hin, Hg. by rewrite (same_in_group _ _ Hv1).
    + rewrite Hid. by rewrite (same_messages _ _ Hv1).
Qed.

Lemma direct_message_outcome cmd :
  wp (handle_direct_message c s cmd) (outcome n c st (fun out st' =>
    st_sessions st' = st_sessions st /\
    match account (st_world st) (cmd_target_username cmd) with
    | None => same_view (st_world st) (st_world st') /\
              out = reply c (format_error "receiver not found")
    | Some i =>
        messages (st_world st') = messages (st_world st) ++
          [mkMessage DirectChat (session_user_id s) i (cmd_body cmd)] /\
        let ack := format_message_ack (N.of_nat (S (length (messages (st_world st))))) true in
        match sessions_ (st_sessions st) !! i with
        | Some r => out = reply (session_connection_id r)
                            (format_direct_message (session_username s) (cmd_body cmd)) ++
                          reply c (ack true)
        | None => out = reply c (ack false)
        end
    end)) st.
Proof.
  apply wp_bind. eapply wp_reads; [apply find_user_by_username_spec|apply (ok_storage n st K)|].
  intros [user|] w1 Hu Hv1 Hn1.
  2:{ apply wp_ret, quiet_outcome; [done|done|]. by rewrite Hu. }
  destruct Hu as [Hname Ha]. rewrite Ha.
  apply wp_bind, wp_store. intros m w2 E2. simpl in E2.
  destruct (append_spec n _ _ _ _ Hn1 R E2) as (Hn2 & Hid & Ha2 & Hq & Hg & Hm).
  apply wp_bind, wp_sessions_get. simpl.
  assert (Hstep : forall logged, service_step c st (mkChatState (st_sessions st) w2 logged)).
  { intros logged. apply (step_post _ _ _ s
      (mkMessage DirectChat (session_user_id s) (user_id user) (cmd_body cmd)));
      [done|done|split| | |]; simpl.
    - intros a. rewrite Ha2. apply (same_account _ _ Hv1).
    - intros a q. rewrite Hq. apply (same_credentials _ _ Hv1).
    - intros g u. rewrite Hg. apply (same_in_group _ _ Hv1).
    - rewrite Hm. by rewrite (same_messages _ _ Hv1).
    - split; [done|]. simpl. by exists (cmd_target_username cmd). }
  assert (Hlog : messages w2 = messages (st_world st) ++
    [mkMessage DirectChat (session_user_id s) (user_id user) (cmd_body cmd)]).
  { rewrite Hm. by rewrite (same_messages _ _ Hv1). }
  rewrite Hid, (same_messages _ _ Hv1).
  pose proof (ok_named n st K) as M. pose proof (ok_linked n st K) as L.
  destruct (find_by_username (cmd_target_username cmd) (st_sessions st)) as [r|] eqn:Er;
    apply wp_bind, wp_log; intros logged; apply wp_ret;
    (split; [done|]; split; [done|]; split; [done|]; split; [done|]).
  - unfold find_by_username in Er.
    destruct (users_by_username_ (st_sessions st) !! cmd_target_username cmd) as [v|] eqn:Ev;
      [|done].
    destruct (named_username _ M _ _ Ev) as (r' & Hr' & Hn). rewrite Er in Hr'.
    injection Hr' as <-. pose proof (ok_accounts n st K _ _ Er) as Hacc.
    rewrite Hn, Ha in Hacc. injection Hacc as ->. by rewrite Er.
  - rewrite (not_online_no_session n st (cmd_target_username cmd)); [done|done|done|].
    unfold is_username_online. by rewrite Er.
Qed.

Lemma page_outcome item Q page spec limit logged w :
  prints item Q -> view_stable Q ->
  reads page (fun w (r : list StoredMessage) => r = spec (message_log w)) ->
  same_view (st_world st) w -> storage_ok n w ->
  wp (history ← store page;
      let history := reverse history in
      '(next_before_id, out) ← history_loop (item c) history 0 [];
      mret (out ++ reply c (format_history_end (N.of_nat (length history) =? limit)
                              next_before_id)))
    (outcome n c st (fun out st' =>
      unchanged st' /\
      let h := spec (message_log (st_world st)) in
      exists items, Forall2 (Q c (st_world st)) (reverse h) items /\
        out = items ++ reply c (format_history_end (N.of_nat (length h) =? limit)
                                  (lowest 0 (reverse h)))))
    (mkChatState (st_sessions st) w logged).
Proof.
  intros HQ HS Hp Hv Hn. apply wp_bind. eapply wp_reads; [exact Hp|exact Hn|].
  simpl. intros h w1 -> Hv1 Hn1.
  assert (El : message_log w = message_log (st_world st)) by (by rewrite Hv). rewrite El.
  assert (Hv1' : same_view (st_world st) w1) by (by transitivity w).
  apply wp_bind. apply (wp_history_loop item Q n); [done|done|done|].
  intros items w2 Hi Hv2 Hn2. simpl in *.
  assert (Hv2' : same_view (st_world st) w2) by (by transitivity w1).
  apply wp_ret, quiet_outcome; [done|done|].
  split; [done|]. exists items. rewrite length_reverse. split; [|done].
  eapply Forall2_impl; [apply Hi|]. intros m o. by apply HS.
Qed.

Lemma normalize_history_limit_pos limit : normalize_history_limit limit <> 0.
Proof.
  unfold normalize_history_limit, kDefaultHistoryLimit, kMaxHistoryLimit. case_if; lia.
Qed.

Lemma default_normalized limit :
  default_limit (normalize_history_limit limit) = normalize_history_limit limit.
Proof.
  unfold default_limit. case_if; [|done].
  by destruct (normalize_history_limit_pos limit); apply N.eqb_eq.
Qed.

Lemma group_history_outcome cmd :
  wp (handle_group_history c s cmd) (outcome n c st (fun out st' =>
    unchanged st' /\
    if in_group (st_world st) (cmd_group_id cmd) (session_user_id s) then
      let limit := normalize_history_limit (cmd_limit cmd) in
      let page := take (N.to_nat limit) (history_before (is_group_message (cmd_group_id cmd))
                    (cmd_before_id cmd) (message_log (st_world st))) in
      exists items, Forall2 (is_group_item c (st_world st)) (reverse page) items /\
        out = items ++ reply c (format_history_end (N.of_nat (length page) =? limit)
                                  (lowest 0 (reverse page)))
    else out = reply c (format_error "not a member of this group"))) st.
Proof.
  apply wp_bind. eapply wp_reads; [apply is_group_member_spec|apply (ok_storage n st K)|].
  intros b w1 -> Hv1 Hn1.
  destruct (in_group (st_world st) (cmd_group_id cmd) (session_user_id s)) eqn:Eg;
    simpl negb; cbv iota; [|by apply wp_ret, quiet_outcome].
  assert (Hp : prints group_item is_group_item) by (intros n' c' m Q' st'; apply wp_group_item).
  pose proof (fun logged => page_outcome group_item is_group_item _
    (fun l => take (N.to_nat (default_limit (normalize_history_limit (cmd_limit cmd))))
       (history_before (is_group_message (cmd_group_id cmd)) (cmd_before_id cmd) l))
    (normalize_history_limit (cmd_limit cmd)) logged w1 Hp group_item_stable
    (group_history_page_spec' _ _ _) Hv1 Hn1) as Hpage.
  rewrite default_normalized in Hpage. apply Hpage.
Qed.

Lemma direct_history_outcome cmd :
  wp (handle_direct_history c s cmd) (outcome n c st (fun out st' =>
    unchanged st' /\
    match account (st_world st) (cmd_target_username cmd) with
    | Some peer =>
        let limit := normalize_history_limit (cmd_limit cmd) in
        let page := take (N.to_nat limit)
          (history_before (is_direct_between (session_user_id s) peer) (cmd_before_id cmd)
             (message_log (st_world st))) in
        exists items, Forall2 (is_direct_item c (st_world st)) (reverse page) items /\
          out = items ++ reply c (format_history_end (N.of_nat (length page) =? limit)
                                    (lowest 0 (reverse page)))
    | None => out = reply c (format_error "peer not found")
    end)) st.
Proof.
  apply wp_bind. eapply wp_reads; [apply find_user_by_username_spec|apply (ok_storage n st K)|].
  intros [user|] w1 Hu Hv1 Hn1.
  2:{ apply wp_ret, quiet_outcome; [done|done|]. by rewrite Hu. }
  destruct Hu as [_ Ha]. rewrite Ha.
  assert (Hp : prints direct_item is_direct_item) by (intros n' c' m Q' st'; apply wp_direct_item).
  pose proof (fun logged => page_outcome direct_item is_direct_item _
    (fun l => take (N.to_nat (default_limit (normalize_history_limit (cmd_limit cmd))))
       (history_before (is_direct_between (session_user_id s) (user_id user))
          (cmd_before_id cmd) l))
    (normalize_history_limit (cmd_limit cmd)) logged w1 Hp direct_item_stable
    (direct_history_page_spec' _ _ _ _) Hv1 Hn1) as Hpage.
  rewrite default_normalized in Hpage. apply Hpage.
Qed.
Lemma is_unread_addressed w u gs m :
  (forall g, g ∈ gs <-> in_group w g u = true) ->
  is_unread u (list_to_set gs) m = addressed_to w u m.
Proof.
  intros Hg. unfold is_unread, addressed_to. f_equal. f_equal.
  apply eq_true_iff_eq. rewrite bool_decide_eq_true, elem_of_list_to_set. apply Hg.
Qed.

Lemma unread_outcome cmd :
  wp (handle_unread c s cmd) (outcome n c st (fun out st' =>
    unchanged st' /\
    let limit := normalize_history_limit (cmd_limit cmd) in
    let page := take (N.to_nat limit)
      (unread_after (addressed_to (st_world st) (session_user_id s))
         (cmd_last_seen_message_id cmd) (message_log (st_world st))) in
    exists items, Forall2 (is_unread_item c (st_world st)) page items /\
      out = items ++ reply c (format_unread_end (N.of_nat (length page) =? limit)
                                (highest (cmd_last_seen_message_id cmd) page)))) st.
Proof.
  apply wp_bind. eapply wp_reads; [apply load_user_groups_spec|apply (ok_storage n st K)|].
  intros gs w1 Hgs Hv1 Hn1. apply wp_bind.
  eapply wp_reads; [apply unread_page_spec'|exact Hn1|]. simpl. intros h w2 -> Hv2 Hn2.
  assert (Hv2' : same_view (st_world st) w2) by (by transitivity w1).
  rewrite default_normalized. unfold unread_after.
  rewrite (matching_ext _ (addressed_to (st_world st) (session_user_id s)))
    by (intros m; by apply is_unread_addressed).
  assert (El : message_log w1 = message_log (st_world st)) by (by rewrite Hv1). rewrite El.
  apply wp_bind, (wp_unread_items n); [done|]. simpl. intros items w3 Hi Hv3 Hn3.
  assert (Hv3' : same_view (st_world st) w3) by (by transitivity w2).
  apply wp_ret, quiet_outcome; [done|done|]. split; [done|]. exists items. split; [|done].
  eapply Forall2_impl; [apply Hi|]. intros m o. by apply unread_item_stable.
Qed.

(** ** Lemmas: the dispatch *)
Lemma outcome_step {P} (m : ST ChatState (list OutboundMessage)) :
  wp m (outcome n c st P) st ->
  wp m (fun _ st' => service_step c st st' /\ storage_ok (n + 1) (st_world st')) st.
Proof. intros Hm. eapply wp_mono; [exact Hm|]. intros out st' (? & ? & _). done. Qed.

Lemma logged_in_step cmd :
  wp (handle_logged_in c s cmd)
    (fun _ st' => service_step c st st' /\ storage_ok (n + 1) (st_world st')) st.
Proof.
  unfold handle_logged_in.
  destruct (cmd_type cmd);
    try (apply wp_bind, wp_log; intros logged; apply wp_ret; split; [by apply step_quiet|];
         apply (storage_ok_le n); [apply (ok_storage n st K)|lia]).
  - eapply outcome_step, logout_outcome.
  - eapply outcome_step, direct_message_outcome.
  - eapply outcome_step, group_message_outcome.
  - eapply outcome_step, create_group_outcome.
  - eapply outcome_step, join_group_outcome.
  - eapply outcome_step, leave_group_outcome.
  - unfold handle_history. destruct (cmd_group_history cmd).
    + eapply outcome_step, group_history_outcome.
    + eapply outcome_step, direct_history_outcome.
  - eapply outcome_step, unread_outcome.
Qed.
End branches.

Section dispatch.
Context `{StorageSpec}.

Lemma handle_command_step n c st cmd :
  service_ok n st -> room n -> command_ok cmd ->
  wp (handle_command c cmd)
    (fun _ st' => service_step c st st' /\ storage_ok (n + 1) (st_world st')) st.
Proof.
  intros K R C. unfold handle_command.
  assert (Q : forall logged, service_step c st (mkChatState (st_sessions st) (st_world st) logged) /\
                storage_ok (n + 1) (st_world st)).
  { intros logged. split; [by apply step_quiet|].
    apply (storage_ok_le n); [apply (ok_storage n st K)|lia]. }
  assert (L : wp (sender ← sessions_get (find_by_connection c);
                  match sender with
                  | None => mret (reply c (format_error "please login first"))
                  | Some sender => handle_logged_in c sender cmd
                  end)
    (fun _ st' => service_step c st st' /\ storage_ok (n + 1) (st_world st')) st).
  { apply wp_bind, wp_sessions_get.
    destruct (find_by_connection c (st_sessions st)) as [s|] eqn:Es.
    - by apply logged_in_step.
    - apply wp_ret. destruct st. apply Q. }
  unfold command_ok in C. destruct (cmd_type cmd); try exact L.
  - eapply outcome_step, register_outcome; [done|done|apply C].
  - by eapply outcome_step, login_outcome.
  - apply wp_ret. destruct st. apply Q.
Qed.

(** One line is one allowed step. *)
Lemma handle_client_line_step n c st line :
  service_ok n st -> room n ->
  wp (handle_client_line c line)
    (fun _ st' => service_step c st st' /\ storage_ok (n + 1) (st_world st')) st.
Proof.
  intros K R. unfold handle_client_line.
  destruct (parse_client_command line default_command []) as [[ok cmd] e] eqn:E.
  destruct ok.
  - apply handle_command_step; [done|done|]. by apply (parse_client_command_ok line cmd e).
  - apply wp_bind, wp_log. intros logged. apply wp_ret. split; [by apply step_quiet|].
    apply (storage_ok_le n); [apply (ok_storage n st K)|lia].
Qed.
End dispatch.

(** ** Lemmas: requests on the wire *)

Section requests.
Context `{Storage}.

Lemma handle_request c r (st : ChatState) :
  request_ok r = true ->
  handle_client_line c (encode_request r) st = handle_command c (command_of_request r) st.
Proof.
  intros Hr. unfold handle_client_line. rewrite (parse_request_line r) by
    (done || apply trim_render_object). done.
Qed.

(** A request of a logged-in connection. *)
Lemma handle_command_logged_in c s cmd (st : ChatState) :
  find_by_connection c (st_sessions st) = Some s ->
  needs_session (cmd_type cmd) = true ->
  handle_command c cmd st = handle_logged_in c s cmd st.
Proof.
  intros Hs Ht. unfold handle_command, mbind, ST_bind, sessions_get.
  destruct (cmd_type cmd); (discriminate Ht || by rewrite Hs).
Qed.

Lemma handle_command_logged_out c cmd (st : ChatState) :
  find_by_connection c (st_sessions st) = None ->
  needs_session (cmd_type cmd) = true ->
  handle_command c cmd st = (reply c (format_error "please login first"), st).
Proof.
  intros Hs Ht. unfold handle_command, mbind, ST_bind, sessions_get.
  destruct (cmd_type cmd); (discriminate Ht || by rewrite Hs).
Qed.
End requests.

(** ** Histories *)

Inductive event : Type :=
  | Line (connection_id : N) (line : bytes)
  | Disconnect (connection_id : N).

Section histories.
Context `{Storage}.

Definition run_event (e : event) (st : ChatState) : ChatState :=
  match e with
  | Line c line => (handle_client_line c line st).2
  | Disconnect c => (handle_disconnect c st).2
  end.

Definition run_events (es : list event) (st : ChatState) : ChatState :=
  foldl (fun st e => run_event e st) st es.
End histories.

Section histories_ok.
Context `{StorageSpec}.

Lemma service_ok_le n n' st : service_ok n st -> n <= n' -> service_ok n' st.
Proof. intros [L M S A G] Hn. split; try done. by apply (storage_ok_le n). Qed.

Lemma run_event_ok n e st :
  service_ok n st -> room n -> service_ok (n + 1) (run_event e st).
Proof.
  intros K R. destruct e as [c line|c]; simpl.
  - pose proof (handle_client_line_step n c st line K R) as Hw. unfold wp in Hw.
    destruct Hw as [Hstep Hn]. by apply (service_step_ok n _ c st).
  - apply (service_ok_le n); [by apply disconnect_ok|lia].
Qed.

Lemma run_events_ok n es st :
  service_ok n st -> room (n + N.of_nat (length es)) ->
  service_ok (n + N.of_nat (length es)) (run_events es st).
Proof.
  revert n st. induction es as [|e es IH]; intros n st K R; cbn [run_events foldl length].
  - by rewrite N.add_0_r.
  - replace (n + N.of_nat (S (length es))) with (n + 1 + N.of_nat (length es)) by lia.
    unfold room in *. simpl length in R. apply IH; [apply run_event_ok; [done|]|];
      unfold room in *; lia.
Qed.
End histories_ok.

(** ** Lemmas: the shape of the responses *)

Section responses.
Context `{StorageSpec}.
Context (n c : N) (st : ChatState) (K : service_ok n st) (R : room n).

Lemma answers_reply m data : answers c m (reply c data).
Proof. by exists [], data, false. Qed.

Lemma answers_items m (items : list OutboundMessage) data :
  Forall (fun o => close_after_send o = false /\ out_connection_id o = c) items ->
  answers c m (items ++ reply c data).
Proof.
  intros Hi. exists items, data, false. split; [done|].
  eapply Forall_impl; [exact Hi|]. intros o [? ?]. split; [done|by left].
Qed.

Lemma items_to {A} (Q : A -> OutboundMessage -> Prop) l items :
  Forall2 Q l items ->
  (forall m o, Q m o -> close_after_send o = false /\ out_connection_id o = c) ->
  Forall (fun o => close_after_send o = false /\ out_connection_id o = c) items.
Proof. intros Hi HQ. induction Hi; constructor; eauto. Qed.

Lemma group_item_to w m o :
  is_group_item c w m o -> close_after_send o = false /\ out_connection_id o = c.
Proof. by intros (from & _ & ->). Qed.

Lemma direct_item_to w m o :
  is_direct_item c w m o -> close_after_send o = false /\ out_connection_id o = c.
Proof. by intros (from & to & _ & _ & ->). Qed.

Lemma unread_item_to w m o :
  is_unread_item c w m o -> close_after_send o = false /\ out_connection_id o = c.
Proof.
  unfold is_unread_item. case_bool_decide; [apply group_item_to|apply direct_item_to].
Qed.

Lemma elem_of_deliveries u f m members o :
  o ∈ deliveries u f m members <->
  exists v s, v ∈ members /\ v <> u /\ sessions_ m !! v = Some s /\
    o = mkOutbound (session_connection_id s) f false.
Proof.
  unfold deliveries. rewrite list_elem_of_omap. unfold find. split.
  - intros (v & Hv & Ho). destruct (v =? u) eqn:E; [done|].
    destruct (sessions_ m !! v) as [s|] eqn:Es; [|done]. injection Ho as <-.
    exists v, s. repeat split; [done|lia|done].
  - intros (v & s & Hv & Hne & Hs & ->). exists v. split; [done|].
    replace (v =? u) with false by lia. by rewrite Hs.
Qed.

Lemma answers_deliveries u f m members data :
  answers c m (deliveries u f m members ++ reply c data).
Proof.
  exists (deliveries u f m members), data, false. split; [done|]. apply Forall_forall.
  intros o (v & s & _ & _ & Hs & ->)%elem_of_deliveries. split; [done|]. right. by exists v, s.
Qed.

(** Every branch answers its connection, last. *)
Lemma logged_in_answers s cmd :
  find_by_connection c (st_sessions st) = Some s ->
  wp (handle_logged_in c s cmd) (fun out _ => answers c (st_sessions st) out) st.
Proof.
  intros Es.
  unfold handle_logged_in, handle_history.
  destruct (cmd_type cmd); try (apply wp_bind, wp_log; intros; apply wp_ret, answers_reply);
    [| | | | | |destruct (cmd_group_history cmd)|].
  - eapply wp_mono; [by eapply (logout_outcome n)|]. intros out st' (_ & _ & _ & _ & ->).
    by exists [], (format_ok "logout"), true.
  - eapply wp_mono; [by apply (direct_message_outcome n)|]. intros out st' (_ & _ & _ & Ho).
    destruct (account _ _) as [i|]; [|destruct Ho as [_ ->]; apply answers_reply].
    destruct Ho as [_ Ho]. cbv zeta in Ho.
    destruct (sessions_ (st_sessions st) !! i) as [r|] eqn:Er; rewrite Ho; [|apply answers_reply].
    eexists _, _, false. split; [done|]. apply Forall_singleton. simpl.
    split; [done|right]. by exists i, r.
  - eapply wp_mono; [by apply (group_message_outcome n)|]. intros out st' (_ & _ & _ & Ho).
    destruct (in_group _ _ _); [|destruct Ho as [_ ->]; apply answers_reply].
    destruct Ho as (_ & members & _ & _ & ->). apply answers_deliveries.
  - eapply wp_mono; [by apply (create_group_outcome n)|].
    intros out st' (_ & _ & [(g & _ & ->)|(r & _ & ->)]); apply answers_reply.
  - eapply wp_mono; [by apply (join_group_outcome n)|].
    intros out st' (_ & _ & [(_ & ->)|(r & _ & ->)]); apply answers_reply.
  - eapply wp_mono; [by apply (leave_group_outcome n)|].
    intros out st' (_ & _ & [(_ & _ & ->)|(r & _ & ->)]); apply answers_reply.
  - eapply wp_mono; [by apply (group_history_outcome n)|]. intros out st' (_ & _ & _ & Ho).
    destruct (in_group _ _ _); [|rewrite Ho; apply answers_reply].
    destruct Ho as (items & Hi & ->). apply answers_items. eapply items_to; [exact Hi|].
    intros m o. apply group_item_to.
  - eapply wp_mono; [by apply (direct_history_outcome n)|]. intros out st' (_ & _ & _ & Ho).
    destruct (account _ _); [|rewrite Ho; apply answers_reply].
    destruct Ho as (items & Hi & ->). apply answers_items. eapply items_to; [exact Hi|].
    intros m o. apply direct_item_to.
  - eapply wp_mono; [by apply (unread_outcome n)|]. intros out st' (_ & _ & _ & Ho).
    destruct Ho as (items & Hi & ->). apply answers_items. eapply items_to; [exact Hi|].
    intros m o. apply unread_item_to.
Qed.

Lemma handle_command_answers cmd :
  cmd_type cmd <> System -> (cmd_type cmd = Register -> cmd_username cmd <> []) ->
  wp (handle_command c cmd) (fun out _ => answers c (st_sessions st) out) st.
Proof.
  intros Hsys Hreg.
  assert (L : wp (sender ← sessions_get (find_by_connection c);
                  match sender with
                  | None => mret (reply c (format_error "please login first"))
                  | Some sender => handle_logged_in c sender cmd
                  end) (fun out _ => answers c (st_sessions st) out) st).
  { apply wp_bind, wp_sessions_get.
    destruct (find_by_connection c (st_sessions st)) as [s|] eqn:Es;
      [by apply logged_in_answers|apply wp_ret, answers_reply]. }
  unfold handle_command. destruct (cmd_type cmd) eqn:Et; try exact L.
  - eapply wp_mono; [apply (register_outcome n); [done|done|by apply Hreg]|].
    intros out st' (_ & _ & Ho). destruct (find_by_connection c (st_sessions st)).
    + destruct Ho as [_ ->]. apply answers_reply.
    + destruct Ho as [(i & _ & _ & _ & _ & ->)|(r & _ & ->)]; apply answers_reply.
  - eapply wp_mono; [by apply (login_outcome n)|]. intros out st' (_ & _ & _ & Ho).
    destruct (find_by_connection c (st_sessions st)); [destruct Ho as [_ ->]; apply answers_reply|].
    destruct (is_username_online _ _); [destruct Ho as [_ ->]; apply answers_reply|].
    destruct (credentials _ _ _); [|destruct Ho as [_ ->]; apply answers_reply].
    destruct Ho as (i & _ & _ & ->). apply answers_reply.
  - apply wp_ret, answers_reply.
Qed.
End responses.

(** ** Lemmas: cursors and deliveries *)

(** The cursor of a page is the id of its oldest message. *)
Lemma lowest_page (p : list StoredMessage) :
  StronglySorted newer p -> (forall m, m ∈ p -> 0 < stored_id m) ->
  lowest 0 (reverse p) = match last p with Some m => stored_id m | None => 0 end.
Proof.
  assert (Hfold : forall x q, 0 < x -> (forall m, m ∈ q -> x < stored_id m) -> lowest x q = x).
  { intros x q Hx. induction q as [|m q IH]; intros Hq; [done|]. cbn [lowest foldl].
    assert (x < stored_id m) by (apply Hq; set_solver).
    replace ((x =? 0) || (stored_id m <? x)) with false by lia.
    apply IH. intros m' Hm'. apply Hq. set_solver. }
  intros Hs Hpos. destruct p as [|y p _] using rev_ind; [done|].
  rewrite last_snoc, reverse_snoc. cbn [lowest foldl]. simpl (0 =? 0). cbn [orb].
  apply Hfold; [apply Hpos; set_solver|]. intros m Hm. rewrite elem_of_reverse in Hm.
  apply StronglySorted_app in Hs as [Hlt _]. apply (Hlt m y Hm). by left.
Qed.

(** The cursor after an unread page is the id of its newest message. *)
Lemma highest_page next (p : list StoredMessage) :
  StronglySorted (fun a b => stored_id a < stored_id b) p ->
  (forall m, m ∈ p -> next < stored_id m) ->
  highest next p = match last p with Some m => stored_id m | None => next end.
Proof.
  revert next. induction p as [|y p IH]; intros next Hs Hp; [done|]. cbn [highest foldl].
  apply StronglySorted_inv in Hs as [Hs Hy]. rewrite Forall_forall in Hy.
  assert (next < stored_id y) by (apply Hp; set_solver). rewrite N.max_r by lia.
  unfold highest in IH. rewrite IH; [|done|by intros m Hm; apply Hy].
  rewrite last_cons. by destruct (last p).
Qed.

Lemma deliveries_cons u f m v members :
  deliveries u f m (v :: members) =
    (if v =? u then []
     else match sessions_ m !! v with
          | Some s => [mkOutbound (session_connection_id s) f false]
          | None => []
          end) ++ deliveries u f m members.
Proof.
  unfold deliveries, find. cbn [omap list_omap]. destruct (v =? u); [done|].
  by destruct (sessions_ m !! v).
Qed.

(** No connection gets the message twice. *)
Lemma deliveries_NoDup u f m members :
  linked m -> NoDup members -> NoDup (map out_connection_id (deliveries u f m members)).
Proof.
  intros L Hnd. induction Hnd as [|v members Hv _ IH]; [constructor|].
  rewrite deliveries_cons. destruct (v =? u); [done|].
  destruct (sessions_ m !! v) as [s|] eqn:Es; [|done]. cbn [app map]. constructor; [|done].
  intros Hin. apply list_elem_of_fmap in Hin as (o & Ho & Hin).
  apply elem_of_deliveries in Hin as (v' & s' & Hv' & _ & Hs' & ->). simpl in Ho.
  destruct (linked_session m L _ _ Es) as [_ H1], (linked_session m L _ _ Hs') as [_ H2].
  rewrite Ho, H2 in H1. injection H1 as ->. done.
Qed.

(** ** Who may see a message *)

Section visibility.
Context `{StorageView}.

(** The user took part in it, or is in the group it was sent to. *)
Definition visible (w : World) (u : N) (m : Message) : bool :=
  match msg_type m with
  | DirectChat => (msg_sender_id m =? u) || (msg_receiver_id m =? u)
  | GroupChat => in_group w (msg_receiver_id m) u
  | _ => false
  end.

(** [m] is the stored form of a message of the log that [u] may see. *)
Definition shown_to (w : World) (u : N) (m : StoredMessage) : Prop :=
  exists i x, m = stored i x /\ (i, x) ∈ numbered (message_log w) /\ visible w u x = true.

Lemma history_shown test before w u m :
  (forall x, test x = true -> visible w u x = true) ->
  m ∈ history_before test before (message_log w) -> shown_to w u m.
Proof.
  intros Ht. unfold history_before. rewrite elem_of_reverse, elem_of_matching.
  intros (i & x & Hin & _ & Hx & ->). exists i, x. auto.
Qed.

Lemma unread_shown test last w u m :
  (forall x, test x = true -> visible w u x = true) ->
  m ∈ unread_after test last (message_log w) -> shown_to w u m.
Proof.
  intros Ht. unfold unread_after. rewrite elem_of_matching.
  intros (i & x & Hin & _ & Hx & ->). exists i, x. auto.
Qed.

Lemma direct_visible w u p x : is_direct_between u p x = true -> visible w u x = true.
Proof.
  unfold is_direct_between, visible. intros [Ht%bool_decide_eq_true Hx]%andb_prop. rewrite Ht.
  destruct (msg_sender_id x =? u); [done|]. simpl in *.
  destruct (msg_receiver_id x =? u); [done|]. by rewrite andb_false_r in Hx.
Qed.

Lemma group_visible w u g x :
  in_group w g u = true -> is_group_message g x = true -> visible w u x = true.
Proof.
  unfold is_group_message, visible. intros Hg [Ht%bool_decide_eq_true Hx%N.eqb_eq]%andb_prop.
  by rewrite Ht, Hx.
Qed.

Lemma addressed_visible w u x : addressed_to w u x = true -> visible w u x = true.
Proof.
  unfold addressed_to, visible.
  intros [[Ht%bool_decide_eq_true Hx]%andb_prop|[[Ht%bool_decide_eq_true _]%andb_prop Hx]%andb_prop]%orb_prop;
    rewrite Ht; [|done]. rewrite Hx. apply orb_true_r.
Qed.

Lemma page_sorted test before k st :
  StronglySorted newer (take k (history_before test before st)).
Proof.
  pose proof (history_before_sorted test before st) as Hs.
  rewrite <- (take_drop k (history_before test before st)) in Hs.
  by apply StronglySorted_app in Hs as (_ & ? & _).
Qed.

Lemma page_ids_pos test before k st m :
  m ∈ take k (history_before test before st) -> 0 < stored_id m.
Proof.
  rewrite elem_of_take. intros (i & Hi & _). apply list_elem_of_lookup_2 in Hi.
  rewrite history_before_filter, elem_of_filter_In in Hi. destruct Hi as [Hi _].
  by apply (stored_ids_pos test st).
Qed.

(** The cursors sent with a page. *)
Definition oldest_id (p : list StoredMessage) : N :=
  match last p with Some m => stored_id m | None => 0 end.
Definition newest_id (last_seen : N) (p : list StoredMessage) : N :=
  match last p with Some m => stored_id m | None => last_seen end.

Lemma history_cursor test before k st :
  lowest 0 (reverse (take k (history_before test before st))) =
    oldest_id (take k (history_before test before st)).
Proof. apply lowest_page; [apply page_sorted|]. intros m. apply page_ids_pos. Qed.

Lemma unread_cursor test last_seen k st :
  highest last_seen (take k (unread_after test last_seen st)) =
    newest_id last_seen (take k (unread_after test last_seen st)).
Proof.
  apply highest_page.
  - pose proof (matching_sorted test (fun i => last_seen <? i) 1 (messages_ st)) as Hs.
    unfold unread_after, numbered.
    rewrite <- (take_drop k (matching _ _ _)) in Hs. by apply StronglySorted_app in Hs as (_ & ? & _).
  - intros m. rewrite elem_of_take. intros (i & Hi & _). apply list_elem_of_lookup_2 in Hi.
    apply elem_of_matching in Hi as (j & x & _ & Hj & _ & ->). simpl. lia.
Qed.
End visibility.

(** The message stored last is unread for whoever it is addressed to. *)
Lemma unread_after_snoc test last_seen (l : list Message) (m : Message) :
  test m = true -> last_seen <= N.of_nat (length l) ->
  stored (N.of_nat (S (length l))) m ∈
    unread_after test last_seen (mkMessageStore (l ++ [m])).
Proof.
  intros Ht Hl. unfold unread_after, numbered. simpl messages_. apply elem_of_matching.
  exists (N.of_nat (S (length l))), m. split; [|split; [lia|done]].
  rewrite number_from_app, elem_of_app. right. simpl.
  replace (1 + N.of_nat (length l)) with (N.of_nat (S (length l))) by lia. by left.
Qed.
