(* ===== verification/ChatTheorems.v ===== *)
(** * ChatTheorems: what the chat service guarantees

    The properties of [ChatService], stated on request lines as a client sends
    them.  Those of the first section hold for any storage that keeps the
    contract of [Storage.v]; those of the last are about the memory mode.
    [sample_state] is the reached state the witnesses run on. *)

From S2P Require Import Prelude.
From S2P Require Import CStd.
From S2P Require Import Json.
From S2P Require Import Message.
From S2P Require Import SessionManager.
From S2P Require Import UserStore.
From S2P Require Import GroupStore.
From S2P Require Import MessageStore.
From S2P Require Import Storage.
From S2P Require Import ChatService.
From S2P Require Import ChatSpec.
Open Scope N_scope.

(** ** The initial state of the memory mode, and a sample history *)

Definition chat_start `{OpenSSL} (e : Entropy) : ChatState :=
  mkChatState no_sessions (memory_start e) [].

Lemma chat_start_ok `{OpenSSLSpec} (e : Entropy) : service_ok 0 (chat_start e).
Proof.
  split; simpl.
  - by split; intros ? ?; simpl; rewrite lookup_empty.
  - by split; intros ? ?; simpl; rewrite lookup_empty.
  - apply (memory_start_ok e).
  - intros u s. by rewrite lookup_empty.
  - done.
Qed.

#[local] Existing Instance toy_openssl.
#[local] Existing Instance toy_openssl_spec.

(** Alice is on connection 1, Bob on 2; Carol is registered; group 1 is
    Alice's, and Bob is in it; each has sent a message. *)
Definition sample_events : list event := [
  Line 1 (encode_request (ReqRegister "alice" "secret"));
  Line 2 (encode_request (ReqRegister "bob" "hunter2"));
  Line 3 (encode_request (ReqRegister "carol" "pass"));
  Line 1 (encode_request (ReqLogin "alice" "secret"));
  Line 2 (encode_request (ReqLogin "bob" "hunter2"));
  Line 1 (encode_request (ReqCreateGroup "team"));
  Line 2 (encode_request (ReqJoinGroup 1));
  Line 1 (encode_request (ReqDm "bob" "hi bob"));
  Line 2 (encode_request (ReqGroupMessage 1 "hi team"))].

Definition sample_state : ChatState := run_events sample_events (chat_start tt).

Lemma sample_ok : service_ok 9 sample_state.
Proof. apply (run_events_ok 0 sample_events); [apply chat_start_ok|reflexivity]. Qed.

Example sample_sessions :
  map_to_list (sessions_ (st_sessions sample_state)) =
    [(2, mkSession 2 2 "bob"); (1, mkSession 1 1 "alice")].
Proof. vm_compute. reflexivity. Qed.

Example sample_log :
  messages (st_world sample_state) =
    [mkMessage DirectChat 1 2 "hi bob"; mkMessage GroupChat 2 1 "hi team"].
Proof. vm_compute. reflexivity. Qed.

(** ** Any storage *)

Section any_storage.
Context `{StorageSpec}.

(** C2: One client line is one step of the specification: whatever the bytes
    of the line, the service takes a transition of [service_step], keeps the
    invariant (sessions, connection and user name indexes inverse to each
    other, every session on its own account, group tables mirrored), and its
    responses end with one to the connection the line came from, the others
    going to connections with a session. *)
Theorem client_line_refines n c line st :
  service_ok n st -> room n ->
  let '(out, st') := handle_client_line c line st in
  service_step c st st' /\ service_ok (n + 1) st' /\ answers c (st_sessions st) out.
Proof.
  intros K R. destruct (handle_client_line c line st) as [out st'] eqn:E.
  destruct (wp_run _ _ _ _ _ (handle_client_line_step n c st line K R) E) as [Hs Hn].
  split; [done|]. split; [by apply (service_step_ok n _ c st)|].
  unfold handle_client_line in E.
  destruct (parse_client_command line default_command []) as [[[] cmd] e] eqn:Ep.
  - apply parse_client_command_ok in Ep. unfold command_ok in Ep.
    refine (wp_run _ _ _ _ _ (handle_command_answers n c st K R cmd _ _) E);
      intros Ht; by rewrite Ht in Ep; try apply Ep.
  - injection E as <- _. apply answers_reply.
Qed.

(** C18: The stored conversation only grows, and only by messages their author
    may post: a line on connection [c] appends nothing, or one message whose
    sender is the user logged in on [c], addressed to an existing account or
    to a group the sender belongs to. *)
Theorem messages_only_posted n c line st :
  service_ok n st -> room n ->
  let st' := (handle_client_line c line st).2 in
  messages (st_world st') = messages (st_world st) \/
  exists s m, find_by_connection c (st_sessions st) = Some s /\
    messages (st_world st') = messages (st_world st) ++ [m] /\
    may_post (st_world st) (session_user_id s) m.
Proof.
  intros K R. destruct (handle_client_line_step n c st line K R) as [Hstep _].
  destruct Hstep as [_ Hv| | |s _ _ Hv| | |s m Hs _ _ _ Hm Hp]; try (by left).
  - left. apply (same_messages _ _ Hv).
  - left. by apply same_messages.
  - left. apply (same_messages _ _ Hv).
  - right. by exists s, m.
Qed.

(** C19: Without a session nothing but ping, register and login is served: the
    line is answered with "please login first" and the whole state, logs
    included, is unchanged. *)
Theorem login_required c line cmd e (st : ChatState) :
  parse_client_command line default_command [] = (true, cmd, e) ->
  needs_session (cmd_type cmd) = true ->
  find_by_connection c (st_sessions st) = None ->
  handle_client_line c line st = (reply c (format_error "please login first"), st).
Proof.
  intros Hp Ht Hc. unfold handle_client_line. rewrite Hp.
  by apply handle_command_logged_out.
Qed.
(** C11: A login on a fresh connection: a user already online is refused, a
    wrong password is refused, and with the right password the account's
    session is added on this connection while every other session stays as it
    was. *)
Theorem login_request n c u p st :
  service_ok n st -> request_ok (ReqLogin u p) = true ->
  find_by_connection c (st_sessions st) = None ->
  let '(out, st') := handle_client_line c (encode_request (ReqLogin u p)) st in
  same_view (st_world st) (st_world st') /\
  if is_username_online u (st_sessions st) then
    sessions_ (st_sessions st') = sessions_ (st_sessions st) /\
    out = reply c (format_login_failed "user already online")
  else if credentials (st_world st) u p then
    exists i, account (st_world st) u = Some i /\
      sessions_ (st_sessions st') = <[i := mkSession i c u]> (sessions_ (st_sessions st)) /\
      out = reply c (format_login_success i u)
  else
    sessions_ (st_sessions st') = sessions_ (st_sessions st) /\
    out = reply c (format_login_failed "invalid username or password").
Proof.
  intros K Hr Hc. rewrite handle_request by done.
  pose proof (login_effect n c st K (command_of_request (ReqLogin u p)) Hc) as Hw.
  unfold wp in Hw. change (handle_command c _ st) with
    (handle_login c (command_of_request (ReqLogin u p)) st).
  by destruct (handle_login c (command_of_request (ReqLogin u p)) st) as [out st'].
Qed.

(** C8: A direct message to an existing account is stored exactly once, with
    the sender's own id, and acknowledged with its id; it is delivered, to the
    receiver's connection alone and with the sender's real name, exactly when
    the receiver is online.  For an unknown name nothing is stored. *)
Theorem direct_message_request n c s to body st :
  service_ok n st -> room n -> request_ok (ReqDm to body) = true ->
  find_by_connection c (st_sessions st) = Some s ->
  let '(out, st') := handle_client_line c (encode_request (ReqDm to body)) st in
  st_sessions st' = st_sessions st /\
  match account (st_world st) to with
  | None =>
      messages (st_world st') = messages (st_world st) /\
      out = reply c (format_error "receiver not found")
  | Some i =>
      messages (st_world st') =
        messages (st_world st) ++ [mkMessage DirectChat (session_user_id s) i body] /\
      let ack := format_message_ack (N.of_nat (S (length (messages (st_world st))))) true in
      match sessions_ (st_sessions st) !! i with
      | Some r => out = reply (session_connection_id r)
                          (format_direct_message (session_username s) body) ++ reply c (ack true)
      | None => out = reply c (ack false)
      end
  end.
Proof.
  intros K R Hr Hs. rewrite handle_request, (handle_command_logged_in c s) by done.
  pose proof (direct_message_outcome n c st K R s Hs (command_of_request (ReqDm to body))) as Hw.
  unfold wp in Hw. change (handle_logged_in c s _ st) with
    (handle_direct_message c s (command_of_request (ReqDm to body)) st).
  destruct (handle_direct_message c s (command_of_request (ReqDm to body)) st) as [out st'].
  destruct Hw as (_ & _ & Hm & Ho). split; [exact Hm|]. simpl in Ho.
  destruct (account (st_world st) to); [exact Ho|]. destruct Ho as [Hv ->].
  split; [apply (same_messages _ _ Hv)|done].
Qed.

(** C9: A group message from a member is stored exactly once and acknowledged;
    it is delivered exactly once to the connection of every member online
    other than the sender, to nobody else, and the acknowledgement says
    whether anybody got it.  From a non-member it is refused and nothing is
    stored or delivered. *)
Theorem group_message_request n c s g body st :
  service_ok n st -> room n -> request_ok (ReqGroupMessage g body) = true ->
  find_by_connection c (st_sessions st) = Some s ->
  let '(out, st') := handle_client_line c (encode_request (ReqGroupMessage g body)) st in
  st_sessions st' = st_sessions st /\
  if in_group (st_world st) g (session_user_id s) then
    messages (st_world st') =
      messages (st_world st) ++ [mkMessage GroupChat (session_user_id s) g body] /\
    exists sent,
      out = sent ++ reply c (format_message_ack (N.of_nat (S (length (messages (st_world st)))))
                               true (negb (bool_decide (sent = [])))) /\
      NoDup (map out_connection_id sent) /\
      forall o, o ∈ sent <->
        exists v t, in_group (st_world st) g v = true /\ v <> session_user_id s /\
          sessions_ (st_sessions st) !! v = Some t /\
          o = mkOutbound (session_connection_id t)
                (format_group_message g (session_username s) body) false
  else
    messages (st_world st') = messages (st_world st) /\
    out = reply c (format_error "not a member of this group").
Proof.
  intros K R Hr Hs. rewrite handle_request, (handle_command_logged_in c s) by done.
  set (cmd := command_of_request (ReqGroupMessage g body)).
  pose proof (group_message_outcome n c st K R s Hs cmd) as Hw. unfold wp in Hw.
  change (handle_logged_in c s _ st) with (handle_group_message c s cmd st).
  destruct (handle_group_message c s cmd st) as [out st'].
  destruct Hw as (_ & _ & Hm & Ho). split; [exact Hm|]. simpl in Ho.
  destruct (in_group (st_world st) g (session_user_id s)).
  - destruct Ho as (Hlog & members & Hnd & Hin & Hout). split; [done|].
    eexists. split; [exact Hout|]. split.
    + apply deliveries_NoDup; [apply (ok_linked n st K)|done].
    + intros o. rewrite elem_of_deliveries. setoid_rewrite Hin. done.
  - destruct Ho as [Hv ->]. split; [apply (same_messages _ _ Hv)|done].
Qed.

(** Leaving is final until the next login: after a logout the connection
    is to be closed, its user has no session, every other session is as it
    was, and nothing stored has changed. *)
Theorem logout_request n c s st :
  service_ok n st -> find_by_connection c (st_sessions st) = Some s ->
  let '(out, st') := handle_client_line c (encode_request ReqLogout) st in
  out = [mkOutbound c (format_ok "logout") true] /\
  same_view (st_world st) (st_world st') /\
  find_by_connection c (st_sessions st') = None /\
  sessions_ (st_sessions st') = delete (session_user_id s) (sessions_ (st_sessions st)).
Proof.
  intros K Hs. rewrite handle_request, (handle_command_logged_in c s) by done.
  pose proof (logout_outcome n c st K s Hs) as Hw. unfold wp in Hw.
  change (handle_logged_in c s _ st) with (handle_logout c s st).
  destruct (handle_logout c s st) as [out st']. simpl in Hw. destruct Hw as (_ & _ & -> & Hv & ->).
  split; [done|]. split; [done|]. apply unbind_connection_session; [apply (ok_linked n st K)|done].
Qed.

(** A closed connection loses its session at once, whoever it belonged to;
    the other sessions and the storage are untouched, and the invariant is
    kept. *)
Theorem disconnect_session n c st :
  service_ok n st ->
  let st' := (handle_disconnect c st).2 in
  service_ok n st' /\ st_world st' = st_world st /\
  find_by_connection c (st_sessions st') = None /\
  forall u s, sessions_ (st_sessions st') !! u = Some s <->
    sessions_ (st_sessions st) !! u = Some s /\ session_connection_id s <> c.
Proof.
  intros K. pose proof (ok_linked n st K) as L. split; [by apply disconnect_ok|]. split; [done|].
  simpl. split; [|intros u s; rewrite sessions_unbind_connection by done;
                  unfold spec_drop_connection; apply map_lookup_filter_Some].
  by apply unbind_connection_free.
Qed.
(** C24: A direct history request: for a known peer the answer is the newest
    page of the conversation of the two below the cursor, printed oldest first
    under the users' names, followed by an end marker with the id of the
    oldest message of the page; nothing changes.  The page size is the
    requested limit, 20 by default and at most 100. *)
Theorem direct_history_request n c s peer limit before st :
  service_ok n st -> request_ok (ReqHistory peer limit before) = true ->
  find_by_connection c (st_sessions st) = Some s ->
  let '(out, st') := handle_client_line c (encode_request (ReqHistory peer limit before)) st in
  unchanged st st' /\
  match account (st_world st) peer with
  | None => out = reply c (format_error "peer not found")
  | Some i =>
      let size := page_size limit in
      let page := take (N.to_nat size)
        (history_before (is_direct_between (session_user_id s) i) (default 0 before)
           (message_log (st_world st))) in
      exists items, Forall2 (is_direct_item c (st_world st)) (reverse page) items /\
        out = items ++ reply c (format_history_end (N.of_nat (length page) =? size)
                                  (oldest_id page))
  end.
Proof.
  intros K Hr Hs. rewrite handle_request, (handle_command_logged_in c s) by done.
  set (cmd := command_of_request (ReqHistory peer limit before)).
  pose proof (direct_history_outcome n c st K s cmd) as Hw. unfold wp in Hw.
  change (handle_logged_in c s _ st) with (handle_direct_history c s cmd st).
  destruct (handle_direct_history c s cmd st) as [out st'].
  destruct Hw as (_ & _ & Hu & Ho). split; [exact Hu|]. simpl in Ho.
  destruct (account (st_world st) peer); [|exact Ho]. by rewrite history_cursor in Ho.
Qed.

(** A group history request is served to members only; a member gets the
    newest page of the group below the cursor, with the same conventions. *)
Theorem group_history_request n c s g limit before st :
  service_ok n st -> request_ok (ReqGroupHistory g limit before) = true ->
  find_by_connection c (st_sessions st) = Some s ->
  let '(out, st') := handle_client_line c (encode_request (ReqGroupHistory g limit before)) st in
  unchanged st st' /\
  if in_group (st_world st) g (session_user_id s) then
    let size := page_size limit in
    let page := take (N.to_nat size)
      (history_before (is_group_message g) (default 0 before) (message_log (st_world st))) in
    exists items, Forall2 (is_group_item c (st_world st)) (reverse page) items /\
      out = items ++ reply c (format_history_end (N.of_nat (length page) =? size) (oldest_id page))
  else out = reply c (format_error "not a member of this group").
Proof.
  intros K Hr Hs. rewrite handle_request, (handle_command_logged_in c s) by done.
  set (cmd := command_of_request (ReqGroupHistory g limit before)).
  pose proof (group_history_outcome n c st K s cmd) as Hw. unfold wp in Hw.
  change (handle_logged_in c s _ st) with (handle_group_history c s cmd st).
  destruct (handle_group_history c s cmd st) as [out st'].
  destruct Hw as (_ & _ & Hu & Ho). split; [exact Hu|]. simpl in Ho.
  destruct (in_group (st_world st) g (session_user_id s)); [|exact Ho].
  by rewrite history_cursor in Ho.
Qed.

(** C26: An unread request returns, oldest first, the messages after the
    cursor that were sent to the user, or by others to a group of his, up to
    the page size; the end marker carries the id of the last one, or the old
    cursor when there is none. *)
Theorem unread_request n c s last_seen limit st :
  service_ok n st -> request_ok (ReqUnread last_seen limit) = true ->
  find_by_connection c (st_sessions st) = Some s ->
  let '(out, st') := handle_client_line c (encode_request (ReqUnread last_seen limit)) st in
  unchanged st st' /\
  let size := page_size limit in
  let page := take (N.to_nat size)
    (unread_after (addressed_to (st_world st) (session_user_id s)) (default 0 last_seen)
       (message_log (st_world st))) in
  exists items, Forall2 (is_unread_item c (st_world st)) page items /\
    out = items ++ reply c (format_unread_end (N.of_nat (length page) =? size)
                              (newest_id (default 0 last_seen) page)).
Proof.
  intros K Hr Hs. rewrite handle_request, (handle_command_logged_in c s) by done.
  set (cmd := command_of_request (ReqUnread last_seen limit)).
  pose proof (unread_outcome n c st K s cmd) as Hw. unfold wp in Hw.
  change (handle_logged_in c s _ st) with (handle_unread c s cmd st).
  destruct (handle_unread c s cmd st) as [out st'].
  destruct Hw as (_ & _ & Hu & Ho). split; [exact Hu|]. simpl in Ho.
  by rewrite unread_cursor in Ho.
Qed.

(** C10: Confidentiality of the history: whatever the query, all that a history
    or unread command prints are messages of the log that the user took part
    in or that were sent to a group he is in. *)
Theorem history_confidential n c s cmd st :
  service_ok n st ->
  cmd_type cmd = HistoryQuery \/ cmd_type cmd = UnreadQuery ->
  find_by_connection c (st_sessions st) = Some s ->
  let '(out, st') := handle_command c cmd st in
  exists shown items data,
    out = items ++ reply c data /\
    Forall (shown_to (st_world st) (session_user_id s)) shown /\
    Forall2 (fun m o => is_group_item c (st_world st) m o \/ is_direct_item c (st_world st) m o)
      shown items.
Proof.
  intros K Ht Hs.
  assert (Hno : forall data, exists shown items data',
    reply c data = items ++ reply c data' /\
    Forall (shown_to (st_world st) (session_user_id s)) shown /\
    Forall2 (fun m o => is_group_item c (st_world st) m o \/ is_direct_item c (st_world st) m o)
      shown items) by (intros data; by exists [], [], data).
  rewrite (handle_command_logged_in c s) by (done || by destruct Ht as [-> | ->]).
  unfold handle_logged_in. destruct Ht as [-> | ->]; [unfold handle_history;
    destruct (cmd_group_history cmd)|].
  - pose proof (group_history_outcome n c st K s cmd) as Hw. unfold wp in Hw.
    destruct (handle_group_history c s cmd st) as [out st']. simpl in Hw.
    destruct Hw as (_ & _ & _ & Ho).
    destruct (in_group (st_world st) (cmd_group_id cmd) (session_user_id s)) eqn:Eg;
      [|rewrite Ho; apply Hno].
    destruct Ho as (items & Hi & ->). eexists _, items, _. split; [done|]. split.
    + apply Forall_reverse, Forall_take, Forall_forall. intros m.
      apply history_shown. intros x. by apply group_visible.
    + eapply Forall2_impl; [exact Hi|]. by left.
  - pose proof (direct_history_outcome n c st K s cmd) as Hw. unfold wp in Hw.
    destruct (handle_direct_history c s cmd st) as [out st']. simpl in Hw.
    destruct Hw as (_ & _ & _ & Ho).
    destruct (account (st_world st) (cmd_target_username cmd)) as [i|]; [|rewrite Ho; apply Hno].
    destruct Ho as (items & Hi & ->). eexists _, items, _. split; [done|]. split.
    + apply Forall_reverse, Forall_take, Forall_forall. intros m.
      apply history_shown. intros x. apply direct_visible.
    + eapply Forall2_impl; [exact Hi|]. by right.
  - pose proof (unread_outcome n c st K s cmd) as Hw. unfold wp in Hw.
    destruct (handle_unread c s cmd st) as [out st']. simpl in Hw.
    destruct Hw as (_ & _ & _ & items & Hi & ->). eexists _, items, _. split; [done|]. split.
    + apply Forall_take, Forall_forall. intros m. apply unread_shown. intros x.
      apply addressed_visible.
    + eapply Forall2_impl; [exact Hi|]. intros m o. unfold is_unread_item.
      case_bool_decide; auto.
Qed.

(** C33: Membership requests do what they acknowledge: after "joined" the user
    is in the group and after "left" he is not, no other membership changes in
    either case, and a refusal changes none. *)
Theorem membership_requests n c s g (join : bool) st :
  service_ok n st -> g < u64_modulus ->
  find_by_connection c (st_sessions st) = Some s ->
  let r := if join then ReqJoinGroup g else ReqLeaveGroup g in
  let '(out, st') := handle_client_line c (encode_request r) st in
  (forall g' u', (g', u') <> (g, session_user_id s) ->
     in_group (st_world st') g' u' = in_group (st_world st) g' u') /\
  messages (st_world st') = messages (st_world st) /\
  ((in_group (st_world st') g (session_user_id s) = join /\
    out = reply c (format_ok ((if join then bs "joined group " else bs "left group ") ++ to_string g))) \/
   (exists reason, unchanged st st' /\ out = reply c (format_error reason))).
Proof.
  intros K Hg Hs r. subst r.
  assert (Hr : request_ok (if join then ReqJoinGroup g else ReqLeaveGroup g) = true).
  { apply N.ltb_lt in Hg. destruct join; change ((g <? u64_modulus) && true && true = true);
      by rewrite Hg. }
  rewrite handle_request, (handle_command_logged_in c s) by (done || by destruct join).
  destruct join; [set (cmd := command_of_request (ReqJoinGroup g))
                 |set (cmd := command_of_request (ReqLeaveGroup g))].
  - pose proof (join_group_effect n c st K s cmd) as Hw. unfold wp in Hw.
    change (handle_logged_in c s _ st) with (handle_join_group c s cmd st).
    by destruct (handle_join_group c s cmd st) as [out st'].
  - pose proof (leave_group_effect n c st K s cmd) as Hw. unfold wp in Hw.
    change (handle_logged_in c s _ st) with (handle_leave_group c s cmd st).
    by destruct (handle_leave_group c s cmd st) as [out st'].
Qed.
(** No message is lost: a direct message that was acknowledged is among
    the unread messages of its receiver for every cursor below its id, whether
    or not he was online when it was sent. *)
Theorem direct_message_unread n c s to i body last_seen st :
  service_ok n st -> room n -> request_ok (ReqDm to body) = true ->
  find_by_connection c (st_sessions st) = Some s -> account (st_world st) to = Some i ->
  last_seen <= N.of_nat (length (messages (st_world st))) ->
  let st' := (handle_client_line c (encode_request (ReqDm to body)) st).2 in
  stored (N.of_nat (S (length (messages (st_world st)))))
    (mkMessage DirectChat (session_user_id s) i body)
  ∈ unread_after (addressed_to (st_world st') i) last_seen (message_log (st_world st')).
Proof.
  intros K R Hr Hs Ha Hl. rewrite handle_request, (handle_command_logged_in c s) by done.
  pose proof (direct_message_outcome n c st K R s Hs (command_of_request (ReqDm to body))) as Hw.
  unfold wp in Hw. change (handle_logged_in c s _ st) with
    (handle_direct_message c s (command_of_request (ReqDm to body)) st). cbv zeta.
  destruct Hw as (_ & _ & _ & Ho). simpl in Ho. rewrite Ha in Ho. destruct Ho as [Hlog _].
  unfold message_log. simpl. rewrite Hlog. apply unread_after_snoc; [|done].
  unfold addressed_to. simpl. by rewrite N.eqb_refl.
Qed.
End any_storage.

(** ** The memory mode *)

Section memory_mode.
Context `{OpenSSLSpec}.

(** From the empty server, any sequence of client lines and disconnects,
    on any connections, leads to a state with the invariant, as long as the
    64-bit id counters have room. *)
Theorem reachable_states_ok (e : Entropy) (es : list event) :
  room (N.of_nat (length es)) ->
  service_ok (N.of_nat (length es)) (run_events es (chat_start e)).
Proof. intros R. apply (run_events_ok 0 es); [apply chat_start_ok|done]. Qed.

Lemma register_replies_differ c i r :
  reply c (format_register_success i) <> reply c (format_register_failed r).
Proof. discriminate. Qed.

Lemma register_fresh c u p salt key e' (st : ChatState) :
  u <> [] -> p <> [] -> (length u <= 64)%nat ->
  find_by_connection c (st_sessions st) = None -> account (st_world st) u = None ->
  RAND_bytes kSaltBytes (mw_entropy (st_world st)) = (Some salt, e') ->
  PKCS5_PBKDF2_HMAC p salt kPbkdf2Iterations kHashBytes = Some key ->
  exists i, (handle_register c (command_of_request (ReqRegister u p)) st).1 =
    reply c (format_register_success i).
Proof.
  intros Hu Hp Hl Hc Ha Hr Hk. simpl in Ha. apply fmap_None in Ha.
  exists (us_next_memory_id_ (mw_users (st_world st))).
  pose proof (register_user_fresh u p salt key _ _ _ Hu Hp Hl Ha Hr Hk) as Hf.
  unfold handle_register, mbind, ST_bind, sessions_get, store. rewrite Hc. simpl.
  unfold on_users. destruct (register_user u p _) as [r [users e]]. simpl in Hf. by subst r.
Qed.

(** C32: End to end: on a free connection, registering a new name (of at most 64
    bytes, with OpenSSL working) and then logging in with the same password
    succeeds, and puts exactly that session online. *)
Theorem register_then_login n c u p salt key e' (st : ChatState) :
  service_ok n st -> room (n + 1) -> request_ok (ReqRegister u p) = true ->
  (length u <= 64)%nat -> find_by_connection c (st_sessions st) = None ->
  account (st_world st) u = None ->
  RAND_bytes kSaltBytes (mw_entropy (st_world st)) = (Some salt, e') ->
  PKCS5_PBKDF2_HMAC p salt kPbkdf2Iterations kHashBytes = Some key ->
  let '(out1, st1) := handle_client_line c (encode_request (ReqRegister u p)) st in
  let '(out2, st2) := handle_client_line c (encode_request (ReqLogin u p)) st1 in
  exists i,
    out1 = reply c (format_register_success i) /\
    out2 = reply c (format_login_success i u) /\
    sessions_ (st_sessions st2) = <[i := mkSession i c u]> (sessions_ (st_sessions st)).
Proof.
  intros K R Hr Hlen Hc Ha Hsalt Hkey.
  assert (R0 : room n) by (unfold room in *; lia).
  rewrite handle_request by done.
  change (handle_command c _ st) with
    (handle_register c (command_of_request (ReqRegister u p)) st).
  destruct (request_credentials u p Hr) as [Hu Hp].
  pose proof (register_outcome n c st K R0 (command_of_request (ReqRegister u p)) Hu) as Hw.
  unfold wp in Hw.
  pose proof (register_fresh c u p salt key e' st Hu Hp Hlen Hc Ha Hsalt Hkey) as Hout.
  destruct (handle_register c (command_of_request (ReqRegister u p)) st) as [out1 st1].
  simpl in Hw, Hout. destruct Hw as (Hstep & Hn & Ho). rewrite Hc in Ho.
  destruct Hout as [i' Hout].
  destruct Ho as [(i & _ & Ha1 & Hc1 & Hm & Ho)|(r & _ & Ho)];
    [|exfalso; rewrite Hout in Ho; by apply register_replies_differ in Ho].
  pose proof (service_step_ok n (n + 1) c st st1 K Hn Hstep) as K1.
  rewrite handle_request by done. rewrite <- Hm in Hc.
  pose proof (login_effect (n + 1) c st1 K1 (command_of_request (ReqLogin u p)) Hc) as Hl.
  unfold wp in Hl. change (handle_command c _ st1) with
    (handle_login c (command_of_request (ReqLogin u p)) st1).
  destruct (handle_login c (command_of_request (ReqLogin u p)) st1) as [out2 st2].
  destruct Hl as [_ Hl]. simpl in Hl. rewrite Hc1 in Hl.
  rewrite Hm, (unregistered_not_online n st) in Hl by done.
  destruct Hl as (j & Hj & Hsess & ->). rewrite Ha1 in Hj. injection Hj as <-.
  by exists i.
Qed.
(** A group can be joined before it exists: [join_group] does not ask
    [GroupStore], so a user who joins the next group id in advance is already a
    member, beside the owner, of the group somebody else creates later. *)
Theorem group_joined_in_advance n c1 c2 s1 s2 name (st : ChatState) :
  service_ok n st -> room n -> request_ok (ReqCreateGroup name) = true ->
  find_by_connection c1 (st_sessions st) = Some s1 ->
  find_by_connection c2 (st_sessions st) = Some s2 ->
  let g := next_group_id_ (mw_groups (st_world st)) in
  let st1 := (handle_client_line c1 (encode_request (ReqJoinGroup g)) st).2 in
  let '(out, st2) := handle_client_line c2 (encode_request (ReqCreateGroup name)) st1 in
  find_group g (mw_groups (st_world st)) = None /\
  out = reply c2 (format_create_group_success g name) /\
  in_group (st_world st2) g (session_user_id s1) = true /\
  in_group (st_world st2) g (session_user_id s2) = true.
Proof.
  intros K R Hr H1 H2 g st1.
  pose proof (ok_storage n st K) as (_ & G & _ & Hg).
  assert (Hrg : request_ok (ReqJoinGroup g) = true).
  { assert (Hlt : (g <? u64_modulus) = true) by (unfold room in R; subst g; lia).
    change ((g <? u64_modulus) && true && true = true). by rewrite Hlt. }
  assert (E1 : st1 = (handle_join_group c1 s1 (command_of_request (ReqJoinGroup g)) st).2).
  { subst st1. by rewrite handle_request, (handle_command_logged_in c1 s1). }
  clearbody st1. subst st1. rewrite handle_request by done.
  rewrite (handle_command_logged_in c2 s2) by done.
  assert (Hne : name <> []) by (by apply request_group_name).
  change (handle_logged_in c2 s2 _) with
    (handle_create_group c2 s2 (command_of_request (ReqCreateGroup name))).
  unfold handle_create_group, handle_join_group, mbind, ST_bind, store. simpl.
  unfold on_group_store, create_group. simpl. rewrite bool_decide_eq_false_2 by done. simpl.
  split; [|split; [done|split]].
  - unfold find_group. destruct (memory_groups_ (mw_groups (st_world st)) !! g) as [r|] eqn:E;
      [|done]. apply G in E as (_ & [_ Hlt] & _). subst g. lia.
  - change (is_group_member g (session_user_id s1)
      (join_group g (session_user_id s2) (join_group g (session_user_id s1)
         (mw_members (st_world st))).2).2 = true).
    rewrite !is_group_member_join.
    rewrite (bool_decide_eq_true_2 (g = g /\ session_user_id s1 = session_user_id s1)) by done.
    by rewrite orb_true_r.
  - change (is_group_member g (session_user_id s2)
      (join_group g (session_user_id s2) (join_group g (session_user_id s1)
         (mw_members (st_world st))).2).2 = true).
    rewrite is_group_member_join. by rewrite bool_decide_eq_true_2.
Qed.
End memory_mode.

(** ** Witnesses: the theorems on the sample state *)
Lemma alice_online :
  find_by_connection 1 (st_sessions sample_state) = Some (mkSession 1 1 "alice").
Proof. vm_compute. reflexivity. Qed.

Lemma bob_online :
  find_by_connection 2 (st_sessions sample_state) = Some (mkSession 2 2 "bob").
Proof. vm_compute. reflexivity. Qed.

Lemma nobody_on_3 : find_by_connection 3 (st_sessions sample_state) = None.
Proof. vm_compute. reflexivity. Qed.

Lemma bob_account : account (st_world sample_state) "bob" = Some 2.
Proof. vm_compute. reflexivity. Qed.

Lemma dave_unknown : account (st_world sample_state) "dave" = None.
Proof. vm_compute. reflexivity. Qed.

Lemma client_line_refines_witness :
  let '(out, st') := handle_client_line 1 "not json" sample_state in
  service_step 1 sample_state st' /\ service_ok 10 st' /\
  answers 1 (st_sessions sample_state) out.
Proof. apply (client_line_refines 9 1 "not json" sample_state sample_ok). reflexivity. Defined.

Lemma messages_only_posted_witness :
  let st' := (handle_client_line 1 (encode_request (ReqDm "bob" "again")) sample_state).2 in
  messages (st_world st') = messages (st_world sample_state) \/
  exists s m, find_by_connection 1 (st_sessions sample_state) = Some s /\
    messages (st_world st') = messages (st_world sample_state) ++ [m] /\
    may_post (st_world sample_state) (session_user_id s) m.
Proof. apply (messages_only_posted 9 1 _ sample_state sample_ok). reflexivity. Defined.

Lemma login_required_witness :
  handle_client_line 3 (encode_request (ReqDm "bob" "hi")) sample_state =
    (reply 3 (format_error "please login first"), sample_state).
Proof.
  apply (login_required 3 _ (command_of_request (ReqDm "bob" "hi")) []).
  - vm_compute. reflexivity.
  - reflexivity.
  - exact nobody_on_3.
Defined.

Lemma login_request_witness :
  let '(out, st') :=
    handle_client_line 3 (encode_request (ReqLogin "carol" "pass")) sample_state in
  same_view (st_world sample_state) (st_world st') /\
  if is_username_online "carol" (st_sessions sample_state) then
    sessions_ (st_sessions st') = sessions_ (st_sessions sample_state) /\
    out = reply 3 (format_login_failed "user already online")
  else if credentials (st_world sample_state) "carol" "pass" then
    exists i, account (st_world sample_state) "carol" = Some i /\
      sessions_ (st_sessions st') =
        <[i := mkSession i 3 "carol"]> (sessions_ (st_sessions sample_state)) /\
      out = reply 3 (format_login_success i "carol")
  else
    sessions_ (st_sessions st') = sessions_ (st_sessions sample_state) /\
    out = reply 3 (format_login_failed "invalid username or password").
Proof.
  exact (login_request 9 3 "carol" "pass" sample_state sample_ok eq_refl nobody_on_3).
Defined.

Lemma direct_message_request_witness :
  let '(out, st') := handle_client_line 1 (encode_request (ReqDm "dave" "hello")) sample_state in
  st_sessions st' = st_sessions sample_state /\
  messages (st_world st') = messages (st_world sample_state) /\
  out = reply 1 (format_error "receiver not found").
Proof.
  pose proof (direct_message_request 9 1 _ "dave" "hello" sample_state sample_ok eq_refl eq_refl
    alice_online) as Hw.
  rewrite dave_unknown in Hw. exact Hw.
Defined.

Lemma group_message_request_witness :
  let '(out, st') := handle_client_line 1 (encode_request (ReqGroupMessage 1 "yo")) sample_state in
  st_sessions st' = st_sessions sample_state /\
  if in_group (st_world sample_state) 1 1 then
    messages (st_world st') =
      messages (st_world sample_state) ++ [mkMessage GroupChat 1 1 "yo"] /\
    exists sent,
      out = sent ++ reply 1
        (format_message_ack (N.of_nat (S (length (messages (st_world sample_state)))))
           true (negb (bool_decide (sent = [])))) /\
      NoDup (map out_connection_id sent) /\
      forall o, o ∈ sent <->
        exists v t, in_group (st_world sample_state) 1 v = true /\ v <> 1 /\
          sessions_ (st_sessions sample_state) !! v = Some t /\
          o = mkOutbound (session_connection_id t) (format_group_message 1 "alice" "yo") false
  else
    messages (st_world st') = messages (st_world sample_state) /\
    out = reply 1 (format_error "not a member of this group").
Proof.
  exact (group_message_request 9 1 _ 1 "yo" sample_state sample_ok eq_refl eq_refl alice_online).
Defined.

Lemma logout_request_witness :
  let '(out, st') := handle_client_line 1 (encode_request ReqLogout) sample_state in
  out = [mkOutbound 1 (format_ok "logout") true] /\
  same_view (st_world sample_state) (st_world st') /\
  find_by_connection 1 (st_sessions st') = None /\
  sessions_ (st_sessions st') = delete 1 (sessions_ (st_sessions sample_state)).
Proof. exact (logout_request 9 1 _ sample_state sample_ok alice_online). Defined.

Lemma disconnect_session_witness :
  let st' := (handle_disconnect 2 sample_state).2 in
  service_ok 9 st' /\ st_world st' = st_world sample_state /\
  find_by_connection 2 (st_sessions st') = None /\
  forall u s, sessions_ (st_sessions st') !! u = Some s <->
    sessions_ (st_sessions sample_state) !! u = Some s /\ session_connection_id s <> 2.
Proof. exact (disconnect_session 9 2 sample_state sample_ok). Defined.

Lemma direct_history_request_witness :
  let '(out, st') :=
    handle_client_line 1 (encode_request (ReqHistory "bob" (Some 5) None)) sample_state in
  unchanged sample_state st' /\
  let page := take 5 (history_before (is_direct_between 1 2) 0
                        (message_log (st_world sample_state))) in
  exists items, Forall2 (is_direct_item 1 (st_world sample_state)) (reverse page) items /\
    out = items ++ reply 1 (format_history_end (N.of_nat (length page) =? 5) (oldest_id page)).
Proof.
  pose proof (direct_history_request 9 1 _ "bob" (Some 5) None sample_state sample_ok eq_refl
    alice_online) as Hw.
  rewrite bob_account in Hw. exact Hw.
Defined.

Lemma group_history_request_witness :
  let '(out, st') :=
    handle_client_line 1 (encode_request (ReqGroupHistory 1 None (Some 9))) sample_state in
  unchanged sample_state st' /\
  if in_group (st_world sample_state) 1 1 then
    let page := take 20 (history_before (is_group_message 1) 9
                           (message_log (st_world sample_state))) in
    exists items, Forall2 (is_group_item 1 (st_world sample_state)) (reverse page) items /\
      out = items ++ reply 1 (format_history_end (N.of_nat (length page) =? 20) (oldest_id page))
  else out = reply 1 (format_error "not a member of this group").
Proof.
  exact (group_history_request 9 1 _ 1 None (Some 9) sample_state sample_ok eq_refl alice_online).
Defined.

Lemma unread_request_witness :
  let '(out, st') :=
    handle_client_line 2 (encode_request (ReqUnread None (Some 7))) sample_state in
  unchanged sample_state st' /\
  let page := take 7 (unread_after (addressed_to (st_world sample_state) 2) 0
                        (message_log (st_world sample_state))) in
  exists items, Forall2 (is_unread_item 2 (st_world sample_state)) page items /\
    out = items ++ reply 2 (format_unread_end (N.of_nat (length page) =? 7) (newest_id 0 page)).
Proof.
  exact (unread_request 9 2 _ None (Some 7) sample_state sample_ok eq_refl bob_online).
Defined.

Lemma history_confidential_witness :
  let '(out, st') :=
    handle_command 2 (command_of_request (ReqUnread None None)) sample_state in
  exists shown items data,
    out = items ++ reply 2 data /\
    Forall (shown_to (st_world sample_state) 2) shown /\
    Forall2 (fun m o => is_group_item 2 (st_world sample_state) m o \/
                        is_direct_item 2 (st_world sample_state) m o) shown items.
Proof.
  exact (history_confidential 9 2 _ (command_of_request (ReqUnread None None)) sample_state
    sample_ok (or_intror eq_refl) bob_online).
Defined.

Lemma membership_requests_witness :
  let '(out, st') := handle_client_line 2 (encode_request (ReqLeaveGroup 1)) sample_state in
  (forall g' u', (g', u') <> (1, 2) ->
     in_group (st_world st') g' u' = in_group (st_world sample_state) g' u') /\
  messages (st_world st') = messages (st_world sample_state) /\
  ((in_group (st_world st') 1 2 = false /\
    out = reply 2 (format_ok (bs "left group " ++ to_string 1))) \/
   (exists reason, unchanged sample_state st' /\ out = reply 2 (format_error reason))).
Proof.
  exact (membership_requests 9 2 _ 1 false sample_state sample_ok eq_refl bob_online).
Defined.

Lemma direct_message_unread_witness :
  let st' := (handle_client_line 1 (encode_request (ReqDm "bob" "ping")) sample_state).2 in
  stored (N.of_nat (S (length (messages (st_world sample_state)))))
    (mkMessage DirectChat 1 2 "ping")
  ∈ unread_after (addressed_to (st_world st') 2) 0 (message_log (st_world st')).
Proof.
  apply (direct_message_unread 9 1 _ "bob" 2 "ping" 0 sample_state sample_ok eq_refl eq_refl
    alice_online bob_account). vm_compute. discriminate.
Defined.

Lemma reachable_states_ok_witness :
  service_ok 9 (run_events sample_events (chat_start tt)).
Proof. apply (reachable_states_ok (tt : @Entropy toy_openssl) sample_events). reflexivity. Defined.

Lemma register_then_login_witness :
  let '(out1, st1) :=
    handle_client_line 3 (encode_request (ReqRegister "dave" "pw")) sample_state in
  let '(out2, st2) := handle_client_line 3 (encode_request (ReqLogin "dave" "pw")) st1 in
  exists i,
    out1 = reply 3 (format_register_success i) /\
    out2 = reply 3 (format_login_success i "dave") /\
    sessions_ (st_sessions st2) =
      <[i := mkSession i 3 "dave"]> (sessions_ (st_sessions sample_state)).
Proof.
  refine (register_then_login 9 3 "dave" "pw" (replicate 16 "s"%char)
    (take 32 (bs "pw" ++ replicate 32 nul)) (tt : @Entropy toy_openssl) sample_state sample_ok eq_refl eq_refl _
    nobody_on_3 dave_unknown eq_refl eq_refl).
  simpl. lia.
Defined.

Lemma group_joined_in_advance_witness :
  let g := next_group_id_ (mw_groups (st_world sample_state)) in
  let st1 := (handle_client_line 2 (encode_request (ReqJoinGroup g)) sample_state).2 in
  let '(out, st2) := handle_client_line 1 (encode_request (ReqCreateGroup "board")) st1 in
  find_group g (mw_groups (st_world sample_state)) = None /\
  out = reply 1 (format_create_group_success g "board") /\
  in_group (st_world st2) g 2 = true /\ in_group (st_world st2) g 1 = true.
Proof.
  exact (group_joined_in_advance 9 2 1 _ _ "board" sample_state sample_ok eq_refl eq_refl
    bob_online alice_online).
Defined.
