(* ===== verification/ChatDb.v ===== *)
(** * ChatDb: the chat service over MySQL

    [ChatService.v] runs on any [Storage]; here on [StorageDb.mysql_storage].
    The server's collation compares names without regard to case, the session
    manager compares them byte by byte: the two disagree about who is online. *)

From S2P Require Import Prelude.
From S2P Require Import SqlTables.
From S2P Require Import MySqlClient.
From S2P Require Import MySqlTables.
From S2P Require Import ToyServer.
From S2P Require Import ServerConfig.
From S2P Require Import MySqlConnectionPool.
From S2P Require Import PoolSpec.
From S2P Require Import PoolServe.
From S2P Require Import SessionManager.
From S2P Require Import Message.
From S2P Require Import UserStore.
From S2P Require Import UserStoreDb.
From S2P Require Import MessageStore.
From S2P Require Import DbSpec.
From S2P Require Import Storage.
From S2P Require Import StorageDb.
From S2P Require Import StorageRefinement.
From S2P Require Import ChatService.
From S2P Require Import Startup.
Open Scope N_scope.

Section spelling.
Context `{Hssl : OpenSSL, Hview : MySqlView, Hprot : !MySqlProtocol,
          Htext : SqlText, Htab : !MySqlTables, Hspec : !MySqlTablesSpec}.

(** [verify_login] finds the account whose name has the same weights. *)
Lemma verify_login_collated u p r db :
  serviceable db -> rows_ok (tables (client db)) ->
  head (List.filter (fun r => sql_equal (row_username r) u) (users (tables (client db)))) = Some r ->
  verify_password_pbkdf2 p (row_password_hash r) = true ->
  wp (mysql_verify_login u p) (fun a db' => a = Some (record_of r) /\ serviceable db') db.
Proof.
  intros Hs Hok Hr Hp. unfold mysql_verify_login. apply wp_bind. eapply wp_mono.
  { apply (serve_read _ _ (Some (record_of r)) db Hs); [intros h; apply fetch_user_by_username_balanced|].
    intros h c Hrd Et. replace (Some (record_of r)) with (record_of <$>
      head (List.filter (fun r => sql_equal (row_username r) u) (users (tables c)))).
    - apply fetch_user_by_username_spec; [done|by rewrite Et].
    - by rewrite Et, Hr. }
  intros a db' (-> & Hs' & _). cbn [record_of user_password_hash]. rewrite Hp. by apply wp_ret.
Qed.

(** C40: Logging in under another spelling of a name that is online: the check of
    [is_username_online] compares bytes and lets it pass, [verify_login]
    compares as the collation does and finds the same account, and binding its
    session takes the account away from the connection that had it, which stays
    open without a session and is told nothing. *)
Theorem spelling_takes_session (st : @ChatState mysql_storage) (r : UserRow) (s : Session)
    (k1 k2 : N) (command : ClientCommand) :
  let sessions := st_sessions st in
  let db := dbw_db (st_world st) in
  linked sessions -> serviceable db -> rows_ok (tables (client db)) ->
  find_by_connection k1 sessions = Some s -> session_user_id s = row_user_id r ->
  k1 <> k2 -> find_by_connection k2 sessions = None ->
  head (List.filter (fun r => sql_equal (row_username r) (cmd_username command))
          (users (tables (client db)))) = Some r ->
  is_username_online (cmd_username command) sessions = false ->
  verify_password_pbkdf2 (cmd_password command) (row_password_hash r) = true ->
  wp (@handle_login mysql_storage k2 command) (fun out st' =>
    out = reply k2 (format_login_success (row_user_id r) (row_username r)) /\
    find_by_connection k1 (st_sessions st') = None /\
    find_by_connection k2 (st_sessions st') =
      Some (mkSession (row_user_id r) k2 (row_username r))) st.
Proof.
  intros sessions db L Hs Hok Hf1 Hid Hk Hf2 Hr Hon Hp. unfold handle_login.
  apply wp_bind. unfold wp at 1, sessions_get. cbn [fst snd]. fold sessions. rewrite Hf2.
  apply wp_bind. unfold wp at 1. cbn [fst snd]. fold sessions. rewrite Hon.
  apply wp_bind. pose proof (verify_login_collated _ _ r db Hs Hok Hr Hp) as W.
  unfold wp in W. unfold wp at 1, store. cbn [mysql_storage user_store_verify_login]. unfold on_pool.
  fold db. destruct (mysql_verify_login _ _ db) as [a db']. cbn [fst snd] in *. destruct W as [-> _].
  unfold wp, mbind, ST_bind, sessions_do, log_info, log_write, mret, ST_ret.
  cbn [fst snd record_of user_id user_username st_sessions]. fold sessions.
  set (m := bind _ sessions). assert (L' : linked m) by (by apply linked_bind). split; [done|].
  apply find_by_connection_spec in Hf1 as [Hs1 Hc1]; [|done].
  split.
  - unfold find_by_connection, m. rewrite connections_bind by done. cbn [session_connection_id session_user_id].
    rewrite bool_decide_eq_false_2 by done.
    destruct (linked_session _ L _ _ Hs1) as [_ E]. rewrite Hc1 in E. rewrite E.
    by rewrite bool_decide_eq_true_2.
  - apply find_by_connection_spec; [done|]. cbn [session_user_id session_connection_id].
    split; [|done]. unfold m. rewrite sessions_bind by done. cbn [session_user_id].
    by rewrite bool_decide_eq_true_2.
Qed.
End spelling.

(** ** A concrete run *)

(** One account, on a server that folds case. *)
Definition alice_row : UserRow :=
  mkUserRow 1 "alice" (@hash_password_pbkdf2 toy_openssl "secret" tt).1.
Definition alice_database : Database := mkDatabase [alice_row] 2 [] 1 [] [] [] 1 [].

Abbreviation alice_client := (toy_client alice_database true).
Abbreviation alice_started := (@started (@toy_mysql folding_text) default_config alice_client).

Definition alice_sessions : SessionManager := bind (mkSession 1 1 "alice") no_sessions.

Abbreviation alice_state := (@mkChatState (@mysql_storage toy_openssl (@toy_mysql folding_text))
  alice_sessions (@mkMySqlWorld toy_openssl (@toy_mysql folding_text) no_messages alice_started tt) []).

Definition login_as_ALICE : ClientCommand :=
  (parse_client_command (encode_request (ReqLogin "ALICE" "secret")) default_command []).1.2.

Lemma alice_serviceable :
  @serviceable (@toy_mysql folding_text) (@toy_view folding_text) alice_started /\
  @tables _ (@toy_view folding_text) (client alice_started) = @messages_set_up folding_text alice_database.
Proof.
  apply (@started_serviceable (@toy_mysql folding_text) toy_view toy_protocol folding_text toy_tables_view toy_tables_spec
    default_config alice_client); vm_compute; reflexivity.
Qed.

Lemma alice_rows_ok : rows_ok (@messages_set_up folding_text alice_database).
Proof.
  split; cbn; try constructor; [|constructor].
  unfold user_row_ok. split; [reflexivity|]. split; apply Nat.leb_le; vm_compute; reflexivity.
Qed.

Lemma spelling_takes_session_witness :
  find_by_connection 1 alice_sessions = Some (mkSession 1 1 "alice") /\
  wp (@handle_login (@mysql_storage toy_openssl (@toy_mysql folding_text)) 2 login_as_ALICE)
    (fun out st' => find_by_connection 1 (st_sessions st') = None /\
       find_by_connection 2 (st_sessions st') = Some (mkSession 1 2 "alice")) alice_state.
Proof.
  split; [vm_compute; reflexivity|]. destruct alice_serviceable as [Hs Et].
  eapply wp_mono.
  - apply (@spelling_takes_session toy_openssl (@toy_mysql folding_text) toy_view toy_protocol
      folding_text toy_tables_view toy_tables_spec alice_state alice_row (mkSession 1 1 "alice") 1 2
      login_as_ALICE).
    + apply linked_bind, linked_no_sessions.
    + exact Hs.
    + cbn [st_world dbw_db]. rewrite Et. exact alice_rows_ok.
    + vm_compute. reflexivity.
    + reflexivity.
    + discriminate.
    + vm_compute. reflexivity.
    + cbn [st_world dbw_db]. rewrite Et. vm_compute. reflexivity.
    + vm_compute. reflexivity.
    + vm_compute. reflexivity.
  - intros out st' (_ & H1 & H2). exact (conj H1 H2).
Defined.
