(* ===== verification/TcpServer.v ===== *)
(** * TcpServer: the reactor and its workers

    [src/src/network/tcp_server.cpp].  The reactor thread runs the event loop;
    the workers of the thread pool run [process_packet_async] and hand their
    responses over through the two queues.  The kernel is the class [Kernel]:
    what [send] and [epoll_ctl] answer to each call; the packets a readable
    socket delivers come with the event.  [TcpTheorems.v] interleaves the
    reactor's event handlers with the workers' packets. *)

From S2P Require Import Prelude.
From S2P Require Import CStd.
From S2P Require Import PacketCodec.
From S2P Require Import ServerConfig.
From S2P Require Import ThreadPool.
From S2P Require Import SessionManager.
From S2P Require Import Storage.
From S2P Require Import ChatService.
Open Scope N_scope.

(** ** The kernel *)

Class Kernel : Type := {
  (** The answers of [send] in the [i]-th [send_all], on a descriptor. *)
  send_answers : N -> Z -> bytes -> list send_answer;
  (** The [i]-th [epoll_ctl(EPOLL_CTL_MOD)]: [None], or the [errno]. *)
  epoll_modify : N -> Z -> bool -> option N;
  strerror : N -> bytes;
}.

(** [send] never claims more than it was given, and does not answer [EINTR]
    for ever. *)
Class KernelSpec `{Kernel} : Prop := {
  send_returns i fd data : is_Some (send_all (send_answers i fd data) data);
  send_within i fd data : sends_within (send_answers i fd data) (bsize data) 0 = true;
}.

(** ** Data *)

Record QueuedResponse : Type := mkQueuedResponse {
  qr_connection_id : N;
  qr_generation : N;
  qr_data : bytes;
  qr_close_after_send : bool;
}.

Record QueuedClose : Type := mkQueuedClose {
  qc_connection_id : N;
  qc_generation : N;
}.

Record ConnectionState : Type := mkConnectionState {
  conn_connection_id : N;
  conn_fd : Z;
  conn_read_buffer : bytes;
  conn_write_buffer : bytes;
  conn_last_active_at : Z;
  conn_closing : bool;
  conn_generation : N;
}.

(** The closure [handle_client_read] submits. *)
Record Task : Type := mkTask {
  task_connection_id : N;
  task_generation : N;
  task_packets : list Packet;
}.

(** The members the reactor thread owns. *)
Record Reactor : Type := mkReactor {
  connection_by_fd_ : gmap Z N;
  connections_ : gmap N ConnectionState;
  next_connection_id_ : N;
  next_generation_ : N;
}.

(** The members under [response_mutex_]. *)
Record Queues : Type := mkQueues {
  response_queue_ : list QueuedResponse;
  close_queue_ : list QueuedClose;
}.

(** What the system calls act on: the open client sockets, whether epoll
    watches each for [EPOLLOUT], the eventfd's counter, the number of calls
    made, and, per connection, the bytes [send] took and the payloads
    [send_to_client] accepted. *)
Record System : Type := mkSystem {
  sys_open : gset Z;
  sys_write_mode : gmap Z bool;
  sys_wake : N;
  sys_calls : N;
  sys_sent : gmap N bytes;
  sys_accepted : gmap N (list bytes);
}.

Record Server `{Storage} : Type := mkServer {
  srv_reactor : Reactor;
  srv_queues : Queues;
  srv_pool : ThreadPool Task;
  (** The tasks the workers are in the middle of. *)
  srv_busy : list Task;
  srv_chat : ChatState;
  srv_system : System;
}.
Arguments mkServer {_} srv_reactor srv_queues srv_pool srv_busy srv_chat srv_system.

(** [accept4]: a connection (its descriptor, the text of its address, and the
    [errno] of a failing [EPOLL_CTL_ADD]), or an [errno]. *)
Inductive accept_answer : Type :=
  | Accepted (fd : Z) (peer : bytes) (add_error : option N)
  | AcceptFailed (errno : N).

(** One element of [events]; for a readable socket, the answers of [recv]. *)
Inductive ready_event : Type :=
  | ReadyListen (answers : list accept_answer)
  | ReadyWake
  | ReadyClient (fd : Z) (error readable writable : bool) (socket : list recv_answer).

(** [static_cast<std::size_t>] of an [int]. *)
Definition size_of_int (n : Z) : N := Z.to_N (n mod 2 ^ 64).

Section server.
Context `{Storage} `{Kernel} (config_ : ServerConfig).

Abbreviation Srv := (ST Server).

(** ** Access to the parts *)

Definition reactor {A} (f : Reactor -> A) : Srv A := fun s => (f (srv_reactor s), s).
Definition on_reactor (f : Reactor -> Reactor) : Srv unit := fun s =>
  (tt, mkServer (f (srv_reactor s)) (srv_queues s) (srv_pool s) (srv_busy s) (srv_chat s)
         (srv_system s)).
Definition on_queues {A} (f : Queues -> A * Queues) : Srv A := fun s =>
  let '(a, q) := f (srv_queues s) in
  (a, mkServer (srv_reactor s) q (srv_pool s) (srv_busy s) (srv_chat s) (srv_system s)).
Definition on_pool {A} (f : ThreadPool Task -> A * ThreadPool Task) : Srv A := fun s =>
  let '(a, p) := f (srv_pool s) in
  (a, mkServer (srv_reactor s) (srv_queues s) p (srv_busy s) (srv_chat s) (srv_system s)).
Definition on_busy (f : list Task -> list Task) : Srv unit := fun s =>
  (tt, mkServer (srv_reactor s) (srv_queues s) (srv_pool s) (f (srv_busy s)) (srv_chat s)
         (srv_system s)).
Definition on_chat {A} (m : ST ChatState A) : Srv A := fun s =>
  let '(a, c) := m (srv_chat s) in
  (a, mkServer (srv_reactor s) (srv_queues s) (srv_pool s) (srv_busy s) c (srv_system s)).
Definition on_system {A} (f : System -> A * System) : Srv A := fun s =>
  let '(a, k) := f (srv_system s) in
  (a, mkServer (srv_reactor s) (srv_queues s) (srv_pool s) (srv_busy s) (srv_chat s) k).

Definition info (message : bytes) : Srv unit := on_chat (log_info message).
Definition warn (message : bytes) : Srv unit := on_chat (log_warn message).

Definition last_error (action : bytes) (errno : N) : bytes :=
  action ++ bs ": " ++ strerror errno.

(** ** System calls *)

(** Take the next call number. *)
Definition next_call (k : System) : N * System :=
  (sys_calls k,
   mkSystem (sys_open k) (sys_write_mode k) (sys_wake k) (sys_calls k + 1) (sys_sent k)
     (sys_accepted k)).

(** [send_all(fd, data, size)] for a connection; by [send_returns] the default
    is never used. *)
Definition sys_send_all (connection_id : N) (fd : Z) (data : bytes) : Srv SendResult :=
  i ← on_system next_call;
  let result :=
    match send_all (send_answers i fd data) data with
    | Some (result, _) => result
    | None => mkSendResult SendIoError 0 0
    end in
  on_system (fun k =>
    (result, mkSystem (sys_open k) (sys_write_mode k) (sys_wake k) (sys_calls k)
       (<[connection_id := default [] (sys_sent k !! connection_id) ++
                           take (N.to_nat (send_sent result)) data]> (sys_sent k))
       (sys_accepted k))).

(** [EPOLL_CTL_DEL] and [close]. *)
Definition sys_close (fd : Z) : Srv unit :=
  on_system (fun k =>
    (tt, mkSystem (sys_open k ∖ {[fd]}) (delete fd (sys_write_mode k)) (sys_wake k) (sys_calls k)
       (sys_sent k) (sys_accepted k))).

(** [accept4] and [EPOLL_CTL_ADD]. *)
Definition sys_accept (fd : Z) : Srv unit :=
  on_system (fun k =>
    (tt, mkSystem ({[fd]} ∪ sys_open k) (<[fd := false]> (sys_write_mode k)) (sys_wake k)
       (sys_calls k) (sys_sent k) (sys_accepted k))).

(** Record that a payload has been taken over for a connection. *)
Definition note_accepted (connection_id : N) (data : bytes) : Srv unit :=
  on_system (fun k =>
    (tt, mkSystem (sys_open k) (sys_write_mode k) (sys_wake k) (sys_calls k) (sys_sent k)
       (<[connection_id := default [] (sys_accepted k !! connection_id) ++ [data]]>
          (sys_accepted k)))).

(** [read] on the eventfd until it would block. *)
Definition drain_wake_events : Srv unit :=
  on_system (fun k =>
    (tt, mkSystem (sys_open k) (sys_write_mode k) 0 (sys_calls k) (sys_sent k) (sys_accepted k))).

(** [write] of 1 to the eventfd; at its maximum the counter stays as it is. *)
Definition wake_event_loop : Srv unit :=
  on_system (fun k =>
    (tt, mkSystem (sys_open k) (sys_write_mode k)
       (if sys_wake k + 1 <? u64_modulus - 1 then sys_wake k + 1 else sys_wake k)
       (sys_calls k) (sys_sent k) (sys_accepted k))).

(** ** Connections *)

Definition find_connection (connection_id : N) (r : Reactor) : option ConnectionState :=
  connections_ r !! connection_id.

Definition find_connection_by_fd (fd : Z) (r : Reactor) : option ConnectionState :=
  match connection_by_fd_ r !! fd with
  | None => None
  | Some connection_id => find_connection connection_id r
  end.

Definition is_current_connection (connection_id generation : N) (r : Reactor) : bool :=
  match connections_ r !! connection_id with
  | None => false
  | Some connection => (generation =? 0) || (conn_generation connection =? generation)
  end.

(** Write through a [ConnectionState*] found under [connection_id]. *)
Definition update (connection_id : N) (f : ConnectionState -> ConnectionState) : Srv unit :=
  on_reactor (fun r =>
    mkReactor (connection_by_fd_ r) (alter f connection_id (connections_ r))
      (next_connection_id_ r) (next_generation_ r)).

Definition set_read_buffer b c :=
  mkConnectionState (conn_connection_id c) (conn_fd c) b (conn_write_buffer c)
    (conn_last_active_at c) (conn_closing c) (conn_generation c).
Definition set_write_buffer b c :=
  mkConnectionState (conn_connection_id c) (conn_fd c) (conn_read_buffer c) b
    (conn_last_active_at c) (conn_closing c) (conn_generation c).
Definition set_last_active_at t c :=
  mkConnectionState (conn_connection_id c) (conn_fd c) (conn_read_buffer c)
    (conn_write_buffer c) t (conn_closing c) (conn_generation c).
Definition set_closing b c :=
  mkConnectionState (conn_connection_id c) (conn_fd c) (conn_read_buffer c)
    (conn_write_buffer c) (conn_last_active_at c) b (conn_generation c).

Definition close_connection (connection_id : N) : Srv unit :=
  connection ← reactor (find_connection connection_id);
  match connection with
  | None => mret tt
  | Some connection =>
      let client_fd := conn_fd connection in
      on_chat (handle_disconnect connection_id);;
      on_reactor (fun r =>
        mkReactor (delete client_fd (connection_by_fd_ r)) (delete connection_id (connections_ r))
          (next_connection_id_ r) (next_generation_ r));;
      sys_close client_fd;;
      info (bs "client disconnected connection_id=" ++ to_string connection_id ++
            bs " generation=" ++ to_string (conn_generation connection) ++
            bs " fd=" ++ to_string_int client_fd)
  end.

Definition close_client (client_fd : Z) : Srv unit :=
  id ← reactor (fun r => connection_by_fd_ r !! client_fd);
  match id with
  | None => sys_close client_fd
  | Some connection_id => close_connection connection_id
  end.

Definition set_write_mode (client_fd : Z) (enable : bool) : Srv bool :=
  i ← on_system next_call;
  match epoll_modify i client_fd enable with
  | Some errno =>
      warn (last_error "epoll_ctl MOD failed" errno);;
      mret false
  | None =>
      on_system (fun k =>
        (tt, mkSystem (sys_open k) (<[client_fd := enable]> (sys_write_mode k)) (sys_wake k)
           (sys_calls k) (sys_sent k) (sys_accepted k)));;
      mret true
  end.

(** ** Sending *)

Definition warn_overflow (what : bytes) (connection_id : N) (fd : Z) : Srv unit :=
  warn (what ++ bs " connection_id=" ++ to_string connection_id ++
        bs " fd=" ++ to_string_int fd).

Definition write_buffer_fits (buffer : bytes) : bool :=
  negb (size_of_int (max_write_buffer_bytes config_) <? bsize buffer).

Definition send_to_client (connection : ConnectionState) (data : bytes) : Srv bool :=
  let connection_id := conn_connection_id connection in
  match encode_packet data with
  | Throw what =>
      warn (bs "failed to encode packet: " ++ what);;
      mret false
  | Ok packet =>
      if negb (bool_decide (conn_write_buffer connection = [])) then
        let buffer := conn_write_buffer connection ++ packet in
        update connection_id (set_write_buffer buffer);;
        if negb (write_buffer_fits buffer) then
          warn_overflow "write buffer overflow" connection_id (conn_fd connection);;
          mret false
        else note_accepted connection_id data;; mret true
      else
        result ← sys_send_all connection_id (conn_fd connection) packet;
        match send_status result with
        | SendWouldBlock =>
            let buffer := drop (N.to_nat (send_sent result)) packet in
            update connection_id (set_write_buffer buffer);;
            if negb (write_buffer_fits buffer) then
              warn_overflow "write buffer overflow" connection_id (conn_fd connection);;
              mret false
            else
              note_accepted connection_id data;;
              set_write_mode (conn_fd connection) true
        | SendIoError =>
            warn (last_error "send failed" (send_error_code result));;
            mret false
        | SendOk => note_accepted connection_id data;; mret true
        end
  end.

Definition flush_write_buffer (client_fd : Z) : Srv unit :=
  connection ← reactor (find_connection_by_fd client_fd);
  match connection with
  | None => mret tt
  | Some connection =>
      let connection_id := conn_connection_id connection in
      let buffer := conn_write_buffer connection in
      if bool_decide (buffer = []) then mret tt
      else
        result ← sys_send_all connection_id client_fd buffer;
        match send_status result with
        | SendWouldBlock =>
            update connection_id (set_write_buffer (drop (N.to_nat (send_sent result)) buffer))
        | SendIoError =>
            warn (last_error "send failed during flush" (send_error_code result));;
            close_connection connection_id
        | SendOk =>
            update connection_id (set_write_buffer []);;
            mode ← set_write_mode client_fd false;
            if negb mode then close_connection connection_id
            else if conn_closing connection then close_connection connection_id
            else mret tt
        end
  end.

(** ** The queues *)

Fixpoint close_requests (pending : list QueuedClose) : Srv unit :=
  match pending with
  | [] => mret tt
  | request :: pending =>
      current ← reactor (is_current_connection (qc_connection_id request) (qc_generation request));
      (if current : bool then close_connection (qc_connection_id request) else mret tt);;
      close_requests pending
  end.

Definition drain_close_requests : Srv unit :=
  pending ← on_queues (fun q => (close_queue_ q, mkQueues (response_queue_ q) []));
  close_requests pending.

Definition deliver_response (response : QueuedResponse) : Srv unit :=
  connection ← reactor (find_connection (qr_connection_id response));
  current ← reactor (is_current_connection (qr_connection_id response) (qr_generation response));
  match connection with
  | None => mret tt
  | Some connection =>
      if negb current then mret tt
      else
        sent ← send_to_client connection (qr_data response);
        if negb sent then close_connection (qr_connection_id response)
        else if qr_close_after_send response then
          connection ← reactor (find_connection (qr_connection_id response));
          match connection with
          | None => mret tt
          | Some connection =>
              if bool_decide (conn_write_buffer connection = [])
              then close_connection (qr_connection_id response)
              else update (qr_connection_id response) (set_closing true)
          end
        else mret tt
  end.

Fixpoint deliver_responses (pending : list QueuedResponse) : Srv unit :=
  match pending with
  | [] => mret tt
  | response :: pending => deliver_response response;; deliver_responses pending
  end.

Definition drain_responses : Srv unit :=
  drain_close_requests;;
  pending ← on_queues (fun q => (response_queue_ q, mkQueues [] (close_queue_ q)));
  deliver_responses pending;;
  drain_close_requests.

(** What a worker does with one payload. *)
Definition process_packet_async (connection_id generation : N) (payload : bytes) : Srv unit :=
  outbound_messages ← on_chat (handle_client_line connection_id payload);
  overflow ← on_queues (fun q =>
    if size_of_int (max_response_queue_size config_) <?
       N.of_nat (length (response_queue_ q)) + N.of_nat (length outbound_messages) then
      (true, mkQueues (response_queue_ q)
               (close_queue_ q ++ [mkQueuedClose connection_id generation]))
    else
      (false,
       mkQueues (response_queue_ q ++
         map (fun message =>
           mkQueuedResponse (out_connection_id message)
             (if out_connection_id message =? connection_id then generation else 0)
             (out_data message) (close_after_send message)) outbound_messages)
         (close_queue_ q)));
  (if overflow : bool then
     warn (bs "response queue overflow connection_id=" ++ to_string connection_id)
   else mret tt);;
  wake_event_loop.

(** ** Events of the loop *)

Fixpoint accept_connections (answers : list accept_answer) (now : Z) : Srv unit :=
  match answers with
  | [] => mret tt
  | AcceptFailed errno :: _ =>
      if (errno =? EAGAIN) || (errno =? EWOULDBLOCK) then mret tt
      else warn (last_error "accept4 failed" errno)
  | Accepted client_fd peer add_error :: answers =>
      info (bs "client connected fd=" ++ to_string_int client_fd ++ bs " peer=" ++ peer);;
      ids ← reactor (fun r => (next_connection_id_ r, next_generation_ r));
      let '(connection_id, generation) := ids in
      on_reactor (fun r =>
        mkReactor (connection_by_fd_ r) (connections_ r) (u64_succ (next_connection_id_ r))
          (u64_succ (next_generation_ r)));;
      match add_error with
      | Some errno =>
          warn (last_error "epoll_ctl client fd failed" errno);;
          sys_close client_fd;;
          accept_connections answers now
      | None =>
          sys_accept client_fd;;
          on_reactor (fun r =>
            mkReactor (<[client_fd := connection_id]> (connection_by_fd_ r))
              (<[connection_id :=
                 mkConnectionState connection_id client_fd [] [] now false generation]>
                 (connections_ r))
              (next_connection_id_ r) (next_generation_ r));;
          info (bs "connection assigned connection_id=" ++ to_string connection_id ++
                bs " generation=" ++ to_string generation ++
                bs " fd=" ++ to_string_int client_fd);;
          accept_connections answers now
      end
  end.

(** [socket] is what [recv] answers; by [recv_returns] the call returns when it
    holds an end of stream or an error, which [event_possible] asks for. *)
Definition handle_client_read (client_fd : Z) (socket : list recv_answer) (now : Z) : Srv unit :=
  connection ← reactor (find_connection_by_fd client_fd);
  match connection with
  | None => mret tt
  | Some connection =>
      if conn_closing connection then mret tt
      else
        let connection_id := conn_connection_id connection in
        let generation := conn_generation connection in
        match recv_packets_et kMaxPacketPayloadSize socket (conn_read_buffer connection) with
        | None => mret tt
        | Some (result, read_buffer, _) =>
            update connection_id (set_read_buffer read_buffer);;
            match recv_status result with
            | RecvClosed => close_client client_fd
            | RecvProtocolError =>
                warn (bs "protocol error from fd=" ++ to_string_int client_fd);;
                close_client client_fd
            | RecvIoError =>
                warn (last_error "recv failed" (recv_error_code result));;
                close_client client_fd
            | _ =>
                if size_of_int (max_read_buffer_bytes config_) <? bsize read_buffer then
                  warn_overflow "read buffer overflow" connection_id client_fd;;
                  close_client client_fd
                else if bool_decide (recv_packets result = []) then mret tt
                else
                  info (bs "received " ++ to_string (N.of_nat (length (recv_packets result))) ++
                        bs " packet(s) from connection_id=" ++ to_string connection_id ++
                        bs " fd=" ++ to_string_int client_fd);;
                  update connection_id (set_last_active_at now);;
                  accepted ← on_pool
                    (enqueue (mkTask connection_id generation (recv_packets result)));
                  if negb accepted then
                    warn_overflow "thread pool queue full" connection_id client_fd;;
                    close_client client_fd
                  else mret tt
            end
        end
  end.

(** The ids [check_heartbeats] collects; the order of the map is unspecified. *)
Definition timed_out (now : Z) (r : Reactor) : list N :=
  map fst (List.filter (fun entry : N * ConnectionState =>
    (heartbeat_timeout_seconds config_ <? now - conn_last_active_at entry.2)%Z)
    (map_to_list (connections_ r))).

Fixpoint close_timed_out (ids : list N) : Srv unit :=
  match ids with
  | [] => mret tt
  | connection_id :: ids =>
      info (bs "heartbeat timeout connection_id=" ++ to_string connection_id ++
            bs " closing connection");;
      close_connection connection_id;;
      close_timed_out ids
  end.

Definition check_heartbeats (now : Z) : Srv unit :=
  ids ← reactor (timed_out now);
  close_timed_out ids.

(** The body of the [for] loop over the ready descriptors. *)
Definition handle_ready (event : ready_event) (now : Z) : Srv unit :=
  match event with
  | ReadyListen answers => accept_connections answers now
  | ReadyWake => drain_wake_events;; drain_responses
  | ReadyClient fd error readable writable socket =>
      if (error : bool) then close_client fd
      else
        (if readable : bool then handle_client_read fd socket now else mret tt);;
        (if writable : bool then flush_write_buffer fd else mret tt)
  end.

Fixpoint handle_all_ready (events : list ready_event) (now : Z) : Srv unit :=
  match events with
  | [] => mret tt
  | event :: events => handle_ready event now;; handle_all_ready events now
  end.

(** One turn of [run_event_loop] after a successful [epoll_wait]. *)
Definition loop_turn (events : list ready_event) (now : Z) : Srv unit :=
  match events with
  | [] => check_heartbeats now;; drain_responses
  | _ => handle_all_ready events now;; drain_responses
  end.

(** The part of [stop] that closes the connections; the order of the map is
    unspecified. *)
Fixpoint close_all (ids : list N) : Srv unit :=
  match ids with
  | [] => mret tt
  | connection_id :: ids => close_connection connection_id;; close_all ids
  end.

Definition stop_connections : Srv unit :=
  ids ← reactor (fun r => map fst (map_to_list (connections_ r)));
  close_all ids.

(** ** Workers *)

(** A free worker takes a task. *)
Definition worker_take : Srv unit := fun s =>
  match worker_next (srv_pool s) with
  | Takes task p =>
      (tt, mkServer (srv_reactor s) (srv_queues s) p (srv_busy s ++ [task]) (srv_chat s)
             (srv_system s))
  | _ => (tt, s)
  end.

(** The [i]-th busy worker processes the next packet of its task. *)
Definition worker_packet (i : nat) : Srv unit := fun s =>
  match srv_busy s !! i with
  | None => (tt, s)
  | Some task =>
      match task_packets task with
      | [] => on_busy (fun busy => delete i busy) s
      | packet :: packets =>
          let rest := mkTask (task_connection_id task) (task_generation task) packets in
          (on_busy (fun busy => <[i := rest]> busy);;
           process_packet_async (task_connection_id task) (task_generation task)
             (payload packet)) s
      end
  end.
End server.
