(* ===== verification/TcpSpec.v ===== *)
(** * TcpSpec: the invariants of the server and the streams it writes

    [server_inv] is kept by every handler of the reactor and by every packet a
    worker processes, in any interleaving.  Its heart is
    [conn_good]: the bytes the kernel took for a connection followed by the
    connection's write buffer are exactly the frames of the responses accepted
    for it. *)

From S2P Require Import Prelude.
From S2P Require Import CStd.
From S2P Require Import PacketCodec.
From S2P Require Import ServerConfig.
From S2P Require Import ThreadPool.
From S2P Require Import SessionManager.
From S2P Require Import Storage.
From S2P Require Import ChatService.
From S2P Require Import ChatSpec.
From S2P Require Import TcpServer.
Open Scope N_scope.

Section spec.
Context `{StorageView} `{Kernel} (config_ : ServerConfig).

(** ** Invariants *)

Abbreviation conns s := (connections_ (srv_reactor s)).
Abbreviation by_fd s := (connection_by_fd_ (srv_reactor s)).

Definition sent_to (id : N) (s : Server) : bytes := default [] (sys_sent (srv_system s) !! id).
Definition accepted_for (id : N) (s : Server) : list bytes :=
  default [] (sys_accepted (srv_system s) !! id).

(** A connection between two events. *)
Record conn_good (s : Server) (id : N) (c : ConnectionState) : Prop := {
  good_stream :
    sent_to id s ++ conn_write_buffer c = concat (map frame (accepted_for id s));
  good_write : bsize (conn_write_buffer c) <= size_of_int (max_write_buffer_bytes config_);
  good_read :
    bsize (conn_read_buffer c) <= kPacketHeaderSize + kMaxPacketPayloadSize /\
    bsize (conn_read_buffer c) <= size_of_int (max_read_buffer_bytes config_);
  good_mode :
    sys_write_mode (srv_system s) !! conn_fd c =
      Some (negb (bool_decide (conn_write_buffer c = [])));
  good_closing : conn_closing c = true -> conn_write_buffer c <> [];
}.

(** The tables agree with each other and with the kernel; every connection is
    good, except possibly [bad]. *)
Record net_ok (bad : option N) (s : Server) : Prop := {
  net_by_fd fd id :
    by_fd s !! fd = Some id <-> exists c, conns s !! id = Some c /\ conn_fd c = fd;
  net_open fd : fd ∈ sys_open (srv_system s) <-> is_Some (by_fd s !! fd);
  net_ids id c :
    conns s !! id = Some c ->
    conn_connection_id c = id /\ id < next_connection_id_ (srv_reactor s) /\ 1 <= conn_generation c;
  net_counters : 1 <= next_connection_id_ (srv_reactor s) /\ 1 <= next_generation_ (srv_reactor s);
  net_fresh id :
    next_connection_id_ (srv_reactor s) <= id ->
    sys_sent (srv_system s) !! id = None /\ sys_accepted (srv_system s) !! id = None;
  net_good id c : conns s !! id = Some c -> bad <> Some id -> conn_good s id c;
  net_payloads id : Forall (fun p => payload_ok p = true) (accepted_for id s);
}.

(** The queues and the chat service. *)
Record parts_ok (n : N) (s : Server) : Prop := {
  parts_responses :
    N.of_nat (length (response_queue_ (srv_queues s))) <=
      size_of_int (max_response_queue_size config_);
  parts_tasks : queued_tasks (srv_pool s) <= max_queue_size_ (srv_pool s);
  parts_chat : service_ok n (srv_chat s);
}.

Definition server_inv (n : N) (bad : option N) (s : Server) : Prop :=
  net_ok bad s /\ parts_ok n s.

(** Nothing about the other connections has changed, and nothing outside the
    connections but the chat service. *)
Definition others (id : N) (s s' : Server) : Prop :=
  forall j, j <> id ->
  conns s' !! j = conns s !! j /\ sent_to j s' = sent_to j s /\ accepted_for j s' = accepted_for j s.

Definition outside (s : Server) : Queues * ThreadPool Task * list Task * N * N :=
  (srv_queues s, srv_pool s, srv_busy s, next_connection_id_ (srv_reactor s),
   next_generation_ (srv_reactor s)).

Definition only (id : N) (s s' : Server) : Prop := others id s s' /\ outside s' = outside s.

#[export] Instance only_preorder id : PreOrder (only id).
Proof.
  split; [by intros s|]. intros s1 s2 s3 [H12 O12] [H23 O23]. split; [|congruence]. intros j Hj.
  destruct (H12 j Hj) as (? & ? & ?), (H23 j Hj) as (? & ? & ?). by split; [|split]; etrans.
Qed.

(** ** Lemmas: the access functions *)
Lemma wp_reactor {A} (f : Reactor -> A) (Q : A -> Server -> Prop) s :
  Q (f (srv_reactor s)) s -> wp (reactor f) Q s.
Proof. done. Qed.

(** Two servers that differ in the log and in the number of calls. *)
Record same_net (s s' : Server) : Prop := {
  same_reactor : srv_reactor s' = srv_reactor s;
  same_open : sys_open (srv_system s') = sys_open (srv_system s);
  same_mode : sys_write_mode (srv_system s') = sys_write_mode (srv_system s);
  same_sent : sys_sent (srv_system s') = sys_sent (srv_system s);
  same_accepted : sys_accepted (srv_system s') = sys_accepted (srv_system s);
  same_queues : srv_queues s' = srv_queues s;
  same_pool : srv_pool s' = srv_pool s;
  same_busy : srv_busy s' = srv_busy s;
  same_chat_sessions : st_sessions (srv_chat s') = st_sessions (srv_chat s);
  same_chat_world : st_world (srv_chat s') = st_world (srv_chat s);
}.

#[export] Instance same_net_preorder : PreOrder same_net.
Proof.
  split; [by intros s|]. intros s1 s2 s3 [] []. by split; etrans.
Qed.

Lemma same_net_good s s' id c : same_net s s' -> conn_good s id c -> conn_good s' id c.
Proof.
  intros E [G1 G2 G3 G4 G5]. split; [|done|done| |done].
  - unfold sent_to, accepted_for. by rewrite (same_sent _ _ E), (same_accepted _ _ E).
  - by rewrite (same_mode _ _ E).
Qed.

Lemma same_net_inv n bad s s' : same_net s s' -> server_inv n bad s -> server_inv n bad s'.
Proof.
  intros E [[A B C D F G W] [P1 P2 P3]]. split.
  - split; rewrite ?(same_reactor _ _ E), ?(same_open _ _ E), ?(same_sent _ _ E),
      ?(same_accepted _ _ E); try done.
    + intros id c Hc Hb. by apply (same_net_good s), G.
    + intros id. unfold accepted_for. rewrite (same_accepted _ _ E). apply W.
  - split; rewrite ?(same_queues _ _ E), ?(same_pool _ _ E); try done.
    destruct P3 as [Q1 Q2 Q3 Q4 Q5].
    split; rewrite ?(same_chat_sessions _ _ E), ?(same_chat_world _ _ E); done.
Qed.

Lemma same_net_only s s' id : same_net s s' -> only id s s'.
Proof.
  intros E. split; [intros j _; unfold sent_to, accepted_for|unfold outside].
  - by rewrite (same_reactor _ _ E), (same_sent _ _ E), (same_accepted _ _ E).
  - by rewrite (same_reactor _ _ E), (same_queues _ _ E), (same_pool _ _ E), (same_busy _ _ E).
Qed.

Lemma wp_info message (Q : unit -> Server -> Prop) s :
  (forall s', same_net s s' -> Q tt s') -> wp (info message) Q s.
Proof. intros HQ. by apply HQ. Qed.

Lemma wp_warn message (Q : unit -> Server -> Prop) s :
  (forall s', same_net s s' -> Q tt s') -> wp (warn message) Q s.
Proof. intros HQ. by apply HQ. Qed.

Lemma wp_next_call (Q : N -> Server -> Prop) s :
  (forall i s', same_net s s' -> Q i s') -> wp (on_system next_call) Q s.
Proof. intros HQ. by apply HQ. Qed.

(** ** Lemmas: one connection at a time *)
Lemma server_inv_weaken n id s : server_inv n None s -> server_inv n (Some id) s.
Proof. intros [[A B C D F G W] P]. split; [|done]. split; try done. intros i c Hc _. by apply G. Qed.

Lemma server_inv_restore n id s :
  server_inv n (Some id) s -> (forall c, conns s !! id = Some c -> conn_good s id c) ->
  server_inv n None s.
Proof.
  intros [[A B C D F G W] P] Hid. split; [|done]. split; try done. intros i c Hc _.
  destruct (decide (i = id)) as [->|Hne]; [by apply Hid|]. apply G; [done|congruence].
Qed.

(** [f] does not touch the identity of a connection. *)
Definition keeps_identity (f : ConnectionState -> ConnectionState) : Prop :=
  forall c, conn_connection_id (f c) = conn_connection_id c /\ conn_fd (f c) = conn_fd c /\
            conn_generation (f c) = conn_generation c.

Lemma update_lookup f id j s :
  conns (update id f s).2 !! j = (if bool_decide (j = id) then f <$> conns s !! id else conns s !! j).
Proof.
  simpl. case_bool_decide as Hj; [subst; apply lookup_alter_eq|by apply lookup_alter_ne].
Qed.

Lemma wp_update n bad f id (Q : unit -> Server -> Prop) s :
  keeps_identity f -> server_inv n bad s -> bad = None \/ bad = Some id ->
  (forall s', server_inv n (Some id) s' -> only id s s' -> conns s' !! id = f <$> conns s !! id ->
     srv_system s' = srv_system s -> srv_pool s' = srv_pool s -> Q tt s') ->
  wp (update id f) Q s.
Proof.
  intros Hf [[A B C D F G W] P] Hbad HQ. unfold wp. apply HQ; [|..]; try done.
  - split; [|by destruct P; split]. split; try done.
    + intros fd i. change (by_fd (update id f s).2) with (by_fd s). rewrite A.
      setoid_rewrite update_lookup. case_bool_decide as Hi; [|done]. subst.
      destruct (conns s !! id) as [c|]; simpl; [|by split; intros (? & ? & ?)].
      destruct (Hf c) as (_ & Hfd & _).
      split; intros (c' & Hc' & <-); injection Hc' as <-; eexists; split; try done.
    + intros i c. rewrite update_lookup. case_bool_decide as Hi; [|by apply C]. subst.
      intros Hc. apply fmap_Some in Hc as (c0 & Hc0 & ->).
      destruct (Hf c0) as (-> & _ & ->). by apply C.
    + intros i c. rewrite update_lookup. case_bool_decide as Hi; [by subst|]. intros Hc _.
      destruct (G i c Hc) as [G1 G2 G3 G4 G5]; [destruct Hbad as [-> | ->]; congruence|].
      by split.
  - split; [|done]. intros j Hj. split; [|done]. rewrite update_lookup. by rewrite bool_decide_eq_false_2.
  - rewrite update_lookup. by rewrite bool_decide_eq_true_2.
Qed.

Lemma wp_close_connection n bad id (Q : unit -> Server -> Prop) s :
  server_inv n bad s -> bad = None \/ bad = Some id ->
  (forall s', server_inv n None s' -> only id s s' -> conns s' !! id = None ->
     find_by_connection id (st_sessions (srv_chat s')) = None \/ conns s !! id = None ->
     Q tt s') ->
  wp (close_connection id) Q s.
Proof.
  intros I Hbad HQ. apply wp_bind, wp_reactor. unfold find_connection.
  destruct (conns s !! id) as [c|] eqn:Ec.
  2:{ apply wp_ret, HQ; [|done|done|by right]. destruct Hbad as [-> | ->]; [done|].
      apply (server_inv_restore n id); [done|]. intros c. by rewrite Ec. }
  destruct I as [[A B C D F G W] [P1 P2 P3]].
  do 3 (apply wp_bind; unfold wp at 1; cbn [fst snd]). apply wp_info. intros s' E.
  assert (Hfd : by_fd s !! conn_fd c = Some id) by (apply A; eauto).
  match type of E with same_net ?t _ => set (s1 := t) in * end.
  assert (Hc1 : forall j, conns s1 !! j = delete id (conns s) !! j) by done.
  apply HQ.
  - apply (same_net_inv n None s1 s' E). split; [|split; [done|done|]].
    + split; try done.
      * intros fd i. change (by_fd s1) with (delete (conn_fd c) (by_fd s)).
        setoid_rewrite Hc1. rewrite !lookup_delete_Some, A. setoid_rewrite lookup_delete_Some. split.
        -- intros [Hne (c' & Hc' & Hf)]. exists c'. split; [|done]. split; [|done].
           intros <-. congruence.
        -- intros (c' & [Hne Hc'] & Hf). split; [|eauto]. intros Heq. apply Hne.
           assert (Hi : by_fd s !! fd = Some i) by (apply A; eauto). congruence.
      * intros fd. change (by_fd s1) with (delete (conn_fd c) (by_fd s)).
        change (sys_open (srv_system s1)) with (sys_open (srv_system s) ∖ {[conn_fd c]}).
        rewrite elem_of_difference, elem_of_singleton, B, lookup_delete_is_Some.
        split; intros [? ?]; (split; [congruence|done]) || (split; [done|congruence]).
      * intros i c'. rewrite Hc1, lookup_delete_Some. intros [_ ?]. by apply C.
      * intros i c'. rewrite Hc1, lookup_delete_Some. intros [Hne Hc'] _.
        destruct (G i c' Hc') as [G1 G2 G3 G4 G5]; [destruct Hbad as [-> | ->]; congruence|].
        split; try done. change (sys_write_mode (srv_system s1))
          with (delete (conn_fd c) (sys_write_mode (srv_system s))).
        rewrite lookup_delete_ne; [done|]. intros Heq.
        assert (Hi : by_fd s !! conn_fd c' = Some i) by (apply A; eauto). congruence.
    + by apply (disconnect_ok n id).
  - transitivity s1; [|by apply same_net_only]. split; [|done]. intros j Hj. split; [|done].
    rewrite Hc1. by apply lookup_delete_ne.
  - rewrite (same_reactor _ _ E). apply lookup_delete_eq.
  - left. rewrite (same_chat_sessions _ _ E).
    change (st_sessions (srv_chat s1)) with (unbind_connection id (st_sessions (srv_chat s))).
    by apply unbind_connection_free, (ok_linked n _ P3).
Qed.

Lemma wp_close_client n bad fd id (Q : unit -> Server -> Prop) s :
  by_fd s !! fd = Some id -> server_inv n bad s -> bad = None \/ bad = Some id ->
  (forall s', server_inv n None s' -> only id s s' -> conns s' !! id = None -> Q tt s') ->
  wp (close_client fd) Q s.
Proof.
  intros Hid I Hbad HQ. apply wp_bind, wp_reactor. rewrite Hid.
  apply (wp_close_connection n bad); [done|done|]. auto.
Qed.

(** ** Lemmas: sending *)

Context {KS : KernelSpec}.

Lemma sys_send_result i fd data :
  exists r rest, send_all (send_answers i fd data) data = Some (r, rest) /\
    send_sent r <= bsize data /\ (send_status r = SendOk <-> send_sent r = bsize data).
Proof.
  destruct (send_returns i fd data) as [[r rest] E]. exists r, rest. split; [done|].
  destruct (send_loop_bounds _ _ _ _ _ (send_within i fd data) (N.le_0_l _) E) as [[_ ?] ?].
  done.
Qed.

(** What one [send_all] does: a prefix of the data is on its way. *)
Lemma wp_sys_send_all n bad id fd data (Q : SendResult -> Server -> Prop) s :
  server_inv n bad s -> bad = None \/ bad = Some id ->
  id < next_connection_id_ (srv_reactor s) ->
  (forall r s', (exists i rest, send_all (send_answers i fd data) data = Some (r, rest)) ->
     send_sent r <= bsize data -> (send_status r = SendOk <-> send_sent r = bsize data) ->
     server_inv n (Some id) s' -> only id s s' -> srv_reactor s' = srv_reactor s ->
     sys_write_mode (srv_system s') = sys_write_mode (srv_system s) ->
     sent_to id s' = sent_to id s ++ take (N.to_nat (send_sent r)) data ->
     accepted_for id s' = accepted_for id s -> Q r s') ->
  wp (sys_send_all id fd data) Q s.
Proof.
  intros I Hbad Hid HQ. apply wp_bind, wp_next_call. intros i s1 E1.
  destruct (sys_send_result i fd data) as (r & rest & Er & Hle & Hok). rewrite Er.
  unfold wp. simpl. apply HQ; try done; [by exists i, rest|..].
  - pose proof (same_net_inv _ _ _ _ E1 I) as [[A B C D F G W] P]. split; [|by destruct P].
    rewrite <- (same_reactor _ _ E1) in Hid.
    split; try done.
    + intros j Hj. destruct (F j Hj) as [F1 F2]. simpl. split; [|done].
      rewrite lookup_insert_ne; [done|]. simpl in Hj. lia.
    + intros j c Hc Hb. simpl in Hc. destruct (G j c Hc) as [G1 G2 G3 G4 G5].
      { destruct Hbad as [-> | ->]; congruence. }
      split; try done. unfold sent_to. simpl. rewrite lookup_insert_ne by congruence. done.
  - transitivity s1; [by apply same_net_only|]. split; [|done]. intros j Hj.
    unfold sent_to. simpl. by rewrite lookup_insert_ne.
  - simpl. apply (same_reactor _ _ E1).
  - simpl. apply (same_mode _ _ E1).
  - unfold sent_to. simpl. rewrite lookup_insert_eq. simpl. by rewrite (same_sent _ _ E1).
  - unfold accepted_for. simpl. by rewrite (same_accepted _ _ E1).
Qed.

Lemma wp_note_accepted n id data (Q : unit -> Server -> Prop) s :
  server_inv n (Some id) s -> id < next_connection_id_ (srv_reactor s) -> payload_ok data = true ->
  (forall s', server_inv n (Some id) s' -> only id s s' -> srv_reactor s' = srv_reactor s ->
     sys_write_mode (srv_system s') = sys_write_mode (srv_system s) ->
     sent_to id s' = sent_to id s -> accepted_for id s' = accepted_for id s ++ [data] -> Q tt s') ->
  wp (note_accepted id data) Q s.
Proof.
  intros [[A B C D F G W] P] Hid Hok HQ. unfold wp. simpl. apply HQ; try done.
  - split; [|by destruct P]. split; try done.
    + intros j Hj. destruct (F j Hj) as [F1 F2]. simpl. split; [done|].
      rewrite lookup_insert_ne; [done|]. simpl in Hj. lia.
    + intros j c Hc Hb. destruct (G j c Hc Hb) as [G1 G2 G3 G4 G5].
      split; try done. unfold sent_to, accepted_for in *. simpl.
      rewrite lookup_insert_ne by congruence. done.
    + intros j. specialize (W j). unfold accepted_for in *. simpl. rewrite lookup_insert.
      case_decide as Hj; [|done]. subst j. apply Forall_app. split; [done|]. by constructor.
  - split; [|done]. intros j Hj. unfold accepted_for. simpl. by rewrite lookup_insert_ne.
  - unfold accepted_for. simpl. by rewrite lookup_insert_eq.
Qed.

Lemma wp_set_write_mode n id fd enable (Q : bool -> Server -> Prop) s :
  server_inv n (Some id) s -> by_fd s !! fd = Some id ->
  (forall s', server_inv n (Some id) s' -> only id s s' -> srv_reactor s' = srv_reactor s ->
     sent_to id s' = sent_to id s -> accepted_for id s' = accepted_for id s ->
     (sys_write_mode (srv_system s') !! fd = Some enable -> Q true s') /\ Q false s') ->
  wp (set_write_mode fd enable) Q s.
Proof.
  intros I Hfd HQ. apply wp_bind, wp_next_call. intros i s1 E1.
  pose proof (same_net_inv _ _ _ _ E1 I) as I1.
  destruct (epoll_modify i fd enable).
  - apply wp_bind, wp_warn. intros s2 E2. apply wp_ret.
    assert (E : same_net s s2) by (by transitivity s1).
    apply HQ; [by apply (same_net_inv _ _ s1)|by apply same_net_only|apply (same_reactor _ _ E)|
      unfold sent_to; by rewrite (same_sent _ _ E)|
      unfold accepted_for; by rewrite (same_accepted _ _ E)].
  - apply wp_bind. unfold wp at 1. simpl. apply wp_ret. apply HQ; simpl.
    + destruct I1 as [[A B C D F G W] P]. split; [|by destruct P]. split; try done.
      intros j c Hc Hb. simpl in Hc. destruct (G j c Hc Hb) as [G1 G2 G3 G4 G5].
      split; try done. simpl. rewrite lookup_insert_ne; [done|]. intros Heq.
      rewrite <- (same_reactor _ _ E1) in Hfd.
      assert (Hj : by_fd s1 !! conn_fd c = Some j) by (apply A; eauto). congruence.
    + transitivity s1; [by apply same_net_only|done].
    + apply (same_reactor _ _ E1).
    + unfold sent_to. simpl. by rewrite (same_sent _ _ E1).
    + unfold accepted_for. simpl. by rewrite (same_accepted _ _ E1).
    + simpl. by rewrite lookup_insert_eq.
Qed.

(** The same connection, up to its buffers and its clock. *)
Definition same_connection (c c' : ConnectionState) : Prop :=
  conn_connection_id c' = conn_connection_id c /\ conn_fd c' = conn_fd c /\
  conn_generation c' = conn_generation c /\ conn_closing c' = conn_closing c.

Lemma inv_found n bad s id c :
  server_inv n bad s -> conns s !! id = Some c ->
  conn_connection_id c = id /\ by_fd s !! conn_fd c = Some id /\
  id < next_connection_id_ (srv_reactor s).
Proof.
  intros [[A _ C _ _ _ _] _] Hc. destruct (C id c Hc) as (? & ? & _).
  split; [done|]. split; [apply A; eauto|done].
Qed.

Lemma inv_good n s id c : server_inv n None s -> conns s !! id = Some c -> conn_good s id c.
Proof. intros [[_ _ _ _ _ G _] _] Hc. by apply G. Qed.

Lemma encode_packet_ok data packet :
  encode_packet data = Ok packet -> packet = frame data /\ packet <> [] /\ payload_ok data = true.
Proof.
  intros E. destruct (payload_ok data) eqn:Ep.
  - rewrite encode_packet_frame in E by done. injection E as <-. done.
  - by rewrite encode_packet_invalid in E.
Qed.

Lemma concat_frames_snoc (l : list bytes) data :
  concat (map frame (l ++ [data])) = concat (map frame l) ++ frame data.
Proof. by rewrite map_app, concat_app; simpl; rewrite app_nil_r. Qed.

Lemma write_buffer_fits_spec b :
  write_buffer_fits config_ b = true <-> bsize b <= size_of_int (max_write_buffer_bytes config_).
Proof. unfold write_buffer_fits. rewrite negb_true_iff. lia. Qed.

Lemma keeps_write_buffer b : keeps_identity (set_write_buffer b).
Proof. by intros c. Qed.

(** Put a new write buffer on the connection and check its size. *)
Lemma wp_buffered n id c buffer data (rest : ST Server bool) (Q : bool -> Server -> Prop) s :
  server_inv n (Some id) s -> conns s !! id = Some c -> payload_ok data = true ->
  (forall s', only id s s' -> server_inv n (Some id) s' -> Q false s') ->
  (forall s', only id s s' -> server_inv n (Some id) s' ->
     conns s' !! id = Some (set_write_buffer buffer c) ->
     bsize buffer <= size_of_int (max_write_buffer_bytes config_) ->
     sys_write_mode (srv_system s') = sys_write_mode (srv_system s) ->
     sent_to id s' = sent_to id s -> accepted_for id s' = accepted_for id s ++ [data] ->
     wp rest Q s') ->
  wp (update id (set_write_buffer buffer);;
      if negb (write_buffer_fits config_ buffer) then
        warn_overflow "write buffer overflow" id (conn_fd c);; mret false
      else note_accepted id data;; rest) Q s.
Proof.
  intros I Hc Hpay Hno Hyes. destruct (inv_found _ _ _ _ _ I Hc) as (_ & _ & Hid).
  apply wp_bind, (wp_update n (Some id)); [apply keeps_write_buffer|done|by right|].
  intros s1 I1 O1 C1 E1 _. destruct (write_buffer_fits config_ buffer) eqn:Ef; simpl.
  - apply wp_bind, (wp_note_accepted n); [done| |done|].
    { destruct O1 as [_ O1]. unfold outside in O1. by replace (next_connection_id_ (srv_reactor s1))
        with (next_connection_id_ (srv_reactor s)) by congruence. }
    intros s2 I2 O2 R2 M2 S2 A2. apply Hyes; [by transitivity s1|done| | | | |].
    + by rewrite R2, C1, Hc.
    + by apply write_buffer_fits_spec.
    + by rewrite M2, E1.
    + rewrite S2. unfold sent_to. by rewrite E1.
    + rewrite A2. unfold accepted_for. by rewrite E1.
  - apply wp_bind, wp_warn. intros s2 E2. apply wp_ret, Hno.
    + transitivity s1; [done|by apply same_net_only].
    + by apply (same_net_inv _ _ s1).
Qed.

Lemma take_whole (d : bytes) k : k = bsize d -> take (N.to_nat k) d = d.
Proof. intros ->. apply take_ge. unfold bsize. lia. Qed.

(** A write that did not finish leaves something to send. *)
Lemma rest_pending (d : bytes) r :
  send_sent r <= bsize d -> (send_status r = SendOk <-> send_sent r = bsize d) ->
  send_status r <> SendOk -> drop (N.to_nat (send_sent r)) d <> [].
Proof.
  intros Hle Hok Hno Hd. apply (f_equal length) in Hd. rewrite length_drop in Hd.
  cbn [length] in Hd. apply Hno, Hok. unfold bsize in *. lia.
Qed.

(** The whole frame is on its way: account for it. *)
Lemma wp_note_whole n id c data (Q : unit -> Server -> Prop) s0 s :
  conn_good s0 id c -> conn_write_buffer c = [] -> payload_ok data = true ->
  server_inv n (Some id) s -> conns s !! id = Some c ->
  sys_write_mode (srv_system s) = sys_write_mode (srv_system s0) ->
  sent_to id s = sent_to id s0 ++ frame data -> accepted_for id s = accepted_for id s0 ->
  (forall s', server_inv n None s' -> only id s s' -> srv_reactor s' = srv_reactor s ->
     sent_to id s' = sent_to id s -> accepted_for id s' = accepted_for id s0 ++ [data] -> Q tt s') ->
  wp (note_accepted id data) Q s.
Proof.
  intros [G1 G2 G3 G4 G5] Hw Hp I Hc M S A HQ. destruct (inv_found _ _ _ _ _ I Hc) as (_ & _ & Hid).
  rewrite Hw, app_nil_r in G1.
  apply (wp_note_accepted n); [done|done|done|]. intros s1 I1 O1 R1 M1 S1 A1. rewrite A in A1.
  apply HQ; try done. apply (server_inv_restore n id); [done|]. intros c1. rewrite R1, Hc.
  intros [= <-]. split; [|done|done| |done].
  - by rewrite S1, A1, S, Hw, app_nil_r, concat_frames_snoc, G1.
  - by rewrite M1, M.
Qed.

(** Only the first [k] bytes of the frame are on their way: keep the others. *)
Lemma wp_send_blocked n id c data k (Q : bool -> Server -> Prop) s0 s :
  let rest := drop k (frame data) in
  conn_good s0 id c -> conn_write_buffer c = [] -> payload_ok data = true -> rest <> [] ->
  server_inv n (Some id) s -> conns s !! id = Some c ->
  sent_to id s = sent_to id s0 ++ take k (frame data) -> accepted_for id s = accepted_for id s0 ->
  (forall s' c', only id s s' -> server_inv n None s' -> conns s' !! id = Some c' ->
     same_connection c c' -> accepted_for id s' = accepted_for id s0 ++ [data] -> Q true s') ->
  (forall s', only id s s' -> server_inv n (Some id) s' -> Q false s') ->
  wp (update id (set_write_buffer rest);;
      if negb (write_buffer_fits config_ rest) then
        warn_overflow "write buffer overflow" id (conn_fd c);; mret false
      else note_accepted id data;; set_write_mode (conn_fd c) true) Q s.
Proof.
  intros rest [G1 G2 G3 G4 G5] Hw Hp Hrest I Hc S A Hyes Hno. rewrite Hw, app_nil_r in G1.
  apply (wp_buffered n id c); [done|done|done|done|]. intros s2 O2 I2 C2 F2 M2 S2 A2.
  destruct (inv_found _ _ _ _ _ I2 C2) as (_ & Hfd2 & _).
  apply (wp_set_write_mode n id); [done|done|]. intros s3 I3 O3 R3 S3 A3.
  assert (O : only id s s3) by by transitivity s2.
  assert (C3 : conns s3 !! id = Some (set_write_buffer rest c)) by by rewrite R3.
  split; [|by apply Hno]. intros M3. eapply Hyes; [done| |exact C3|done|by rewrite A3, A2, A].
  apply (server_inv_restore n id); [done|]. intros c3. rewrite C3. intros [= <-].
  split; [|done|done| |done]; simpl.
  - rewrite S3, A3, S2, A2, S, A, concat_frames_snoc, <- app_assoc. unfold rest.
    by rewrite take_drop, G1.
  - rewrite M3, bool_decide_eq_false_2; done.
Qed.

Lemma wp_send_to_client n id c data (Q : bool -> Server -> Prop) s :
  server_inv n None s -> conns s !! id = Some c ->
  (forall s' c', only id s s' -> server_inv n None s' -> conns s' !! id = Some c' ->
     same_connection c c' -> accepted_for id s' = accepted_for id s ++ [data] -> Q true s') ->
  (forall s', only id s s' -> server_inv n (Some id) s' -> Q false s') ->
  wp (send_to_client config_ c data) Q s.
Proof.
  intros I Hc Hyes Hno. destruct (inv_found _ _ _ _ _ I Hc) as (Hcid & Hfd & Hid).
  pose proof (inv_good _ _ _ _ I Hc) as G. unfold send_to_client. rewrite Hcid.
  destruct (encode_packet data) as [packet|what] eqn:Ep.
  2:{ apply wp_bind, wp_warn. intros s1 E1. apply wp_ret, Hno; [by apply same_net_only|].
      by apply (same_net_inv _ _ s), server_inv_weaken. }
  apply encode_packet_ok in Ep as (-> & Hne & Hpay).
  destruct (decide (conn_write_buffer c = [])) as [Eb|Eb].
  2:{ rewrite bool_decide_eq_false_2 by done. cbn [negb]. destruct G as [G1 G2 G3 G4 G5].
      apply (wp_buffered n id c); [by apply server_inv_weaken|done|done|done|].
      intros s1 O1 I1 C1 F1 M1 S1 A1. apply wp_ret. eapply Hyes; [done| |exact C1|done|done].
      apply (server_inv_restore n id); [done|]. intros c1. rewrite C1. intros [= <-].
      split; [|done|done| |by intros ? [? _]%app_nil]; simpl.
      - by rewrite S1, A1, concat_frames_snoc, app_assoc, G1.
      - rewrite M1, G4. f_equal.
        by rewrite !bool_decide_eq_false_2 by (by intros [? _]%app_nil || done). }
  rewrite bool_decide_eq_true_2 by done. cbn [negb].
  apply wp_bind, (wp_sys_send_all n None); [done|by left|done|].
  intros r s1 _ Hr Hok I1 O1 R1 M1 S1 A1.
  assert (C1 : conns s1 !! id = Some c) by by rewrite R1.
  destruct (send_status r) eqn:Er.
  - rewrite take_whole in S1 by by apply Hok.
    apply wp_bind, (wp_note_whole n id c data _ s); try done. intros s2 I2 O2 R2 S2 A2.
    apply wp_ret. eapply Hyes; [by transitivity s1|done|by rewrite R2|done|done].
  - apply (wp_send_blocked n id c data (N.to_nat (send_sent r)) _ s); try done.
    + apply rest_pending; [done|by rewrite Er|by rewrite Er].
    + intros s2 c2 O2. apply Hyes. by transitivity s1.
    + intros s2 O2. apply Hno. by transitivity s1.
  - apply wp_bind, wp_warn. intros s2 E2. apply wp_ret, Hno.
    + transitivity s1; [done|by apply same_net_only].
    + by apply (same_net_inv _ _ s1).
Qed.

(** ** Lemmas: the queues and the pending output *)

(** A queued response is for the connection [id] of generation [g]. *)
Definition meant_for (id g : N) (r : QueuedResponse) : bool :=
  (qr_connection_id r =? id) && ((qr_generation r =? 0) || (g =? qr_generation r)).

(** The payloads among [pending] for a connection, in order. *)
Definition payloads_for (id g : N) (pending : list QueuedResponse) : list bytes :=
  map qr_data (List.filter (meant_for id g) pending).

(** Every connection of [s'] was there in [s], and what it has accepted since
    then is [new]. *)
Definition survivors (new : N -> N -> list bytes) (s s' : Server) : Prop :=
  outside s' = outside s /\
  forall id c', conns s' !! id = Some c' ->
  exists c, conns s !! id = Some c /\ conn_generation c' = conn_generation c /\
    accepted_for id s' = accepted_for id s ++ new id (conn_generation c).

Abbreviation nothing_new := (survivors (fun _ _ => [])).

Lemma survivors_trans f g s1 s2 s3 :
  survivors f s1 s2 -> survivors g s2 s3 ->
  survivors (fun id gen => f id gen ++ g id gen) s1 s3.
Proof.
  intros [O1 S1] [O2 S2]. split; [congruence|]. intros id c3 H3.
  destruct (S2 id c3 H3) as (c2 & HC2 & G2 & A2), (S1 id c2 HC2) as (c1 & HC1 & G1 & A1).
  exists c1. split; [done|]. split; [congruence|]. by rewrite A2, A1, G1, app_assoc.
Qed.

Lemma survivors_ext f g s s' :
  (forall id gen, f id gen = g id gen) -> survivors f s s' -> survivors g s s'.
Proof.
  intros E [O S]. split; [done|]. intros id c' H'. destruct (S id c' H') as (c & ? & ? & ?).
  exists c. by rewrite <- E.
Qed.

Lemma nothing_new_trans s1 s2 s3 : nothing_new s1 s2 -> nothing_new s2 s3 -> nothing_new s1 s3.
Proof. intros H12 H23. by apply (survivors_trans _ _ s1 s2 s3 H12). Qed.

Lemma nothing_new_refl s : nothing_new s s.
Proof. split; [done|]. intros id c Hc. exists c. by rewrite app_nil_r. Qed.

(** Only one connection has changed; it is closed, or accepted [l]. *)
Lemma only_survivors id s s' f :
  only id s s' -> (forall j g, j <> id -> f j g = []) ->
  (forall c', conns s' !! id = Some c' -> exists c, conns s !! id = Some c /\
     conn_generation c' = conn_generation c /\
     accepted_for id s' = accepted_for id s ++ f id (conn_generation c)) ->
  survivors f s s'.
Proof.
  intros [O R] Hf Hid. split; [done|]. intros j c' Hc'.
  destruct (decide (j = id)) as [->|Hj]; [by apply Hid|].
  destruct (O j Hj) as (E & _ & A). rewrite E in Hc'. exists c'. split; [done|]. split; [done|].
  by rewrite A, Hf, app_nil_r.
Qed.

Lemma closed_survivors id s s' f :
  only id s s' -> (forall j g, j <> id -> f j g = []) -> conns s' !! id = None -> survivors f s s'.
Proof. intros O Hf Hn. apply (only_survivors id); [done|done|]. intros c'. by rewrite Hn. Qed.

Lemma payloads_for_other r id g : id <> qr_connection_id r -> payloads_for id g [r] = [].
Proof.
  intros Hid. unfold payloads_for. simpl. unfold meant_for.
  by replace (qr_connection_id r =? id) with false by lia.
Qed.

Lemma wp_deliver_response n r (Q : unit -> Server -> Prop) s :
  server_inv n None s ->
  (forall s', server_inv n None s' -> survivors (fun id g => payloads_for id g [r]) s s' -> Q tt s') ->
  wp (deliver_response config_ r) Q s.
Proof.
  intros I HQ. set (id := qr_connection_id r).
  assert (Hother : forall j g, j <> id -> payloads_for j g [r] = [])
    by (intros; by apply payloads_for_other).
  unfold deliver_response. fold id.
  apply wp_bind, wp_reactor. apply wp_bind, wp_reactor. unfold find_connection at 1.
  destruct (conns s !! id) as [c|] eqn:Ec.
  2:{ apply wp_ret, HQ; [done|]. by apply (closed_survivors id). }
  unfold is_current_connection. rewrite Ec.
  assert (Hp : payloads_for id (conn_generation c) [r] =
    if (qr_generation r =? 0) || (conn_generation c =? qr_generation r) then [qr_data r] else []).
  { unfold payloads_for. simpl. unfold meant_for. fold id. rewrite N.eqb_refl. simpl. by case_if. }
  destruct (_ || _) eqn:Ecur; cbn [negb].
  2:{ apply wp_ret, HQ; [done|]. apply (only_survivors id); [done|done|]. intros c'.
      rewrite Ec. intros [= <-]. exists c. by rewrite Hp, app_nil_r. }
  apply wp_bind, (wp_send_to_client n id); [done|done| |].
  2:{ intros s1 O1 I1. cbn [negb]. apply (wp_close_connection n (Some id)); [done|by right|].
      intros s2 I2 O2 N2 _. apply HQ; [done|]. apply (closed_survivors id); [|done|done].
      by transitivity s1. }
  intros s1 c1 O1 I1 C1 (E1 & E2 & E3 & E4) A1. cbn [negb].
  destruct (qr_close_after_send r).
  2:{ apply wp_ret, HQ; [done|]. apply (only_survivors id); [done|done|]. intros c'. rewrite C1.
      intros [= <-]. exists c. by rewrite Hp. }
  apply wp_bind, wp_reactor. unfold find_connection. rewrite C1. case_bool_decide as Eb.
  - apply (wp_close_connection n None); [done|by left|]. intros s2 I2 O2 N2 _. apply HQ; [done|].
    apply (closed_survivors id); [|done|done]. by transitivity s1.
  - apply (wp_update n None); [by intros ?|done|by left|]. intros s2 I2 O2 C2 S2 _. apply HQ.
    + apply (server_inv_restore n id); [done|]. intros c2. rewrite C2, C1. intros [= <-].
      destruct (inv_good _ _ _ _ I1 C1) as [G1 G2 G3 G4 G5].
      split; try done; unfold sent_to, accepted_for; by rewrite S2.
    + apply (only_survivors id); [by transitivity s1|done|]. intros c2. rewrite C2, C1.
      intros [= <-]. exists c. rewrite Hp. split; [done|]. split; [done|].
      rewrite <- A1. unfold accepted_for. by rewrite S2.
Qed.

Lemma wp_deliver_responses n pending (Q : unit -> Server -> Prop) s :
  server_inv n None s ->
  (forall s', server_inv n None s' -> survivors (fun id g => payloads_for id g pending) s s' ->
     Q tt s') ->
  wp (deliver_responses config_ pending) Q s.
Proof.
  revert Q s. induction pending as [|r pending IH]; intros Q s I HQ.
  - apply wp_ret, HQ; [done|apply nothing_new_refl].
  - apply wp_bind, (wp_deliver_response n); [done|]. intros s1 I1 S1. apply IH; [done|].
    intros s2 I2 S2. apply HQ; [done|]. apply (survivors_trans _ _ _ _ _ S1) in S2.
    revert S2. apply survivors_ext. intros id g. unfold payloads_for.
    by rewrite <- map_app, <- List.filter_app.
Qed.
Definition is_current (id g : N) (s : Server) : bool := is_current_connection id g (srv_reactor s).

Lemma survivors_not_current f id g s s' :
  survivors f s s' -> is_current id g s = false -> is_current id g s' = false.
Proof.
  intros [_ S]. unfold is_current, is_current_connection.
  destruct (conns s' !! id) as [c'|] eqn:E; [|done].
  destruct (S id c' E) as (c & -> & -> & _). done.
Qed.

Lemma wp_close_requests n pending (Q : unit -> Server -> Prop) s :
  server_inv n None s ->
  (forall s', server_inv n None s' -> nothing_new s s' ->
     (forall q, q ∈ pending -> is_current (qc_connection_id q) (qc_generation q) s' = false) ->
     Q tt s') ->
  wp (close_requests pending) Q s.
Proof.
  revert Q s. induction pending as [|q pending IH]; intros Q s I HQ.
  - apply wp_ret, HQ; [done|apply nothing_new_refl|]. by intros q ?%elem_of_nil.
  - apply wp_bind, wp_reactor. apply wp_bind.
    assert (Hnext : forall s1, server_inv n None s1 -> nothing_new s s1 ->
      is_current (qc_connection_id q) (qc_generation q) s1 = false ->
      wp (close_requests pending) Q s1).
    { intros s1 I1 S1 N1. apply IH; [done|]. intros s2 I2 S2 N2.
      apply HQ; [done|by apply (nothing_new_trans _ s1)|]. intros q' [->|Hq']%elem_of_cons.
      - by apply (survivors_not_current _ _ _ s1 s2 S2).
      - by apply N2. }
    destruct (is_current_connection _ _ _) eqn:Ecur.
    + apply (wp_close_connection n None); [done|by left|]. intros s1 I1 O1 N1 _.
      apply Hnext; [done|by apply (closed_survivors (qc_connection_id q))|].
      unfold is_current, is_current_connection. by rewrite N1.
    + apply wp_ret, Hnext; [done|apply nothing_new_refl|done].
Qed.

Definition with_queues (q : Queues) (s : Server) : Server :=
  mkServer (srv_reactor s) q (srv_pool s) (srv_busy s) (srv_chat s) (srv_system s).

Lemma with_queues_inv n bad q s :
  server_inv n bad s ->
  N.of_nat (length (response_queue_ q)) <= size_of_int (max_response_queue_size config_) ->
  server_inv n bad (with_queues q s).
Proof.
  intros [[A B C D F G W] [P1 P2 P3]] Hq. split; [|by split]. split; try done.
  intros id c Hc Hb. destruct (G id c Hc Hb). by split.
Qed.

Lemma with_queues_survivors f q s s' :
  survivors f s s' -> survivors f (with_queues q s) (with_queues q s').
Proof. intros [O S]. split; [|done]. unfold outside in *. simpl. congruence. Qed.

Lemma survivors_queues f s s' : survivors f s s' -> with_queues (srv_queues s) s' = s'.
Proof. intros [O _]. unfold outside in O. destruct s'. unfold with_queues. simpl in *. congruence. Qed.

Lemma wp_drain_close_requests n (Q : unit -> Server -> Prop) s :
  server_inv n None s ->
  (forall s', server_inv n None s' ->
     nothing_new (with_queues (mkQueues (response_queue_ (srv_queues s)) []) s) s' ->
     (forall q, q ∈ close_queue_ (srv_queues s) ->
        is_current (qc_connection_id q) (qc_generation q) s' = false) -> Q tt s') ->
  wp drain_close_requests Q s.
Proof.
  intros I HQ. apply wp_bind. unfold wp at 1. simpl.
  apply (wp_close_requests n); [|intros s' I' S' N'; by apply HQ].
  apply (with_queues_inv n None (mkQueues (response_queue_ (srv_queues s)) [])); [done|].
  apply I.
Qed.

Lemma wp_drain_responses n (Q : unit -> Server -> Prop) s :
  server_inv n None s ->
  (forall s', server_inv n None s' ->
     survivors (fun id g => payloads_for id g (response_queue_ (srv_queues s)))
       (with_queues (mkQueues [] []) s) s' ->
     (forall q, q ∈ close_queue_ (srv_queues s) ->
        is_current (qc_connection_id q) (qc_generation q) s' = false) -> Q tt s') ->
  wp (drain_responses config_) Q s.
Proof.
  intros I HQ. apply wp_bind, (wp_drain_close_requests n); [done|]. intros s1 I1 S1 N1.
  pose proof (survivors_queues _ _ _ S1) as E1. simpl in E1.
  apply (with_queues_survivors _ (mkQueues [] [])) in S1. simpl in S1.
  apply wp_bind. unfold wp at 1. rewrite <- E1 at 1 2. simpl.
  set (s2 := with_queues (mkQueues [] []) s1) in *.
  assert (I2 : server_inv n None s2) by (apply with_queues_inv; [done|simpl; lia]).
  rewrite <- E1. apply wp_bind. fold s2.
  apply (wp_deliver_responses n); [done|]. intros s3 I3 S3.
  apply (wp_drain_close_requests n); [done|]. intros s4 I4 S4 _.
  assert (E3 : with_queues (mkQueues [] []) s3 = s3) by apply (survivors_queues _ s2 s3 S3).
  rewrite <- E3 in S4 at 1. simpl in S4. rewrite E3 in S4.
  apply HQ; [done| |].
  - pose proof (survivors_trans _ _ _ _ _ (survivors_trans _ _ _ _ _ S1 S3) S4) as S.
    revert S. apply survivors_ext. intros id g. by rewrite app_nil_r.
  - intros q Hq. apply (survivors_not_current _ _ _ s3 s4 S4),
      (survivors_not_current _ _ _ s2 s3 S3), N1, Hq.
Qed.
Lemma inv_by_fd n bad s fd id :
  server_inv n bad s -> by_fd s !! fd = Some id -> exists c, conns s !! id = Some c /\ conn_fd c = fd.
Proof. intros [[A _ _ _ _ _ _] _]. apply A. Qed.

(** The connection found under a descriptor. *)
Lemma wp_find_by_fd n bad fd (Q : option ConnectionState -> Server -> Prop) s :
  server_inv n bad s -> (by_fd s !! fd = None -> Q None s) ->
  (forall id c, by_fd s !! fd = Some id -> conns s !! id = Some c -> conn_fd c = fd ->
     conn_connection_id c = id -> Q (Some c) s) ->
  wp (reactor (find_connection_by_fd fd)) Q s.
Proof.
  intros I Hno Hyes. apply wp_reactor. unfold find_connection_by_fd.
  destruct (by_fd s !! fd) as [id|] eqn:Eid; [|by apply Hno].
  destruct (inv_by_fd _ _ _ _ _ I Eid) as (c & Hc & Hf). unfold find_connection. rewrite Hc.
  destruct (inv_found _ _ _ _ _ I Hc) as (? & _). by apply (Hyes id).
Qed.

Lemma close_after n id (Q : unit -> Server -> Prop) s s0 :
  only id s0 s -> server_inv n (Some id) s ->
  (forall s', server_inv n None s' -> nothing_new s0 s' -> Q tt s') ->
  wp (close_connection id) Q s.
Proof.
  intros O I HQ. apply (wp_close_connection n (Some id)); [done|by right|].
  intros s' I' O' N' _. apply HQ; [done|]. apply (closed_survivors id); [by transitivity s|done|done].
Qed.

(** The rest of [flush_write_buffer] when everything went out. *)
Lemma wp_flush_done n id c fd (Q : unit -> Server -> Prop) s0 s :
  conn_good s0 id c -> conns s0 !! id = Some c -> conn_fd c = fd ->
  server_inv n (Some id) s -> only id s0 s -> conns s !! id = Some c ->
  sent_to id s = sent_to id s0 ++ conn_write_buffer c -> accepted_for id s = accepted_for id s0 ->
  (forall s', server_inv n None s' -> nothing_new s0 s' -> Q tt s') ->
  wp (update id (set_write_buffer []);;
      mode ← set_write_mode fd false;
      if negb mode then close_connection id
      else if conn_closing c then close_connection id
      else mret tt) Q s.
Proof.
  intros [G1 G2 G3 G4 G5] Hc Ef I O C1 S A HQ.
  apply wp_bind, (wp_update n (Some id)); [apply keeps_write_buffer|done|by right|].
  intros s2 I2 O2 C2 E2 _. rewrite C1 in C2. simpl in C2.
  destruct (inv_found _ _ _ _ _ I2 C2) as (_ & Hfd2 & _). simpl in Hfd2. rewrite Ef in Hfd2.
  apply wp_bind, (wp_set_write_mode n id); [done|done|]. intros s3 I3 O3 R3 S3 A3.
  assert (O' : only id s0 s3) by (transitivity s2; [by transitivity s|done]).
  split; [|by apply (close_after n id _ _ s0)]. intros M3. cbn [negb].
  destruct (conn_closing c) eqn:Ecl; [by apply (close_after n id _ _ s0)|].
  assert (C3 : conns s3 !! id = Some (set_write_buffer [] c)) by by rewrite R3.
  assert (A' : accepted_for id s3 = accepted_for id s0)
    by (rewrite A3; unfold accepted_for in *; by rewrite E2).
  apply wp_ret, HQ.
  - apply (server_inv_restore n id); [done|]. intros c3. rewrite C3. intros [= <-].
    split; simpl; [|unfold bsize; simpl; lia|done|by rewrite Ef, M3|congruence].
    rewrite A', app_nil_r, S3. unfold sent_to in *. by rewrite E2, S, <- G1.
  - apply (only_survivors id); [done|done|]. intros c3. rewrite C3. intros [= <-].
    exists c. by rewrite A', app_nil_r.
Qed.

(** The rest of it when [k] bytes went out. *)
Lemma wp_flush_blocked n id c k (Q : unit -> Server -> Prop) s0 s :
  let rest := drop k (conn_write_buffer c) in
  conn_good s0 id c -> conns s0 !! id = Some c -> conn_write_buffer c <> [] -> rest <> [] ->
  server_inv n (Some id) s -> only id s0 s -> conns s !! id = Some c ->
  sys_write_mode (srv_system s) = sys_write_mode (srv_system s0) ->
  sent_to id s = sent_to id s0 ++ take k (conn_write_buffer c) ->
  accepted_for id s = accepted_for id s0 ->
  (forall s', server_inv n None s' -> nothing_new s0 s' -> Q tt s') ->
  wp (update id (set_write_buffer rest)) Q s.
Proof.
  intros rest [G1 G2 G3 G4 G5] Hc Hw Hrest I O C1 M S A HQ.
  apply (wp_update n (Some id)); [apply keeps_write_buffer|done|by right|].
  intros s2 I2 O2 C2 E2 _. rewrite C1 in C2. simpl in C2.
  assert (A' : accepted_for id s2 = accepted_for id s0)
    by (unfold accepted_for in *; by rewrite E2).
  apply HQ.
  - apply (server_inv_restore n id); [done|]. intros c2. rewrite C2. intros [= <-].
    split; simpl; [| |done| |done].
    + rewrite A'. unfold sent_to in *. rewrite E2, S, <- app_assoc. unfold rest.
      by rewrite take_drop.
    + unfold rest, bsize in *. rewrite length_drop. lia.
    + rewrite E2, M, G4. by rewrite !bool_decide_eq_false_2.
  - apply (only_survivors id); [by transitivity s|done|]. intros c2. rewrite C2. intros [= <-].
    exists c. by rewrite A', app_nil_r.
Qed.

Lemma wp_flush n fd (Q : unit -> Server -> Prop) s :
  server_inv n None s ->
  (forall s', server_inv n None s' -> nothing_new s s' -> Q tt s') ->
  wp (flush_write_buffer fd) Q s.
Proof.
  intros I HQ. apply wp_bind, (wp_find_by_fd n None); [done| |].
  { intros _. apply wp_ret, HQ; [done|apply nothing_new_refl]. }
  intros id c Hfd Hc Ef Hcid. pose proof (inv_good _ _ _ _ I Hc) as G.
  destruct (inv_found _ _ _ _ _ I Hc) as (_ & _ & Hid). rewrite Hcid. cbv zeta.
  destruct (decide (conn_write_buffer c = [])) as [Eb|Eb].
  { rewrite bool_decide_eq_true_2 by done. apply wp_ret, HQ; [done|apply nothing_new_refl]. }
  rewrite bool_decide_eq_false_2 by done.
  apply wp_bind, (wp_sys_send_all n None); [done|by left|done|].
  intros r s1 _ Hr Hok I1 O1 R1 M1 S1 A1.
  assert (C1 : conns s1 !! id = Some c) by by rewrite R1.
  destruct (send_status r) eqn:Er.
  - rewrite take_whole in S1 by by apply Hok. by apply (wp_flush_done n id c fd _ s).
  - apply (wp_flush_blocked n id c (N.to_nat (send_sent r)) _ s); try done.
    apply rest_pending; [done|by rewrite Er|by rewrite Er].
  - apply wp_bind, wp_warn. intros s2 E2. apply (close_after n id _ _ s).
    + transitivity s1; [done|by apply same_net_only].
    + by apply (same_net_inv _ _ s1).
    + done.
Qed.

Lemma wp_close_timed_out n ids (Q : unit -> Server -> Prop) s :
  server_inv n None s ->
  (forall s', server_inv n None s' -> nothing_new s s' ->
     (forall id, id ∈ ids -> conns s' !! id = None) ->
     (forall id, id ∉ ids -> conns s' !! id = conns s !! id) -> Q tt s') ->
  wp (close_timed_out ids) Q s.
Proof.
  revert Q s. induction ids as [|id ids IH]; intros Q s I HQ.
  - apply wp_ret, HQ; [done|apply nothing_new_refl| |done]. by intros id ?%elem_of_nil.
  - apply wp_bind, wp_info. intros s0 E0. apply wp_bind, (wp_close_connection n None); [|by left|].
    { by apply (same_net_inv _ _ s). }
    intros s1 I1 O1 N1 _. apply IH; [done|]. intros s2 I2 S2 N2 K2.
    assert (S1 : nothing_new s s1).
    { apply (closed_survivors id); [|done|done]. transitivity s0; [by apply same_net_only|done]. }
    apply HQ; [done|by apply (nothing_new_trans _ s1)| |].
    + intros j [->|Hj]%elem_of_cons; [|by apply N2].
      destruct (conns s2 !! id) as [c|] eqn:E; [|done].
      destruct S2 as [_ S2]. destruct (S2 id c E) as (c1 & Hc1 & _). congruence.
    + intros j Hj. rewrite not_elem_of_cons in Hj. destruct Hj as [Hji Hj]. rewrite (K2 j Hj).
      destruct O1 as [O1 _]. destruct (O1 j Hji) as (-> & _). by rewrite (same_reactor _ _ E0).
Qed.
(** ** Lemmas: accepting *)

(** What [accept4] can answer while the descriptors [open] are in use: fresh
    descriptors, until it fails. *)
Fixpoint accepts_ok (open : gset Z) (answers : list accept_answer) : bool :=
  match answers with
  | [] => false
  | AcceptFailed _ :: _ => true
  | Accepted fd _ None :: answers =>
      negb (bool_decide (fd ∈ open)) && accepts_ok ({[fd]} ∪ open) answers
  | Accepted fd _ (Some _) :: answers => negb (bool_decide (fd ∈ open)) && accepts_ok open answers
  end.

(** The id and generation counters are at least [k] from the end. *)
Definition ids_left (k : N) (s : Server) : Prop :=
  next_connection_id_ (srv_reactor s) + k < u64_modulus /\
  next_generation_ (srv_reactor s) + k < u64_modulus.

(** [accept_connections] only adds connections. *)
Record accepted_since (k : N) (s s' : Server) : Prop := {
  since_rest : (srv_queues s', srv_pool s', srv_busy s') = (srv_queues s, srv_pool s, srv_busy s);
  since_old id : id < next_connection_id_ (srv_reactor s) -> conns s' !! id = conns s !! id;
  since_sent : sys_sent (srv_system s') = sys_sent (srv_system s);
  since_accepted : sys_accepted (srv_system s') = sys_accepted (srv_system s);
  since_next : next_connection_id_ (srv_reactor s) <= next_connection_id_ (srv_reactor s') <=
    next_connection_id_ (srv_reactor s) + k;
  since_generation : next_generation_ (srv_reactor s') <= next_generation_ (srv_reactor s) + k;
}.

Lemma accepted_since_trans j k s1 s2 s3 :
  accepted_since j s1 s2 -> accepted_since k s2 s3 -> accepted_since (j + k) s1 s3.
Proof.
  intros [A1 B1 C1 D1 F1 G1] [A2 B2 C2 D2 F2 G2]. split; [congruence| |congruence|congruence|lia|lia].
  intros id Hid. rewrite B2 by lia. by apply B1.
Qed.

Lemma same_net_since s s' : same_net s s' -> accepted_since 0 s s'.
Proof.
  intros E. split; rewrite ?(same_reactor _ _ E), ?(same_queues _ _ E), ?(same_pool _ _ E),
    ?(same_busy _ _ E); try done; try lia; apply E.
Qed.

(** Take the next ids. *)
Definition take_ids (s : Server) : Server :=
  let r := srv_reactor s in
  mkServer (mkReactor (connection_by_fd_ r) (connections_ r) (u64_succ (next_connection_id_ r))
              (u64_succ (next_generation_ r)))
    (srv_queues s) (srv_pool s) (srv_busy s) (srv_chat s) (srv_system s).

Lemma take_ids_ok n s :
  server_inv n None s -> ids_left 1 s ->
  server_inv n None (take_ids s) /\ accepted_since 1 s (take_ids s).
Proof.
  intros [[A B C D F G W] P] [L1 L2]. pose proof (u64_succ_small _ L1) as E1.
  pose proof (u64_succ_small _ L2) as E2. split.
  - split; [|by destruct P]. split; try done; simpl; rewrite ?E1, ?E2.
    + intros id c Hc. destruct (C id c Hc) as (? & ? & ?). split; [done|lia].
    + lia.
    + intros id Hid. apply F. lia.
    + intros id c Hc Hb. destruct (G id c Hc Hb). by split.
  - split; try done; simpl; rewrite ?E1, ?E2; lia.
Qed.

(** Enter a new connection in the tables, and open its descriptor. *)
Definition enter_connection (id gen : N) (fd now : Z) (s : Server) : Server :=
  let r := srv_reactor s in
  let k := srv_system s in
  mkServer
    (mkReactor (<[fd := id]> (connection_by_fd_ r))
       (<[id := mkConnectionState id fd [] [] now false gen]> (connections_ r))
       (next_connection_id_ r) (next_generation_ r))
    (srv_queues s) (srv_pool s) (srv_busy s) (srv_chat s)
    (mkSystem ({[fd]} ∪ sys_open k) (<[fd := false]> (sys_write_mode k)) (sys_wake k)
       (sys_calls k) (sys_sent k) (sys_accepted k)).

Lemma enter_connection_inv n id gen fd now s :
  server_inv n None s -> fd ∉ sys_open (srv_system s) -> conns s !! id = None ->
  id < next_connection_id_ (srv_reactor s) -> 1 <= gen ->
  sys_sent (srv_system s) !! id = None -> sys_accepted (srv_system s) !! id = None ->
  server_inv n None (enter_connection id gen fd now s).
Proof.
  intros [[A B C D F G W] P] Hfd Hid Hlt Hgen Hs Ha. split; [|by destruct P].
  assert (Hno : by_fd s !! fd = None).
  { destruct (by_fd s !! fd) eqn:E; [|done]. destruct Hfd. apply B. by rewrite E. }
  split; try done; simpl.
  - intros fd' id'. rewrite lookup_insert_Some. split.
    + intros [[<- <-]|[Hne (c & Hc & <-)%A]].
      * eexists. by rewrite lookup_insert_eq.
      * exists c. split; [|done]. rewrite lookup_insert_ne; [done|]. intros <-. congruence.
    + intros (c & Hc & Hf). apply lookup_insert_Some in Hc as [[<- <-]|[Hne Hc]]; [by left|].
      right. assert (Hi : by_fd s !! fd' = Some id') by (apply A; eauto). split; [|done].
      intros <-. congruence.
  - intros fd'. rewrite elem_of_union, elem_of_singleton, lookup_insert_is_Some', B.
    split; (intros [->|?]; [by left|by right]).
  - intros id' c. rewrite lookup_insert_Some. intros [[<- <-]|[_ Hc]]; [done|by apply C].
  - intros id' c Hc _. apply lookup_insert_Some in Hc as [[<- <-]|[Hne Hc]].
    + split; simpl; [|unfold bsize; simpl; lia|split; unfold bsize; simpl; lia|by rewrite lookup_insert_eq|done].
      unfold sent_to, accepted_for. simpl. by rewrite Hs, Ha.
    + destruct (G id' c Hc) as [G1 G2 G3 G4 G5]; [done|]. split; try done. simpl.
      rewrite lookup_insert_ne; [done|]. intros Heq.
      assert (Hi : by_fd s !! conn_fd c = Some id') by (apply A; eauto). congruence.
Qed.
Lemma ids_left_since j k s s' : accepted_since j s s' -> ids_left (j + k) s -> ids_left k s'.
Proof. intros [_ _ _ _ F G] [L1 L2]. split; lia. Qed.

(** Closing a descriptor that is not open. *)
Lemma close_unopened n fd s :
  server_inv n None s -> fd ∉ sys_open (srv_system s) ->
  server_inv n None (sys_close fd s).2 /\ accepted_since 0 s (sys_close fd s).2 /\
  sys_open (srv_system (sys_close fd s).2) = sys_open (srv_system s).
Proof.
  intros [[A B C D F G W] P] Hfd.
  assert (Ho : sys_open (srv_system (sys_close fd s).2) = sys_open (srv_system s)).
  { simpl. apply set_eq. intros fd'. rewrite elem_of_difference, elem_of_singleton.
    split; [by intros [? _]|]. intros Hf. split; [done|]. by intros ->. }
  split; [|split; [split; try done; simpl; lia|done]]. split; [|by destruct P].
  split; rewrite ?Ho; try done.
  intros id c Hc Hb. destruct (G id c Hc Hb) as [G1 G2 G3 G4 G5]. split; try done. simpl.
  rewrite lookup_delete_ne; [done|]. intros Heq. apply Hfd, B. rewrite Heq.
  assert (Hi : by_fd s !! conn_fd c = Some id) by (apply A; eauto). by rewrite Hi.
Qed.

(** A refused connection: its ids are spent, its descriptor closed. *)
Lemma accept_refused n fd s s1 s3 :
  same_net s s1 -> server_inv n None s1 -> ids_left 1 s1 ->
  fd ∉ sys_open (srv_system s) -> same_net (take_ids s1) s3 ->
  let s' := (sys_close fd s3).2 in
  server_inv n None s' /\ accepted_since 1 s s' /\
  sys_open (srv_system s') = sys_open (srv_system s).
Proof.
  intros E1 I1 L1 Hfd E3. destruct (take_ids_ok n s1 I1 L1) as [I2 T2].
  assert (O3 : sys_open (srv_system s3) = sys_open (srv_system s))
    by (rewrite (same_open _ _ E3); apply (same_open _ _ E1)).
  rewrite <- O3 in Hfd.
  destruct (close_unopened n fd s3 (same_net_inv _ _ _ _ E3 I2) Hfd) as (I4 & T4 & O4).
  split; [done|]. split; [|by rewrite O4].
  apply (accepted_since_trans 1 0 _ s3); [|done].
  apply (accepted_since_trans 1 0 _ (take_ids s1)); [|by apply same_net_since].
  apply (accepted_since_trans 0 1 _ s1); [by apply same_net_since|done].
Qed.

(** An accepted connection: it is entered under the ids taken. *)
Lemma accept_entered n fd now s s1 s3 :
  same_net s s1 -> server_inv n None s1 -> ids_left 1 s1 ->
  fd ∉ sys_open (srv_system s) ->
  same_net (enter_connection (next_connection_id_ (srv_reactor s1))
    (next_generation_ (srv_reactor s1)) fd now (take_ids s1)) s3 ->
  server_inv n None s3 /\ accepted_since 1 s s3 /\
  sys_open (srv_system s3) = {[fd]} ∪ sys_open (srv_system s).
Proof.
  intros E1 I1 L1 Hfd E3. destruct (take_ids_ok n s1 I1 L1) as [I2 T2].
  assert (Ho : sys_open (srv_system (take_ids s1)) = sys_open (srv_system s)) by apply (same_open _ _ E1).
  assert (Hn : next_connection_id_ (srv_reactor (take_ids s1)) = next_connection_id_ (srv_reactor s1) + 1)
    by (apply u64_succ_small; by destruct L1).
  split; [|split].
  - apply (same_net_inv _ _ _ _ E3). destruct I1 as [[_ _ C1 [D1 D2] F1 _ _] _].
    apply enter_connection_inv; [done|by rewrite Ho| |lia|done|by apply F1|by apply F1].
    change (conns (take_ids s1)) with (conns s1).
    destruct (conns s1 !! _) as [c|] eqn:Ec; [|done]. destruct (C1 _ c Ec) as (_ & ? & _). lia.
  - eapply (accepted_since_trans 1 0); [|by apply (same_net_since _ _ E3)].
    apply (accepted_since_trans 0 1 _ s1); [by apply same_net_since|].
    destruct T2 as [? Hold ? ? ? ?]. split; try done. intros j Hj. simpl.
    rewrite lookup_insert_ne; [done|lia].
  - rewrite (same_open _ _ E3). change (sys_open (srv_system (enter_connection _ _ fd now (take_ids s1))))
      with ({[fd]} ∪ sys_open (srv_system (take_ids s1))). by rewrite Ho.
Qed.

Lemma wp_accept n answers now k (Q : unit -> Server -> Prop) s :
  server_inv n None s -> accepts_ok (sys_open (srv_system s)) answers = true ->
  k = N.of_nat (length answers) -> ids_left k s ->
  (forall s', server_inv n None s' -> accepted_since k s s' -> Q tt s') ->
  wp (accept_connections answers now) Q s.
Proof.
  revert k Q s. induction answers as [|[fd peer e|e] answers IH]; intros k Q s I V -> L HQ; [done| |].
  2:{ assert (Hmore : forall s1, same_net s s1 -> Q tt s1).
      { intros s1 E1. apply HQ; [by apply (same_net_inv _ _ s)|].
        apply same_net_since in E1 as [? ? ? ? ? ?]. split; try done; lia. }
      simpl. case_if; [by apply wp_ret, Hmore|]. by apply wp_warn. }
  cbn [accepts_ok] in V. cbn [accept_connections length] in *.
  replace (N.of_nat (S (length answers))) with (1 + N.of_nat (length answers)) in * by lia.
  assert (Hnext : forall s4, server_inv n None s4 -> accepted_since 1 s s4 ->
    accepts_ok (sys_open (srv_system s4)) answers = true -> wp (accept_connections answers now) Q s4).
  { intros s4 I4 T4 V4. apply (IH (N.of_nat (length answers))); [done|done|done|by apply (ids_left_since 1 _ s)|].
    intros s6 I6 T6. apply HQ; [done|by apply (accepted_since_trans _ _ _ _ _ T4)]. }
  apply wp_bind, wp_info. intros s1 E1. pose proof (same_net_inv _ _ _ _ E1 I) as I1.
  apply wp_bind, wp_reactor.
  assert (L1 : ids_left 1 s1)
    by (destruct L; unfold ids_left; rewrite (same_reactor _ _ E1); split; lia).
  apply wp_bind. unfold wp at 1. cbn [fst snd on_reactor]. fold (take_ids s1).
  destruct e as [errno|]; apply andb_prop in V as [Hfd V]; apply negb_true_iff, bool_decide_eq_false in Hfd.
  - apply wp_bind, wp_warn. intros s3 E3.
    destruct (accept_refused n fd s s1 s3 E1 I1 L1 Hfd E3) as (I4 & T4 & O4).
    apply wp_bind. unfold wp at 1. apply Hnext; [done|done|by rewrite O4].
  - apply wp_bind. unfold wp at 1. cbn [fst snd]. apply wp_bind. unfold wp at 1. cbn [fst snd].
    apply wp_bind, wp_info. intros s3 E3.
    destruct (accept_entered n fd now s s1 s3 E1 I1 L1 Hfd E3) as (I4 & T4 & O4).
    apply Hnext; [done|done|by rewrite O4].
Qed.

(** ** Lemmas: reading *)

(** What [handle_client_read] does outside the connection's entry. *)
Record read_since (fd : Z) (s s' : Server) : Prop := {
  read_rest :
    (srv_queues s', srv_busy s', next_connection_id_ (srv_reactor s'),
     next_generation_ (srv_reactor s')) =
    (srv_queues s, srv_busy s, next_connection_id_ (srv_reactor s),
     next_generation_ (srv_reactor s));
  read_pool : srv_pool s' = srv_pool s \/
    exists id c packets, by_fd s !! fd = Some id /\ conns s !! id = Some c /\
      enqueue (mkTask id (conn_generation c) packets) (srv_pool s) = (true, srv_pool s');
  read_conns id c' : conns s' !! id = Some c' ->
    exists c, conns s !! id = Some c /\ conn_generation c' = conn_generation c /\
      accepted_for id s' = accepted_for id s;
}.

Lemma nothing_new_read fd s s' : nothing_new s s' -> read_since fd s s'.
Proof.
  intros [O S]. unfold outside in O. split; [congruence|left; congruence|].
  intros id c' Hc'. destruct (S id c' Hc') as (c & ? & ? & ?). exists c. by rewrite app_nil_r in *.
Qed.

Lemma recv_drain_stopped socket buf buf' rest res :
  recv_drain socket buf = Some (buf', rest, inl res) ->
  recv_status res = RecvClosed \/ recv_status res = RecvIoError.
Proof.
  revert buf. induction socket as [|[[|b data]|e] socket IH]; intros buf; cbn [recv_drain]; [done| | |].
  - intros [= _ _ <-]. by left.
  - apply IH.
  - repeat case_if; [apply IH|done|]. intros [= _ _ <-]. by right.
Qed.

Lemma recv_packets_et_buffer max socket buf res r rest :
  recv_packets_et max socket buf = Some (res, r, rest) ->
  recv_status res = RecvOk \/ recv_status res = RecvWouldBlock -> incomplete max r.
Proof.
  unfold recv_packets_et. destruct (recv_drain socket buf) as [[[buf' rest'] [stop|u]]|] eqn:Ed;
    simpl; [|destruct (decode max buf') as [[[] ps] r'] eqn:Ec; simpl|done].
  - intros [= <- <- <-] Hs. apply recv_drain_stopped in Ed. destruct Hs, Ed; congruence.
  - by intros [= <- <- <-] [|].
  - intros [= <- <- <-] _. by apply (decode_incomplete _ _ _ _ Ec).
Qed.

Lemma wp_close_client_read n bad fd id (Q : unit -> Server -> Prop) s s0 :
  by_fd s0 !! fd = Some id -> by_fd s !! fd = Some id -> only id s0 s ->
  server_inv n bad s -> bad = None \/ bad = Some id ->
  (forall s', server_inv n None s' -> read_since fd s0 s' -> conns s' !! id = None -> Q tt s') ->
  wp (close_client fd) Q s.
Proof.
  intros Hid0 Hid O I Hbad HQ. apply (wp_close_client n bad fd id); [done|done|done|].
  intros s' I' O' N'. apply HQ; [done| |done]. apply nothing_new_read, (closed_survivors id);
    [by transitivity s|done|done].
Qed.

Lemma wp_enqueue task (Q : bool -> Server -> Prop) s :
  (forall p, (enqueue task (srv_pool s)) = (true, p) ->
     Q true (mkServer (srv_reactor s) (srv_queues s) p (srv_busy s) (srv_chat s) (srv_system s))) ->
  Q false s -> wp (on_pool (enqueue task)) Q s.
Proof.
  intros Hyes Hno. unfold wp, on_pool.
  destruct (enqueue_cases task (srv_pool s)) as [[E _]|[E _]]; rewrite E; simpl; [|by apply Hyes].
  destruct s. exact Hno.
Qed.

Lemma with_pool_inv n bad p s :
  server_inv n bad s -> queued_tasks p <= max_queue_size_ p ->
  server_inv n bad
    (mkServer (srv_reactor s) (srv_queues s) p (srv_busy s) (srv_chat s) (srv_system s)).
Proof.
  intros [[A B C D F G W] [P1 P2 P3]] Hp. split; [|by split]. split; try done.
  intros id c Hc Hb. destruct (G id c Hc Hb). by split.
Qed.

Lemma enqueue_bounded {T} (task : T) p p' :
  enqueue task p = (true, p') -> queued_tasks p' <= max_queue_size_ p'.
Proof.
  destruct (enqueue_cases task p) as [[-> _]|(-> & _ & Hl)]; [done|]. intros [= <-].
  unfold queued_tasks. simpl. rewrite length_app. simpl. lia.
Qed.

(** The buffers of a connection changed on the reading side only. *)
Lemma reading_good n id s s1 c c1 :
  server_inv n None s -> conns s !! id = Some c -> srv_system s1 = srv_system s ->
  conns s1 !! id = Some c1 -> server_inv n (Some id) s1 ->
  conn_write_buffer c1 = conn_write_buffer c -> conn_fd c1 = conn_fd c ->
  conn_closing c1 = conn_closing c ->
  bsize (conn_read_buffer c1) <= kPacketHeaderSize + kMaxPacketPayloadSize ->
  bsize (conn_read_buffer c1) <= size_of_int (max_read_buffer_bytes config_) ->
  server_inv n None s1.
Proof.
  intros I Hc Es Hc1 I1 Ew Ef Ecl Hb Hl. destruct (inv_good _ _ _ _ I Hc) as [G1 G2 G3 G4 G5].
  apply (server_inv_restore n id); [done|]. intros c'. rewrite Hc1. intros [= <-].
  split; rewrite ?Ew, ?Ef, ?Ecl, ?Es; try done. unfold sent_to, accepted_for. by rewrite Es.
Qed.

(** The second half of [handle_client_read]: limits, activity, submission. *)
Lemma wp_submit n fd id c packets r now (Q : unit -> Server -> Prop) s s1 :
  server_inv n None s -> conns s !! id = Some c -> by_fd s !! fd = Some id -> conn_fd c = fd ->
  server_inv n (Some id) s1 -> only id s s1 -> conns s1 !! id = Some (set_read_buffer r c) ->
  srv_system s1 = srv_system s -> bsize r <= kPacketHeaderSize + kMaxPacketPayloadSize ->
  (forall s', server_inv n None s' -> read_since fd s s' -> Q tt s') ->
  wp
    (if size_of_int (max_read_buffer_bytes config_) <? bsize r then
       warn_overflow "read buffer overflow" id fd;; close_client fd
     else if bool_decide (packets = []) then mret tt
     else
       info (bs "received " ++ to_string (N.of_nat (length packets)) ++
             bs " packet(s) from connection_id=" ++ to_string id ++
             bs " fd=" ++ to_string_int fd);;
       update id (set_last_active_at now);;
       accepted ← on_pool (enqueue (mkTask id (conn_generation c) packets));
       if negb accepted then warn_overflow "thread pool queue full" id fd;; close_client fd
       else mret tt) Q s1.
Proof.
  intros I Hc Hid Hf I1 O1 C1 E1 Hb HQ.
  destruct (inv_found _ _ _ _ _ I1 C1) as (_ & Hid1 & _). simpl in Hid1. rewrite Hf in Hid1.
  assert (Hclose : forall s2, server_inv n (Some id) s2 -> only id s s2 ->
    by_fd s2 !! fd = Some id -> wp (close_client fd) Q s2).
  { intros s2 I2 O2 H2. apply (wp_close_client_read n (Some id) fd id Q s2 s); try done.
    - by right.
    - intros s' I' R' _. by apply HQ. }
  destruct (size_of_int (max_read_buffer_bytes config_) <? bsize r) eqn:El.
  { apply wp_bind, wp_warn. intros s2 E2. apply Hclose.
    - by apply (same_net_inv _ _ s1).
    - transitivity s1; [done|by apply same_net_only].
    - by rewrite (same_reactor _ _ E2). }
  apply N.ltb_ge in El.
  pose proof (reading_good n id s s1 c _ I Hc E1 C1 I1 eq_refl eq_refl eq_refl Hb El) as I1'.
  case_bool_decide as Ep.
  { apply wp_ret, HQ; [done|]. apply nothing_new_read, (only_survivors id); [done|done|].
    intros c'. rewrite C1. intros [= <-]. exists c. rewrite app_nil_r. split; [done|]. split; [done|].
    unfold accepted_for. by rewrite E1. }
  apply wp_bind, wp_info. intros s2 E2.
  apply wp_bind, (wp_update n None); [by intros ?|by apply (same_net_inv _ _ s1)|by left|].
  intros s3 I3 O3 C3 E3 P3. rewrite (same_reactor _ _ E2), C1 in C3. simpl in C3.
  assert (O : only id s s3) by (transitivity s2; [transitivity s1; [done|by apply same_net_only]|done]).
  assert (I3' : server_inv n None s3).
  { apply (server_inv_restore n id); [done|]. intros c'. rewrite C3. intros [= <-].
    pose proof (inv_good _ _ _ _ I1' C1) as G. apply (same_net_good _ _ _ _ E2) in G.
    destruct G as [G1 G2 G3 G4 G5]. split; rewrite ?E3; try done.
    unfold sent_to, accepted_for. by rewrite E3. }
  destruct (inv_found _ _ _ _ _ I3 C3) as (_ & Hid3 & _). simpl in Hid3. rewrite Hf in Hid3.
  apply wp_bind, wp_enqueue.
  - intros p Hp. cbn [negb]. apply wp_ret, HQ.
    + apply with_pool_inv; [done|by apply (enqueue_bounded _ _ _ Hp)].
    + destruct O as [O R]. unfold outside in R. split; [simpl; congruence| |].
      * right. exists id, c, packets. split; [done|]. split; [done|].
        replace (srv_pool s) with (srv_pool s3) by congruence. done.
      * intros j c'. simpl. destruct (decide (j = id)) as [->|Hj].
        -- rewrite C3. intros [= <-]. exists c. split; [done|]. split; [done|].
           unfold accepted_for. simpl. by rewrite E3, (same_accepted _ _ E2), E1.
        -- destruct (O j Hj) as (-> & _ & A). intros Hc'. by exists c'.
  - cbn [negb]. apply wp_bind, wp_warn. intros s4 E4. apply Hclose.
    + apply (same_net_inv _ _ _ _ E4). done.
    + transitivity s3; [done|by apply same_net_only].
    + by rewrite (same_reactor _ _ E4).
Qed.

Lemma wp_client_read n fd socket now (Q : unit -> Server -> Prop) s :
  server_inv n None s ->
  (forall s', server_inv n None s' -> read_since fd s s' -> Q tt s') ->
  wp (handle_client_read config_ fd socket now) Q s.
Proof.
  intros I HQ.
  assert (Hsame : Q tt s) by (apply HQ; [done|apply nothing_new_read, nothing_new_refl]).
  apply wp_bind, (wp_find_by_fd n None); [done|by intros _; apply wp_ret|].
  intros id c Hid Hc Hf Hcid. destruct (conn_closing c) eqn:Ecl; [by apply wp_ret|]. cbv zeta.
  destruct (recv_packets_et kMaxPacketPayloadSize socket (conn_read_buffer c))
    as [[[res r] rest]|] eqn:Er; [|by apply wp_ret].
  rewrite Hcid.
  apply wp_bind, (wp_update n None); [by intros ?|done|by left|]. intros s1 I1 O1 C1 E1 P1.
  rewrite Hc in C1. simpl in C1.
  destruct (inv_found _ _ _ _ _ I1 C1) as (_ & Hid1 & _). simpl in Hid1. rewrite Hf in Hid1.
  assert (Hclose : forall s2, same_net s1 s2 -> wp (close_client fd) Q s2).
  { intros s2 E2. apply (wp_close_client_read n (Some id) fd id Q s2 s); [done| | | |by right|].
    - by rewrite (same_reactor _ _ E2).
    - transitivity s1; [done|by apply same_net_only].
    - by apply (same_net_inv _ _ s1).
    - intros s' I' R' _. by apply HQ. }
  assert (Hgo : recv_status res = RecvOk \/ recv_status res = RecvWouldBlock ->
    bsize r <= kPacketHeaderSize + kMaxPacketPayloadSize).
  { intros Hs. pose proof (incomplete_bound _ _ (recv_packets_et_buffer _ _ _ _ _ _ Er Hs)). lia. }
  destruct (recv_status res).
  - apply (wp_submit n fd id c _ _ _ _ s); auto.
  - apply (wp_submit n fd id c _ _ _ _ s); auto.
  - by apply Hclose.
  - by apply wp_bind, wp_warn.
  - by apply wp_bind, wp_warn.
Qed.
End spec.
