(* ===== verification/TcpTheorems.v ===== *)
(** * TcpTheorems: what the server guarantees

    [server_event] is one atomic step: an event of the reactor's loop, the
    drain at the end of a turn, a worker taking a task, a worker processing one
    packet.  [reachable] is every interleaving of them; the theorems hold in
    every reachable state, for any kernel with [KernelSpec] and any storage with
    [StorageSpec]. *)

From S2P Require Import Prelude.
From S2P Require Import CStd.
From S2P Require Import Json.
From S2P Require Import Message.
From S2P Require Import PacketCodec.
From S2P Require Import SessionManager.
From S2P Require Import UserStore.
From S2P Require Import ServerConfig.
From S2P Require Import ThreadPool.
From S2P Require Import Storage.
From S2P Require Import ChatService.
From S2P Require Import ChatSpec.
From S2P Require Import ChatTheorems.
From S2P Require Import TcpServer.
From S2P Require Import TcpSpec.
Open Scope N_scope.

(** ** The server as a transition system *)

Section system.
Context `{Storage} `{Kernel} (config_ : ServerConfig).

Inductive server_event : Type :=
  | EvReady (event : ready_event) (now : Z)
  | EvTurnEnd
  | EvHeartbeat (now : Z)
  | EvTake
  | EvPacket (worker : nat).

Definition run_server_event (e : server_event) : ST Server unit :=
  match e with
  | EvReady event now => handle_ready config_ event now
  | EvTurnEnd => drain_responses config_
  | EvHeartbeat now => check_heartbeats config_ now
  | EvTake => worker_take
  | EvPacket i => worker_packet config_ i
  end.

Fixpoint run_server (events : list server_event) : ST Server unit :=
  match events with
  | [] => mret tt
  | e :: events => run_server_event e;; run_server events
  end.

(** What the kernel can report in a state. *)
Definition event_possible (e : server_event) (s : Server) : bool :=
  match e with
  | EvReady (ReadyListen answers) _ => accepts_ok (sys_open (srv_system s)) answers
  | EvReady (ReadyClient fd _ _ _ socket) _ =>
      existsb (fun a => match a with
        | Received [] => true
        | RecvFailed e => negb (e =? EINTR)
        | _ => false
        end) socket
  | _ => true
  end.

(** How many ids of each kind an event can take. *)
Definition event_cost (e : server_event) : N :=
  match e with
  | EvReady (ReadyListen answers) _ => N.of_nat (length answers)
  | EvPacket _ => 1
  | _ => 0
  end.

(** The members before [start]. *)
Definition server_start (chat : ChatState) : Server :=
  mkServer (mkReactor ∅ ∅ 1 1) (mkQueues [] [])
    (new_thread_pool (size_of_int (max_thread_pool_queue_size config_))) [] chat
    (mkSystem ∅ ∅ 0 0 ∅ ∅).

(** [reachable chat n s]: [s] is reached from the start, using at most [n] ids
    of each kind; the 64-bit counters have room. *)
Inductive reachable (chat : ChatState) : N -> Server -> Prop :=
  | reachable_start : reachable chat 0 (server_start chat)
  | reachable_step n s e :
      reachable chat n s -> event_possible e s = true -> room (n + event_cost e) ->
      reachable chat (n + event_cost e) (run_server_event e s).2.

(** A turn of the loop is a sequence of events. *)
Lemma handle_all_ready_events events now s :
  (handle_all_ready config_ events now;; drain_responses config_) s =
  run_server (map (fun e => EvReady e now) events ++ [EvTurnEnd]) s.
Proof.
  revert s. unfold mbind, ST_bind. induction events as [|e events IH]; intros s; simpl.
  - unfold mbind, ST_bind. by destruct (drain_responses config_ s) as [[] s'].
  - unfold mbind, ST_bind. destruct (handle_ready config_ e now s) as [[] s'].
    rewrite <- IH. by destruct (handle_all_ready config_ events now s') as [[] s''].
Qed.

Lemma loop_turn_events events now s :
  loop_turn config_ events now s =
    run_server (match events with
                | [] => [EvHeartbeat now; EvTurnEnd]
                | _ => map (fun e => EvReady e now) events ++ [EvTurnEnd]
                end) s.
Proof.
  destruct events; [|apply handle_all_ready_events]. cbn [loop_turn run_server].
  unfold mbind, ST_bind. destruct (run_server_event (EvHeartbeat now) s) as [[] s'] eqn:E.
  simpl in E. rewrite E. simpl. by destruct (drain_responses config_ s') as [[] s''].
Qed.
End system.

(** ** Every event keeps the invariant *)

Section invariant.
Context `{StorageSpec} `{KernelSpec} (config_ : ServerConfig).

(** The id counters moved by at most [k]. *)
Definition counters (k : N) (s s' : Server) : Prop :=
  next_connection_id_ (srv_reactor s') <= next_connection_id_ (srv_reactor s) + k /\
  next_generation_ (srv_reactor s') <= next_generation_ (srv_reactor s) + k.

Lemma survivors_counters f s s' : survivors f s s' -> counters 0 s s'.
Proof. intros [O _]. unfold outside in O. injection O as _ _ _ En Eg. split; lia. Qed.

Lemma read_since_counters fd s s' : read_since fd s s' -> counters 0 s s'.
Proof. intros [O _ _]. injection O as _ _ En Eg. split; lia. Qed.

Lemma wp_close_any n fd (Q : unit -> Server -> Prop) s :
  server_inv config_ n None s ->
  (forall s', server_inv config_ n None s' -> counters 0 s s' -> Q tt s') ->
  wp (close_client fd) Q s.
Proof.
  intros I HQ. destruct (connection_by_fd_ (srv_reactor s) !! fd) as [id|] eqn:Eid.
  - apply (wp_close_client config_ n None fd id); [done|done|by left|].
    intros s' I' [_ O'] _. apply HQ; [done|]. unfold outside in O'.
    injection O' as _ _ _ En Eg. split; lia.
  - apply wp_bind, wp_reactor. rewrite Eid.
    destruct (close_unopened config_ n fd s I) as (I' & [_ _ _ _ ? ?] & _).
    { destruct I as [[_ B _ _ _ _ _] _]. rewrite B, Eid. by intros [? ?]. }
    apply HQ; [done|split; lia].
Qed.

Lemma wp_handle_ready n e now (Q : unit -> Server -> Prop) s :
  server_inv config_ n None s -> event_possible (EvReady e now) s = true ->
  ids_left (event_cost (EvReady e now)) s ->
  (forall s', server_inv config_ n None s' -> counters (event_cost (EvReady e now)) s s' -> Q tt s') ->
  wp (handle_ready config_ e now) Q s.
Proof.
  intros I V L HQ. destruct e as [answers| |fd error readable writable socket]; simpl in *.
  - apply (wp_accept config_ n answers now (N.of_nat (length answers))); [done|done|done|done|].
    intros s' I' [_ _ _ _ ? ?]. apply HQ; [done|split; lia].
  - apply wp_bind. unfold wp at 1. simpl. apply (wp_drain_responses config_ n).
    + destruct I as [[A B C D F G W] P]. split; [|by destruct P]. split; try done.
      intros id c Hc Hb. destruct (G id c Hc Hb). by split.
    + intros s' I' S' _. apply HQ; [done|]. by apply survivors_counters in S'.
  - destruct error; [by apply (wp_close_any n)|].
    assert (Hflush : forall s1, server_inv config_ n None s1 -> counters 0 s s1 ->
      wp (if writable then flush_write_buffer fd else mret tt) Q s1).
    { intros s1 I1 [? ?]. destruct writable; [|by apply HQ]. apply (wp_flush config_ n); [done|].
      intros s2 I2 S2%survivors_counters. apply HQ; [done|]. destruct S2. split; lia. }
    destruct readable; apply wp_bind.
    + apply (wp_client_read config_ n); [done|]. intros s1 I1 R1%read_since_counters. by apply Hflush.
    + apply wp_ret, Hflush; [done|split; lia].
Qed.

(** What processing one packet does to the rest of the server. *)
Definition tag (id generation : N) (m : OutboundMessage) : QueuedResponse :=
  mkQueuedResponse (out_connection_id m) (if out_connection_id m =? id then generation else 0)
    (out_data m) (close_after_send m).

Record packet_done (id generation : N) (payload : bytes) (s s' : Server) : Prop := {
  packet_reactor : srv_reactor s' = srv_reactor s;
  packet_pool : srv_pool s' = srv_pool s /\ srv_busy s' = srv_busy s;
  packet_sent : sys_sent (srv_system s') = sys_sent (srv_system s) /\
    sys_accepted (srv_system s') = sys_accepted (srv_system s);
  packet_files : sys_open (srv_system s') = sys_open (srv_system s) /\
    sys_write_mode (srv_system s') = sys_write_mode (srv_system s);
  packet_chat :
    let chat := (handle_client_line id payload (srv_chat s)).2 in
    st_sessions (srv_chat s') = st_sessions chat /\ st_world (srv_chat s') = st_world chat;
  packet_queues :
    let out := (handle_client_line id payload (srv_chat s)).1 in
    let q := srv_queues s in
    srv_queues s' =
      if size_of_int (max_response_queue_size config_) <?
         N.of_nat (length (response_queue_ q)) + N.of_nat (length out)
      then mkQueues (response_queue_ q) (close_queue_ q ++ [mkQueuedClose id generation])
      else mkQueues (response_queue_ q ++ map (tag id generation) out) (close_queue_ q);
}.

Lemma process_packet_done id generation payload s :
  packet_done id generation payload s (process_packet_async config_ id generation payload s).2.
Proof.
  unfold process_packet_async, on_chat, on_queues, mbind, ST_bind.
  destruct (handle_client_line id payload (srv_chat s)) as [out chat] eqn:E. simpl.
  destruct (_ <? _) eqn:Eq; split; simpl; try done; rewrite ?E; try done; cbn [fst]; by rewrite Eq.
Qed.

Lemma packet_inv n id generation payload s s' :
  server_inv config_ n None s -> room n -> packet_done id generation payload s s' ->
  server_inv config_ (n + 1) None s'.
Proof.
  intros [[A B C D F G W] [P1 P2 P3]] R [E1 [E2 E3] [E4 E5] [E9 E10] [E6 E7] E8]. split.
  - split; rewrite ?E1, ?E4, ?E5, ?E9; try done.
    + intros i c Hc Hb. destruct (G i c Hc Hb). split; try done; rewrite ?E10; try done.
      unfold sent_to, accepted_for. by rewrite E4, E5.
    + intros i. unfold accepted_for. rewrite E5. apply W.
  - split.
    + rewrite E8. case_if; [done|]. simpl. rewrite length_app, length_map. lia.
    + by rewrite E2.
    + pose proof (handle_client_line_step n id (srv_chat s) payload P3 R) as [Hstep Hn].
      pose proof (service_step_ok _ _ _ _ _ P3 Hn Hstep) as [Q1 Q2 Q3 Q4 Q5].
      split; rewrite ?E6, ?E7; done.
Qed.

(** Moving tasks between the pool and the workers. *)
Lemma with_tasks_inv n p busy s :
  server_inv config_ n None s -> queued_tasks p <= max_queue_size_ p ->
  server_inv config_ n None
    (mkServer (srv_reactor s) (srv_queues s) p busy (srv_chat s) (srv_system s)).
Proof.
  intros [[A B C D F G W] [P1 P2 P3]] Hp. split; [|by split]. split; try done.
  intros id c Hc Hb. destruct (G id c Hc Hb). by split.
Qed.

Lemma worker_take_inv n s :
  server_inv config_ n None s -> server_inv config_ n None (worker_take s).2.
Proof.
  intros I. unfold worker_take. pose proof (worker_next_cases (srv_pool s)) as Hw.
  pose proof (parts_tasks _ _ _ (proj2 I)) as Hb. unfold queued_tasks in Hb.
  destruct (tasks_ (srv_pool s)) as [|task tasks]; rewrite Hw.
  - by destruct (stop_ _).
  - simpl. apply with_tasks_inv; [done|]. unfold queued_tasks. simpl in *. lia.
Qed.

Lemma worker_packet_inv n i s :
  server_inv config_ n None s -> room n ->
  server_inv config_ (n + 1) None (worker_packet config_ i s).2.
Proof.
  intros I R. assert (Hle : forall s1, server_inv config_ n None s1 -> server_inv config_ (n + 1) None s1).
  { intros s1 [N [P1 P2 P3]]. split; [done|]. split; [done|done|]. apply (service_ok_le n); [done|lia]. }
  assert (Hb : forall busy, server_inv config_ n None
    (mkServer (srv_reactor s) (srv_queues s) (srv_pool s) busy (srv_chat s) (srv_system s))).
  { intros busy. apply with_tasks_inv; [done|]. apply (parts_tasks _ _ _ (proj2 I)). }
  unfold worker_packet. destruct (srv_busy s !! i) as [task|]; [|by apply Hle].
  destruct (task_packets task) as [|packet packets]; [apply Hle, Hb|].
  unfold mbind, ST_bind, on_busy. cbv zeta.
  eapply packet_inv; [apply Hb|done|apply process_packet_done].
Qed.

Lemma worker_packet_counters i s : srv_reactor (worker_packet config_ i s).2 = srv_reactor s.
Proof.
  unfold worker_packet. destruct (srv_busy s !! i) as [task|]; [|done].
  destruct (task_packets task) as [|packet packets]; [done|].
  unfold mbind, ST_bind, on_busy. cbv zeta.
  exact (packet_reactor _ _ _ _ _ (process_packet_done _ _ _ _)).
Qed.

Lemma wp_server_event n e (Q : unit -> Server -> Prop) s :
  server_inv config_ n None s -> event_possible e s = true -> ids_left (event_cost e) s ->
  room n ->
  (forall s', server_inv config_ (n + event_cost e) None s' -> counters (event_cost e) s s' -> Q tt s') ->
  wp (run_server_event config_ e) Q s.
Proof.
  intros I V L R HQ.
  assert (Hle : forall s1, server_inv config_ n None s1 -> server_inv config_ (n + event_cost e) None s1).
  { intros s1 [N [P1 P2 P3]]. split; [done|]. split; [done|done|]. apply (service_ok_le n); [done|lia]. }
  destruct e as [event now| |now| |i].
  - apply (wp_handle_ready n); [done|done|done|]. intros s' I' C'. apply HQ; [by apply Hle|done].
  - apply (wp_drain_responses config_ n); [done|]. intros s' I' S' _. apply HQ; [by apply Hle|].
    by apply survivors_counters in S'.
  - apply wp_bind, wp_reactor, (wp_close_timed_out config_ n); [done|]. intros s' I' S' _ _.
    apply HQ; [by apply Hle|by apply survivors_counters in S'].
  - unfold wp. simpl. destruct (worker_take s) as [[] s'] eqn:E. simpl. apply HQ.
    + apply Hle. replace s' with (worker_take s).2 by by rewrite E. by apply worker_take_inv.
    + revert E. unfold worker_take. destruct (worker_next _); intros [= <-]; split; simpl; lia.
  - unfold wp. simpl. destruct (worker_packet config_ i s) as [[] s'] eqn:E. simpl.
    replace s' with (worker_packet config_ i s).2 by by rewrite E. apply HQ.
    + by apply worker_packet_inv.
    + unfold counters. rewrite worker_packet_counters. simpl. lia.
Qed.

Lemma server_start_inv chat :
  service_ok 0 chat -> server_inv config_ 0 None (server_start config_ chat).
Proof.
  intros K. split; split; simpl; try done.
  - intros fd id. rewrite lookup_empty. split; [done|]. intros (c & Hc & _).
    by rewrite lookup_empty in Hc.
  - intros fd. rewrite lookup_empty. split; [set_solver|by intros [? ?]].
  - lia.
  - unfold queued_tasks. simpl. lia.
Qed.

Lemma reachable_inv chat n s :
  service_ok 0 chat -> reachable config_ chat n s ->
  server_inv config_ n None s /\ next_connection_id_ (srv_reactor s) <= n + 1 /\
  next_generation_ (srv_reactor s) <= n + 1.
Proof.
  intros K. induction 1 as [|n s e _ (I & N1 & N2) V R]; [by split; [apply server_start_inv|]|].
  unfold room in R.
  apply (wp_server_event n e (fun _ s' => server_inv config_ (n + event_cost e) None s' /\
    next_connection_id_ (srv_reactor s') <= n + event_cost e + 1 /\
    next_generation_ (srv_reactor s') <= n + event_cost e + 1) s I V).
  - split; lia.
  - unfold room. lia.
  - intros s' I' [C1 C2]. split; [done|]. lia.
Qed.
End invariant.

(** ** Theorems *)

Section theorems.
Context `{StorageSpec} `{KernelSpec} (config_ : ServerConfig).

Abbreviation conns s := (connections_ (srv_reactor s)).
Abbreviation by_fd s := (connection_by_fd_ (srv_reactor s)).

Lemma decode_prefix max (sent rest : bytes) (ps : list bytes) :
  Forall (fun p => payload_ok p = true /\ bsize p <= max) ps ->
  sent ++ rest = concat (map frame ps) ->
  exists (read : list Packet) (left : bytes) (later : list Packet),
    decode max sent = (false, read, left) /\ map mkPacket ps = read ++ later /\
    (rest = [] -> later = [] /\ left = []).
Proof.
  intros Hp Hs. pose proof (decode_frames_stream max ps Hp) as Hd. rewrite <- Hs in Hd.
  rewrite decode_app in Hd. destruct (decode max sent) as [[[] read] left] eqn:Ed; [done|].
  destruct (decode max (left ++ rest)) as [[e later] r] eqn:El. simpl in Hd.
  injection Hd as -> Hps ->. exists read, left, later. split; [done|]. split; [done|].
  intros ->. rewrite app_nil_r in Hs. pose proof (decode_frames_stream max ps Hp) as Hd.
  rewrite <- Hs, Ed in Hd. injection Hd as Hread ->. split; [|done].
  rewrite Hread in Hps. rewrite <- (app_nil_r (map mkPacket ps)) in Hps at 2.
  by apply app_inv_head in Hps.
Qed.

(** C1: The output stream of every live connection is intact, in every
    interleaving of the reactor and the workers and however the kernel splits
    the writes: the bytes it took followed by the write buffer are the frames of
    the responses accepted for the connection, in order; so what the client has
    decoded so far is a prefix of those responses, and all of them once the
    buffer is empty. *)
Theorem client_reads_responses chat n s id c :
  service_ok 0 chat -> reachable config_ chat n s -> conns s !! id = Some c ->
  sent_to id s ++ conn_write_buffer c = concat (map frame (accepted_for id s)) /\
  exists (read : list Packet) (left : bytes) (later : list Packet),
    decode kMaxPacketPayloadSize (sent_to id s) = (false, read, left) /\
    map mkPacket (accepted_for id s) = read ++ later /\
    (conn_write_buffer c = [] -> later = [] /\ left = []).
Proof.
  intros K R Hc. destruct (reachable_inv config_ chat n s K R) as (I & _).
  pose proof (good_stream _ _ _ _ (inv_good _ _ _ _ _ I Hc)) as Hs. split; [done|].
  refine (decode_prefix kMaxPacketPayloadSize _ _ _ _ Hs).
  apply (Forall_impl _ _ _ (net_payloads _ _ _ (proj1 I) id)).
  intros p Hp. split; [done|]. by apply payload_ok_spec.
Qed.

(** C34: Memory stays bounded: in every reachable state the write buffer and the
    read buffer of a live connection are within their configured limits, the
    read buffer also holds at most one frame of the largest size, the response
    queue is within its limit and the task queue of the pool within its own.
    (The read buffer is checked between events, as the code does: while
    [recv_packets_et] drains the socket it can be longer.) *)
Theorem server_bounds chat n s :
  service_ok 0 chat -> reachable config_ chat n s ->
  (forall id c, conns s !! id = Some c ->
     bsize (conn_write_buffer c) <= size_of_int (max_write_buffer_bytes config_) /\
     bsize (conn_read_buffer c) <= size_of_int (max_read_buffer_bytes config_) /\
     bsize (conn_read_buffer c) <= kPacketHeaderSize + kMaxPacketPayloadSize) /\
  N.of_nat (length (response_queue_ (srv_queues s))) <=
    size_of_int (max_response_queue_size config_) /\
  queued_tasks (srv_pool s) <= max_queue_size_ (srv_pool s).
Proof.
  intros K R. destruct (reachable_inv config_ chat n s K R) as (I & _).
  split; [|split; [apply (parts_responses _ _ _ (proj2 I))|apply (parts_tasks _ _ _ (proj2 I))]].
  intros id c Hc. destruct (inv_good _ _ _ _ _ I Hc) as [_ ? [? ?] _ _]. done.
Qed.

(** C35: The descriptor tables, the kernel and the connections agree in every
    reachable state: the tables are inverse to each other, the open descriptors
    are those of the live connections, a live connection waits for [EPOLLOUT]
    exactly while it has unsent output, and one marked [closing] has some. *)
Theorem descriptors_tracked chat n s :
  service_ok 0 chat -> reachable config_ chat n s ->
  (forall fd id, by_fd s !! fd = Some id <-> exists c, conns s !! id = Some c /\ conn_fd c = fd) /\
  (forall fd, fd ∈ sys_open (srv_system s) <-> is_Some (by_fd s !! fd)) /\
  forall id c, conns s !! id = Some c ->
    conn_connection_id c = id /\
    sys_write_mode (srv_system s) !! conn_fd c =
      Some (negb (bool_decide (conn_write_buffer c = []))) /\
    (conn_closing c = true -> conn_write_buffer c <> []).
Proof.
  intros K R. destruct (reachable_inv config_ chat n s K R) as (I & _).
  pose proof (proj1 I) as [A B C _ _ G _]. split; [done|]. split; [done|].
  intros id c Hc. destruct (C id c Hc) as (? & _), (G id c Hc) as [_ _ _ ? ?]; done.
Qed.

(** C15: A drain empties both queues: every connection that a close request
    names is gone, and every connection that survives is the one that was there
    before and has accepted exactly the queued responses meant for it (its id,
    and its generation or the wildcard), in queue order. *)
Theorem drain_delivers chat n s :
  service_ok 0 chat -> reachable config_ chat n s ->
  let s' := (drain_responses config_ s).2 in
  let pending := response_queue_ (srv_queues s) in
  srv_queues s' = mkQueues [] [] /\
  (forall q, q ∈ close_queue_ (srv_queues s) ->
     is_current_connection (qc_connection_id q) (qc_generation q) (srv_reactor s') = false) /\
  forall id c', conns s' !! id = Some c' ->
    exists c, conns s !! id = Some c /\ conn_generation c' = conn_generation c /\
      accepted_for id s' = accepted_for id s ++ payloads_for id (conn_generation c) pending.
Proof.
  intros K R. destruct (reachable_inv config_ chat n s K R) as (I & _). cbv zeta.
  apply (wp_drain_responses config_ n (fun _ s' => srv_queues s' = mkQueues [] [] /\
    (forall q, q ∈ close_queue_ (srv_queues s) ->
       is_current_connection (qc_connection_id q) (qc_generation q) (srv_reactor s') = false) /\
    forall id c', conns s' !! id = Some c' ->
      exists c, conns s !! id = Some c /\ conn_generation c' = conn_generation c /\
        accepted_for id s' = accepted_for id s ++
          payloads_for id (conn_generation c) (response_queue_ (srv_queues s)))); [done|].
  intros s' I' [O S] N'. split; [|by split]. unfold outside in O. simpl in O. congruence.
Qed.

(** Idle connections are closed, and no others: after [check_heartbeats]
    the live connections are exactly those whose last packet is at most the
    timeout old, unchanged. *)
Theorem heartbeat_closes_idle chat n s now :
  service_ok 0 chat -> reachable config_ chat n s ->
  let s' := (check_heartbeats config_ now s).2 in
  (forall id, conns s' !! id =
     c ← conns s !! id;
     if (heartbeat_timeout_seconds config_ <? now - conn_last_active_at c)%Z then None else Some c) /\
  forall id c, conns s' !! id = Some c -> accepted_for id s' = accepted_for id s.
Proof.
  intros K R. destruct (reachable_inv config_ chat n s K R) as (I & _). cbv zeta.
  apply (wp_bind (reactor (timed_out config_ now)) close_timed_out (fun _ s' =>
    (forall id, conns s' !! id = c ← conns s !! id;
       if (heartbeat_timeout_seconds config_ <? now - conn_last_active_at c)%Z then None else Some c) /\
    forall id c, conns s' !! id = Some c -> accepted_for id s' = accepted_for id s)).
  apply wp_reactor, (wp_close_timed_out config_ n); [done|]. intros s' I' [_ S'] Hin Hout.
  assert (Hto : forall id, id ∈ timed_out config_ now (srv_reactor s) <-> exists c,
    conns s !! id = Some c /\ (heartbeat_timeout_seconds config_ <? now - conn_last_active_at c)%Z = true).
  { intros id. unfold timed_out. rewrite list_elem_of_In, in_map_iff. split.
    - intros ([j c] & <- & [Hj Ht]%filter_In). simpl in *. exists c.
      by rewrite <- list_elem_of_In, elem_of_map_to_list in Hj.
    - intros (c & Hc & Ht). exists (id, c). split; [done|]. apply filter_In. split; [|done].
      by rewrite <- list_elem_of_In, elem_of_map_to_list. }
  split.
  - intros id. destruct (decide (id ∈ timed_out config_ now (srv_reactor s))) as [Hid|Hid].
    + rewrite (Hin id Hid). apply Hto in Hid as (c & -> & Ht). simpl. by rewrite Ht.
    + rewrite (Hout id Hid). destruct (conns s !! id) as [c|] eqn:Ec; [|done]. simpl.
      destruct (_ <? _)%Z eqn:Et; [|done]. destruct Hid. apply Hto. eauto.
  - intros id c Hc. destruct (S' id c Hc) as (? & _ & _ & ->). apply app_nil_r.
Qed.

(** The responses to a line, as the queue tags them, for a connection. *)
Lemma payloads_for_tagged j g id g0 (out : list OutboundMessage) :
  (j = id -> g = g0) ->
  payloads_for j g (map (tag id g0) out) =
    map out_data (List.filter (fun m => out_connection_id m =? j) out).
Proof.
  intros Hg. unfold payloads_for. induction out as [|m out IH]; [done|]. simpl.
  unfold meant_for at 1. simpl. destruct (out_connection_id m =? j) eqn:Ej; simpl; [|done].
  assert (Hc : ((if out_connection_id m =? id then g0 else 0) =? 0)
    || (g =? (if out_connection_id m =? id then g0 else 0)) = true).
  { destruct (out_connection_id m =? id) eqn:Ei; [|done]. rewrite Hg by lia.
    by rewrite N.eqb_refl, orb_true_r. }
  rewrite Hc. simpl. by rewrite IH.
Qed.

Lemma packet_step n id generation payload s :
  server_inv config_ n None s -> room n ->
  server_inv config_ (n + 1) None (process_packet_async config_ id generation payload s).2.
Proof. intros I R. eapply packet_inv; [exact I|done|apply process_packet_done]. Qed.

(** C3: From request to output stream: when a worker processes a payload of a
    live connection and the loop then drains, every surviving connection has
    accepted what was queued for it before and then the service's responses
    addressed to it, in the service's order, the requester's own included; if
    the responses would overflow the queue, the requester is closed instead. *)
Theorem request_answered chat n s id c payload :
  service_ok 0 chat -> reachable config_ chat n s -> room n -> conns s !! id = Some c ->
  let out := (handle_client_line id payload (srv_chat s)).1 in
  let q := response_queue_ (srv_queues s) in
  let s' := (process_packet_async config_ id (conn_generation c) payload;;
             drain_responses config_) s in
  if size_of_int (max_response_queue_size config_) <? N.of_nat (length q) + N.of_nat (length out)
  then is_current_connection id (conn_generation c) (srv_reactor s'.2) = false
  else forall j c', conns s'.2 !! j = Some c' ->
    accepted_for j s'.2 = accepted_for j s ++ payloads_for j (conn_generation c') q ++
      map out_data (List.filter (fun m => out_connection_id m =? j) out).
Proof.
  intros K R Hn Hc out q s'. destruct (reachable_inv config_ chat n s K R) as (I & _).
  pose proof (packet_step n id (conn_generation c) payload s I Hn) as I1.
  pose proof (process_packet_done config_ id (conn_generation c) payload s) as [E1 _ [_ E3] _ _ E5].
  subst s'. unfold mbind, ST_bind.
  destruct (process_packet_async config_ id (conn_generation c) payload s) as [[] s1].
  cbn [snd] in *. cbv zeta in E5. fold out q in E5.
  apply (wp_drain_responses config_ (n + 1) (fun _ s2 =>
    if size_of_int (max_response_queue_size config_) <? N.of_nat (length q) + N.of_nat (length out)
    then is_current_connection id (conn_generation c) (srv_reactor s2) = false
    else forall j c', conns s2 !! j = Some c' ->
      accepted_for j s2 = accepted_for j s ++ payloads_for j (conn_generation c') q ++
        map out_data (List.filter (fun m => out_connection_id m =? j) out))); [done|].
  intros s2 I2 [_ S2] N2. destruct (_ <? _).
  - apply (N2 (mkQueuedClose id (conn_generation c))). rewrite E5. simpl.
    apply elem_of_app. right. by apply list_elem_of_singleton.
  - intros j c' Hc'. destruct (S2 j c' Hc') as (c0 & Hc0 & -> & ->). simpl in Hc0.
    rewrite E1 in Hc0. rewrite E5. cbn [response_queue_]. unfold payloads_for at 1.
    rewrite List.filter_app, map_app. fold (payloads_for j (conn_generation c0) q).
    fold (payloads_for j (conn_generation c0) (map (tag id (conn_generation c)) out)).
    rewrite payloads_for_tagged by (intros ->; congruence).
    unfold accepted_for. simpl. by rewrite E3.
Qed.

(** What reading [d] makes of a connection and of the pool. *)
Definition read_spec (c : ConnectionState) (d : bytes) (now : Z) (pool : ThreadPool Task)
    : option ConnectionState * ThreadPool Task :=
  let '(refused, packets, rest) := decode kMaxPacketPayloadSize (conn_read_buffer c ++ d) in
  let c' := set_read_buffer rest c in
  if refused || (size_of_int (max_read_buffer_bytes config_) <? bsize rest) then (None, pool)
  else if bool_decide (packets = []) then (Some c', pool)
  else
    match enqueue (mkTask (conn_connection_id c) (conn_generation c) packets) pool with
    | (true, pool) => (Some (set_last_active_at now c'), pool)
    | (false, _) => (None, pool)
    end.

Lemma only_pool id s s' : only id s s' -> srv_pool s' = srv_pool s.
Proof.
  intros [_ O]. unfold outside in O. congruence.
Qed.

(** Closing the connection being read leaves the pool as it was. *)
Lemma wp_close_reading n id fd s0 s s1 :
  same_net s0 s -> server_inv config_ n (Some id) s0 -> by_fd s0 !! fd = Some id ->
  srv_pool s0 = srv_pool s1 ->
  wp (close_client fd) (fun _ s' => (conns s' !! id, srv_pool s') = (None, srv_pool s1)) s.
Proof.
  intros E I F P. apply (wp_close_client config_ n (Some id) fd id).
  - by rewrite (same_reactor _ _ E).
  - by apply (same_net_inv config_ _ _ s0).
  - by right.
  - intros s3 _ O3 N3. by rewrite N3, (only_pool _ _ _ O3), (same_pool _ _ E), P.
Qed.

(** C12: Reading a connection whose socket had [d] to offer: on a bad header, an
    overlong buffer or a full pool the connection is closed; else the complete
    packets, if any, become one task of the pool, in order, under the
    connection's id and generation, and the rest stays in the read buffer. *)
Theorem packets_submitted chat n s fd id c socket d now :
  service_ok 0 chat -> reachable config_ chat n s ->
  by_fd s !! fd = Some id -> conns s !! id = Some c -> conn_closing c = false ->
  drained socket = Some d ->
  let s' := (handle_client_read config_ fd socket now s).2 in
  (conns s' !! id, srv_pool s') = read_spec c d now (srv_pool s).
Proof.
  intros K R Hfd Hc Hcl Hd. destruct (reachable_inv config_ chat n s K R) as (I & _). cbv zeta.
  destruct (recv_packets_et_drained kMaxPacketPayloadSize socket (conn_read_buffer c) d Hd)
    as [unread Hr].
  unfold read_spec.
  destruct (decode kMaxPacketPayloadSize (conn_read_buffer c ++ d)) as [[refused packets] rest].
  destruct (inv_found config_ n None s id c I Hc) as (Hid & Hfd' & _).
  assert (Hf : conn_fd c = fd).
  { destruct (inv_by_fd config_ n None s fd id I Hfd) as (c' & Hc' & <-). congruence. }
  match goal with |- _ = ?r => enough (E : wp (handle_client_read config_ fd socket now)
    (fun _ s' => (conns s' !! id, srv_pool s') = r) s) by exact E end.
  assert (Hfind : find_connection_by_fd fd (srv_reactor s) = Some c)
    by (unfold find_connection_by_fd, find_connection; by rewrite Hfd).
  apply wp_bind, wp_reactor. rewrite Hfind, Hcl. cbv zeta. rewrite Hr, Hid.
  apply wp_bind, (wp_update config_ n None); [by intros ?|done|by left|]. intros s1 I1 O1 C1 E1 P1.
  rewrite Hc in C1. simpl in C1.
  destruct (inv_found config_ n _ s1 id _ I1 C1) as (_ & Hfd1 & _). simpl in Hfd1. rewrite Hf in Hfd1.
  assert (Hsame : forall s2, same_net s1 s2 -> wp (close_client fd)
    (fun _ s' => (conns s' !! id, srv_pool s') = (None, srv_pool s)) s2)
    by (intros s2 E2; by apply (wp_close_reading n id fd s1)).
  destruct refused; cbn [orb recv_status recv_packets].
  { by apply wp_bind, wp_warn. }
  destruct packets as [|packet packets]; cbn [recv_status recv_packets].
  { case_if; [by apply wp_bind, wp_warn|]. rewrite !bool_decide_eq_true_2 by done. apply wp_ret.
    by rewrite C1, P1. }
  case_if; [by apply wp_bind, wp_warn|]. rewrite !bool_decide_eq_false_2 by done.
  apply wp_bind, wp_info. intros s2 E2. apply wp_bind, (wp_update config_ n (Some id));
    [by intros ?|by apply (same_net_inv config_ _ _ s1)|by right|]. intros s3 I3 O3 C3 E3 P3.
  rewrite (same_reactor _ _ E2), C1 in C3. simpl in C3.
  rewrite (same_pool _ _ E2), P1 in P3.
  destruct (inv_found config_ n _ s3 id _ I3 C3) as (_ & Hfd3 & _). simpl in Hfd3. rewrite Hf in Hfd3.
  apply wp_bind. unfold wp at 1, on_pool. rewrite P3.
  destruct (enqueue_cases (mkTask id (conn_generation c) (packet :: packets)) (srv_pool s))
    as [[-> _]|[-> _]]; cbn [negb fst snd].
  - apply wp_bind, wp_warn. intros s4 E4. apply (wp_close_reading n id fd s3); try done.
    destruct s3. simpl in P3. by subst.
  - apply wp_ret. simpl. simpl in C3. by rewrite C3.
Qed.

(** Closing a connection releases everything it held: its entries, its
    descriptor, its session; the other connections keep their state. *)
Theorem connection_released chat n s id c :
  service_ok 0 chat -> reachable config_ chat n s -> conns s !! id = Some c ->
  let s' := (close_connection id s).2 in
  conns s' !! id = None /\ by_fd s' !! conn_fd c = None /\
  (conn_fd c ∉ sys_open (srv_system s')) /\
  find_by_connection id (st_sessions (srv_chat s')) = None /\
  (forall j, j <> id -> conns s' !! j = conns s !! j) /\
  srv_queues s' = srv_queues s /\ srv_pool s' = srv_pool s.
Proof.
  intros K R Hc. destruct (reachable_inv config_ chat n s K R) as (I & _). cbv zeta.
  apply (wp_close_connection config_ n None id (fun _ s' => (
    conns s' !! id = None /\ by_fd s' !! conn_fd c = None /\
    (conn_fd c ∉ sys_open (srv_system s')) /\
    find_by_connection id (st_sessions (srv_chat s')) = None /\
    (forall j, j <> id -> conns s' !! j = conns s !! j) /\
    srv_queues s' = srv_queues s /\ srv_pool s' = srv_pool s))); [done|by left|].
  intros s' I' [O E] N' [Hs|Hs]; [|congruence]. unfold outside in E.
  assert (Hfd : by_fd s' !! conn_fd c = None).
  { destruct (by_fd s' !! conn_fd c) as [j|] eqn:Ej; [|done].
    destruct (inv_by_fd config_ n None s' _ _ I' Ej) as (c' & Hc' & Hf).
    assert (Hj : j <> id) by congruence. destruct (O j Hj) as (Ej' & _). rewrite Ej' in Hc'.
    destruct (inv_found config_ n None s _ _ I Hc) as (_ & F1 & _).
    destruct (inv_found config_ n None s _ _ I Hc') as (_ & F2 & _). congruence. }
  split; [done|]. split; [done|]. split; [|split; [done|split; [|split; congruence]]].
  - intros Ho. apply (net_open _ _ _ (proj1 I')) in Ho. rewrite Hfd in Ho. by destruct Ho.
  - intros j Hj. by apply (O j Hj).
Qed.

Lemma wp_close_all n ids (Q : unit -> Server -> Prop) s :
  server_inv config_ n None s ->
  (forall s', server_inv config_ n None s' ->
     (forall id, id ∈ ids \/ conns s !! id = None -> conns s' !! id = None) -> Q tt s') ->
  wp (close_all ids) Q s.
Proof.
  revert Q s. induction ids as [|id ids IH]; intros Q s I HQ.
  - apply wp_ret, HQ; [done|]. by intros id [Hid%elem_of_nil|Hid].
  - apply wp_bind, (wp_close_connection config_ n None); [done|by left|]. intros s1 I1 [O1 _] N1 _.
    apply IH; [done|]. intros s2 I2 N2. apply HQ; [done|]. intros j Hj. apply N2.
    destruct (decide (j = id)) as [->|Hne]; [by right|].
    destruct Hj as [[Hj|Hj]%elem_of_cons|Hj]; [done|by left|right]. by destruct (O1 j Hne) as (-> & _).
Qed.

(** Stopping closes every connection: no entry, no open client descriptor. *)
Lemma stop_closes_all n s :
  server_inv config_ n None s ->
  let s' := (stop_connections s).2 in
  (forall id, conns s' !! id = None) /\ (forall fd, by_fd s' !! fd = None) /\
  sys_open (srv_system s') = ∅.
Proof.
  intros I. cbv zeta.
  apply (wp_bind (reactor _) close_all (fun _ s' => (forall id, conns s' !! id = None) /\
    (forall fd, by_fd s' !! fd = None) /\ sys_open (srv_system s') = ∅)).
  apply wp_reactor, (wp_close_all n); [done|]. intros s' I' N'.
  assert (Hc : forall id, conns s' !! id = None).
  { intros id. apply N'. destruct (conns s !! id) as [c|] eqn:E; [left|by right].
    apply list_elem_of_In, in_map_iff. exists (id, c). split; [done|].
    by apply list_elem_of_In, elem_of_map_to_list. }
  assert (Hf : forall fd, by_fd s' !! fd = None).
  { intros fd. destruct (by_fd s' !! fd) as [id|] eqn:E; [|done].
    destruct (inv_by_fd config_ n None s' fd id I' E) as (c & Hcc & _). by rewrite Hc in Hcc. }
  split; [done|]. split; [done|]. apply set_eq. intros fd.
  rewrite (net_open _ _ _ (proj1 I')), Hf. split; [by intros [? ?]|set_solver].
Qed.

(** ** A kernel that takes everything at once *)

(** Every [send_all] sends all its data. *)
Definition prompt_kernel : Prop :=
  forall i fd data, exists rest,
    send_all (send_answers i fd data) data = Some (mkSendResult SendOk (bsize data) 0, rest).

(** A response that closes nothing by itself. *)
Definition plain_response (r : QueuedResponse) : bool :=
  payload_ok (qr_data r) && negb (qr_close_after_send r).

Lemma wp_send_prompt n id c data (Q : bool -> Server -> Prop) s :
  prompt_kernel -> server_inv config_ n None s -> conns s !! id = Some c ->
  conn_write_buffer c = [] -> payload_ok data = true ->
  (forall s', server_inv config_ n None s' -> only id s s' -> srv_reactor s' = srv_reactor s ->
     sent_to id s' = sent_to id s ++ frame data -> Q true s') ->
  wp (send_to_client config_ c data) Q s.
Proof.
  intros Hk I Hc Hw Hp HQ. destruct (inv_found config_ n None s id c I Hc) as (Hcid & _ & Hid).
  pose proof (inv_good config_ n s id c I Hc) as G. unfold send_to_client. rewrite encode_packet_frame, Hw, Hcid by done.
  rewrite bool_decide_eq_true_2 by done. cbn [negb]. cbv zeta.
  apply wp_bind, (wp_sys_send_all config_ n None); [done|by left|done|].
  intros r s1 (i & rest & Er) _ _ I1 O1 R1 M1 S1 A1.
  destruct (Hk i (conn_fd c) (frame data)) as [rest' Er']. rewrite Er' in Er. injection Er as <- _.
  cbn [send_status send_sent] in *. rewrite take_whole in S1 by done.
  apply wp_bind, (wp_note_whole config_ n id c data _ s); try done; [by rewrite R1|].
  intros s2 I2 O2 R2 S2 A2. apply wp_ret, HQ; [done|by transitivity s1|congruence|].
  by rewrite S2.
Qed.

Lemma deliver_response_prompt n r (Q : unit -> Server -> Prop) s :
  prompt_kernel -> plain_response r = true -> server_inv config_ n None s ->
  (forall id c, conns s !! id = Some c -> conn_write_buffer c = []) ->
  (forall s', server_inv config_ n None s' -> srv_reactor s' = srv_reactor s ->
     srv_queues s' = srv_queues s ->
     (forall id c, conns s !! id = Some c ->
        sent_to id s' = sent_to id s ++ concat (map frame (payloads_for id (conn_generation c) [r]))) ->
     Q tt s') ->
  wp (deliver_response config_ r) Q s.
Proof.
  intros Hk [Hp Hcl%negb_true_iff]%andb_prop I Hw HQ. set (j := qr_connection_id r).
  assert (Hnone : (forall id c, conns s !! id = Some c -> payloads_for id (conn_generation c) [r] = []) ->
    Q tt s).
  { intros He. apply HQ; [done|done|done|]. intros id c Hc. rewrite (He id c Hc). by rewrite app_nil_r. }
  apply wp_bind, wp_reactor, wp_bind, wp_reactor. fold j. unfold find_connection.
  destruct (conns s !! j) as [c|] eqn:Ec.
  2:{ apply wp_ret, Hnone. intros id c Hc. apply payloads_for_other. fold j. congruence. }
  assert (Hpf : payloads_for j (conn_generation c) [r] =
    if is_current_connection j (qr_generation r) (srv_reactor s) then [qr_data r] else []).
  { unfold payloads_for, is_current_connection. rewrite Ec. simpl. unfold meant_for. fold j.
    rewrite N.eqb_refl. simpl. by case_if. }
  destruct (is_current_connection j (qr_generation r) (srv_reactor s)); cbn [negb].
  2:{ apply wp_ret, Hnone. intros id c' Hc'. destruct (decide (id = j)) as [->|Hne].
      - by replace c' with c by congruence.
      - by apply payloads_for_other. }
  apply wp_bind, (wp_send_prompt n j); [done|done|done|by apply (Hw j)|done|].
  intros s1 I1 O1 R1 S1. cbn [negb]. rewrite Hcl.
  apply wp_ret, HQ; [done|done|destruct O1 as [_ O1]; unfold outside in O1; congruence|].
  intros id c' Hc'. destruct (decide (id = j)) as [->|Hne].
  - replace c' with c by congruence. rewrite Hpf, S1. simpl. by rewrite app_nil_r.
  - rewrite payloads_for_other by done. destruct O1 as [O1 _]. destruct (O1 id Hne) as (_ & -> & _).
    by rewrite app_nil_r.
Qed.

Lemma deliver_responses_prompt n pending (Q : unit -> Server -> Prop) s :
  prompt_kernel -> forallb plain_response pending = true -> server_inv config_ n None s ->
  (forall id c, conns s !! id = Some c -> conn_write_buffer c = []) ->
  (forall s', server_inv config_ n None s' -> srv_reactor s' = srv_reactor s ->
     srv_queues s' = srv_queues s ->
     (forall id c, conns s !! id = Some c ->
        sent_to id s' = sent_to id s ++ concat (map frame (payloads_for id (conn_generation c) pending))) ->
     Q tt s') ->
  wp (deliver_responses config_ pending) Q s.
Proof.
  intros Hk. revert Q s. induction pending as [|r pending IH]; intros Q s Hp I Hw HQ.
  - apply wp_ret, HQ; [done|done|done|]. intros id c _. by rewrite app_nil_r.
  - apply andb_prop in Hp as [Hr Hp].
    apply wp_bind, (deliver_response_prompt n); [done|done|done|done|]. intros s1 I1 R1 Q1 S1.
    apply IH; [done|done|by rewrite R1|]. intros s2 I2 R2 Q2 S2. rewrite R1 in S2.
    apply HQ; [done|congruence|congruence|]. intros id c Hc. rewrite (S2 id c Hc), (S1 id c Hc).
    unfold payloads_for. rewrite <- app_assoc, <- concat_app, <- map_app, <- map_app,
      <- List.filter_app. done.
Qed.

(** C36: Nothing is held back or dropped when the kernel keeps up: if it takes
    every write whole, no connection has output pending, no close is queued and
    no queued response asks for a close or is longer than a frame may be, then a
    drain closes no connection, and each one's socket gets at once the frames of
    all the responses queued for it. *)
Theorem responses_sent_at_once chat n s :
  service_ok 0 chat -> reachable config_ chat n s -> prompt_kernel ->
  (forall id c, conns s !! id = Some c -> conn_write_buffer c = []) ->
  close_queue_ (srv_queues s) = [] ->
  forallb plain_response (response_queue_ (srv_queues s)) = true ->
  let s' := (drain_responses config_ s).2 in
  srv_reactor s' = srv_reactor s /\
  forall id c, conns s !! id = Some c ->
    sent_to id s' = sent_to id s ++
      concat (map frame (payloads_for id (conn_generation c) (response_queue_ (srv_queues s)))).
Proof.
  intros K R Hk Hw Hc Hp. destruct (reachable_inv config_ chat n s K R) as (I & _). cbv zeta.
  match goal with |- ?A /\ ?B => enough (E : wp (drain_responses config_)
    (fun _ s' => srv_reactor s' = srv_reactor s /\ forall id c, conns s !! id = Some c ->
      sent_to id s' = sent_to id s ++
        concat (map frame (payloads_for id (conn_generation c) (response_queue_ (srv_queues s))))) s)
    by exact E end.
  apply wp_bind. unfold drain_close_requests at 1. apply wp_bind. unfold wp at 1. simpl. rewrite Hc.
  apply wp_ret. apply wp_bind. unfold wp at 1. simpl. apply wp_bind.
  set (s1 := mkServer (srv_reactor s) (mkQueues [] []) (srv_pool s) (srv_busy s) (srv_chat s)
    (srv_system s)).
  assert (I1 : server_inv config_ n None s1)
    by (apply (with_queues_inv config_ n None (mkQueues [] [])); [done|simpl; lia]).
  apply (deliver_responses_prompt n); [done|done|done|done|]. intros s2 I2 R2 Q2 S2.
  apply wp_bind. unfold wp at 1. simpl. rewrite Q2. simpl. apply wp_ret. simpl. by rewrite R2.
Qed.
End theorems.

(** ** A sample run *)

#[local] Existing Instance toy_openssl.
#[local] Existing Instance toy_openssl_spec.

(** A kernel whose second write takes five bytes and then blocks. *)
#[local] Instance sample_kernel : Kernel := {
  send_answers i _ data :=
    if (i =? 1) && (5 <=? bsize data) then
      [mkSendAnswer 5 0; mkSendAnswer (-1) EAGAIN]
    else [mkSendAnswer (Z.of_N (bsize data)) 0];
  epoll_modify _ _ _ := None;
  strerror _ := bs "error";
}.

Lemma send_whole (data : bytes) :
  send_all [mkSendAnswer (Z.of_N (bsize data)) 0] data = Some (mkSendResult SendOk (bsize data) 0,
    if 0 <? bsize data then [] else [mkSendAnswer (Z.of_N (bsize data)) 0]).
Proof.
  unfold send_all. cbn [send_loop bytes_sent]. destruct (0 <? bsize data) eqn:E.
  - replace (0 <? Z.of_N (bsize data))%Z with true by lia.
    rewrite N2Z.id, N.add_0_l, N.ltb_irrefl. done.
  - by replace (bsize data) with 0 by lia.
Qed.

Lemma send_whole_within (data : bytes) :
  sends_within [mkSendAnswer (Z.of_N (bsize data)) 0] (bsize data) 0 = true.
Proof. cbn [sends_within bytes_sent]. rewrite N2Z.id. case_if; [|done]. rewrite andb_true_r. lia. Qed.

#[local] Instance sample_kernel_spec : KernelSpec.
Proof.
  split; intros i fd data; unfold send_answers; simpl; case_if.
  - apply andb_prop in E as [_ E]. unfold send_all. cbn [send_loop bytes_sent send_errno].
    replace (0 <? bsize data) with true by lia. cbn [Z.ltb Z.compare Pos.compare Z.to_N N.add].
    change (0 <? 5)%Z with true. simpl. case_if; by eexists.
  - rewrite send_whole. by eexists.
  - apply andb_prop in E as [_ E]. simpl. rewrite andb_true_r. lia.
  - apply send_whole_within.
Qed.

(** A kernel that takes every write whole. *)
Definition whole_kernel : Kernel := {|
  send_answers _ _ data := [mkSendAnswer (Z.of_N (bsize data)) 0];
  epoll_modify _ _ _ := None;
  strerror _ := bs "error";
|}.

Lemma whole_kernel_spec : @KernelSpec whole_kernel.
Proof.
  split; intros i fd data; simpl; [rewrite send_whole; by eexists|apply send_whole_within].
Qed.

Lemma whole_kernel_prompt : @prompt_kernel whole_kernel.
Proof. intros i fd data. simpl. rewrite send_whole. by eexists. Qed.

Section histories.
Context `{StorageSpec} `{KernelSpec} (config_ : ServerConfig).

(** Whether the kernel can report the events one after the other. *)
Fixpoint events_possible (events : list server_event) (s : Server) : bool :=
  match events with
  | [] => true
  | e :: events =>
      event_possible e s && events_possible events (run_server_event config_ e s).2
  end.

Definition events_cost (events : list server_event) : N :=
  foldr (fun e n => event_cost e + n) 0 events.

Lemma reachable_run chat n s events :
  reachable config_ chat n s -> events_possible events s = true -> room (n + events_cost events) ->
  reachable config_ chat (n + events_cost events) (run_server config_ events s).2.
Proof.
  revert n s. induction events as [|e events IH]; intros n s R V L; simpl in *.
  - by rewrite N.add_0_r.
  - apply andb_prop in V as [V1 V2]. unfold mbind, ST_bind.
    destruct (run_server_event config_ e s) as [[] s1] eqn:E. rewrite N.add_assoc.
    apply IH; [|done|by rewrite <- N.add_assoc].
    replace s1 with (run_server_event config_ e s).2 by by rewrite E.
    constructor; [done|done|]. unfold room in *. lia.
Qed.

(** The invariant with the bound on the id counters. *)
Definition live (n : N) (s : Server) : Prop :=
  server_inv config_ n None s /\ next_connection_id_ (srv_reactor s) <= n + 1 /\
  next_generation_ (srv_reactor s) <= n + 1.

Lemma live_events n s events :
  live n s -> events_possible events s = true -> room (n + events_cost events) ->
  live (n + events_cost events) (run_server config_ events s).2.
Proof.
  revert n s. induction events as [|e events IH]; intros n s L V R; simpl in *; [by rewrite N.add_0_r|].
  apply andb_prop in V as [V1 V2]. destruct L as (I & N1 & N2). rewrite N.add_assoc in *. unfold room in *.
  assert (L1 : live (n + event_cost e) (run_server_event config_ e s).2).
  { apply (wp_server_event config_ n e (fun _ s' => live (n + event_cost e) s') s I V1);
      [split; lia|unfold room; lia|].
    intros s' I' [C1 C2]. split; [done|lia]. }
  unfold mbind, ST_bind. destruct (run_server_event config_ e s) as [[] s1]. by apply IH.
Qed.
End histories.

Definition arrives (fd : Z) (requests : list Request) : server_event :=
  EvReady (ReadyClient fd false true false
    [Received (concat (map (fun r => frame (encode_request r)) requests)); RecvFailed EAGAIN]) 100.

(** Alice connects, registers and logs in. *)
Definition sample_start : list server_event := [
  EvReady (ReadyListen [Accepted 7 "10.0.0.1:4000" None; AcceptFailed EAGAIN]) 90;
  arrives 7 [ReqRegister "alice" "secret"]; EvTake; EvPacket 0; EvPacket 0;
  EvReady ReadyWake 100; EvTurnEnd].

Definition sample_login : list server_event :=
  [arrives 7 [ReqLogin "alice" "secret"]; EvTake].

Definition run_sample `{Kernel} (events : list server_event) : Server :=
  (run_server default_config events (server_start default_config (chat_start tt))).2.


Lemma run_sample_reachable `{KernelSpec} (events : list server_event) (n : N) :
  n = events_cost events -> room n ->
  events_possible default_config events (server_start default_config (chat_start tt)) = true ->
  reachable default_config (chat_start tt) n (run_sample events).
Proof.
  intros -> R V. rewrite <- (N.add_0_l (events_cost events)).
  apply (reachable_run default_config); [constructor|done|by rewrite N.add_0_l].
Qed.

(** The reply to the registration is waiting in the queue. *)
Definition sample_pending : list server_event := take 4 sample_start.

(** The login has been answered, and the kernel took five bytes of it. *)
Definition sample_blocked : list server_event :=
  sample_start ++ sample_login ++ [EvPacket 0; EvTurnEnd].

Lemma pending_reachable `{KernelSpec} :
  events_possible default_config sample_pending (server_start default_config (chat_start tt)) = true ->
  reachable default_config (chat_start tt) 3 (run_sample sample_pending).
Proof. intros V. by apply run_sample_reachable. Qed.

Lemma blocked_reachable : reachable default_config (chat_start tt) 5 (run_sample sample_blocked).
Proof. apply run_sample_reachable; vm_compute; reflexivity. Qed.

Definition blocked_reply : bytes := format_login_success 1 "alice".

Definition blocked_connection : ConnectionState :=
  mkConnectionState 1 7 [] (drop 5 (frame blocked_reply)) 100 false 1.

Lemma blocked_lookup :
  connections_ (srv_reactor (run_sample sample_blocked)) !! 1 = Some blocked_connection.
Proof. vm_compute. reflexivity. Qed.

(** The closing event, then the worker's login, then a new connection on which
    Alice tries again. *)
Definition sample_orphan : list server_event :=
  sample_start ++ sample_login ++
  [EvReady (ReadyClient 7 true false false [Received []]) 101; EvPacket 0; EvPacket 0; EvTurnEnd].

Definition sample_retry : list server_event := [
  EvReady (ReadyListen [Accepted 7 "10.0.0.1:4001" None; AcceptFailed EAGAIN]) 110;
  arrives 7 [ReqLogin "alice" "secret"]; EvTake; EvPacket 0; EvTurnEnd].

(** ** Witnesses *)

Abbreviation sample_chat := (chat_start tt).

Lemma client_reads_responses_witness :
  let s := run_sample sample_blocked in
  sent_to 1 s ++ conn_write_buffer blocked_connection = concat (map frame (accepted_for 1 s)) /\
  exists (read : list Packet) (left : bytes) (later : list Packet),
    decode kMaxPacketPayloadSize (sent_to 1 s) = (false, read, left) /\
    map mkPacket (accepted_for 1 s) = read ++ later /\
    (conn_write_buffer blocked_connection = [] -> later = [] /\ left = []).
Proof.
  exact (client_reads_responses default_config sample_chat 5 _ 1 blocked_connection
    (chat_start_ok tt) blocked_reachable blocked_lookup).
Defined.

Lemma server_bounds_witness :
  let s := run_sample sample_blocked in
  (forall id c, connections_ (srv_reactor s) !! id = Some c ->
     bsize (conn_write_buffer c) <= size_of_int (max_write_buffer_bytes default_config) /\
     bsize (conn_read_buffer c) <= size_of_int (max_read_buffer_bytes default_config) /\
     bsize (conn_read_buffer c) <= kPacketHeaderSize + kMaxPacketPayloadSize) /\
  N.of_nat (length (response_queue_ (srv_queues s))) <=
    size_of_int (max_response_queue_size default_config) /\
  queued_tasks (srv_pool s) <= max_queue_size_ (srv_pool s).
Proof.
  exact (server_bounds default_config sample_chat 5 _ (chat_start_ok tt) blocked_reachable).
Defined.

Lemma descriptors_tracked_witness :
  let s := run_sample sample_blocked in
  (forall fd id, connection_by_fd_ (srv_reactor s) !! fd = Some id <->
     exists c, connections_ (srv_reactor s) !! id = Some c /\ conn_fd c = fd) /\
  (forall fd, fd ∈ sys_open (srv_system s) <-> is_Some (connection_by_fd_ (srv_reactor s) !! fd)) /\
  forall id c, connections_ (srv_reactor s) !! id = Some c ->
    conn_connection_id c = id /\
    sys_write_mode (srv_system s) !! conn_fd c =
      Some (negb (bool_decide (conn_write_buffer c = []))) /\
    (conn_closing c = true -> conn_write_buffer c <> []).
Proof.
  exact (descriptors_tracked default_config sample_chat 5 _ (chat_start_ok tt) blocked_reachable).
Defined.

(** Alice's reply is queued, and her connection is live. *)
Definition fresh_connection : ConnectionState := mkConnectionState 1 7 [] [] 100 false 1.

Lemma pending_lookup :
  connections_ (srv_reactor (run_sample sample_pending)) !! 1 = Some fresh_connection.
Proof. vm_compute. reflexivity. Qed.

Lemma pending_run : reachable default_config sample_chat 3 (run_sample sample_pending).
Proof. apply pending_reachable. vm_compute. reflexivity. Qed.

Lemma drain_delivers_witness :
  let s := run_sample sample_pending in
  let s' := (drain_responses default_config s).2 in
  let pending := response_queue_ (srv_queues s) in
  srv_queues s' = mkQueues [] [] /\
  (forall q, q ∈ close_queue_ (srv_queues s) ->
     is_current_connection (qc_connection_id q) (qc_generation q) (srv_reactor s') = false) /\
  forall id c', connections_ (srv_reactor s') !! id = Some c' ->
    exists c, connections_ (srv_reactor s) !! id = Some c /\
      conn_generation c' = conn_generation c /\
      accepted_for id s' = accepted_for id s ++ payloads_for id (conn_generation c) pending.
Proof.
  exact (drain_delivers default_config sample_chat 3 _ (chat_start_ok tt) pending_run).
Defined.

(** In fact the queue holds the reply to the registration. *)
Example pending_queue :
  response_queue_ (srv_queues (run_sample sample_pending)) =
    [mkQueuedResponse 1 1 (format_register_success 1) false].
Proof. vm_compute. reflexivity. Qed.

Lemma heartbeat_closes_idle_witness :
  let s := run_sample sample_blocked in
  let s' := (check_heartbeats default_config 200 s).2 in
  (forall id, connections_ (srv_reactor s') !! id =
     c ← connections_ (srv_reactor s) !! id;
     if (heartbeat_timeout_seconds default_config <? 200 - conn_last_active_at c)%Z
     then None else Some c) /\
  forall id c, connections_ (srv_reactor s') !! id = Some c -> accepted_for id s' = accepted_for id s.
Proof.
  exact (heartbeat_closes_idle default_config sample_chat 5 _ 200 (chat_start_ok tt)
    blocked_reachable).
Defined.

Lemma request_answered_witness :
  let s := run_sample sample_pending in
  let payload := encode_request (ReqLogin "alice" "secret") in
  let out := (handle_client_line 1 payload (srv_chat s)).1 in
  let q := response_queue_ (srv_queues s) in
  let s' := (process_packet_async default_config 1 1 payload;; drain_responses default_config) s in
  if size_of_int (max_response_queue_size default_config) <?
     N.of_nat (length q) + N.of_nat (length out)
  then is_current_connection 1 1 (srv_reactor s'.2) = false
  else forall j c', connections_ (srv_reactor s'.2) !! j = Some c' ->
    accepted_for j s'.2 = accepted_for j s ++ payloads_for j (conn_generation c') q ++
      map out_data (List.filter (fun m => out_connection_id m =? j) out).
Proof.
  refine (request_answered default_config sample_chat 3 _ 1 fresh_connection
    (encode_request (ReqLogin "alice" "secret")) (chat_start_ok tt) pending_run _ pending_lookup).
  reflexivity.
Defined.

(** A request, and the beginning of another. *)
Definition sample_data : bytes :=
  frame (encode_request (ReqLogin "alice" "secret")) ++ take 3 (frame "next").
Definition sample_socket : list recv_answer := [Received sample_data; RecvFailed EAGAIN].

Lemma sample_drained : drained sample_socket = Some sample_data.
Proof. vm_compute. reflexivity. Qed.

Lemma pending_by_fd :
  connection_by_fd_ (srv_reactor (run_sample sample_pending)) !! 7%Z = Some 1.
Proof. vm_compute. reflexivity. Qed.

Lemma packets_submitted_witness :
  let s := run_sample sample_pending in
  let s' := (handle_client_read default_config 7 sample_socket 120 s).2 in
  (connections_ (srv_reactor s') !! 1, srv_pool s') =
    read_spec default_config fresh_connection sample_data 120 (srv_pool s).
Proof.
  exact (packets_submitted default_config sample_chat 3 (run_sample sample_pending) 7 1
    fresh_connection sample_socket sample_data 120 (chat_start_ok tt) pending_run pending_by_fd
    pending_lookup eq_refl sample_drained).
Defined.

Lemma connection_released_witness :
  let s := run_sample sample_blocked in
  let s' := (close_connection 1 s).2 in
  connections_ (srv_reactor s') !! 1 = None /\
  connection_by_fd_ (srv_reactor s') !! 7%Z = None /\
  (7%Z ∉ sys_open (srv_system s')) /\
  find_by_connection 1 (st_sessions (srv_chat s')) = None /\
  (forall j, j <> 1 -> connections_ (srv_reactor s') !! j = connections_ (srv_reactor s) !! j) /\
  srv_queues s' = srv_queues s /\ srv_pool s' = srv_pool s.
Proof.
  exact (connection_released default_config sample_chat 5 _ 1 blocked_connection (chat_start_ok tt)
    blocked_reachable blocked_lookup).
Defined.

Lemma whole_pending_run :
  @reachable _ whole_kernel default_config sample_chat 3 (@run_sample whole_kernel sample_pending).
Proof. apply (@pending_reachable whole_kernel whole_kernel_spec). vm_compute. reflexivity. Qed.

Lemma whole_pending_buffers id c :
  connections_ (srv_reactor (@run_sample whole_kernel sample_pending)) !! id = Some c ->
  conn_write_buffer c = [].
Proof.
  assert (E : connections_ (srv_reactor (@run_sample whole_kernel sample_pending)) =
    {[1 := fresh_connection]}) by (vm_compute; reflexivity).
  rewrite E. intros [_ <-]%lookup_singleton_Some. done.
Qed.

Lemma responses_sent_at_once_witness :
  let s := @run_sample whole_kernel sample_pending in
  let s' := (@drain_responses _ whole_kernel default_config s).2 in
  srv_reactor s' = srv_reactor s /\
  forall id c, connections_ (srv_reactor s) !! id = Some c ->
    sent_to id s' = sent_to id s ++
      concat (map frame (payloads_for id (conn_generation c) (response_queue_ (srv_queues s)))).
Proof.
  refine (@responses_sent_at_once _ _ _ whole_kernel whole_kernel_spec default_config sample_chat 3
    _ (chat_start_ok tt) whole_pending_run whole_kernel_prompt whole_pending_buffers _ _);
    vm_compute; reflexivity.
Defined.
