(* ===== verification/Orphans.v ===== *)
(** * Orphans: sessions whose connection is gone

    [process_packet_async] does not ask whether its connection is still there,
    and only [handle_disconnect] ends the session of a connection that closes.
    A session bound to a connection that has been closed before is therefore an
    orphan: here it is shown that no later event of the server ends it, whatever
    clients, kernel and workers do.  The events that work for connections are
    walked through handler by handler; the one that speaks to the service is
    covered by the specification of a client line. *)

From S2P Require Import Prelude.
From S2P Require Import CStd.
From S2P Require Import Json.
From S2P Require Import Message.
From S2P Require Import PacketCodec.
From S2P Require Import ServerConfig.
From S2P Require Import ThreadPool.
From S2P Require Import SessionManager.
From S2P Require Import UserStore.
From S2P Require Import Storage.
From S2P Require Import ChatService.
From S2P Require Import ChatSpec.
From S2P Require Import ChatTheorems.
From S2P Require Import TcpServer.
From S2P Require Import TcpSpec.
From S2P Require Import TcpTheorems.
Open Scope N_scope.

Abbreviation conns s := (connections_ (srv_reactor s)).
Abbreviation sessions s := (st_sessions (srv_chat s)).

(** ** The session table *)
Lemma unbind_other_connection (c k : N) (s : Session) (m : SessionManager) :
  linked m -> c <> k -> find_by_connection k m = Some s ->
  find_by_connection k (unbind_connection c m) = Some s.
Proof.
  intros L Hne. rewrite !find_by_connection_spec by eauto using linked_unbind_connection.
  intros [Hs Ek]. split; [|done]. rewrite sessions_unbind_connection by done.
  unfold spec_drop_connection. apply map_lookup_filter_Some. split; [done|]. simpl. congruence.
Qed.

Section lines.
Context `{StorageSpec}.

(** A line read on another connection leaves the session alone: nobody can log
    in to its account, and a logout ends the sender's own. *)
Lemma service_step_other n c k s st st' :
  service_ok n st -> service_step c st st' -> c <> k ->
  find_by_connection k (st_sessions st) = Some s ->
  find_by_connection k (st_sessions st') = Some s.
Proof.
  intros K Hstep Hne Hk. pose proof (ok_linked n st K) as L.
  destruct Hstep as [Hm _|u p i _ Hm _ _ _ _ _ _ _|u p i _ Ho _ Ha Hm _|t _ Hm _
                    |t g _ Hm _ _ _|t g _ Hm _ _ _|t m _ Hm _ _ _ _]; rewrite Hm; try done.
  - rewrite find_by_connection_spec by (by apply linked_bind).
    apply find_by_connection_spec in Hk as [Hs Ek]; [|done]. split; [|done].
    rewrite sessions_bind by done. rewrite bool_decide_eq_false_2.
    + rewrite Hs, bool_decide_eq_false_2; [done|]. simpl. congruence.
    + simpl. intros Ei. apply (not_online_free _ _ _ _ (ok_named n st K) Ho Hs).
      apply (account_inj n (st_world st) _ _ i (ok_storage n st K)); [|done].
      rewrite <- Ei. by apply (ok_accounts n st K).
  - by apply unbind_other_connection.
  - rewrite find_by_connection_spec by (by apply linked_leave).
    apply find_by_connection_spec in Hk as [Hs Ek]; [|done].
    by destruct (leave_group_tables g (session_user_id t) (st_sessions st)) as [-> _].
Qed.
End lines.

(** ** The handlers that close connections *)

Section walk.
Context `{Storage} `{Kernel} (config_ : ServerConfig) (k : N) (sess : Session).

(** The connection is gone, the session is there. *)
Record bereft (s : Server) : Prop := {
  bereft_conn : conns s !! k = None;
  bereft_linked : linked (sessions s);
  bereft_session : find_by_connection k (sessions s) = Some sess;
}.

Definition leaves {A} (m : ST Server A) : Prop := forall s, bereft s -> bereft (m s).2.

Lemma leaves_ret {A} (a : A) : leaves (mret a).
Proof. by intros s. Qed.

Lemma leaves_bind {A B} (m : ST Server A) (f : A -> ST Server B) :
  leaves m -> (forall a, leaves (f a)) -> leaves (m ≫= f).
Proof.
  intros Hm Hf s Hs. unfold mbind, ST_bind. specialize (Hm s Hs).
  destruct (m s) as [a s1]. by apply Hf.
Qed.

Lemma leaves_parts {A} (m : ST Server A) :
  (forall s, srv_reactor (m s).2 = srv_reactor s /\ sessions (m s).2 = sessions s) -> leaves m.
Proof. intros E s [? ? ?]. destruct (E s) as [E1 E2]. split; by rewrite ?E1, ?E2. Qed.

Lemma leaves_system {A} (f : System -> A * System) : leaves (on_system f).
Proof. apply leaves_parts. intros s. unfold on_system. by destruct (f _). Qed.

Lemma leaves_queues {A} (f : Queues -> A * Queues) : leaves (on_queues f).
Proof. apply leaves_parts. intros s. unfold on_queues. by destruct (f _). Qed.

Lemma leaves_pool {A} (f : ThreadPool Task -> A * ThreadPool Task) : leaves (on_pool f).
Proof. apply leaves_parts. intros s. unfold on_pool. by destruct (f _). Qed.

Lemma leaves_update id f : leaves (update id f).
Proof.
  intros s [Hc Hl Hf]. split; [|done|done]. rewrite update_lookup.
  case_bool_decide; [subst; by rewrite Hc|done].
Qed.

(** Only connections that are there are closed. *)
Lemma leaves_close_connection id : leaves (close_connection id).
Proof.
  intros s [Hc Hl Hf]. unfold close_connection, mbind, ST_bind, reactor, find_connection. simpl.
  destruct (conns s !! id) as [c|] eqn:Ec; [|by split].
  assert (Hne : id <> k) by congruence. split; simpl.
  - by rewrite lookup_delete_ne.
  - by apply linked_unbind_connection.
  - by apply unbind_other_connection.
Qed.

(** One step into a handler. *)
Ltac leaving :=
  match goal with
  | |- leaves (mret _) => apply leaves_ret
  | |- leaves (close_connection _) => apply leaves_close_connection
  | |- leaves (update _ _) => apply leaves_update
  | |- leaves (reactor _) => by apply leaves_parts
  | |- leaves (on_queues _) => apply leaves_queues
  | |- leaves (on_pool _) => apply leaves_pool
  | |- leaves (on_system _) => apply leaves_system
  | |- leaves (TcpServer.info _) => by apply leaves_parts
  | |- leaves (TcpServer.warn _) => by apply leaves_parts
  | |- leaves (warn_overflow _ _ _) => by apply leaves_parts
  | |- leaves (_ ≫= _) => apply leaves_bind; [|intros ?]
  | |- leaves (let _ := _ in _) => cbv zeta
  | |- leaves (match ?x with _ => _ end) => destruct x
  end.

Lemma leaves_close_client fd : leaves (close_client fd).
Proof. unfold close_client, sys_close. repeat leaving. Qed.

Lemma leaves_write_mode fd b : leaves (set_write_mode fd b).
Proof. unfold set_write_mode. repeat leaving. Qed.

Lemma leaves_send_to_client c data : leaves (send_to_client config_ c data).
Proof. unfold send_to_client, sys_send_all, note_accepted. repeat first [apply leaves_write_mode|leaving]. Qed.

Lemma leaves_flush fd : leaves (flush_write_buffer fd).
Proof. unfold flush_write_buffer, sys_send_all. repeat first [apply leaves_write_mode|leaving]. Qed.

Lemma leaves_close_requests pending : leaves (close_requests pending).
Proof. induction pending as [|q pending IH]; cbn [close_requests]; repeat first [apply IH|leaving]. Qed.

Lemma leaves_deliver_responses pending : leaves (deliver_responses config_ pending).
Proof.
  induction pending as [|q pending IH]; cbn [deliver_responses]; unfold deliver_response;
    repeat first [apply IH|apply leaves_send_to_client|leaving].
Qed.

Lemma leaves_drain : leaves (drain_responses config_).
Proof.
  unfold drain_responses, drain_close_requests.
  repeat first [apply leaves_close_requests|apply leaves_deliver_responses|leaving].
Qed.

Lemma leaves_client_read fd socket now : leaves (handle_client_read config_ fd socket now).
Proof. unfold handle_client_read. repeat first [apply leaves_close_client|leaving]. Qed.

Lemma leaves_heartbeats now : leaves (check_heartbeats config_ now).
Proof.
  unfold check_heartbeats. apply leaves_bind; [by apply leaves_parts|]. intros ids.
  induction ids as [|i ids IH]; cbn [close_timed_out]; repeat first [apply IH|leaving].
Qed.

(** New connections do not touch the sessions. *)
Lemma accept_sessions answers now s : sessions (accept_connections answers now s).2 = sessions s.
Proof.
  revert s. induction answers as [|[fd peer [e|]|e] answers IH]; intros s; cbn [accept_connections];
    [done| | |by destruct (_ || _)]; unfold mbind, ST_bind; simpl; by rewrite IH.
Qed.
End walk.

(** ** Every event *)

Section events.
Context `{StorageSpec} `{KernelSpec} (config_ : ServerConfig) (k : N) (sess : Session).

(** No task for the connection is queued or being worked on. *)
Definition no_task (s : Server) : Prop :=
  Forall (fun task => task_connection_id task <> k) (tasks_ (srv_pool s) ++ srv_busy s).

Record orphaned (s : Server) : Prop := {
  orphan_bereft : bereft k sess s;
  orphan_old : k < next_connection_id_ (srv_reactor s);
  orphan_tasks : no_task s;
}.

(** What does not change here: the ids in use, the tasks. *)
Definition quiet (s s' : Server) : Prop :=
  srv_pool s' = srv_pool s /\ srv_busy s' = srv_busy s /\
  next_connection_id_ (srv_reactor s') = next_connection_id_ (srv_reactor s).

Lemma orphaned_quiet s s' : orphaned s -> bereft k sess s' -> quiet s s' -> orphaned s'.
Proof.
  intros [_ Ho Ht] Hb (Ep & Eb & En). split; [done|by rewrite En|]. unfold no_task. by rewrite Ep, Eb.
Qed.

Lemma survivors_quiet f s s' : survivors f s s' -> quiet s s'.
Proof. intros [O _]. unfold outside in O. injection O as _ Ep Eb En _. done. Qed.

Lemma drain_quiet n s : server_inv config_ n None s -> quiet s (drain_responses config_ s).2.
Proof.
  intros I. apply (wp_drain_responses config_ n (fun _ s' => quiet s s')); [done|].
  intros s' _ S%survivors_quiet _. exact S.
Qed.

Lemma flush_quiet n fd s : server_inv config_ n None s -> quiet s (flush_write_buffer fd s).2.
Proof.
  intros I. apply (wp_flush config_ n fd (fun _ s' => quiet s s')); [done|].
  intros s' _ S%survivors_quiet. exact S.
Qed.

Lemma heartbeats_quiet n now s : server_inv config_ n None s -> quiet s (check_heartbeats config_ now s).2.
Proof.
  intros I. apply (wp_close_timed_out config_ n _ (fun _ s' => quiet s s')); [done|].
  intros s' _ S%survivors_quiet _ _. exact S.
Qed.

Lemma close_client_quiet n fd s : server_inv config_ n None s -> quiet s (close_client fd s).2.
Proof.
  intros I. destruct (connection_by_fd_ (srv_reactor s) !! fd) as [id|] eqn:Eid.
  - apply (wp_close_client config_ n None fd id (fun _ s' => quiet s s')); [done|done|by left|].
    intros s' _ [_ O] _. unfold outside in O. by injection O.
  - unfold close_client, mbind, ST_bind, reactor. by rewrite Eid.
Qed.

(** A read submits tasks of the connection it reads from. *)
Lemma client_read_orphaned n fd socket now s :
  server_inv config_ n None s -> orphaned s -> orphaned (handle_client_read config_ fd socket now s).2.
Proof.
  intros I Or. pose proof (leaves_client_read config_ k sess fd socket now s (orphan_bereft _ Or)) as Hb.
  assert (R : read_since fd s (handle_client_read config_ fd socket now s).2).
  { by apply (wp_client_read config_ n fd socket now (fun _ s' => read_since fd s s')). }
  revert Hb R. generalize (handle_client_read config_ fd socket now s).2. intros s' Hb [E Hp _].
  injection E as _ Eb En _. destruct Or as [B Ho Ht]. split; [done|by rewrite En|].
  destruct Hp as [Ep|(id & c & packets & _ & Hc & Ep)]; [unfold no_task; by rewrite Ep, Eb|].
  assert (Hne : id <> k) by (intros ->; by rewrite (bereft_conn _ _ _ B) in Hc).
  destruct (enqueue_cases (mkTask id (conn_generation c) packets) (srv_pool s)) as [[E _]|[E _]];
    rewrite E in Ep; [done|]. injection Ep as Ep. unfold no_task in *. rewrite <- Ep, Eb. simpl.
  rewrite Forall_app in Ht |- *. destruct Ht. rewrite Forall_app. auto.
Qed.

Lemma listen_orphaned n answers now s :
  server_inv config_ n None s -> event_possible (EvReady (ReadyListen answers) now) s = true ->
  ids_left (N.of_nat (length answers)) s -> orphaned s -> orphaned (accept_connections answers now s).2.
Proof.
  intros I V L [[Hc Hl Hs] Ho Ht].
  assert (T : accepted_since (N.of_nat (length answers)) s (accept_connections answers now s).2).
  { by apply (wp_accept config_ n answers now (N.of_nat (length answers))
      (fun _ s' => accepted_since (N.of_nat (length answers)) s s') s I V eq_refl L). }
  pose proof (accept_sessions answers now s) as Es. revert T Es.
  generalize (accept_connections answers now s).2. intros s' [E Hold _ _ Hn _] Es.
  injection E as _ Ep Eb. split; [split|lia|].
  - by rewrite Hold.
  - by rewrite Es.
  - by rewrite Es.
  - unfold no_task. by rewrite Ep, Eb.
Qed.

Lemma ready_orphaned n e now s :
  server_inv config_ n None s -> event_possible (EvReady e now) s = true ->
  ids_left (event_cost (EvReady e now)) s -> orphaned s -> orphaned (handle_ready config_ e now s).2.
Proof.
  intros I V L Or. destruct e as [answers| |fd err readable writable socket]; cbn [handle_ready].
  - by apply (listen_orphaned n).
  - unfold drain_wake_events, on_system, mbind, ST_bind. set (s1 := mkServer _ _ _ _ _ _).
    assert (I1 : server_inv config_ n None s1).
    { destruct I as [[A B C D F G W] P]. split; [|by destruct P]. split; try done.
      intros id c Hc Hb. destruct (G id c Hc Hb). by split. }
    assert (O1 : orphaned s1) by (destruct Or as [[? ? ?] ? ?]; by split).
    apply (orphaned_quiet s1); [done|apply leaves_drain, O1|by apply (drain_quiet n)].
  - destruct err.
    { apply (orphaned_quiet s); [done|apply leaves_close_client, Or|by apply (close_client_quiet n)]. }
    unfold mbind, ST_bind. set (m := if readable then _ else _).
    assert (Hm : server_inv config_ n None (m s).2 /\ orphaned (m s).2).
    { unfold m. destruct readable; [|done]. split; [|by apply (client_read_orphaned n)].
      by apply (wp_client_read config_ n fd socket now (fun _ s' => server_inv config_ n None s')). }
    destruct (m s) as [[] s1]. destruct Hm as [I1 O1], writable; [|done].
    apply (orphaned_quiet s1); [done|apply leaves_flush, O1|by apply (flush_quiet n)].
Qed.

Lemma take_orphaned s : orphaned s -> orphaned (worker_take s).2.
Proof.
  intros [[? ? ?] Ho Ht]. unfold worker_take, no_task in *.
  pose proof (worker_next_cases (srv_pool s)) as Hw.
  destruct (tasks_ (srv_pool s)) as [|task tasks] eqn:E; rewrite Hw.
  - destruct (stop_ _); split; try done; unfold no_task; simpl; by rewrite E.
  - split; [done|done|]. unfold no_task. simpl. rewrite app_assoc, Forall_app.
    inversion Ht as [|? ? Hk Hr]; subst. apply Forall_app in Hr as [? ?].
    split; [by apply Forall_app|by constructor].
Qed.

Lemma packet_orphaned n i s :
  server_inv config_ n None s -> room n -> orphaned s -> orphaned (worker_packet config_ i s).2.
Proof.
  intros I R Or. destruct Or as [[Hc Hl Hs] Ho Ht]. unfold worker_packet.
  destruct (srv_busy s !! i) as [task|] eqn:Ei; [|by split].
  apply Forall_app in Ht as [Ht Hb]. pose proof (Forall_lookup_1 _ _ _ _ Hb Ei) as Hne.
  destruct (task_packets task) as [|packet packets].
  - split; [done|done|]. unfold no_task. simpl. apply Forall_app. split; [done|]. by apply Forall_delete.
  - unfold on_busy, mbind, ST_bind. cbv zeta. set (s1 := mkServer _ _ _ _ _ _).
    assert (K : service_ok n (srv_chat s1)) by apply (parts_chat _ _ _ (proj2 I)).
    pose proof (process_packet_done config_ (task_connection_id task) (task_generation task)
      (payload packet) s1) as [Er [Ep Eb] _ _ [Es _] _].
    pose proof (handle_client_line_step n (task_connection_id task) (srv_chat s1) (payload packet) K R)
      as [Hstep Hn].
    split; [split|by rewrite Er|].
    + by rewrite Er.
    + rewrite Es. apply (ok_linked (n + 1)). by apply (service_step_ok n _ (task_connection_id task) (srv_chat s1)).
    + rewrite Es. by apply (service_step_other n (task_connection_id task) k sess (srv_chat s1)).
    + unfold no_task. rewrite Ep, Eb. apply Forall_app. split; [done|]. by apply Forall_insert.
Qed.

Lemma event_orphaned n e s :
  server_inv config_ n None s -> event_possible e s = true -> ids_left (event_cost e) s -> room n ->
  orphaned s -> orphaned (run_server_event config_ e s).2.
Proof.
  intros I V L R Or. destruct e as [event now| |now| |i]; cbn [run_server_event].
  - by apply (ready_orphaned n).
  - apply (orphaned_quiet s); [done|apply leaves_drain, Or|by apply (drain_quiet n)].
  - apply (orphaned_quiet s); [done|apply leaves_heartbeats, Or|by apply (heartbeats_quiet n)].
  - by apply take_orphaned.
  - by apply (packet_orphaned n).
Qed.

Lemma events_orphaned n s events :
  live config_ n s -> events_possible config_ events s = true -> room (n + events_cost events) ->
  orphaned s -> orphaned (run_server config_ events s).2.
Proof.
  revert n s. induction events as [|e events IH]; intros n s Li V R Or; [done|].
  cbn [events_possible events_cost foldr run_server] in *. apply andb_prop in V as [V1 V2].
  change (foldr _ 0 events) with (events_cost events) in R.
  assert (R1 : room (n + event_cost e)) by (unfold room in *; lia).
  assert (L1 : live config_ (n + event_cost e) (run_server_event config_ e s).2).
  { pose proof (live_events config_ n s [e] Li) as Hl. cbn in Hl. rewrite V1, N.add_0_r in Hl.
    unfold mbind, ST_bind in Hl. specialize (Hl eq_refl R1).
    by destruct (run_server_event config_ e s) as [[] s1]. }
  assert (O1 : orphaned (run_server_event config_ e s).2).
  { destruct Li as (I & N1 & N2). unfold room in *. apply (event_orphaned n); [done|done| |unfold room; lia|done].
    split; lia. }
  unfold mbind, ST_bind. destruct (run_server_event config_ e s) as [[] s1]. cbn [snd] in *.
  apply (IH (n + event_cost e)); [done|done| |done]. by rewrite <- N.add_assoc.
Qed.
End events.

(** ** The theorem *)

(** While a session is there, nobody logs in under its name. *)
Lemma login_refused `{StorageSpec} n k sess c line cmd e st :
  service_ok n st -> find_by_connection k (st_sessions st) = Some sess ->
  parse_client_command line default_command [] = (true, cmd, e) ->
  cmd_type cmd = Login -> cmd_username cmd = session_username sess ->
  find_by_connection c (st_sessions st) = None ->
  handle_client_line c line st = (reply c (format_login_failed "user already online"), st).
Proof.
  intros K Hk Hp Ht Hu Hc. unfold handle_client_line. rewrite Hp. unfold handle_command. rewrite Ht.
  unfold handle_login, mbind, ST_bind, sessions_get, mret, ST_ret. rewrite Hc.
  pose proof (ok_linked n st K) as L. pose proof (ok_named n st K) as M.
  apply find_by_connection_spec in Hk as [Hs _]; [|done].
  assert (Ho : is_username_online (cmd_username cmd) (st_sessions st) = true).
  { unfold is_username_online. by rewrite (proj2 (find_by_username_spec _ _ sess L M)). }
  by rewrite Ho.
Qed.

#[local] Existing Instance toy_openssl.
#[local] Existing Instance toy_openssl_spec.

Abbreviation orphan_run := (@run_sample sample_kernel sample_orphan).

(** C39: A login can outlive its connection, and then for good.  First, a
    reachable state: the client closes while a worker holds its login request,
    and the worker binds a session to the closed connection.  Second, whatever
    clients, kernel and workers do from such a state on (the connection gone,
    its id used, no task of it left, a session bound to it): the session is
    still there, and every login line under its user name, on any connection
    without a session, is refused as already online and changes nothing.  (The
    storage is any that keeps the contract of [Storage.v]; with a collation
    under which two spellings name one account there is a way out, the one of
    [ChatDb.spelling_takes_session].) *)
Theorem session_outlives_connection `{StorageSpec} `{KernelSpec} (config_ : ServerConfig) :
  (@reachable (@memory_storage toy_openssl) sample_kernel default_config (chat_start tt) 6 orphan_run /\
   conns orphan_run !! 1 = None /\ 1 < next_connection_id_ (srv_reactor orphan_run) /\
   srv_busy orphan_run = [] /\ tasks_ (srv_pool orphan_run) = [] /\
   srv_queues orphan_run = mkQueues [] [] /\
   find_by_connection 1 (sessions orphan_run) = Some (mkSession 1 1 "alice")) /\
  forall chat n s k sess events,
    service_ok 0 chat -> reachable config_ chat n s ->
    conns s !! k = None -> k < next_connection_id_ (srv_reactor s) -> no_task k s ->
    find_by_connection k (sessions s) = Some sess ->
    events_possible config_ events s = true -> room (n + events_cost events) ->
    let s' := (run_server config_ events s).2 in
    conns s' !! k = None /\ find_by_connection k (sessions s') = Some sess /\
    forall c line cmd e,
      parse_client_command line default_command [] = (true, cmd, e) ->
      cmd_type cmd = Login -> cmd_username cmd = session_username sess ->
      find_by_connection c (sessions s') = None ->
      handle_client_line c line (srv_chat s') =
        (reply c (format_login_failed "user already online"), srv_chat s').
Proof.
  split; [split; [apply (@run_sample_reachable sample_kernel sample_kernel_spec); vm_compute; reflexivity|];
          repeat split; vm_compute; reflexivity|].
  intros chat n s k sess events K R Hc Hk Ht Hs V L. cbv zeta.
  pose proof (reachable_inv config_ chat n s K R) as Li.
  assert (Or : orphaned k sess s).
  { split; [|done|done]. split; [done|apply (ok_linked n), (parts_chat _ _ _ (proj2 (proj1 Li)))|done]. }
  pose proof (events_orphaned config_ k sess n s events Li V L Or) as [[Hc' _ Hs'] _ _].
  destruct (live_events config_ n s events Li V L) as (I' & _).
  split; [done|]. split; [done|]. intros c line cmd e Hp Hty Hu Hfree.
  eapply login_refused; [apply (parts_chat _ _ _ (proj2 I'))|done..].
Qed.

(** From the sample state on: Alice tries again on a new connection. *)
Lemma session_outlives_connection_witness :
  let s' := (@run_server _ sample_kernel default_config sample_retry orphan_run).2 in
  find_by_connection 1 (sessions s') = Some (mkSession 1 1 "alice") /\
  @accepted_for (@memory_storage toy_openssl) 2 s' = [format_login_failed "user already online"].
Proof.
  cbv zeta. split; [|vm_compute; reflexivity].
  destruct (@session_outlives_connection (@memory_storage toy_openssl) memory_view _ sample_kernel
    sample_kernel_spec default_config) as [(R & Hc & Hn & Hb & Ht & _ & Hs) W].
  destruct (W (@chat_start toy_openssl tt) 6 orphan_run 1 (mkSession 1 1 "alice") sample_retry) as (_ & Hs' & _).
  - apply chat_start_ok.
  - exact R.
  - exact Hc.
  - exact Hn.
  - unfold no_task. rewrite Hb, Ht. constructor.
  - exact Hs.
  - vm_compute; reflexivity.
  - vm_compute; reflexivity.
  - exact Hs'.
Defined.
