(* ===== verification/ServerLife.v ===== *)
(** * ServerLife: from [start] to [stop]

    The rest of [src/src/network/tcp_server.cpp]: [setup_listener], the event
    loop around the handlers of [TcpServer.v], [start] and [stop].  The calls
    that set up the three descriptors of the server are the class [Sockets] on
    a state of their own, [Os]; what [epoll_wait] reports, and what the workers
    do meanwhile, is a script, as for the sockets. *)

From S2P Require Import Prelude.
From S2P Require Import CStd.
From S2P Require Import Message.
From S2P Require Import PacketCodec.
From S2P Require Import ServerConfig.
From S2P Require Import ThreadPool.
From S2P Require Import SessionManager.
From S2P Require Import UserStore.
From S2P Require Import Storage.
From S2P Require Import Log.
From S2P Require Import ChatService.
From S2P Require Import ChatSpec.
From S2P Require Import ChatTheorems.
From S2P Require Import TcpServer.
From S2P Require Import TcpSpec.
From S2P Require Import TcpTheorems.
Open Scope N_scope.

(** ** The calls *)

(** A call that returns a number, or -1 with [errno]. *)
Inductive Returned : Type :=
  | Got (value : Z)
  | Failed (errno : N).

Class Sockets : Type := {
  Os : Type;
  os_socket : ST Os Returned;
  (** [None], or the [errno] of a failure. *)
  os_reuse_address : Z -> ST Os (option N);
  inet_pton : bytes -> bool;
  os_bind : Z -> bytes -> N -> ST Os (option N);
  os_listen : Z -> N -> ST Os (option N);
  os_getfl : Z -> ST Os Returned;
  os_setfl : Z -> Z -> ST Os (option N);
  os_epoll_create : ST Os Returned;
  os_eventfd : ST Os Returned;
  (** [epoll_ctl(epoll, EPOLL_CTL_ADD, fd, EPOLLIN | EPOLLET)] *)
  os_epoll_add : Z -> Z -> ST Os (option N);
  os_close : Z -> ST Os unit;
}.

(** The descriptors that are open, what each epoll watches, who listens, and
    who does not block. *)
Class SocketsView `{Sockets} : Type := {
  os_open : Os -> gset Z;
  os_watched : Os -> gset (Z * Z);
  os_listening : Os -> gset Z;
  os_nonblocking : Os -> gset Z;
}.

(** [O_NONBLOCK] is bit 11 of the status flags. *)
Definition O_NONBLOCK : Z := 2048.

Record same_descriptors `{SocketsView} (o o' : Os) : Prop := {
  same_os_open : os_open o' = os_open o;
  same_watched : os_watched o' = os_watched o;
  same_listening : os_listening o' = os_listening o;
  same_nonblocking : os_nonblocking o' = os_nonblocking o;
}.

(** A call that opens a descriptor. *)
Definition opens `{SocketsView} (m : ST Os Returned) (o : Os) : Prop :=
  wp m (fun r o' => os_watched o' = os_watched o /\ os_listening o' = os_listening o /\
    os_nonblocking o' = os_nonblocking o /\
    match r with
    | Got fd => fd <> (-1)%Z /\ (fd ∉ os_open o) /\ os_open o' = ({[fd]} ∪ os_open o)
    | Failed _ => os_open o' = os_open o
    end) o.

(** The documented behaviour, on open descriptors. *)
Class SocketsSpec `{SocketsView} : Prop := {
  socket_opens o : opens os_socket o;
  epoll_create_opens o : opens os_epoll_create o;
  eventfd_opens o : opens os_eventfd o;
  reuse_address_law fd o : fd ∈ os_open o -> wp (os_reuse_address fd) (fun _ => same_descriptors o) o;
  bind_law fd host port o : fd ∈ os_open o -> wp (os_bind fd host port) (fun _ => same_descriptors o) o;
  listen_law fd backlog o : fd ∈ os_open o -> wp (os_listen fd backlog) (fun r o' =>
    os_open o' = os_open o /\ os_watched o' = os_watched o /\ os_nonblocking o' = os_nonblocking o /\
    os_listening o' = match r with None => {[fd]} ∪ os_listening o | Some _ => os_listening o end) o;
  getfl_law fd o : fd ∈ os_open o -> wp (os_getfl fd) (fun _ => same_descriptors o) o;
  setfl_law fd flags o : fd ∈ os_open o -> wp (os_setfl fd flags) (fun r o' =>
    os_open o' = os_open o /\ os_watched o' = os_watched o /\ os_listening o' = os_listening o /\
    os_nonblocking o' =
      match r with
      | None => if Z.testbit flags 11 then {[fd]} ∪ os_nonblocking o else os_nonblocking o ∖ {[fd]}
      | Some _ => os_nonblocking o
      end) o;
  epoll_add_law epoll fd o : epoll ∈ os_open o -> fd ∈ os_open o -> wp (os_epoll_add epoll fd) (fun r o' =>
    os_open o' = os_open o /\ os_listening o' = os_listening o /\
    os_nonblocking o' = os_nonblocking o /\
    os_watched o' = match r with None => {[(epoll, fd)]} ∪ os_watched o | Some _ => os_watched o end) o;
  close_open_law fd o : fd ∈ os_open o -> wp (os_close fd) (fun _ o' =>
    os_open o' = os_open o ∖ {[fd]}) o;
}.

(** ** State *)

(** The server with its three descriptors and [running_]. *)
Record Process `{Storage} `{Sockets} : Type := mkProcess {
  listen_fd_ : Z;
  epoll_fd_ : Z;
  wake_fd_ : Z;
  running_ : bool;
  pr_server : Server;
  pr_os : Os;
}.
Arguments mkProcess {_ _} listen_fd_ epoll_fd_ wake_fd_ running_ pr_server pr_os.

(** One return of [epoll_wait], or what the workers do while the loop waits. *)
Inductive poll : Type :=
  | PollFailed (errno : N)
  | PollReady (events : list ready_event) (now : Z)
  | PollTake
  | PollPacket (worker : nat).

Section life.
Context `{Storage} `{Kernel} `{Sockets} (config_ : ServerConfig).

Abbreviation Proc := (ST Process).

(** ** Access *)

Definition on_server {A} (m : ST Server A) : Proc A := fun p =>
  let '(a, s) := m (pr_server p) in
  (a, mkProcess (listen_fd_ p) (epoll_fd_ p) (wake_fd_ p) (running_ p) s (pr_os p)).
Definition on_os {A} (m : ST Os A) : Proc A := fun p =>
  let '(a, o) := m (pr_os p) in
  (a, mkProcess (listen_fd_ p) (epoll_fd_ p) (wake_fd_ p) (running_ p) (pr_server p) o).
Definition set_listen_fd (fd : Z) : Proc unit := modify (fun p =>
  mkProcess fd (epoll_fd_ p) (wake_fd_ p) (running_ p) (pr_server p) (pr_os p)).
Definition set_epoll_fd (fd : Z) : Proc unit := modify (fun p =>
  mkProcess (listen_fd_ p) fd (wake_fd_ p) (running_ p) (pr_server p) (pr_os p)).
Definition set_wake_fd (fd : Z) : Proc unit := modify (fun p =>
  mkProcess (listen_fd_ p) (epoll_fd_ p) fd (running_ p) (pr_server p) (pr_os p)).
Definition set_running (b : bool) : Proc unit := modify (fun p =>
  mkProcess (listen_fd_ p) (epoll_fd_ p) (wake_fd_ p) b (pr_server p) (pr_os p)).

Definition log_error (message : bytes) : Proc unit := on_server (on_chat (log_write Error message)).
Definition log_line_info (message : bytes) : Proc unit := on_server (info message).

(** [logger_.error(...); return false;] *)
Definition failing (message : bytes) : Proc bool := log_error message;; mret false.

(** What [fd_ = call()] leaves in a descriptor member. *)
Definition descriptor (r : Returned) : Z := match r with Got fd => fd | Failed _ => -1 end.

(** ** [setup_listener] *)

Definition kBacklog : N := 128.

Definition set_non_blocking (fd : Z) : Proc bool :=
  flags ← on_os (os_getfl fd);
  match flags with
  | Failed errno => failing (last_error "fcntl(F_GETFL) failed" errno)
  | Got flags =>
      r ← on_os (os_setfl fd (Z.lor flags O_NONBLOCK));
      match r with
      | Some errno => failing (last_error "fcntl(F_SETFL) failed" errno)
      | None => mret true
      end
  end.

(** The second half: epoll, eventfd, and the two registrations. *)
Definition setup_epoll (listen_fd : Z) : Proc bool :=
  epoll ← on_os os_epoll_create;
  set_epoll_fd (descriptor epoll);;
  match epoll with
  | Failed errno => failing (last_error "epoll_create1 failed" errno)
  | Got epoll_fd =>
      wake ← on_os os_eventfd;
      set_wake_fd (descriptor wake);;
      match wake with
      | Failed errno => failing (last_error "eventfd failed" errno)
      | Got wake_fd =>
          r ← on_os (os_epoll_add epoll_fd wake_fd);
          match r with
          | Some errno => failing (last_error "epoll_ctl wake fd failed" errno)
          | None =>
              r ← on_os (os_epoll_add epoll_fd listen_fd);
              match r with
              | Some errno => failing (last_error "epoll_ctl listen fd failed" errno)
              | None => mret true
              end
          end
      end
  end.

Definition setup_listener : Proc bool :=
  listening ← on_os os_socket;
  set_listen_fd (descriptor listening);;
  match listening with
  | Failed errno => failing (last_error "socket failed" errno)
  | Got fd =>
      r ← on_os (os_reuse_address fd);
      match r with
      | Some errno => failing (last_error "setsockopt(SO_REUSEADDR) failed" errno)
      | None =>
          if negb (inet_pton (host config_)) then failing (bs "invalid listen host: " ++ host config_)
          else
            r ← on_os (os_bind fd (host config_) (port config_));
            match r with
            | Some errno => failing (last_error "bind failed" errno)
            | None =>
                r ← on_os (os_listen fd kBacklog);
                match r with
                | Some errno => failing (last_error "listen failed" errno)
                | None =>
                    ok ← set_non_blocking fd;
                    if negb ok then mret false else setup_epoll fd
                end
            end
      end
  end.

(** ** [run_event_loop] *)

(** The loop along a script: [None] when the script ends while it still waits. *)
Fixpoint run_event_loop (polls : list poll) : Proc (option bool) :=
  running ← gets running_;
  if negb running then mret (Some true)
  else
    match polls with
    | [] => mret None
    | PollFailed errno :: polls =>
        if errno =? EINTR then run_event_loop polls
        else log_error (last_error "epoll_wait failed" errno);; mret (Some false)
    | PollReady events now :: polls =>
        on_server (loop_turn config_ events now);; run_event_loop polls
    | PollTake :: polls => on_server worker_take;; run_event_loop polls
    | PollPacket i :: polls => on_server (worker_packet config_ i);; run_event_loop polls
    end.

(** ** [stop] and [start] *)

(** [if (fd != -1) { close(fd); fd = -1; }] *)
Definition close_descriptor (fd : Process -> Z) (reset : Proc unit) : Proc unit :=
  n ← gets fd;
  if (n =? -1)%Z then mret tt else on_os (os_close n);; reset.

Definition stop : Proc unit :=
  had_resources ← gets (fun p => running_ p || negb (epoll_fd_ p =? -1)%Z || negb (listen_fd_ p =? -1)%Z);
  set_running false;;
  on_server stop_connections;;
  close_descriptor epoll_fd_ (set_epoll_fd (-1)%Z);;
  close_descriptor wake_fd_ (set_wake_fd (-1)%Z);;
  close_descriptor listen_fd_ (set_listen_fd (-1)%Z);;
  if had_resources : bool then log_line_info "tcp server stopped" else mret tt.

(** [start]; [None] when the script ends before the loop does. *)
Definition start (polls : list poll) : Proc (option unit) :=
  ok ← setup_listener;
  if negb ok then stop;; mret (Some tt)
  else
    log_line_info (bs "tcp server listening on " ++ host config_ ++ bs ":" ++ to_string (port config_));;
    set_running true;;
    r ← run_event_loop polls;
    match r with
    | None => mret None
    | Some _ => stop;; mret (Some tt)
    end.
End life.

(** ** Lemmas *)

Section setup.
Context `{Storage} `{Kernel} `{SocketsSpec} (config_ : ServerConfig).

(** The server with more lines in its log. *)
Definition relog (l : list (LogLevel * bytes)) (s : Server) : Server :=
  mkServer (srv_reactor s) (srv_queues s) (srv_pool s) (srv_busy s)
    (mkChatState (st_sessions (srv_chat s)) (st_world (srv_chat s)) (st_logged (srv_chat s) ++ l))
    (srv_system s).

Lemma relog_nil s : relog [] s = s.
Proof. unfold relog. destruct s as [r q p b [c w l] k]. simpl. by rewrite app_nil_r. Qed.

(** The descriptors in the members. *)
Definition held_fds (p : Process) : list Z :=
  List.filter (fun fd => negb (fd =? -1)%Z) [epoll_fd_ p; wake_fd_ p; listen_fd_ p].

(** Every descriptor that is open beyond [base] is in one of the members, each
    in its own. *)
Record holds (base : gset Z) (p : Process) : Prop := {
  holds_open : os_open (pr_os p) = base ∪ list_to_set (held_fds p);
  holds_nodup : NoDup (held_fds p);
  holds_new fd : fd ∈ held_fds p -> (fd ∉ base);
}.

Lemma on_os_wp {A} (m : ST Os A) (Q : A -> Process -> Prop) p :
  wp m (fun a o => Q a (mkProcess (listen_fd_ p) (epoll_fd_ p) (wake_fd_ p) (running_ p) (pr_server p) o))
    (pr_os p) -> wp (on_os m) Q p.
Proof. unfold wp, on_os. by destruct (m (pr_os p)). Qed.

(** A stage of the set-up: the descriptors in the members are open, and nothing
    has been logged since [s]. *)
Record stage (base : gset Z) (s : Server) (run : bool) (li ep wa : Z) (p : Process) : Prop := {
  stage_holds : holds base p;
  stage_server : pr_server p = s;
  stage_running : running_ p = run;
  stage_listen : listen_fd_ p = li;
  stage_epoll : epoll_fd_ p = ep;
  stage_wake : wake_fd_ p = wa;
}.

(** What a failed set-up leaves: its one line of log. *)
Definition set_up_failed (base : gset Z) (s : Server) (run : bool) (p : Process) : Prop :=
  holds base p /\ running_ p = run /\ exists m, pr_server p = relog [(Error, m)] s.

Lemma wp_failing base s run li ep wa message (Q : bool -> Process -> Prop) p :
  stage base s run li ep wa p ->
  (forall p', set_up_failed base s run p' -> Q false p') ->
  wp (failing message) Q p.
Proof.
  intros [[Ho Hn Hf] Es Er _ _ _] HQ. apply HQ. destruct p as [l e w r sv o]. simpl in *. subst.
  split; [|split; [done|]].
  - split; [exact Ho|exact Hn|exact Hf].
  - exists message. by destruct s as [a b c d [f g h] k].
Qed.

(** A call on an open descriptor. *)
Lemma stage_call {A B} base s run li ep wa (m : ST Os A) (P : A -> Os -> Prop) (k : A -> ST Process B) Q p :
  stage base s run li ep wa p ->
  wp m (fun a o => os_open o = os_open (pr_os p) /\ P a o) (pr_os p) ->
  (forall a p', stage base s run li ep wa p' -> P a (pr_os p') -> wp (k a) Q p') ->
  wp (on_os m ≫= k) Q p.
Proof.
  intros [[Ho Hn Hf] Es Er El Ee Ew] Hm Hk. apply wp_bind, on_os_wp. eapply wp_mono; [exact Hm|].
  intros a o [Eo HP]. apply Hk; [|exact HP].
  split; try done. split; [by simpl; rewrite Eo, Ho|exact Hn|exact Hf].
Qed.

Lemma stage_open base s run li ep wa p fd :
  stage base s run li ep wa p -> fd ∈ [ep; wa; li] -> fd <> (-1)%Z -> fd ∈ os_open (pr_os p).
Proof.
  intros [[Ho _ _] _ _ El Ee Ew] Hin Hne. rewrite Ho. apply elem_of_union_r, elem_of_list_to_set.
  unfold held_fds. rewrite El, Ee, Ew. apply list_elem_of_In, List.filter_In.
  split; [by apply list_elem_of_In|]. lia.
Qed.

(** A descriptor that is opened and stored in a member that held none. *)
Lemma holds_more base p p' fd :
  holds base p -> (fd ∉ os_open (pr_os p)) -> fd <> (-1)%Z ->
  os_open (pr_os p') = {[fd]} ∪ os_open (pr_os p) -> held_fds p' ≡ₚ fd :: held_fds p ->
  holds base p'.
Proof.
  intros [Ho Hn Hf] Hfresh Hne Eo Hp. rewrite Ho in *.
  rewrite not_elem_of_union, elem_of_list_to_set in Hfresh. destruct Hfresh as [Hb Hh]. split.
  - rewrite Eo. apply set_eq. intros x. rewrite !elem_of_union, !elem_of_list_to_set, Hp, elem_of_cons.
    set_solver.
  - rewrite Hp. by constructor.
  - intros x. rewrite Hp. intros [->|Hx]%elem_of_cons; [done|by apply Hf].
Qed.

Lemma stage_socket {B} base s run (k : Returned -> ST Process B) Q p :
  stage base s run (-1) (-1) (-1) p ->
  (forall e p', stage base s run (-1) (-1) (-1) p' -> wp (k (Failed e)) Q p') ->
  (forall fd p', fd <> (-1)%Z -> stage base s run fd (-1) (-1) p' -> wp (k (Got fd)) Q p') ->
  wp (r ← on_os os_socket; set_listen_fd (descriptor r);; k r) Q p.
Proof.
  intros [Hh Es Er El Ee Ew] Hfail Hgot. apply wp_bind, on_os_wp. eapply wp_mono; [apply socket_opens|].
  intros [fd|e] o (_ & _ & _ & Ho); apply wp_bind; unfold wp at 1, set_listen_fd, modify; simpl.
  - destruct Ho as (Hne & Hfresh & Ho). apply Hgot; [done|]. split; try done.
    eapply holds_more; [exact Hh|exact Hfresh|exact Hne|exact Ho|]. unfold held_fds. simpl.
    rewrite El, Ee, Ew. simpl. by replace (negb (fd =? -1)%Z) with true by lia.
  - apply Hfail. split; try done. destruct Hh as [Ha Hn Hf]. split; unfold held_fds in *; simpl in *;
      rewrite Ee, Ew, El in *; [by rewrite Ho, Ha|done|done].
Qed.

Lemma stage_epoll_create {B} base s run li (k : Returned -> ST Process B) Q p :
  stage base s run li (-1) (-1) p -> li <> (-1)%Z ->
  (forall e p', stage base s run li (-1) (-1) p' -> wp (k (Failed e)) Q p') ->
  (forall fd p', fd <> (-1)%Z -> stage base s run li fd (-1) p' ->
     os_listening (pr_os p') = os_listening (pr_os p) ->
     os_nonblocking (pr_os p') = os_nonblocking (pr_os p) -> wp (k (Got fd)) Q p') ->
  wp (r ← on_os os_epoll_create; set_epoll_fd (descriptor r);; k r) Q p.
Proof.
  intros [Hh Es Er El Ee Ew] Hli Hfail Hgot. apply wp_bind, on_os_wp. eapply wp_mono; [apply epoll_create_opens|].
  intros [fd|e] o (_ & Hl & Hb & Ho); apply wp_bind; unfold wp at 1, set_epoll_fd, modify; simpl.
  - destruct Ho as (Hne & Hfresh & Ho). apply Hgot; try done. split; try done.
    eapply holds_more; [exact Hh|exact Hfresh|exact Hne|exact Ho|]. unfold held_fds. simpl.
    rewrite El, Ee, Ew. simpl. by replace (negb (fd =? -1)%Z) with true by lia.
  - apply Hfail. split; try done. destruct Hh as [Ha Hn Hf]. split; unfold held_fds in *; simpl in *;
      rewrite Ee, Ew, El in *; [by rewrite Ho, Ha|done|done].
Qed.

Lemma stage_eventfd {B} base s run li ep (k : Returned -> ST Process B) Q p :
  stage base s run li ep (-1) p -> li <> (-1)%Z -> ep <> (-1)%Z ->
  (forall e p', stage base s run li ep (-1) p' -> wp (k (Failed e)) Q p') ->
  (forall fd p', fd <> (-1)%Z -> stage base s run li ep fd p' ->
     os_listening (pr_os p') = os_listening (pr_os p) ->
     os_nonblocking (pr_os p') = os_nonblocking (pr_os p) -> wp (k (Got fd)) Q p') ->
  wp (r ← on_os os_eventfd; set_wake_fd (descriptor r);; k r) Q p.
Proof.
  intros [Hh Es Er El Ee Ew] Hli Hep Hfail Hgot. apply wp_bind, on_os_wp. eapply wp_mono; [apply eventfd_opens|].
  intros [fd|e] o (_ & Hl & Hb & Ho); apply wp_bind; unfold wp at 1, set_wake_fd, modify; simpl.
  - destruct Ho as (Hne & Hfresh & Ho). apply Hgot; try done. split; try done.
    eapply holds_more; [exact Hh|exact Hfresh|exact Hne|exact Ho|]. unfold held_fds. simpl.
    rewrite El, Ee, Ew. simpl. replace (negb (fd =? -1)%Z) with true by lia.
    replace (negb (ep =? -1)%Z) with true by lia. by constructor.
  - apply Hfail. split; try done. destruct Hh as [Ha Hn Hf]. split; unfold held_fds in *; simpl in *;
      rewrite Ee, Ew, El in *; [by rewrite Ho, Ha|done|done].
Qed.

(** What a successful set-up leaves: three open descriptors, the listening one
    without blocking, and both it and the eventfd watched by the epoll. *)
Record set_up (base : gset Z) (s : Server) (run : bool) (p : Process) : Prop := {
  set_up_stage : stage base s run (listen_fd_ p) (epoll_fd_ p) (wake_fd_ p) p;
  set_up_descriptors : listen_fd_ p <> (-1)%Z /\ epoll_fd_ p <> (-1)%Z /\ wake_fd_ p <> (-1)%Z;
  set_up_listening : listen_fd_ p ∈ os_listening (pr_os p);
  set_up_nonblocking : listen_fd_ p ∈ os_nonblocking (pr_os p);
  set_up_watched : (epoll_fd_ p, listen_fd_ p) ∈ os_watched (pr_os p) /\
                   (epoll_fd_ p, wake_fd_ p) ∈ os_watched (pr_os p);
}.

Definition set_up_or_failed (base : gset Z) (s : Server) (run ok : bool) (p : Process) : Prop :=
  if ok then set_up base s run p else set_up_failed base s run p.

Lemma set_up_epoll base s run li p :
  stage base s run li (-1) (-1) p -> li <> (-1)%Z -> li ∈ os_listening (pr_os p) ->
  li ∈ os_nonblocking (pr_os p) ->
  wp (setup_epoll li) (set_up_or_failed base s run) p.
Proof.
  intros St Hne Hli Hnb. unfold setup_epoll.
  eapply stage_epoll_create; [done|done|intros e p1 St1; by eapply wp_failing|].
  intros ep p1 Hep St1 L1 N1.
  eapply stage_eventfd; [done|done|done|intros e p2 St2; by eapply wp_failing|].
  intros wa p2 Hwa St2 L2 N2. rewrite L1 in L2. rewrite N1 in N2.
  eapply (stage_call _ _ _ _ _ _ _ (fun r o => os_listening o = os_listening (pr_os p2) /\
    os_nonblocking o = os_nonblocking (pr_os p2) /\
    (r = None -> (ep, wa) ∈ os_watched o))); [done| |].
  { eapply wp_mono; [apply epoll_add_law; (eapply stage_open; [done|set_solver|done])|].
    intros r o (Eo & El & En & Ew). split; [done|]. split; [done|]. split; [done|].
    intros ->. rewrite Ew. set_solver. }
  intros [e|] p3 St3 (L3 & N3 & W3); [by eapply wp_failing|].
  eapply (stage_call _ _ _ _ _ _ _ (fun r o => os_listening o = os_listening (pr_os p3) /\
    os_nonblocking o = os_nonblocking (pr_os p3) /\
    (r = None -> (ep, wa) ∈ os_watched o /\ (ep, li) ∈ os_watched o))); [done| |].
  { eapply wp_mono; [apply epoll_add_law; (eapply stage_open; [done|set_solver|done])|].
    intros r o (Eo & El & En & Ew). split; [done|]. split; [done|]. split; [done|].
    intros ->. rewrite Ew. specialize (W3 eq_refl). set_solver. }
  intros [e|] p4 St4 (L4 & N4 & W4); [by eapply wp_failing|].
  apply wp_ret. destruct (W4 eq_refl) as [W4a W4b]. pose proof St4 as [Hh4 Es4 Er4 El4 Ee4 Ew4].
  split; rewrite ?El4, ?Ee4, ?Ew4, ?L4, ?N4, ?L3, ?N3, ?L2, ?N2; done.
Qed.

Lemma set_non_blocking_stage base s run li p (k : bool -> ST Process bool) :
  stage base s run li (-1) (-1) p -> li <> (-1)%Z -> li ∈ os_listening (pr_os p) ->
  (forall p', stage base s run li (-1) (-1) p' -> li ∈ os_listening (pr_os p') ->
     li ∈ os_nonblocking (pr_os p') -> wp (k true) (set_up_or_failed base s run) p') ->
  (forall p', set_up_failed base s run p' -> wp (k false) (set_up_or_failed base s run) p') ->
  wp (ok ← set_non_blocking li; k ok) (set_up_or_failed base s run) p.
Proof.
  intros St Hne Hli Hk Hf. unfold set_non_blocking. apply wp_bind_assoc.
  eapply (stage_call _ _ _ _ _ _ _ (fun _ o => os_listening o = os_listening (pr_os p))); [done| |].
  { eapply wp_mono; [apply getfl_law; (eapply stage_open; [done|set_solver|done])|].
    by intros r o [Eo _ El _]. }
  intros [flags|e] p1 St1 L1.
  2:{ apply wp_bind. eapply wp_failing; [done|]. intros p2 F. by apply Hf. }
  apply wp_bind_assoc.
  eapply (stage_call _ _ _ _ _ _ _ (fun r o => os_listening o = os_listening (pr_os p1) /\
    (r = None -> li ∈ os_nonblocking o))); [done| |].
  { eapply wp_mono; [apply setfl_law; (eapply stage_open; [done|set_solver|done])|].
    intros r o (Eo & _ & El & En). split; [done|]. split; [done|]. intros ->. rewrite En.
    rewrite Z.lor_spec. change (Z.testbit O_NONBLOCK 11) with true. rewrite orb_true_r. set_solver. }
  intros [e|] p2 St2 [L2 N2].
  { apply wp_bind. eapply wp_failing; [done|]. intros p3 F. by apply Hf. }
  apply wp_bind, wp_ret, Hk; [done|congruence|by apply N2].
Qed.

Lemma setup_listener_spec base s run p :
  stage base s run (-1) (-1) (-1) p ->
  wp (setup_listener config_) (set_up_or_failed base s run) p.
Proof.
  intros St. unfold setup_listener.
  eapply stage_socket; [done|intros e p1 St1; by eapply wp_failing|]. intros li p1 Hne St1.
  eapply (stage_call _ _ _ _ _ _ _ (fun _ _ => True)); [done| |].
  { eapply wp_mono; [apply reuse_address_law; (eapply stage_open; [done|set_solver|done])|].
    by intros r o [Eo _ _ _]. }
  intros [e|] p2 St2 _; [by eapply wp_failing|]. case_if; [by eapply wp_failing|].
  eapply (stage_call _ _ _ _ _ _ _ (fun _ _ => True)); [done| |].
  { eapply wp_mono; [apply bind_law; (eapply stage_open; [done|set_solver|done])|].
    by intros r o [Eo _ _ _]. }
  intros [e|] p3 St3 _; [by eapply wp_failing|].
  eapply (stage_call _ _ _ _ _ _ _ (fun r o => r = None -> li ∈ os_listening o)); [done| |].
  { eapply wp_mono; [apply listen_law; (eapply stage_open; [done|set_solver|done])|].
    intros r o (Eo & _ & _ & El). split; [done|]. intros ->. rewrite El. set_solver. }
  intros [e|] p4 St4 L4; [by eapply wp_failing|].
  eapply set_non_blocking_stage; [done|done|by apply L4| |by intros p5 F].
  intros p5 St5 L5 N5. by apply set_up_epoll.
Qed.
End setup.

(** ** The loop and its end *)

Section running.
Context `{StorageSpec} `{KernelSpec} `{SocketsSpec} (config_ : ServerConfig).

(** What a return of [epoll_wait] makes the program do. *)
Definition poll_events (p : poll) : list server_event :=
  match p with
  | PollFailed _ => []
  | PollReady [] now => [EvHeartbeat now; EvTurnEnd]
  | PollReady events now => map (fun e => EvReady e now) events ++ [EvTurnEnd]
  | PollTake => [EvTake]
  | PollPacket i => [EvPacket i]
  end.

(** The script up to the first failure of [epoll_wait] but [EINTR]. *)
Definition ends_loop (p : poll) : bool :=
  match p with PollFailed errno => negb (errno =? EINTR) | _ => false end.

Fixpoint script_events (polls : list poll) : list server_event :=
  match polls with
  | [] => []
  | p :: polls => if ends_loop p then [] else poll_events p ++ script_events polls
  end.

(** The invariant, not counting the ids. *)
Definition sound (s : Server) : Prop := exists n, server_inv config_ n None s.

Lemma sound_relog l s : sound s -> sound (relog l s).
Proof. intros [n I]. exists n. revert I. by apply same_net_inv; split. Qed.

Lemma run_server_app xs ys s :
  run_server config_ (xs ++ ys) s = run_server config_ ys (run_server config_ xs s).2.
Proof.
  revert s. induction xs as [|x xs IH]; intros s; [done|]. simpl. unfold mbind, ST_bind.
  by destruct (run_server_event config_ x s) as [[] s'].
Qed.

Definition with_server (s : Server) (p : Process) : Process :=
  mkProcess (listen_fd_ p) (epoll_fd_ p) (wake_fd_ p) (running_ p) s (pr_os p).

(** The loop runs the events of its script, and returns when the script has a
    failure; its one line of log is the failure's. *)
Lemma run_event_loop_spec polls p :
  running_ p = true ->
  let s := (run_server config_ (script_events polls) (pr_server p)).2 in
  if existsb ends_loop polls
  then exists m, run_event_loop config_ polls p = (Some false, with_server (relog [(Error, m)] s) p)
  else run_event_loop config_ polls p = (None, with_server s p).
Proof.
  revert p. induction polls as [|q polls IH]; intros p Hrun.
  { cbn. unfold mbind, ST_bind, gets. rewrite Hrun. by destruct p. }
  cbn [existsb script_events].
  assert (Hstep : ends_loop q = false ->
    run_event_loop config_ (q :: polls) p =
    run_event_loop config_ polls (with_server (run_server config_ (poll_events q) (pr_server p)).2 p)).
  { intros E. cbn [run_event_loop]. unfold mbind at 1, ST_bind at 1, gets at 1. rewrite Hrun.
    destruct q as [e|evs now| |i]; cbn [poll_events negb]; simpl in E.
    - replace (e =? EINTR) with true by lia. by destruct p.
    - unfold mbind, ST_bind, on_server. rewrite loop_turn_events.
      destruct evs; by destruct (run_server _ _ _) as [[] s].
    - unfold mbind, ST_bind, on_server. simpl. unfold mbind, ST_bind. by destruct (worker_take _) as [[] s].
    - unfold mbind, ST_bind, on_server. simpl. unfold mbind, ST_bind.
      by destruct (worker_packet _ _ _) as [[] s]. }
  destruct (ends_loop q) eqn:E; cbn [orb].
  - destruct q as [e| | |]; try done. simpl in *. unfold mbind, ST_bind, gets. rewrite Hrun.
    replace (e =? EINTR) with false by lia.
    eexists. by destruct p as [l ep w r [a b c d [f g h] k] o].
  - rewrite Hstep by done.
    specialize (IH (with_server (run_server config_ (poll_events q) (pr_server p)).2 p) Hrun).
    cbn [pr_server with_server] in IH. rewrite run_server_app. exact IH.
Qed.

(** *** [stop] *)
Lemma holds_less base p p' fd :
  holds base p -> held_fds p ≡ₚ fd :: held_fds p' -> os_open (pr_os p') = os_open (pr_os p) ∖ {[fd]} ->
  holds base p'.
Proof.
  intros [Ho Hn Hf] Hp Eo. rewrite Hp in Hn. apply NoDup_cons in Hn as [Hnew Hn].
  assert (Hb : fd ∉ base) by (apply Hf; rewrite Hp; set_solver).
  split; [|done|intros x Hx; apply Hf; rewrite Hp; set_solver].
  rewrite Eo, Ho. apply set_eq. intros x.
  rewrite elem_of_difference, !elem_of_union, !elem_of_list_to_set, Hp, elem_of_cons, elem_of_singleton.
  split; [naive_solver|]. intros [Hx|Hx]; (split; [tauto|by intros ->]).
Qed.

(** Closing one of the members leaves the others. *)
Ltac close_member e :=
  intros Hh; unfold close_descriptor; apply wp_bind, gets_wp; cbn;
  destruct (Z.eqb_spec e (-1)) as [->|Hne]; [by apply wp_ret; eauto|];
  apply Z.eqb_neq in Hne; apply wp_bind, on_os_wp;
  eapply wp_mono; [apply close_open_law; rewrite (holds_open _ _ Hh)|];
  [ apply elem_of_union_r, elem_of_list_to_set; unfold held_fds; cbn; rewrite Hne; cbn;
    repeat case_match; set_solver
  | intros [] o' Ho; unfold wp; cbn; eexists; split; [done|];
    eapply holds_less; [exact Hh| |exact Ho]; unfold held_fds; cbn; rewrite Hne; cbn;
    repeat case_match; first [ reflexivity | apply perm_swap
      | etransitivity; [apply perm_skip, perm_swap|]; apply perm_swap ] ].

Lemma close_epoll base l e w r s o :
  holds base (mkProcess l e w r s o) ->
  wp (close_descriptor epoll_fd_ (set_epoll_fd (-1)%Z))
    (fun _ p' => exists o', p' = mkProcess l (-1) w r s o' /\ holds base p') (mkProcess l e w r s o).
Proof. close_member e. Qed.

Lemma close_wake base l e w r s o :
  holds base (mkProcess l e w r s o) ->
  wp (close_descriptor wake_fd_ (set_wake_fd (-1)%Z))
    (fun _ p' => exists o', p' = mkProcess l e (-1) r s o' /\ holds base p') (mkProcess l e w r s o).
Proof. close_member w. Qed.

Lemma close_listen base l e w r s o :
  holds base (mkProcess l e w r s o) ->
  wp (close_descriptor listen_fd_ (set_listen_fd (-1)%Z))
    (fun _ p' => exists o', p' = mkProcess (-1) e w r s o' /\ holds base p') (mkProcess l e w r s o).
Proof. close_member l. Qed.

(** Nothing of the server is left. *)
Record released (base : gset Z) (p : Process) : Prop := {
  released_descriptors : listen_fd_ p = (-1)%Z /\ epoll_fd_ p = (-1)%Z /\ wake_fd_ p = (-1)%Z;
  released_running : running_ p = false;
  released_open : os_open (pr_os p) = base;
  released_connections : connections_ (srv_reactor (pr_server p)) = ∅;
  released_clients : sys_open (srv_system (pr_server p)) = ∅;
}.

Lemma stop_spec base p :
  holds base p -> sound (pr_server p) -> wp stop (fun _ => released base) p.
Proof.
  intros Hh [n I]. unfold stop. apply wp_bind, gets_wp. set (had := _ || _). clearbody had.
  apply wp_bind. unfold wp at 1, set_running, modify. cbn [fst snd].
  destruct p as [l e w r s o]. cbn in *. apply wp_bind.
  pose proof (stop_closes_all config_ n s I) as (Hc & _ & Ho). unfold wp at 1, on_server. cbn.
  destruct (stop_connections s) as [[] s1]. cbn in *.
  assert (Hh1 : holds base (mkProcess l e w false s1 o)) by (destruct Hh; by split).
  apply wp_bind. eapply wp_mono; [apply close_epoll, Hh1|]. intros [] p1 (o1 & -> & Hh2).
  apply wp_bind. eapply wp_mono; [apply close_wake, Hh2|]. intros [] p2 (o2 & -> & Hh3).
  apply wp_bind. eapply wp_mono; [apply close_listen, Hh3|]. intros [] p3 (o3 & -> & [Ho4 _ _]).
  cbn in *. unfold held_fds in Ho4. simpl in Ho4.
  assert (Hm : connections_ (srv_reactor s1) = ∅) by by apply map_empty.
  destruct had.
  - unfold log_line_info, on_server, wp. cbn. split; cbn; [done|done|rewrite Ho4; set_solver|done|done].
  - apply wp_ret. split; cbn; [done|done|rewrite Ho4; set_solver|done|done].
Qed.

(** Stopping again does nothing, and logs nothing. *)
Lemma stop_released base p : released base p -> stop p = (tt, p).
Proof.
  intros [(El & Ee & Ew) Er _ Ec _]. destruct p as [l e w r [[b cs i g] q po bu c k] o]. cbn in *. by subst.
Qed.

(** *** The program *)

(** The members before [start], on a system with other descriptors open. *)
Definition process_start (chat : ChatState) (o : Os) : Process :=
  mkProcess (-1) (-1) (-1) false (server_start config_ chat) o.

(** The state in which the loop begins. *)
Definition listening_server (chat : ChatState) : Server :=
  relog [(Info, bs "tcp server listening on " ++ host config_ ++ bs ":" ++ to_string (port config_))]
    (server_start config_ chat).

Lemma process_stage chat o :
  stage (os_open o) (server_start config_ chat) false (-1) (-1) (-1) (process_start chat o).
Proof.
  split; try done. split; cbn; [set_solver|constructor|]. intros fd. set_solver.
Qed.

(** C30: [setup_listener] either opens three different descriptors, a listening
    one that does not block, an epoll that watches it, and an eventfd the epoll
    watches too, logs nothing and answers true; or it answers false after
    exactly one error line, with every descriptor it opened held in a member,
    for [stop] to close. *)
Theorem listener_set_up chat o :
  wp (setup_listener config_) (set_up_or_failed (os_open o) (server_start config_ chat) false)
    (process_start chat o).
Proof. apply setup_listener_spec, process_stage. Qed.

(** C14: Whatever the calls of the set-up answer and whatever the loop has done
    when [epoll_wait] fails for good, [start] returns with every connection and
    descriptor it opened closed and no other one touched; a [stop] after it
    does nothing. *)
Theorem start_releases_all chat o polls :
  service_ok 0 chat ->
  existsb ends_loop polls = true ->
  events_possible config_ (script_events polls) (listening_server chat) = true ->
  room (events_cost (script_events polls)) ->
  wp (start config_ polls) (fun r p => r = Some tt /\ released (os_open o) p /\ stop p = (tt, p))
    (process_start chat o).
Proof.
  intros K E V R. unfold start. apply wp_bind. eapply wp_mono; [apply setup_listener_spec, process_stage|].
  assert (Hstop : forall p, holds (os_open o) p -> sound (pr_server p) ->
    wp (stop;; mret (Some tt)) (fun r p => r = Some tt /\ released (os_open o) p /\ stop p = (tt, p)) p).
  { intros p Hh Hs. apply wp_bind. eapply wp_mono; [by apply stop_spec|]. intros [] p' Hr.
    apply wp_ret. split; [done|]. split; [done|by eapply stop_released]. }
  assert (I0 : server_inv config_ 0 None (server_start config_ chat)) by by apply server_start_inv.
  intros [] p1 S1; cbn [negb set_up_or_failed] in *.
  - destruct S1 as [[Hh Es Er _ _ _] _ _ _ _]. apply wp_bind. unfold log_line_info, on_server, wp at 1. cbn.
    apply wp_bind. unfold set_running, modify, wp at 1. cbn. apply wp_bind.
    set (p2 := mkProcess _ _ _ true _ _).
    assert (Ep : pr_server p2 = listening_server chat).
    { unfold p2, listening_server, relog. cbn. by rewrite Es. }
    assert (L : live config_ (0 + events_cost (script_events polls))
      (run_server config_ (script_events polls) (listening_server chat)).2).
    { apply live_events; [|done|done]. split; [|split; cbn; lia]. revert I0. by apply same_net_inv; split. }
    pose proof (run_event_loop_spec polls p2 eq_refl) as Hloop. rewrite E, Ep in Hloop.
    destruct Hloop as [m Hloop]. unfold wp at 1. rewrite Hloop. cbn [fst snd]. apply Hstop.
    + destruct Hh. by split.
    + cbn. apply sound_relog. eexists. apply L.
  - destruct S1 as (Hh & _ & m & Es). apply Hstop; [done|]. rewrite Es. apply sound_relog. by eexists.
Qed.
End running.

(** ** A kernel to run it on *)

Record ToyOs : Type := mkToyOs {
  to_open : gset Z;
  to_watched : gset (Z * Z);
  to_listening : gset Z;
  to_nonblocking : gset Z;
  (** The ports in use. *)
  to_ports : list N;
}.

Definition toy_opens : ST ToyOs Returned := fun o =>
  let fd := fresh ({[(-1)%Z]} ∪ to_open o) in
  (Got fd, mkToyOs ({[fd]} ∪ to_open o) (to_watched o) (to_listening o) (to_nonblocking o) (to_ports o)).

#[local] Instance toy_sockets : Sockets := {|
  Os := ToyOs;
  os_socket := toy_opens;
  os_reuse_address _ := mret None;
  inet_pton host := negb (bool_decide (host = []));
  os_bind _ _ port o := (if bool_decide (port ∈ to_ports o) then Some 98 else None, o);
  os_listen fd _ o := (None, mkToyOs (to_open o) (to_watched o) ({[fd]} ∪ to_listening o)
    (to_nonblocking o) (to_ports o));
  os_getfl _ := mret (Got 2);
  os_setfl fd flags o := (None, mkToyOs (to_open o) (to_watched o) (to_listening o)
    (if Z.testbit flags 11 then {[fd]} ∪ to_nonblocking o else to_nonblocking o ∖ {[fd]}) (to_ports o));
  os_epoll_create := toy_opens;
  os_eventfd := toy_opens;
  os_epoll_add epoll fd o := (None, mkToyOs (to_open o) ({[(epoll, fd)]} ∪ to_watched o)
    (to_listening o) (to_nonblocking o) (to_ports o));
  os_close fd o := (tt, mkToyOs (to_open o ∖ {[fd]}) (to_watched o) (to_listening o ∖ {[fd]})
    (to_nonblocking o ∖ {[fd]}) (to_ports o));
|}.

#[local] Instance toy_sockets_view : SocketsView := {|
  os_open := to_open : Os -> gset Z;
  os_watched := to_watched : Os -> gset (Z * Z);
  os_listening := to_listening : Os -> gset Z;
  os_nonblocking := to_nonblocking : Os -> gset Z;
|}.

Lemma toy_opens_law (o : Os) : opens toy_opens o.
Proof.
  unfold opens, wp, toy_opens. cbn. split; [done|]. split; [done|]. split; [done|].
  pose proof (is_fresh ({[(-1)%Z]} ∪ to_open o)) as Hf. rewrite not_elem_of_union in Hf.
  destruct Hf as [Hn Ho]. split; [|done]. intros E. rewrite E in Hn. set_solver.
Qed.

#[local] Instance toy_sockets_spec : SocketsSpec.
Proof. split; intros; try apply toy_opens_law; unfold wp; cbn; by repeat split. Qed.

#[local] Existing Instance toy_openssl.
#[local] Existing Instance toy_openssl_spec.
#[local] Existing Instance sample_kernel.
#[local] Existing Instance sample_kernel_spec.

(** Standard input, output and error are open; port 80 is taken. *)
Definition toy_os : ToyOs := mkToyOs {[0; 1; 2]}%Z ∅ ∅ ∅ [80].

(** Alice connects and registers; a signal interrupts the wait; then the wait
    fails. *)
Definition toy_polls : list poll := [
  PollReady [ReadyListen [Accepted 7 "10.0.0.1:4000" None; AcceptFailed EAGAIN]] 90;
  PollReady [ReadyClient 7 false true false
    [Received (frame (encode_request (ReqRegister "alice" "secret"))); RecvFailed EAGAIN]] 100;
  PollTake; PollPacket 0; PollFailed EINTR; PollReady [ReadyWake] 100; PollReady [] 110;
  PollFailed 22].

Lemma listener_set_up_witness :
  wp (setup_listener default_config)
    (set_up_or_failed {[0; 1; 2]}%Z (server_start default_config (chat_start tt)) false)
    (process_start default_config (chat_start tt) toy_os).
Proof. exact (listener_set_up default_config (chat_start tt) toy_os). Defined.

(** A taken port: the set-up fails. *)
Example port_taken :
  let '(ok, p) := setup_listener default_config
    (process_start default_config (chat_start tt) (mkToyOs {[0; 1; 2]}%Z ∅ ∅ ∅ [9000])) in
  ok = false /\ st_logged (srv_chat (pr_server p)) = [(Error, bs "bind failed: error")].
Proof. vm_compute. by split. Qed.

Lemma start_releases_all_witness :
  wp (start default_config toy_polls)
    (fun r p => r = Some tt /\ released {[0; 1; 2]}%Z p /\ stop p = (tt, p))
    (process_start default_config (chat_start tt) toy_os).
Proof.
  refine (start_releases_all default_config (chat_start tt) toy_os toy_polls (chat_start_ok tt) _ _ _);
    vm_compute; reflexivity.
Defined.

(** What that run logs at its end. *)
Example toy_logged :
  drop 5 (map snd (st_logged (srv_chat (pr_server
    (start default_config toy_polls (process_start default_config (chat_start tt) toy_os)).2)))) =
  [bs "epoll_wait failed: error"; bs "client disconnected connection_id=1 generation=1 fd=7"; bs "tcp server stopped"].
Proof. vm_compute. reflexivity. Qed.
