(* ===== verification/ServerCalls.v ===== *)
(** * ServerCalls: the server reaches the stores through their interface only

    Whatever the clients send and however the reactor and the workers
    interleave, what happens to the stores is a sequence of the calls of
    [StorageDb.StoreCall].  So what is proved of every such sequence holds of
    the program: see [Program.v]. *)

From S2P Require Import Prelude.
From S2P Require Import Message.
From S2P Require Import PacketCodec.
From S2P Require Import ServerConfig.
From S2P Require Import ThreadPool.
From S2P Require Import SessionManager.
From S2P Require Import Storage.
From S2P Require Import StorageDb.
From S2P Require Import Log.
From S2P Require Import ChatService.
From S2P Require Import TcpServer.
From S2P Require Import TcpSpec.
From S2P Require Import TcpTheorems.
From S2P Require Import ServerLife.
Open Scope N_scope.

(** ** Runs of store calls *)

Section reach.
Context `{Storage}.

(** The stores get from [w] to [w'] by store calls. *)
Definition reaches (w w' : World) : Prop := exists calls, (run_calls calls w).2 = w'.

Lemma run_calls_app xs ys w : (run_calls (xs ++ ys) w).2 = (run_calls ys (run_calls xs w).2).2.
Proof.
  revert w. induction xs as [|x xs IH]; intros w; [done|]. cbn [app run_calls].
  unfold mbind, ST_bind. destruct (perform x w) as [r w1]. specialize (IH w1).
  destruct (run_calls (xs ++ ys) w1), (run_calls xs w1). exact IH.
Qed.

#[export] Instance reaches_preorder : PreOrder reaches.
Proof.
  split; [by exists []|]. intros w1 w2 w3 [xs <-] [ys <-]. exists (xs ++ ys). apply run_calls_app.
Qed.

Lemma reaches_call c w w' : (perform c w).2 = w' -> reaches w w'.
Proof.
  intros <-. exists [c]. cbn [run_calls]. unfold mbind, ST_bind. by destruct (perform c w) as [r w'].
Qed.

(** ** The service *)

Definition chat_calls {A} (m : ST ChatState A) : Prop :=
  forall st, reaches (st_world st) (st_world (m st).2).

Lemma chat_calls_ret {A} (a : A) : chat_calls (mret a).
Proof. by intros st. Qed.

Lemma chat_calls_bind {A B} (m : ST ChatState A) (k : A -> ST ChatState B) :
  chat_calls m -> (forall a, chat_calls (k a)) -> chat_calls (m ≫= k).
Proof.
  intros Hm Hk st. unfold mbind, ST_bind. specialize (Hm st). destruct (m st) as [a st1].
  etransitivity; [exact Hm|apply Hk].
Qed.

Lemma chat_calls_same {A} (m : ST ChatState A) :
  (forall st, st_world (m st).2 = st_world st) -> chat_calls m.
Proof. intros E st. by rewrite E. Qed.

Lemma chat_calls_store {A} (op : ST World A) (c : A -> StoreAnswer) (call : StoreCall) :
  perform call = (r ← op; mret (c r)) -> chat_calls (store op).
Proof.
  intros E st. apply (reaches_call call). rewrite E. unfold store, mbind, ST_bind.
  by destruct (op (st_world st)).
Qed.

End reach.

(** The call behind a method. *)
Ltac store_call :=
  match goal with
  | |- chat_calls (store (user_store_register_user ?u ?p)) => by apply (chat_calls_store _ Registration (RegisterUser u p))
  | |- chat_calls (store (user_store_verify_login ?u ?p)) => by apply (chat_calls_store _ Account (VerifyLogin u p))
  | |- chat_calls (store (user_store_find_user_by_username ?u)) =>
      by apply (chat_calls_store _ Account (FindUserByUsername u))
  | |- chat_calls (store (user_store_find_user_by_id ?i)) => by apply (chat_calls_store _ Account (FindUserById i))
  | |- chat_calls (store (group_store_create_group ?n ?o)) =>
      by apply (chat_calls_store _ GroupCreation (StorageDb.CreateGroup n o))
  | |- chat_calls (store (member_store_join_group ?g ?u)) => by apply (chat_calls_store _ Membership (JoinGroup g u))
  | |- chat_calls (store (member_store_leave_group ?g ?u)) => by apply (chat_calls_store _ Membership (LeaveGroup g u))
  | |- chat_calls (store (member_store_is_group_member ?g ?u)) => by apply (chat_calls_store _ Flag (IsGroupMember g u))
  | |- chat_calls (store (member_store_load_group_members ?g)) => by apply (chat_calls_store _ Ids (LoadGroupMembers g))
  | |- chat_calls (store (member_store_load_user_groups ?u)) => by apply (chat_calls_store _ Ids (LoadUserGroups u))
  | |- chat_calls (store (message_store_append ?m)) => by apply (chat_calls_store _ Appended (Append m))
  | |- chat_calls (store (message_store_direct_history_page ?u ?p ?n ?b)) =>
      by apply (chat_calls_store _ Page (DirectHistoryPage u p n b))
  | |- chat_calls (store (message_store_group_history_page ?g ?n ?b)) =>
      by apply (chat_calls_store _ Page (GroupHistoryPage g n b))
  | |- chat_calls (store (message_store_unread_page ?u ?gs ?l ?n)) =>
      by apply (chat_calls_store _ Page (UnreadPage u gs l n))
  end.

(** One step into a handler. *)
Ltac chat_step :=
  match goal with
  | |- chat_calls (mret _) => apply chat_calls_ret
  | |- chat_calls (store _) => store_call
  | |- chat_calls (sessions_get _) => by apply chat_calls_same
  | |- chat_calls (sessions_do _) => by apply chat_calls_same
  | |- chat_calls (log_info _) => by apply chat_calls_same
  | |- chat_calls (log_warn _) => by apply chat_calls_same
  | |- chat_calls (_ ≫= _) => apply chat_calls_bind; [|intros ?]
  | |- chat_calls (let _ := _ in _) => cbv zeta
  | |- chat_calls (match ?x with _ => _ end) => destruct x
  end.

Section handlers.
Context `{Storage}.

Lemma deliver_to_members_calls sender text members delivered out :
  chat_calls (deliver_to_members sender text members delivered out).
Proof.
  revert delivered out. induction members as [|m members IH]; intros d o; cbn [deliver_to_members];
    repeat first [apply IH|chat_step].
Qed.

Lemma name_of_calls i : chat_calls (name_of i).
Proof. unfold name_of. repeat chat_step. Qed.

Lemma group_item_calls i msg : chat_calls (group_item i msg).
Proof. unfold group_item. repeat first [apply name_of_calls|chat_step]. Qed.

Lemma direct_item_calls i msg : chat_calls (direct_item i msg).
Proof. unfold direct_item. repeat first [apply name_of_calls|chat_step]. Qed.

Lemma history_loop_calls item history next out :
  (forall msg, chat_calls (item msg)) -> chat_calls (history_loop item history next out).
Proof.
  intros Hi. revert next out. induction history as [|msg history IH]; intros n o; cbn [history_loop];
    repeat first [apply IH|apply Hi|chat_step].
Qed.

Lemma unread_items_calls i unread next out : chat_calls (unread_items i unread next out).
Proof.
  revert next out. induction unread as [|msg unread IH]; intros n o; cbn [unread_items];
    repeat first [apply IH|apply group_item_calls|apply direct_item_calls|chat_step].
Qed.

Lemma handle_logged_in_calls i sender command : chat_calls (handle_logged_in i sender command).
Proof.
  unfold handle_logged_in, handle_logout, handle_create_group, handle_join_group, handle_leave_group,
    handle_group_message, handle_history, handle_group_history, handle_direct_history,
    handle_direct_message, handle_unread.
  repeat first [apply deliver_to_members_calls|apply unread_items_calls
               |apply history_loop_calls; intros ?|apply group_item_calls|apply direct_item_calls
               |chat_step].
Qed.

Lemma handle_client_line_calls i line : chat_calls (handle_client_line i line).
Proof.
  unfold handle_client_line, handle_command, handle_register, handle_login.
  repeat first [apply handle_logged_in_calls|chat_step].
Qed.
End handlers.

(** All the way through a handler. *)
Ltac chat_walk :=
  repeat first
    [ apply deliver_to_members_calls | apply unread_items_calls | apply history_loop_calls; intros ?
    | apply group_item_calls | apply direct_item_calls | apply name_of_calls
    | apply handle_logged_in_calls | chat_step ].

(** ** The server *)

Section server.
Context `{Storage} `{Kernel} (config_ : ServerConfig).

Abbreviation world s := (st_world (srv_chat s)).

Definition srv_calls {A} (m : ST Server A) : Prop := forall s, reaches (world s) (world (m s).2).

Lemma srv_calls_ret {A} (a : A) : srv_calls (mret a).
Proof. by intros s. Qed.

Lemma srv_calls_bind {A B} (m : ST Server A) (k : A -> ST Server B) :
  srv_calls m -> (forall a, srv_calls (k a)) -> srv_calls (m ≫= k).
Proof.
  intros Hm Hk s. unfold mbind, ST_bind. specialize (Hm s). destruct (m s) as [a s1].
  etransitivity; [exact Hm|apply Hk].
Qed.

Lemma srv_calls_chat {A} (m : ST ChatState A) : chat_calls m -> srv_calls (on_chat m).
Proof. intros Hm s. specialize (Hm (srv_chat s)). unfold on_chat. by destruct (m (srv_chat s)). Qed.

Lemma srv_calls_parts {A} (m : ST Server A) :
  (forall s, srv_chat (m s).2 = srv_chat s) -> srv_calls m.
Proof. intros E s. by rewrite E. Qed.

Lemma srv_calls_system {A} (f : System -> A * System) : srv_calls (on_system f).
Proof. apply srv_calls_parts. intros s. unfold on_system. by destruct (f _). Qed.

Lemma srv_calls_queues {A} (f : Queues -> A * Queues) : srv_calls (on_queues f).
Proof. apply srv_calls_parts. intros s. unfold on_queues. by destruct (f _). Qed.

Lemma srv_calls_pool {A} (f : ThreadPool Task -> A * ThreadPool Task) : srv_calls (on_pool f).
Proof. apply srv_calls_parts. intros s. unfold on_pool. by destruct (f _). Qed.

Lemma srv_calls_log message : srv_calls (TcpServer.info message) /\ srv_calls (TcpServer.warn message).
Proof. split; by apply srv_calls_chat, chat_calls_same. Qed.

Lemma srv_calls_disconnect i : srv_calls (on_chat (handle_disconnect i)).
Proof. by apply srv_calls_chat, chat_calls_same. Qed.

(** One step into a handler. *)
Ltac srv_step :=
  match goal with
  | |- srv_calls (mret _) => apply srv_calls_ret
  | |- srv_calls (reactor _) => by apply srv_calls_parts
  | |- srv_calls (on_reactor _) => by apply srv_calls_parts
  | |- srv_calls (update _ _) => by apply srv_calls_parts
  | |- srv_calls (on_busy _) => by apply srv_calls_parts
  | |- srv_calls (on_queues _) => apply srv_calls_queues
  | |- srv_calls (on_pool _) => apply srv_calls_pool
  | |- srv_calls (on_system _) => apply srv_calls_system
  | |- srv_calls (TcpServer.info _) => apply srv_calls_log
  | |- srv_calls (TcpServer.warn _) => apply srv_calls_log
  | |- srv_calls (warn_overflow _ _ _) => apply srv_calls_log
  | |- srv_calls (on_chat (handle_disconnect _)) => apply srv_calls_disconnect
  | |- srv_calls (on_chat (handle_client_line _ _)) => apply srv_calls_chat, handle_client_line_calls
  | |- srv_calls (_ ≫= _) => apply srv_calls_bind; [|intros ?]
  | |- srv_calls (let _ := _ in _) => cbv zeta
  | |- srv_calls (match ?x with _ => _ end) => destruct x
  end.

Lemma close_connection_calls i : srv_calls (close_connection i).
Proof. unfold close_connection, sys_close. repeat srv_step. Qed.

Lemma close_client_calls fd : srv_calls (close_client fd).
Proof. unfold close_client, sys_close. repeat first [apply close_connection_calls|srv_step]. Qed.

Lemma set_write_mode_calls fd b : srv_calls (set_write_mode fd b).
Proof. unfold set_write_mode. repeat srv_step. Qed.

Lemma send_to_client_calls c data : srv_calls (send_to_client config_ c data).
Proof.
  unfold send_to_client, sys_send_all, note_accepted.
  repeat first [apply set_write_mode_calls|srv_step].
Qed.

Lemma flush_write_buffer_calls fd : srv_calls (flush_write_buffer fd).
Proof.
  unfold flush_write_buffer, sys_send_all.
  repeat first [apply set_write_mode_calls|apply close_connection_calls|srv_step].
Qed.

Lemma close_requests_calls pending : srv_calls (close_requests pending).
Proof.
  induction pending as [|q pending IH]; cbn [close_requests];
    repeat first [apply IH|apply close_connection_calls|srv_step].
Qed.

Lemma deliver_responses_calls pending : srv_calls (deliver_responses config_ pending).
Proof.
  induction pending as [|q pending IH]; cbn [deliver_responses]; unfold deliver_response;
    repeat first [apply IH|apply close_connection_calls|apply send_to_client_calls|srv_step].
Qed.

Lemma drain_responses_calls : srv_calls (drain_responses config_).
Proof.
  unfold drain_responses, drain_close_requests.
  repeat first [apply close_requests_calls|apply deliver_responses_calls|srv_step].
Qed.

Lemma accept_connections_calls answers now : srv_calls (accept_connections answers now).
Proof.
  induction answers as [|[fd peer [e|]|e] answers IH]; cbn [accept_connections]; unfold sys_accept, sys_close;
    repeat first [apply IH|srv_step].
Qed.

Lemma handle_client_read_calls fd socket now : srv_calls (handle_client_read config_ fd socket now).
Proof.
  unfold handle_client_read. repeat first [apply close_client_calls|srv_step].
Qed.

Lemma handle_ready_calls event now : srv_calls (handle_ready config_ event now).
Proof.
  unfold handle_ready, drain_wake_events.
  repeat first [apply accept_connections_calls|apply drain_responses_calls|apply close_client_calls
               |apply handle_client_read_calls|apply flush_write_buffer_calls|srv_step].
Qed.

Lemma check_heartbeats_calls now : srv_calls (check_heartbeats config_ now).
Proof.
  unfold check_heartbeats. apply srv_calls_bind; [by apply srv_calls_parts|]. intros ids.
  induction ids as [|i ids IH]; cbn [close_timed_out];
    repeat first [apply IH|apply close_connection_calls|srv_step].
Qed.

Lemma worker_packet_calls i : srv_calls (worker_packet config_ i).
Proof.
  intros s. unfold worker_packet. destruct (srv_busy s !! i) as [task|]; [|done].
  destruct (task_packets task) as [|p ps]; [done|]. cbv zeta. revert s.
  change (srv_calls (on_busy (fun busy => <[i := mkTask (task_connection_id task) (task_generation task) ps]> busy);;
    process_packet_async config_ (task_connection_id task) (task_generation task) (payload p))).
  unfold process_packet_async, wake_event_loop. repeat srv_step.
Qed.

Lemma server_event_calls e : srv_calls (run_server_event config_ e).
Proof.
  destruct e; cbn [run_server_event];
    [apply handle_ready_calls|apply drain_responses_calls|apply check_heartbeats_calls| |apply worker_packet_calls].
  apply srv_calls_parts. intros s. unfold worker_take. by destruct (worker_next _).
Qed.

(** Every history of the server is a sequence of store calls. *)
Lemma run_server_calls events : srv_calls (run_server config_ events).
Proof.
  induction events as [|e events IH]; cbn [run_server]; [apply srv_calls_ret|].
  apply srv_calls_bind; [apply server_event_calls|]. by intros _.
Qed.

Lemma stop_connections_calls : srv_calls stop_connections.
Proof.
  unfold stop_connections. apply srv_calls_bind; [by apply srv_calls_parts|]. intros ids.
  induction ids as [|i ids IH]; cbn [close_all];
    repeat first [apply IH|apply close_connection_calls|srv_step].
Qed.
End server.

(** ** From [start] to [stop] *)

Section process.
Context `{Storage} `{Kernel} `{Sockets} (config_ : ServerConfig).

Definition proc_calls {A} (m : ST Process A) : Prop := forall p,
  reaches (st_world (srv_chat (pr_server p))) (st_world (srv_chat (pr_server (m p).2))).

Lemma proc_calls_ret {A} (a : A) : proc_calls (mret a).
Proof. by intros p. Qed.

Lemma proc_calls_bind {A B} (m : ST Process A) (k : A -> ST Process B) :
  proc_calls m -> (forall a, proc_calls (k a)) -> proc_calls (m ≫= k).
Proof.
  intros Hm Hk p. unfold mbind, ST_bind. specialize (Hm p). destruct (m p) as [a p1].
  etransitivity; [exact Hm|apply Hk].
Qed.

Lemma proc_calls_server {A} (m : ST Server A) : srv_calls m -> proc_calls (on_server m).
Proof. intros Hm p. specialize (Hm (pr_server p)). unfold on_server. by destruct (m (pr_server p)). Qed.

Lemma proc_calls_os {A} (m : ST Os A) : proc_calls (on_os m).
Proof. intros p. unfold on_os. by destruct (m (pr_os p)). Qed.

Lemma proc_calls_log message : proc_calls (log_error message) /\ proc_calls (log_line_info message).
Proof. split; by apply proc_calls_server, srv_calls_chat, chat_calls_same. Qed.

Ltac proc_step :=
  match goal with
  | |- proc_calls (mret _) => apply proc_calls_ret
  | |- proc_calls (failing _) => unfold failing
  | |- proc_calls (log_error _) => apply proc_calls_log
  | |- proc_calls (log_line_info _) => apply proc_calls_log
  | |- proc_calls (on_os _) => apply proc_calls_os
  | |- proc_calls (gets _) => by intros ?
  | |- proc_calls (set_listen_fd _) => by intros ?
  | |- proc_calls (set_epoll_fd _) => by intros ?
  | |- proc_calls (set_wake_fd _) => by intros ?
  | |- proc_calls (set_running _) => by intros ?
  | |- proc_calls (_ ≫= _) => apply proc_calls_bind; [|intros ?]
  | |- proc_calls (match ?x with _ => _ end) => destruct x
  end.

Lemma setup_listener_calls : proc_calls (setup_listener config_).
Proof. unfold setup_listener, setup_epoll, set_non_blocking. repeat proc_step. Qed.

Lemma loop_turn_calls events now : srv_calls (loop_turn config_ events now).
Proof. intros s. rewrite loop_turn_events. apply run_server_calls. Qed.

Lemma run_event_loop_calls polls : proc_calls (run_event_loop config_ polls).
Proof.
  induction polls as [|[e|events now| |i] polls IH]; cbn [run_event_loop];
    repeat first [apply IH|apply proc_calls_server, loop_turn_calls
                 |apply proc_calls_server, (server_event_calls config_ EvTake)
                 |apply proc_calls_server, worker_packet_calls|proc_step].
Qed.

Lemma stop_calls : proc_calls stop.
Proof.
  unfold stop, close_descriptor.
  repeat first [apply proc_calls_server, stop_connections_calls|proc_step].
Qed.

Lemma start_calls polls : proc_calls (start config_ polls).
Proof.
  unfold start.
  repeat first [apply setup_listener_calls|apply stop_calls|apply run_event_loop_calls|proc_step].
Qed.
End process.
