(* ===== verification/ServiceRefinement.v ===== *)
(** * ServiceRefinement: the service does not see which stores it runs on

    Two [Storage] instances whose calls answer alike, up to the creation times
    of messages, give the clients the same responses, up to the times printed
    in history items.  With [StorageRefinement.v]: the service on a database
    that works responds as the service in memory mode, for which
    [ChatTheorems.v] states what is responded. *)

From S2P Require Import Prelude.
From S2P Require Import Message.
From S2P Require Import SqlTables.
From S2P Require Import MySqlClient.
From S2P Require Import MySqlTables.
From S2P Require Import MySqlConnectionPool.
From S2P Require Import PoolServe.
From S2P Require Import ToyServer.
From S2P Require Import ServerConfig.
From S2P Require Import SessionManager.
From S2P Require Import UserStore.
From S2P Require Import MessageStore.
From S2P Require Import TableRefinement.
From S2P Require Import MessageRefinement.
From S2P Require Import Storage.
From S2P Require Import StorageDb.
From S2P Require Import StorageRefinement.
From S2P Require Import Startup.
From S2P Require Import Log.
From S2P Require Import ChatService.
From S2P Require Import ChatSpec.
From S2P Require Import ChatTheorems.
From S2P Require Import ServerCalls.
Open Scope N_scope.

(** ** What is compared *)

(** The responses to each event of a history. *)
Fixpoint replies `{Storage} (es : list event) : ST ChatState (list (list OutboundMessage)) :=
  match es with
  | [] => mret []
  | Line connection line :: es =>
      out ← handle_client_line connection line; rest ← replies es; mret (out :: rest)
  | Disconnect connection :: es =>
      handle_disconnect connection;; rest ← replies es; mret ([] :: rest)
  end.

Lemma replies_calls `{Storage} es : chat_calls (replies es).
Proof.
  induction es as [|[connection line|connection] es IH]; cbn [replies];
    repeat first [apply IH|apply handle_client_line_calls|apply chat_calls_same; done|chat_step].
Qed.

(** The answer of a call, with what [view] leaves of its messages. *)
Definition view_answer (view : StoredMessage -> StoredMessage) (a : StoreAnswer) : StoreAnswer :=
  match a with
  | Page l => Page (map view l)
  | _ => a
  end.

(** [view] looks at everything but the creation time. *)
Record untimed (view : StoredMessage -> StoredMessage) : Prop := {
  untimed_id a : stored_id (view a) = stored_id a;
  untimed_type a : stored_type (view a) = stored_type a;
  untimed_sender a : stored_sender_id (view a) = stored_sender_id a;
  untimed_receiver a : stored_receiver_id (view a) = stored_receiver_id a;
  untimed_body a : stored_body (view a) = stored_body a;
}.

(** The item of a message in a history or an unread response. *)
Definition item_of (connection : N) (kind from to : bytes) (msg : StoredMessage) : OutboundMessage :=
  mkOutbound connection
    (format_history_item (stored_id msg) kind from to (stored_body msg) (stored_created_at msg)) false.

(** ** Two instances *)

Section relate.
Context (S1 S2 : Storage) (RW : @World S1 -> @World S2 -> Prop) (good : @World S2 -> Prop).
Context (view : StoredMessage -> StoredMessage) (same : OutboundMessage -> OutboundMessage -> Prop).
Context (Hview : untimed view) {same_refl : Reflexive same}.

(** [good] states are only reached from good ones, and into good states the
    calls answer alike. *)
Hypothesis good_back : forall c w, good (@perform S2 c w).2 -> good w.
Hypothesis answers_alike : forall c w1 w2, RW w1 w2 -> good (@perform S2 c w2).2 ->
  view_answer view (@perform S1 c w1).1 = view_answer view (@perform S2 c w2).1 /\
  RW (@perform S1 c w1).2 (@perform S2 c w2).2.

(** Messages that look the same have the same items. *)
Hypothesis items_alike : forall connection kind from to a b,
  view a = view b -> same (item_of connection kind from to a) (item_of connection kind from to b).

Abbreviation same_responses := (Forall2 same).

Definition same_page (a b : list StoredMessage) : Prop := map view a = map view b.

Lemma same_page_cons a b l l' : same_page (a :: l) (b :: l') -> view a = view b /\ same_page l l'.
Proof.
  intros E. split; [|exact (f_equal tail E)]. apply (inj Some). exact (f_equal head E).
Qed.

Lemma view_fields a b : view a = view b ->
  stored_id a = stored_id b /\ stored_type a = stored_type b /\ stored_sender_id a = stored_sender_id b /\
  stored_receiver_id a = stored_receiver_id b /\ stored_body a = stored_body b.
Proof.
  destruct Hview as [V1 V2 V3 V4 V5]. intros E.
  rewrite <- (V1 a), <- (V2 a), <- (V3 a), <- (V4 a), <- (V5 a), E. by rewrite V1, V2, V3, V4, V5.
Qed.

Record alike (st1 : @ChatState S1) (st2 : @ChatState S2) : Prop := {
  alike_sessions : st_sessions st1 = st_sessions st2;
  alike_logged : st_logged st1 = st_logged st2;
  alike_world : RW (st_world st1) (st_world st2);
}.

Lemma reaches_good w w' : reaches w w' -> good w' -> good w.
Proof.
  intros [calls <-]. revert w. induction calls as [|c calls IH]; intros w; [done|].
  cbn [run_calls]. unfold mbind, ST_bind. specialize (IH (@perform S2 c w).2).
  pose proof (good_back c w) as Hb. destruct (@perform S2 c w) as [r w1]. cbn [fst snd] in *.
  destruct (run_calls calls w1). intros Hg. by apply Hb, IH.
Qed.

(** From states that are alike, into a good one. *)
Definition related {A B} (R : A -> B -> Prop) (m1 : ST (@ChatState S1) A) (m2 : ST (@ChatState S2) B) : Prop :=
  forall st1 st2, alike st1 st2 -> good (st_world (m2 st2).2) ->
    R (m1 st1).1 (m2 st2).1 /\ alike (m1 st1).2 (m2 st2).2.

Lemma related_ret {A B} (R : A -> B -> Prop) a b : R a b -> related R (mret a) (mret b).
Proof. by intros HR st1 st2 Hs _. Qed.

Lemma related_bind {A B A' B'} (R : A -> B -> Prop) (R' : A' -> B' -> Prop) m1 m2 k1 k2 :
  related R m1 m2 -> (forall b, chat_calls (k2 b)) ->
  (forall a b, R a b -> related R' (k1 a) (k2 b)) -> related R' (m1 ≫= k1) (m2 ≫= k2).
Proof.
  intros Hm Hc Hk st1 st2 Hs. unfold mbind, ST_bind. specialize (Hm st1 st2 Hs).
  destruct (m1 st1) as [a st1'], (m2 st2) as [b st2']. cbn [fst snd] in *. intros Hg.
  destruct Hm as [Hr Hs']; [|by apply Hk]. exact (reaches_good _ _ (Hc b st2') Hg).
Qed.

Lemma related_bind_eq {A A' B'} (R' : A' -> B' -> Prop) (m1 : ST (@ChatState S1) A) m2 k1 k2 :
  related eq m1 m2 -> (forall b, chat_calls (k2 b)) ->
  (forall a, related R' (k1 a) (k2 a)) -> related R' (m1 ≫= k1) (m2 ≫= k2).
Proof. intros Hm Hc Hk. eapply related_bind; [exact Hm|done|]. by intros a b ->. Qed.

Lemma related_store {A} (R : A -> A -> Prop) (op1 : ST (@World S1) A) (op2 : ST (@World S2) A)
    (f : A -> StoreAnswer) (call : StoreCall) :
  @perform S1 call = (r ← op1; mret (f r)) -> @perform S2 call = (r ← op2; mret (f r)) ->
  (forall a b, view_answer view (f a) = view_answer view (f b) -> R a b) ->
  related R (store op1) (store op2).
Proof.
  intros E1 E2 HR st1 st2 [Es El Ew]. pose proof (answers_alike call _ _ Ew) as Ha.
  rewrite E1, E2 in Ha. unfold store, mbind, ST_bind in *.
  destruct (op1 (st_world st1)) as [a w1], (op2 (st_world st2)) as [b w2]. cbn in *. intros Hg.
  destruct (Ha Hg) as [Ht Hw]. split; [by apply HR|by split].
Qed.

Lemma related_get {A} (f : SessionManager -> A) : related eq (sessions_get f) (sessions_get f).
Proof. intros st1 st2 [Es El Ew] _. unfold sessions_get. simpl. by rewrite Es. Qed.

Lemma related_do f : related eq (sessions_do f) (sessions_do f).
Proof. intros st1 st2 [Es El Ew] _. split; [done|]. split; simpl; congruence. Qed.

Lemma related_log level message : related eq (log_write level message) (log_write level message).
Proof. intros st1 st2 [Es El Ew] _. split; [done|]. split; simpl; congruence. Qed.

(** *** Handlers *)

Ltac same_answer := let E := fresh in intros ? ? E; by injection E.

Ltac related_call :=
  match goal with
  | |- related eq (store (user_store_register_user ?u ?p)) _ =>
      by apply (related_store eq _ _ Registration (RegisterUser u p)); [done|done|same_answer]
  | |- related eq (store (user_store_verify_login ?u ?p)) _ =>
      by apply (related_store eq _ _ Account (VerifyLogin u p)); [done|done|same_answer]
  | |- related eq (store (user_store_find_user_by_username ?u)) _ =>
      by apply (related_store eq _ _ Account (FindUserByUsername u)); [done|done|same_answer]
  | |- related eq (store (user_store_find_user_by_id ?i)) _ =>
      by apply (related_store eq _ _ Account (FindUserById i)); [done|done|same_answer]
  | |- related eq (store (group_store_create_group ?n ?o)) _ =>
      by apply (related_store eq _ _ GroupCreation (StorageDb.CreateGroup n o)); [done|done|same_answer]
  | |- related eq (store (member_store_join_group ?g ?u)) _ =>
      by apply (related_store eq _ _ Membership (JoinGroup g u)); [done|done|same_answer]
  | |- related eq (store (member_store_leave_group ?g ?u)) _ =>
      by apply (related_store eq _ _ Membership (LeaveGroup g u)); [done|done|same_answer]
  | |- related eq (store (member_store_is_group_member ?g ?u)) _ =>
      by apply (related_store eq _ _ Flag (IsGroupMember g u)); [done|done|same_answer]
  | |- related eq (store (member_store_load_group_members ?g)) _ =>
      by apply (related_store eq _ _ Ids (LoadGroupMembers g)); [done|done|same_answer]
  | |- related eq (store (member_store_load_user_groups ?u)) _ =>
      by apply (related_store eq _ _ Ids (LoadUserGroups u)); [done|done|same_answer]
  | |- related eq (store (message_store_append ?m)) _ =>
      by apply (related_store eq _ _ Appended (Append m)); [done|done|same_answer]
  | |- related same_page (store (message_store_direct_history_page ?u ?p ?n ?b)) _ =>
      by apply (related_store same_page _ _ Page (DirectHistoryPage u p n b)); [done|done|same_answer]
  | |- related same_page (store (message_store_group_history_page ?g ?n ?b)) _ =>
      by apply (related_store same_page _ _ Page (GroupHistoryPage g n b)); [done|done|same_answer]
  | |- related same_page (store (message_store_unread_page ?u ?gs ?l ?n)) _ =>
      by apply (related_store same_page _ _ Page (UnreadPage u gs l n)); [done|done|same_answer]
  end.

(** One step into both sides of a handler. *)
Ltac related_step :=
  match goal with
  | |- related _ (mret _) (mret _) => apply related_ret
  | |- related _ (store _) (store _) => related_call
  | |- related _ (sessions_get _) _ => apply related_get
  | |- related _ (sessions_do _) _ => apply related_do
  | |- related _ (log_info _) _ => apply related_log
  | |- related _ (log_warn _) _ => apply related_log
  | |- related _ (_ ≫= _) (_ ≫= _) =>
      eapply related_bind_eq; [solve [repeat related_step]|intros ?; by chat_walk|intros ?]
  | |- related _ (let _ := _ in _) _ => cbv zeta
  | |- related _ (match ?x with _ => _ end) _ => destruct x
  end.

Lemma deliver_to_members_related sender text members delivered out :
  related eq (@deliver_to_members S1 sender text members delivered out)
    (@deliver_to_members S2 sender text members delivered out).
Proof.
  revert delivered out. induction members as [|m members IH]; intros d o; cbn [deliver_to_members];
    repeat first [apply IH|related_step]; done.
Qed.

Lemma name_of_related i : related eq (@name_of S1 i) (@name_of S2 i).
Proof. unfold name_of. repeat related_step; done. Qed.

Lemma group_item_related connection a b : view a = view b ->
  related same (@group_item S1 connection a) (@group_item S2 connection b).
Proof.
  intros E. pose proof (view_fields a b E) as (_ & _ & E3 & E4 & _). unfold group_item. rewrite E3, E4.
  eapply related_bind_eq; [apply name_of_related|intros ?; chat_walk|]. intros from.
  apply related_ret. by apply items_alike.
Qed.

Lemma direct_item_related connection a b : view a = view b ->
  related same (@direct_item S1 connection a) (@direct_item S2 connection b).
Proof.
  intros E. pose proof (view_fields a b E) as (_ & _ & E3 & E4 & _). unfold direct_item. rewrite E3, E4.
  eapply related_bind_eq; [apply name_of_related|intros ?; chat_walk|]. intros from.
  eapply related_bind_eq; [apply name_of_related|intros ?; chat_walk|]. intros to.
  apply related_ret. by apply items_alike.
Qed.

(** The number and the responses of a loop. *)
Definition same_items (x y : N * list OutboundMessage) : Prop := x.1 = y.1 /\ same_responses x.2 y.2.

Lemma history_loop_related item1 item2 (l1 l2 : list StoredMessage) next out1 out2 :
  (forall a b, view a = view b -> related same (item1 a) (item2 b)) ->
  (forall b, chat_calls (item2 b)) ->
  same_page l1 l2 -> same_responses out1 out2 ->
  related same_items (@history_loop S1 item1 l1 next out1) (@history_loop S2 item2 l2 next out2).
Proof.
  intros Hi Hc. revert l2 next out1 out2. induction l1 as [|a l1 IH]; intros [|b l2] next out1 out2 Hp Ho;
    try discriminate Hp; cbn [history_loop].
  - by apply related_ret.
  - apply same_page_cons in Hp as [Hab Hp]. pose proof (view_fields a b Hab) as (-> & _).
    eapply related_bind; [by apply Hi|intros ?; by apply history_loop_calls|]. intros x y Hxy.
    apply IH; [done|]. apply Forall2_app; [done|by constructor].
Qed.

Lemma unread_items_related connection (l1 l2 : list StoredMessage) next out1 out2 :
  same_page l1 l2 -> same_responses out1 out2 ->
  related same_items (@unread_items S1 connection l1 next out1) (@unread_items S2 connection l2 next out2).
Proof.
  revert l2 next out1 out2. induction l1 as [|a l1 IH]; intros [|b l2] next out1 out2 Hp Ho;
    try discriminate Hp; cbn [unread_items].
  - by apply related_ret.
  - apply same_page_cons in Hp as [Hab Hp]. pose proof (view_fields a b Hab) as (-> & -> & _).
    eapply (related_bind same).
    + case_bool_decide; [by apply group_item_related|by apply direct_item_related].
    + intros ?. chat_walk.
    + intros x y Hxy. apply IH; [done|]. apply Forall2_app; [done|by constructor].
Qed.

Lemma related_responses m1 m2 : related eq m1 m2 -> related same_responses m1 m2.
Proof.
  intros Hm st1 st2 Hs Hg. destruct (Hm st1 st2 Hs Hg) as [-> Ha]. split; [|done].
  reflexivity.
Qed.

Lemma same_page_length l l' : same_page l l' -> length l = length l'.
Proof. intros E. by rewrite <- (length_map view l), E, length_map. Qed.

Lemma same_page_reverse l l' : same_page l l' -> same_page (reverse l) (reverse l').
Proof.
  intros E. unfold same_page in *. change (map view) with (fmap (M:=list) view) in *. by rewrite !fmap_reverse, E.
Qed.

Lemma handle_group_message_related connection sender command :
  related eq (@handle_group_message S1 connection sender command)
    (@handle_group_message S2 connection sender command).
Proof.
  unfold handle_group_message.
  repeat first [eapply related_bind_eq; [apply deliver_to_members_related|intros ?; by chat_walk|intros ?]
               |related_step]; done.
Qed.

Lemma handle_group_history_related connection sender command :
  related same_responses (@handle_group_history S1 connection sender command)
    (@handle_group_history S2 connection sender command).
Proof.
  unfold handle_group_history. cbv zeta. related_step. destruct (negb a); [by apply related_ret|].
  eapply (related_bind same_page); [related_call|intros ?; by chat_walk|]. intros l1 l2 Hl.
  rewrite !length_reverse, (same_page_length _ _ Hl).
  eapply related_bind; [apply history_loop_related|intros ?; by chat_walk|].
  - intros x y. apply group_item_related.
  - intros x. chat_walk.
  - by apply same_page_reverse.
  - constructor.
  - intros [n1 o1] [n2 o2] [En Ho]. simpl in *. subst. apply related_ret. by apply Forall2_app.
Qed.

Lemma handle_direct_history_related connection sender command :
  related same_responses (@handle_direct_history S1 connection sender command)
    (@handle_direct_history S2 connection sender command).
Proof.
  unfold handle_direct_history. cbv zeta. related_step. destruct a as [peer|]; [|by apply related_ret].
  eapply (related_bind same_page); [related_call|intros ?; by chat_walk|]. intros l1 l2 Hl.
  rewrite !length_reverse, (same_page_length _ _ Hl).
  eapply related_bind; [apply history_loop_related|intros ?; by chat_walk|].
  - intros x y. apply direct_item_related.
  - intros x. chat_walk.
  - by apply same_page_reverse.
  - constructor.
  - intros [n1 o1] [n2 o2] [En Ho]. simpl in *. subst. apply related_ret. by apply Forall2_app.
Qed.

Lemma handle_unread_related connection sender command :
  related same_responses (@handle_unread S1 connection sender command)
    (@handle_unread S2 connection sender command).
Proof.
  unfold handle_unread. cbv zeta. related_step.
  eapply (related_bind same_page); [related_call|intros ?; by chat_walk|]. intros l1 l2 Hl.
  rewrite (same_page_length _ _ Hl).
  eapply related_bind; [apply unread_items_related; [done|constructor]|intros ?; by chat_walk|].
  intros [n1 o1] [n2 o2] [En Ho]. simpl in *. subst. apply related_ret. by apply Forall2_app.
Qed.

Lemma handle_logged_in_related connection sender command :
  related same_responses (@handle_logged_in S1 connection sender command)
    (@handle_logged_in S2 connection sender command).
Proof.
  unfold handle_logged_in, handle_history, handle_logout, handle_create_group, handle_join_group,
    handle_leave_group, handle_direct_message.
  destruct (cmd_type command); try (case_if; [apply handle_group_history_related|apply handle_direct_history_related]);
    first [apply handle_unread_related
          |apply related_responses; first [apply handle_group_message_related|repeat related_step; done]].
Qed.

Lemma handle_client_line_related connection line :
  related same_responses (@handle_client_line S1 connection line) (@handle_client_line S2 connection line).
Proof.
  unfold handle_client_line, handle_command, handle_register, handle_login.
  destruct (parse_client_command line default_command []) as [[[] command] error].
  - destruct (cmd_type command); try (apply related_responses; repeat related_step; done);
      (related_step; destruct a as [sender|]; [apply handle_logged_in_related|by apply related_ret]).
  - apply related_responses. repeat related_step; done.
Qed.

Lemma replies_related es : related (Forall2 same_responses) (@replies S1 es) (@replies S2 es).
Proof.
  induction es as [|[connection line|connection] es IH]; cbn [replies]; [by apply related_ret|..].
  - eapply related_bind; [apply handle_client_line_related|intros ?|intros o1 o2 Ho].
    { apply chat_calls_bind; [apply replies_calls|]. intros ?. apply chat_calls_ret. }
    eapply related_bind; [apply IH|intros ?; apply chat_calls_ret|intros r1 r2 Hr].
    apply related_ret. by constructor.
  - eapply related_bind_eq; [apply related_do|intros ?|intros []].
    { apply chat_calls_bind; [apply replies_calls|]. intros ?. apply chat_calls_ret. }
    eapply related_bind; [apply IH|intros ?; apply chat_calls_ret|intros r1 r2 Hr].
    apply related_ret. by constructor.
Qed.
End relate.

(** ** The memory mode with a record of its calls *)

Definition traced `{OpenSSL} {A} (call : StoreCall) (op : ST MemoryWorld A) :
    ST (MemoryWorld * list StoreCall) A := fun '(m, calls) =>
  let '(a, m') := op m in (a, (m', calls ++ [call])).

Definition traced_storage `{OpenSSL} : Storage := {|
  World := MemoryWorld * list StoreCall;
  user_store_register_user u p := traced (RegisterUser u p) (@user_store_register_user memory_storage u p);
  user_store_verify_login u p := traced (VerifyLogin u p) (@user_store_verify_login memory_storage u p);
  user_store_find_user_by_username u :=
    traced (FindUserByUsername u) (@user_store_find_user_by_username memory_storage u);
  user_store_find_user_by_id i := traced (FindUserById i) (@user_store_find_user_by_id memory_storage i);
  group_store_create_group name owner :=
    traced (StorageDb.CreateGroup name owner) (@group_store_create_group memory_storage name owner);
  member_store_join_group g u := traced (JoinGroup g u) (@member_store_join_group memory_storage g u);
  member_store_leave_group g u := traced (LeaveGroup g u) (@member_store_leave_group memory_storage g u);
  member_store_is_group_member g u :=
    traced (IsGroupMember g u) (@member_store_is_group_member memory_storage g u);
  member_store_load_group_members g :=
    traced (LoadGroupMembers g) (@member_store_load_group_members memory_storage g);
  member_store_load_user_groups u :=
    traced (LoadUserGroups u) (@member_store_load_user_groups memory_storage u);
  message_store_append msg := traced (Append msg) (@message_store_append memory_storage msg);
  message_store_direct_history_page u p limit before :=
    traced (DirectHistoryPage u p limit before)
      (@message_store_direct_history_page memory_storage u p limit before);
  message_store_group_history_page g limit before :=
    traced (GroupHistoryPage g limit before)
      (@message_store_group_history_page memory_storage g limit before);
  message_store_unread_page u gs last limit :=
    traced (UnreadPage u gs last limit) (@message_store_unread_page memory_storage u gs last limit);
|}.

Lemma perform_traced `{OpenSSL} c m calls :
  @perform traced_storage c (m, calls) =
    ((@perform memory_storage c m).1, ((@perform memory_storage c m).2, calls ++ [c])).
Proof.
  assert (Hop : forall A (op : ST MemoryWorld A) (f : A -> StoreAnswer),
    (r ← traced c op; mret (f r)) (m, calls) =
      (((r ← op; mret (f r)) m).1, (((r ← op; mret (f r)) m).2, calls ++ [c]))).
  { intros A op f. unfold mbind, ST_bind, traced. by destruct (op m). }
  destruct c; apply Hop.
Qed.

(** The calls the service makes in memory mode. *)
Definition calls_made `{OpenSSL} (es : list event) (e : Entropy) : list StoreCall :=
  (st_world (@replies traced_storage es
     (@mkChatState traced_storage no_sessions (memory_start e, []) [])).2).2.

(** The service of a server that starts on a database. *)
Definition service_on `{OpenSSL} `{MySql} (db : Db) (e : Entropy) : @ChatState mysql_storage :=
  @mkChatState mysql_storage no_sessions (mkMySqlWorld _ _ no_messages db e) [].

Section service.
Context `{Hssl : OpenSSL, Hspecs : !OpenSSLSpec, Hview : MySqlView, Hprot : !MySqlProtocol,
          Htext : SqlText, Htexts : !SqlTextSpec, Htab : !MySqlTables, Hspec : !MySqlTablesSpec}.

(** The same response, or the same history item but for its time. *)
Definition same_but_time (a b : OutboundMessage) : Prop :=
  a = b \/ exists connection id kind from to body t t',
    a = mkOutbound connection (format_history_item id kind from to body t) false /\
    b = mkOutbound connection (format_history_item id kind from to body t') false.

#[export] Instance same_but_time_refl : Reflexive same_but_time.
Proof. by left. Qed.

Lemma admissible_run_app m xs ys :
  admissible_run m (xs ++ ys) <-> admissible_run m xs /\ admissible_run (@run_calls memory_storage xs m).2 ys.
Proof.
  revert m. induction xs as [|x xs IH]; intros m; cbn [app admissible_run run_calls]; [tauto|].
  rewrite IH. unfold mbind, ST_bind. destruct (@perform memory_storage x m) as [r m1]. cbn [snd].
  destruct (@run_calls memory_storage xs m1). simpl. tauto.
Qed.

Lemma untimed_timeless : untimed timeless.
Proof. by split; intros []. Qed.

Lemma view_timeless a : view_answer timeless a = timeless_answer a.
Proof. by destruct a. Qed.

Lemma timeless_answer_twice a : timeless_answer (timeless_answer a) = timeless_answer a.
Proof. destruct a; try done. simpl. by rewrite map_map. Qed.

(** A database that works, and the trace of the memory mode so far. *)
Definition traces (m0 : MemoryWorld) (w : MySqlWorld) (x : MemoryWorld * list StoreCall) : Prop :=
  same_store w x.1 /\ x.1 = (@run_calls memory_storage x.2 m0).2.

Lemma run_calls_snoc calls c m :
  (@run_calls memory_storage (calls ++ [c]) m).2 =
    (@perform memory_storage c (@run_calls memory_storage calls m).2).2.
Proof.
  rewrite run_calls_app. cbn [run_calls]. unfold mbind, ST_bind.
  by destruct (@perform memory_storage c _) as [r w].
Qed.

Lemma database_alike m0 c w x :
  traces m0 w x -> admissible_run m0 (@perform traced_storage c x).2.2 ->
  view_answer timeless (@perform mysql_storage c w).1 = view_answer timeless (@perform traced_storage c x).1 /\
  traces m0 (@perform mysql_storage c w).2 (@perform traced_storage c x).2.
Proof.
  destruct x as [m calls]. rewrite perform_traced. intros [Hs Em] Hadm. cbn [fst snd] in *.
  apply admissible_run_app in Hadm as [_ [Hc _]]. rewrite <- Em in Hc.
  destruct (perform_simulated c w m Hs Hc) as [Ha Hs'].
  rewrite !view_timeless, <- Ha, timeless_answer_twice. split; [done|]. split; [done|].
  cbn [fst snd]. by rewrite run_calls_snoc, <- Em.
Qed.

Lemma memory_alike c (m : MemoryWorld) (x : MemoryWorld * list StoreCall) :
  m = x.1 -> True ->
  view_answer id (@perform memory_storage c m).1 = view_answer id (@perform traced_storage c x).1 /\
  (@perform memory_storage c m).2 = (@perform traced_storage c x).2.1.
Proof. destruct x as [m' calls]. rewrite (perform_traced c m' calls). by intros -> _. Qed.

(** C4: The service on a database that works responds to every history of the
    clients as the service in memory mode does, except for the times in history
    items, and its sessions are the same: so what is proved of the responses in
    memory mode holds in production, as long as the store calls are admissible. *)
Theorem service_on_database (config : ServerConfig) (c : Client) (e : Entropy) (es : list event) :
  handles c = ∅ -> healthy c -> tables c = empty_database ->
  ready (started config c) = true ->
  admissible_run (memory_start e) (calls_made es e) ->
  Forall2 (Forall2 same_but_time)
    (@replies mysql_storage es (service_on (started config c) e)).1
    (@replies memory_storage es (chat_start e)).1 /\
  st_sessions (@replies mysql_storage es (service_on (started config c) e)).2 =
    st_sessions (@replies memory_storage es (chat_start e)).2.
Proof.
  intros Eh Hc Et Hready Hadm. set (x := @mkChatState traced_storage no_sessions (memory_start e, []) []).
  assert (Hmem : (@replies memory_storage es (chat_start e)).1 = (@replies traced_storage es x).1 /\
    st_sessions (@replies memory_storage es (chat_start e)).2 = st_sessions (@replies traced_storage es x).2).
  { destruct (replies_related memory_storage traced_storage (fun m x => m = x.1) (fun _ => True) id eq
      ltac:(by split) ltac:(done) memory_alike ltac:(by intros ? ? ? ? a b E; cbv [id] in E; subst)
      es (chat_start e) x)
      as [Hr [Hs _ _]]; [by split|done|]. split; [|done].
    clear -Hr. induction Hr as [|o o' l l' Ho _ IH]; [done|]. f_equal; [|done].
    by apply list_eq_Forall2. }
  destruct Hmem as [-> ->].
  destruct (started_serviceable config c Eh Hc) as [Hs Ets]; [by rewrite Et|done|].
  destruct (replies_related mysql_storage traced_storage (traces (memory_start e))
    (fun x => admissible_run (memory_start e) x.2) timeless same_but_time untimed_timeless)
    with (es := es) (st1 := service_on (started config c) e) (st2 := x) as [Hr [Hse _ _]].
  - intros call [m calls]. rewrite (perform_traced call m calls). by intros [? _]%admissible_run_app.
  - apply database_alike.
  - intros connection kind from to a b E. right.
    destruct a, b. injection E as -> -> -> -> ->. by repeat eexists.
  - split; [done|done|]. split; [|done]. cbn [st_world service_on x fst]. split; simpl; try done.
    rewrite Ets, Et. apply empty_refined.
  - exact Hadm.
  - done.
Qed.
End service.

(** ** A history on a server that compares names ignoring case *)

(** The sample history, and what Bob reads afterwards. *)
Definition read_events : list event :=
  sample_events ++ [Line 2 (encode_request (ReqUnread None None));
    Line 2 (encode_request (ReqGroupHistory 1 None None)); Disconnect 1].

Abbreviation production :=
  (@service_on toy_openssl (@toy_mysql folding_text)
     (@started (@toy_mysql folding_text) default_config (toy_client empty_database true)) tt).

Lemma service_on_database_witness :
  Forall2 (Forall2 same_but_time)
    (@replies (@mysql_storage toy_openssl (@toy_mysql folding_text)) read_events production).1
    (@replies (@memory_storage toy_openssl) read_events (@chat_start toy_openssl tt)).1.
Proof.
  assert (Hr : ready (@started (@toy_mysql folding_text) default_config (toy_client empty_database true)) = true)
    by (vm_compute; reflexivity).
  assert (Ha : @admissible_run toy_openssl folding_text (@memory_start toy_openssl tt)
    (@calls_made toy_openssl read_events tt)) by (by apply (bool_decide_unpack _); vm_compute).
  exact (proj1 (@service_on_database toy_openssl toy_openssl_spec (@toy_mysql folding_text)
    (@toy_view folding_text) toy_protocol folding_text folding_text_spec toy_tables_view toy_tables_spec
    default_config (toy_client empty_database true) tt read_events eq_refl eq_refl eq_refl Hr Ha)).
Defined.
