(* ===== verification/Program.v ===== *)
(** * Program: from [main] to the last destructor

    [src/src/main.cpp] puts the parts together: the constructor of
    [ChatServerApp] ([Startup.v]), [run] around [TcpServer::start]
    ([ServerLife.v]), which drives the service on the MySQL stores
    ([ChatService.v], [StorageDb.v]), and the destructors of the members, in the
    reverse order of their declaration: [TcpServer], [ChatService],
    [ThreadPool], the stores and the logger, and last [MySqlConnectionPool].

    The workers outlive the event loop: they go on taking tasks and processing
    packets while [start] stops and [run] logs, and [~ThreadPool] lets them
    finish what is queued, at a time when the server and the service are already
    destroyed.  A run of [main] therefore has one of three outcomes, the
    undefined one included; scripts say what the workers do in between.  The
    lines the service and the network layer log are recorded in the state of the
    chat service, not printed here. *)

From S2P Require Import Prelude.
From S2P Require Import Message.
From S2P Require Import PacketCodec.
From S2P Require Import ServerConfig.
From S2P Require Import ThreadPool.
From S2P Require Import SqlTables.
From S2P Require Import MySqlClient.
From S2P Require Import MySqlConnectionPool.
From S2P Require Import PoolSpec.
From S2P Require Import ToyServer.
From S2P Require Import UserStore.
From S2P Require Import MessageStore.
From S2P Require Import Log.
From S2P Require Import Logger.
From S2P Require Import SessionManager.
From S2P Require Import UserStoreDb.
From S2P Require Import GroupStoreDb.
From S2P Require Import MessageStoreDb.
From S2P Require Import Storage.
From S2P Require Import StorageDb.
From S2P Require Import Startup.
From S2P Require Import ChatService.
From S2P Require Import TcpServer.
From S2P Require Import TcpTheorems.
From S2P Require Import ServerLife.
From S2P Require Import ServerCalls.
From S2P Require Import ServiceRefinement.
Open Scope N_scope.

(** ** The workers after the loop *)

Section late.
Context `{Storage} `{Kernel} `{Sockets}.

(** What the workers do while the main thread is past the event loop. *)
Inductive late_step : Type :=
  | LateTake
  | LatePacket (worker : nat).

(** [wake_event_loop] with [wake_fd_ == -1]: the write is left out. *)
Definition without_eventfd (m : ST Server unit) : ST Server unit := fun s =>
  let '(_, s') := m s in
  let k := srv_system s' in
  (tt, mkServer (srv_reactor s') (srv_queues s') (srv_pool s') (srv_busy s') (srv_chat s')
         (mkSystem (sys_open k) (sys_write_mode k) (sys_wake (srv_system s)) (sys_calls k)
            (sys_sent k) (sys_accepted k))).

Definition late_packet (config : ServerConfig) (worker : nat) : ST Process unit :=
  wake ← gets wake_fd_;
  on_server (if (wake =? -1)%Z then without_eventfd (worker_packet config worker)
             else worker_packet config worker).

Fixpoint run_late (config : ServerConfig) (late : list late_step) : ST Process unit :=
  match late with
  | [] => mret tt
  | LateTake :: late => on_server worker_take;; run_late config late
  | LatePacket worker :: late => late_packet config worker;; run_late config late
  end.

(** [~ThreadPool] sets [stop_], wakes the workers and joins them.  True if a
    worker then starts a task, or is in the middle of one. *)
Definition left_behind (p : Process) : bool :=
  match worker_next (ThreadPool.shutdown (srv_pool (pr_server p))) with
  | Takes _ _ => true
  | _ => existsb (fun task => negb (bool_decide (task_packets task = []))) (srv_busy (pr_server p))
  end.
(** *** The workers can finish *)
Lemma run_late_app config xs ys p :
  run_late config (xs ++ ys) p = run_late config ys (run_late config xs p).2.
Proof.
  revert p. induction xs as [|[|i] xs IH]; intros p; cbn [app run_late]; [done|..]; unfold mbind, ST_bind.
  - destruct (on_server worker_take p) as [[] p1]. apply IH.
  - destruct (late_packet config i p) as [[] p1]. apply IH.
Qed.

(** The parts of the server that say what is left to do. *)
Definition workload (p : Process) : ThreadPool Task * list Task :=
  (srv_pool (pr_server p), srv_busy (pr_server p)).

Lemma left_behind_workload p q : workload p = workload q -> left_behind p = left_behind q.
Proof. unfold workload, left_behind. by intros [= -> ->]. Qed.

Lemma late_take_workload p task tasks :
  tasks_ (srv_pool (pr_server p)) = task :: tasks ->
  workload (on_server worker_take p).2 =
    (mkThreadPool tasks (max_queue_size_ (srv_pool (pr_server p))) (stop_ (srv_pool (pr_server p))),
     srv_busy (pr_server p) ++ [task]).
Proof.
  intros E. unfold on_server, worker_take. pose proof (worker_next_cases (srv_pool (pr_server p))) as W.
  rewrite E in W. by rewrite W.
Qed.

Lemma late_packet_workload config i p task packet packets :
  srv_busy (pr_server p) !! i = Some task -> task_packets task = packet :: packets ->
  workload (late_packet config i p).2 =
    (srv_pool (pr_server p),
     <[i := mkTask (task_connection_id task) (task_generation task) packets]> (srv_busy (pr_server p))).
Proof.
  intros Ei Ep.
  assert (E : srv_pool (worker_packet config i (pr_server p)).2 = srv_pool (pr_server p) /\
    srv_busy (worker_packet config i (pr_server p)).2 =
      <[i := mkTask (task_connection_id task) (task_generation task) packets]> (srv_busy (pr_server p))).
  { unfold worker_packet. rewrite Ei, Ep. unfold mbind, ST_bind, on_busy. cbv zeta.
    exact (packet_pool _ _ _ _ _ _ (process_packet_done config _ _ _ _)). }
  destruct E as [E1 E2].
  unfold late_packet, mbind, ST_bind, gets, on_server, workload, without_eventfd.
  destruct (wake_fd_ p =? -1)%Z; destruct (worker_packet config i (pr_server p)) as [[] s']; cbn in *;
    congruence.
Qed.

Lemma queue_drained config p :
  exists late, tasks_ (srv_pool (pr_server (run_late config late p).2)) = [].
Proof.
  remember (tasks_ (srv_pool (pr_server p))) as tasks eqn:E. symmetry in E. revert p E.
  induction tasks as [|task tasks IH]; intros p E; [by exists []|].
  pose proof (late_take_workload p task tasks E) as W. unfold workload in W.
  destruct (on_server worker_take p) as [[] p1] eqn:E1. injection W as W _.
  destruct (IH p1) as [late Hl]; [cbn in W; by rewrite W|]. exists (LateTake :: late).
  cbn [run_late]. unfold mbind, ST_bind. by rewrite E1.
Qed.

(** The packets the workers still have to process. *)
Fixpoint packets_left (busy : list Task) : nat :=
  match busy with
  | [] => 0
  | task :: busy => length (task_packets task) + packets_left busy
  end.

Lemma packets_left_insert busy i task task' :
  busy !! i = Some task -> length (task_packets task) = S (length (task_packets task')) ->
  packets_left busy = S (packets_left (<[i := task']> busy)).
Proof.
  revert i. induction busy as [|t busy IH]; intros i Hi El; [done|].
  destruct i as [|i]; [injection Hi as ->|change (busy !! i = Some task) in Hi].
  - change (<[0%nat := task']> (task :: busy)) with (task' :: busy). cbn [packets_left]. lia.
  - change (<[S i := task']> (t :: busy)) with (t :: <[i := task']> busy). cbn [packets_left].
    rewrite (IH i) by done. lia.
Qed.

Lemma tasks_finished config p n :
  tasks_ (srv_pool (pr_server p)) = [] -> packets_left (srv_busy (pr_server p)) = n ->
  exists late, left_behind (run_late config late p).2 = false.
Proof.
  revert p. induction n as [|n IH]; intros p Et En.
  - exists []. change (left_behind p = false). unfold left_behind.
    pose proof (worker_next_cases (ThreadPool.shutdown (srv_pool (pr_server p)))) as W.
    cbn [tasks_ stop_ ThreadPool.shutdown] in W. rewrite Et in W. rewrite W. revert En. clear.
    induction (srv_busy (pr_server p)) as [|t busy IH]; [done|]. cbn [packets_left existsb].
    destruct (task_packets t); [|simpl; lia]. exact IH.
  - assert (Hex : exists i task packet packets, srv_busy (pr_server p) !! i = Some task /\
      task_packets task = packet :: packets).
    { revert En. clear. induction (srv_busy (pr_server p)) as [|t busy IH]; [done|]. cbn [packets_left].
      destruct (task_packets t) as [|packet packets] eqn:Ep; [|by exists 0%nat, t, packet, packets].
      intros E. destruct (IH E) as (i & task & packet & packets & ? & ?). by exists (S i), task, packet, packets. }
    destruct Hex as (i & task & packet & packets & Ei & Ep).
    pose proof (late_packet_workload config i p task packet packets Ei Ep) as W. unfold workload in W.
    destruct (late_packet config i p) as [[] p1] eqn:E1. injection W as W1 W2. cbn in W1, W2.
    destruct (IH p1) as [late Hl]; [by rewrite W1| |].
    { rewrite W2. erewrite packets_left_insert in En; [by injection En|done|by rewrite Ep]. }
    exists (LatePacket i :: late). cbn [run_late]. unfold mbind, ST_bind. by rewrite E1.
Qed.

Lemma workers_finish config p : exists late, left_behind (run_late config late p).2 = false.
Proof.
  destruct (queue_drained config p) as [xs Ex].
  destruct (tasks_finished config (run_late config xs p).2 _ Ex eq_refl) as [ys Ey].
  exists (xs ++ ys). by rewrite run_late_app.
Qed.

(** Without tasks there is nothing the workers could do. *)
Lemma run_late_idle config late p :
  tasks_ (srv_pool (pr_server p)) = [] -> srv_busy (pr_server p) = [] ->
  workload (run_late config late p).2 = workload p.
Proof.
  revert p. induction late as [|[|i] late IH]; intros p Et Eb; cbn [run_late]; [done|..];
    unfold mbind, ST_bind.
  - assert (E : (on_server worker_take p).2 = p).
    { unfold on_server, worker_take. pose proof (worker_next_cases (srv_pool (pr_server p))) as W.
      rewrite Et in W. rewrite W. by destruct p, (stop_ _). }
    destruct (on_server worker_take p) as [[] p1]. cbn in E. subst. by apply IH.
  - assert (E : workload (late_packet config i p).2 = workload p).
    { assert (W : worker_packet config i (pr_server p) = (tt, pr_server p))
        by (unfold worker_packet; by rewrite Eb, lookup_nil).
      unfold late_packet, mbind, ST_bind, gets, on_server, without_eventfd, workload.
      destruct (wake_fd_ p =? -1)%Z; by rewrite W. }
    destruct (late_packet config i p) as [[] p1]. cbn [snd] in E. rewrite IH; [done|..];
      unfold workload in E; injection E as E1 E2; congruence.
Qed.

Lemma close_connection_workload id (s : Server) :
  srv_pool (close_connection id s).2 = srv_pool s /\ srv_busy (close_connection id s).2 = srv_busy s.
Proof.
  unfold close_connection, mbind, ST_bind, reactor. by destruct (find_connection id (srv_reactor s)); split.
Qed.

Lemma close_all_workload ids (s : Server) :
  srv_pool (close_all ids s).2 = srv_pool s /\ srv_busy (close_all ids s).2 = srv_busy s.
Proof.
  revert s. induction ids as [|id ids IH]; intros s; [done|]. cbn [close_all]. unfold mbind, ST_bind.
  pose proof (close_connection_workload id s) as [E1 E2].
  destruct (close_connection id s) as [[] s1]. cbn in E1, E2. rewrite <- E1, <- E2. apply IH.
Qed.

Definition same_work {A} (m : ST Process A) : Prop := forall p, workload (m p).2 = workload p.

Lemma same_work_bind {A B} (m : ST Process A) (f : A -> ST Process B) :
  same_work m -> (forall a, same_work (f a)) -> same_work (m ≫= f).
Proof.
  intros Hm Hf p. unfold mbind, ST_bind. specialize (Hm p). destruct (m p) as [a p1].
  by rewrite (Hf a p1).
Qed.

Lemma same_work_os {A} (m : ST Os A) : same_work (on_os m).
Proof. intros p. unfold on_os. by destruct (m (pr_os p)). Qed.

Lemma close_descriptor_work fd reset : same_work reset -> same_work (close_descriptor fd reset).
Proof.
  intros Hr. unfold close_descriptor. apply same_work_bind; [done|]. intros n.
  destruct (n =? -1)%Z; [done|]. apply same_work_bind; [apply same_work_os|done].
Qed.

Lemma stop_workload : same_work stop.
Proof.
  unfold stop. apply same_work_bind; [done|]. intros had. apply same_work_bind; [done|]. intros _.
  apply same_work_bind.
  { intros p. unfold on_server, stop_connections, mbind, ST_bind, reactor, workload.
    pose proof (close_all_workload (map fst (map_to_list (connections_ (srv_reactor (pr_server p)))))
      (pr_server p)) as [E1 E2].
    destruct (close_all _ _) as [[] s1]. cbn in *. congruence. }
  intros _. repeat (apply same_work_bind; [by apply close_descriptor_work|]; intros _). by destruct had.
Qed.

(** They reach the stores through their interface only. *)
Lemma late_packet_calls config i : proc_calls (late_packet config i).
Proof.
  unfold late_packet. apply proc_calls_bind; [by intros ?|]. intros wake. apply proc_calls_server.
  destruct (wake =? -1)%Z; [|apply worker_packet_calls]. intros s.
  pose proof (worker_packet_calls config i s) as Hw. unfold without_eventfd.
  by destruct (worker_packet config i s) as [[] s'].
Qed.

Lemma run_late_calls config late : proc_calls (run_late config late).
Proof.
  induction late as [|[|i] late IH]; cbn [run_late]; [apply proc_calls_ret|..];
    (apply proc_calls_bind; [|by intros ?]).
  - apply proc_calls_server, (server_event_calls config EvTake).
  - apply late_packet_calls.
Qed.
End late.

(** ** [main] *)

Section program.
Context `{OpenSSL} `{MySql} `{Kernel} `{Sockets}.

Definition process_db (p : @Process mysql_storage _) : Db := dbw_db (st_world (srv_chat (pr_server p))).

(** The process after somebody else has used the database. *)
Definition with_db (db : Db) (p : @Process mysql_storage _) : @Process mysql_storage _ :=
  let s := pr_server p in
  let w := st_world (srv_chat s) in
  with_server (@mkServer mysql_storage (srv_reactor s) (srv_queues s) (srv_pool s) (srv_busy s)
    (@mkChatState mysql_storage (st_sessions (srv_chat s)) (mkMySqlWorld _ _ (dbw_log w) db (dbw_entropy w))
       (st_logged (srv_chat s)))
    (srv_system s)) p.

(** The server before [start]. *)
Definition fresh_process (config : ServerConfig) (e : Entropy) (o : Os) (db : Db) :
    @Process mysql_storage _ :=
  @process_start mysql_storage _ config (service_on db e) o.

(** [tcp_server_.start()], and what the workers do after it, up to the last
    line of [run]: [None] if [start] has not returned when the script ends. *)
Definition serve (config : ServerConfig) (polls : list poll) (late : list late_step) (e : Entropy)
    (o : Os) : ST Db (option (@Process mysql_storage _)) := fun db =>
  match start config polls (fresh_process config e o db) with
  | (None, p) => (None, process_db p)
  | (Some _, p) =>
      let '(_, p) := run_late config late p in
      (Some p, process_db p)
  end.

Inductive outcome : Type :=
  (** The script has ended, and [main] is still in the event loop. *)
  | Running
  (** [~ThreadPool] runs a task on the destroyed server and service: undefined. *)
  | Dangling
  | Exited (code : Z).

(** [main]: how it ends, what [run] printed, and the database: at the end of the
    script, before [~ThreadPool], or after the last destructor.  [late] and
    [later] are what the workers do before and after the last line of [run]. *)
Definition program (config : ServerConfig) (before after : bytes) (polls : list poll)
    (late later : list late_step) (e : Entropy) (o : Os) (c : Client) : outcome * (list bytes * Db) :=
  let '(_, db) := chat_server_app config (new_db c) in
  let fresh := fresh_process config e o db in
  let '(returned, (out, db)) := app_run before after (serve config polls late e o) ([], db) in
  match returned with
  | None => (Running, (out, db))
  | Some (code, served) =>
      let '(_, p) := run_late config later (with_db db (default fresh served)) in
      let '(_, p) := stop p in
      let db := process_db p in
      if left_behind p then (Dangling, (out, db))
      else
        let '(_, db) := shutdown db in
        (Exited code, (out, db))
  end.
End program.

(** ** What it leaves *)

Section leaving.
Context `{OpenSSL} `{MySqlProtocol} `{Kernel} `{Sockets}.

Lemma open_stores_kept db : pool_ok [] db -> wp open_stores (fun _ => kept [] db) db.
Proof.
  intros Hok. unfold open_stores.
  assert (Hquery : forall q d, kept [] db d ->
    wp (using_connection tt (fun mysql => execute_query mysql q;; mret tt)) (fun _ => kept [] db) d).
  { intros q d K. eapply wp_mono; [apply using_connection_kept; [apply K|]|].
    - intros h. apply balanced_bind; [apply balanced_query|]. intros b. apply balanced_ret.
    - intros [] d'. by apply kept_trans. }
  apply wp_bind. eapply wp_mono; [by apply Hquery, kept_refl|]. intros [] d1 K1. apply wp_bind.
  eapply wp_mono; [apply using_connection_kept; [apply K1|apply setup_messages_balanced]|].
  intros [] d2 K2. pose proof (kept_trans _ _ _ _ K1 K2) as K.
  apply wp_bind. eapply wp_mono; [by apply Hquery|]. intros [] d3 K3.
  apply wp_bind. eapply wp_mono; [by apply Hquery|]. intros [] d4 K4. by apply Hquery.
Qed.

Lemma chat_server_app_kept config c :
  handles c = ∅ -> wp (chat_server_app config) (fun _ => kept [] (new_db c)) (new_db c).
Proof.
  intros Eh. unfold chat_server_app. apply wp_bind.
  eapply wp_mono; [apply (init_spec (pool_config config) []), new_db_ok, Eh|].
  intros r d (Hok & _ & Es & _).
  assert (K : kept [] (new_db c) d) by (split; [done|set_solver|done]).
  eapply wp_mono; [by apply open_stores_kept|]. intros [] d'. by apply kept_trans.
Qed.

(** Whatever the server does, the pool is as it was. *)
Definition pool_kept {A} (m : ST (@Process mysql_storage _) A) : Prop := forall p,
  pool_ok [] (process_db p) -> kept [] (process_db p) (process_db (m p).2).

Lemma calls_kept {A} (m : ST (@Process mysql_storage _) A) : proc_calls m -> pool_kept m.
Proof.
  intros Hm p Hok. unfold process_db. destruct (Hm p) as [calls <-].
  exact (run_calls_kept [] calls (st_world (srv_chat (pr_server p))) Hok).
Qed.

Lemma serve_kept config polls late e o db :
  pool_ok [] db ->
  wp (serve config polls late e o) (fun r db' => kept [] db db' /\
    (r = None -> (start config polls (fresh_process config e o db)).1 = None) /\
    forall p, r = Some p -> process_db p = db') db.
Proof.
  intros Hok. unfold wp, serve.
  pose proof (calls_kept _ (start_calls config polls) (fresh_process config e o db) Hok) as K1.
  destruct (start config polls (fresh_process config e o db)) as [[[]|] p1]; cbn [fst snd] in *.
  - pose proof (calls_kept _ (run_late_calls config late) p1 (kept_ok _ _ _ K1)) as K2.
    destruct (run_late config late p1) as [[] p2]. cbn [fst snd] in *.
    split; [exact (kept_trans _ _ _ _ K1 K2)|]. split; [done|]. by intros p [= <-].
  - split; [exact K1|done].
Qed.

(** The loop of a script with a failure of [epoll_wait] ends. *)
Lemma start_returns config polls (p : @Process mysql_storage _) :
  existsb ends_loop polls = true -> (start config polls p).1 <> None.
Proof.
  intros E. unfold start, mbind, ST_bind. destruct (setup_listener config p) as [[] p1]; cbn [negb].
  - destruct (log_line_info _ p1) as [[] p2]. destruct (set_running true p2) as [[] p3] eqn:E3.
    assert (Hr : running_ p3 = true) by (unfold set_running, modify in E3; by injection E3 as <-).
    pose proof (run_event_loop_spec config polls p3 Hr) as Hl. cbv zeta in Hl. rewrite E in Hl.
    destruct Hl as [m ->]. by destruct (stop _).
  - by destruct (stop p1).
Qed.

Lemma write_kept call out db :
  pool_ok [] db ->
  wp (write true call) (fun _ '(out', db') => out' = out ++ [log_line call] /\ kept [] db db') (out, db).
Proof.
  intros Hok. unfold wp, write, insert_row, print_line. cbn [negb].
  pose proof (using_connection_kept [] tt (insert_log_on (level_to_string (call_level call))
    (call_message call)) db Hok (insert_log_on_balanced _ _)) as W. unfold wp in W.
  by destruct (using_connection _ _ _) as [[] d].
Qed.

(** What [run] prints on standard output. *)
Definition first_line (before : bytes) : bytes := log_line (mkLogCall before Info "starting chat server").
Definition last_line (after : bytes) : bytes := log_line (mkLogCall after Info "chat server stopped").

Definition run_output (before after : bytes) (ok : bool) : list bytes :=
  if ok then [first_line before; last_line after] else [].

(** What [run] leaves: while it is running, or when it has returned. *)
Definition run_left (before after : bytes) (ok loops : bool) (r : option (Z * option (@Process mysql_storage _)))
    (out : list bytes) : Prop :=
  match r with
  | None => ok = true /\ loops = true /\ out = [first_line before]
  | Some (code, served) =>
      code = (if ok then 0 else 1)%Z /\ out = run_output before after ok /\ (ok = false -> served = None)
  end.

Lemma app_run_kept config polls late e o before after db :
  pool_ok [] db ->
  wp (app_run before after (serve config polls late e o)) (fun r '(out, db') =>
    run_left before after (ready db) (negb (existsb ends_loop polls)) r out /\ kept [] db db')
    ([], db).
Proof.
  intros Hok. unfold wp, app_run, Logger.info. destruct (ready db); cbn [negb].
  2:{ split; [done|by apply kept_refl]. }
  pose proof (write_kept (mkLogCall before Info "starting chat server") [] db Hok) as W1.
  unfold wp in W1. destruct (write true _ _) as [[] [out1 d1]]. cbn [fst snd] in W1.
  destruct W1 as [-> K1].
  pose proof (serve_kept config polls late e o d1 (kept_ok _ _ _ K1)) as W2. unfold wp in W2.
  destruct (serve _ _ _ _ _ d1) as [[p|] d2]; cbn [fst snd] in W2; destruct W2 as (K2 & Hn & _).
  - pose proof (write_kept (mkLogCall after Info "chat server stopped")
      ([] ++ [log_line (mkLogCall before Info "starting chat server")]) d2 (kept_ok _ _ _ K2)) as W3.
    unfold wp in W3. destruct (write true _ _) as [[] [out3 d3]]. cbn [fst snd] in *.
    destruct W3 as [-> K3]. split; [done|]. exact (kept_trans _ _ _ _ K1 (kept_trans _ _ _ _ K2 K3)).
  - cbn [fst snd]. split; [|exact (kept_trans _ _ _ _ K1 K2)]. split; [done|]. split; [|done].
    specialize (Hn eq_refl). destruct (existsb ends_loop polls) eqn:E; [|done].
    by apply (start_returns config _ (fresh_process config e o d1)) in E.
Qed.

(** The end of [main]: late workers, [~TcpServer]. *)
Definition main_end (config : ServerConfig) (later : list late_step) (p : @Process mysql_storage _) :
    @Process mysql_storage _ := (stop (run_late config later p).2).2.

Lemma main_end_kept config later p : pool_ok [] (process_db p) ->
  kept [] (process_db p) (process_db (main_end config later p)).
Proof.
  intros Hok. unfold main_end.
  pose proof (calls_kept _ (run_late_calls config later) p Hok) as K1.
  exact (kept_trans _ _ _ _ K1 (calls_kept _ stop_calls _ (kept_ok _ _ _ K1))).
Qed.

Lemma main_end_left config later p :
  left_behind (main_end config later p) = left_behind (run_late config later p).2.
Proof. apply left_behind_workload, stop_workload. Qed.

(** A server that was not started has nothing for the workers. *)
Lemma fresh_end_left config later e o db db' :
  left_behind (main_end config later (with_db db' (fresh_process config e o db))) = false.
Proof.
  rewrite main_end_left. rewrite (left_behind_workload _ (with_db db' (fresh_process config e o db)));
    [done|by apply run_late_idle].
Qed.

Lemma program_unfold config before after polls late later e o c :
  program config before after polls late later e o c =
    let d1 := (chat_server_app config (new_db c)).2 in
    let '(r, (out, d2)) := app_run before after (serve config polls late e o) ([], d1) in
    match r with
    | None => (Running, (out, d2))
    | Some (code, served) =>
        let p := main_end config later (with_db d2 (default (fresh_process config e o d1) served)) in
        if left_behind p then (Dangling, (out, process_db p))
        else (Exited code, (out, (shutdown (process_db p)).2))
    end.
Proof.
  unfold program, main_end. destruct (chat_server_app config (new_db c)) as [[] d1]. cbn [snd].
  destruct (app_run _ _ _ _) as [[[code served]|] [out d2]]; [|done]. cbv zeta.
  destruct (run_late _ _ _) as [[] p1]. cbn [snd]. destruct (stop p1) as [[] p2]. cbn [snd].
  destruct (left_behind p2); [done|]. by destruct (shutdown (process_db p2)).
Qed.

(** What is claimed of one run. *)
Definition left_by (before after : bytes) (ok : bool) (c : Client) (r : outcome * (list bytes * Db)) : Prop :=
  match r.1 with
  | Exited code =>
      code = (if ok then 0 else 1)%Z /\ r.2.1 = run_output before after ok /\
      handles (client r.2.2) = ∅ /\ slots r.2.2 = ∅
  | Running => ok = true /\ r.2.1 = [first_line before] /\ pool_ok [] r.2.2
  | Dangling => ok = true /\ r.2.1 = run_output before after ok /\ pool_ok [] r.2.2
  end /\ statements (client r.2.2) = statements c /\ use_after_free r.2.2 = false.

Lemma pool_ok_safe lent db : pool_ok lent db -> use_after_free db = false.
Proof. intros Hok. apply (ok_safe _ _ (po_objects _ _ Hok)). Qed.

Lemma program_left config before after polls late later e o c :
  handles c = ∅ ->
  left_by before after (ready (started config c)) c
    (program config before after polls late later e o c) /\
  (existsb ends_loop polls = true -> (program config before after polls late later e o c).1 <> Running).
Proof.
  intros Eh. rewrite program_unfold. cbv zeta.
  pose proof (chat_server_app_kept config c Eh) as K1. unfold wp in K1. unfold started.
  set (d1 := (chat_server_app config (new_db c)).2) in *.
  pose proof (app_run_kept config polls late e o before after d1 (kept_ok _ _ _ K1)) as W.
  unfold wp in W. destruct (app_run _ _ _ _) as [r [out d2]]. cbn [fst snd] in W. destruct W as [L K2].
  pose proof (kept_trans _ _ _ _ K1 K2) as K. destruct r as [[code served]|]; cbn [run_left] in L.
  2:{ destruct L as (-> & Hl & ->). split; [|intros E; by rewrite E in Hl].
      split; [by split_and!; [..|apply K]|]. split; [apply K|by apply (pool_ok_safe []), K]. }
  destruct L as (-> & -> & Hs). set (p0 := with_db d2 _).
  pose proof (main_end_kept config later p0 (kept_ok _ _ _ K)) as K3.
  pose proof (kept_trans _ _ _ _ K K3) as K4. destruct (left_behind _) eqn:El.
  - split; [|done]. split; [|split; [apply K4|by apply (pool_ok_safe []), K4]].
    cbn [fst snd]. destruct (ready d1); [by split_and!; [..|apply K4]|].
    unfold p0 in El. rewrite (Hs eq_refl) in El. cbn [default] in El. by rewrite fresh_end_left in El.
  - split; [|done]. pose proof (shutdown_spec [] _ (kept_ok _ _ _ K4)) as W3. unfold wp in W3.
    destruct W3 as (Hobj & Esl & Eh3 & _ & _ & _ & _ & Es3 & _). split; cbn [fst snd].
    + by split_and!.
    + split; [by rewrite Es3, (kept_statements _ _ _ K4)|apply Hobj].
Qed.

(** C7: Whatever the configuration, the clients and the workers do, and whatever
    sockets and client library answer:
    - when [main] returns, every database connection and statement it opened is
      closed, every object of the pool is freed and none was touched after it;
      it returns 1, with none of [run]'s lines on standard output, exactly when
      the pool did not start, and otherwise 0, with its first and its last line;
    - it does not run for ever once [epoll_wait] fails for good (in the script);
    - short of returning, in the loop or when [~ThreadPool] is about to run what
      the workers have left on the destroyed server and service, the pool is in
      order; the second of these is undefined behaviour, and nothing is claimed
      beyond it;
    - it never happens when the pool did not start, and it can always be avoided:
      the workers have steps that finish their work in time. *)
Theorem program_leaves_nothing (config : ServerConfig) (before after : bytes) (polls : list poll)
    (late later : list late_step) (e : Entropy) (o : Os) (c : Client) :
  handles c = ∅ ->
  let r := program config before after polls late later e o c in
  (r.1 = Exited 1 <-> ready (started config c) = false) /\
  (existsb ends_loop polls = true -> r.1 <> Running) /\
  match r.1 with
  | Exited code =>
      r.2.1 = run_output before after (ready (started config c)) /\
      handles (client r.2.2) = ∅ /\ slots r.2.2 = ∅
  | Running => r.2.1 = [first_line before] /\ pool_ok [] r.2.2
  | Dangling => r.2.1 = run_output before after true /\ pool_ok [] r.2.2
  end /\
  statements (client r.2.2) = statements c /\ use_after_free r.2.2 = false /\
  exists later', (program config before after polls late later' e o c).1 <> Dangling.
Proof.
  intros Eh. cbv zeta. destruct (program_left config before after polls late later e o c Eh) as [L Hrun].
  assert (Hex : exists later', (program config before after polls late later' e o c).1 <> Dangling).
  { setoid_rewrite program_unfold. cbv zeta.
    destruct (app_run _ _ _ _) as [[[code served]|] [out d2]]; [|by exists []].
    set (p0 := with_db d2 _). destruct (workers_finish config p0) as [later' El]. exists later'.
    by rewrite main_end_left, El. }
  destruct (program _ _ _ _ _ _ _ _ _) as [oc [out d]]. destruct L as [L [Es Eu]]. cbn [fst snd] in *.
  split; [|split; [done|split; [|done]]].
  - destruct oc as [| |code]; [by destruct L as (-> & _); split|by destruct L as (-> & _); split|].
    destruct L as (-> & _). destruct (ready _); by split.
  - destruct oc as [| |code]; [by destruct L as (_ & ? & ?)|by destruct L as (Er & ? & ?); rewrite Er in *|].
    by destruct L as (_ & ? & ? & ?).
Qed.
End leaving.

(** ** Concrete runs *)

#[local] Existing Instance toy_openssl.
#[local] Existing Instance sample_kernel.
#[local] Existing Instance toy_sockets.

Abbreviation toy_program polls late later reachable :=
  (@program toy_openssl (@toy_mysql plain_text) sample_kernel toy_sockets default_config
     "2024-01-01 12:00:00" "2024-01-01 12:00:09" polls late later tt toy_os
     (toy_client empty_database reachable)).

(** The usernames in the database. *)
Abbreviation toy_usernames r :=
  (map row_username (users (@tables _ (@toy_view plain_text) (client r.2.2)))).

(** Alice registers over the network, and her row is in the table at the end. *)
Example toy_program_runs :
  let r := toy_program toy_polls [] [] true in
  r.1 = Exited 0 /\
  r.2.1 = [bs "2024-01-01 12:00:00 [INFO] starting chat server";
           bs "2024-01-01 12:00:09 [INFO] chat server stopped"] /\
  toy_usernames r = [bs "alice"].
Proof. vm_compute. split_and!; reflexivity. Qed.

(** The loop ends before a worker has taken her request. *)
Definition toy_cut : list poll := take 2 toy_polls ++ [PollFailed 22].

(** If the worker is quick, before the last line or after it, she is
    registered; if not, [~ThreadPool] runs the task on destroyed objects. *)
Example toy_late_worker :
  (let r := toy_program toy_cut [LateTake; LatePacket 0] [] true in
   r.1 = Exited 0 /\ toy_usernames r = [bs "alice"]) /\
  (let r := toy_program toy_cut [LateTake] [LatePacket 0] true in
   r.1 = Exited 0 /\ toy_usernames r = [bs "alice"]) /\
  (toy_program toy_cut [LateTake] [] true).1 = Dangling /\
  (toy_program toy_cut [] [] true).1 = Dangling /\
  (toy_program (take 2 toy_polls) [] [] true).1 = Running.
Proof. vm_compute. split_and!; reflexivity. Qed.

Lemma program_leaves_nothing_witness :
  (let r := toy_program toy_cut [LateTake] [LatePacket 0] true in
   r.1 = Exited 0 /\ @handles _ (@toy_view plain_text) (client r.2.2) = ∅ /\ slots r.2.2 = ∅) /\
  (toy_program toy_polls [] [] false).1 = Exited 1.
Proof.
  assert (E : ready (@started (@toy_mysql plain_text) default_config (toy_client empty_database false)) = false)
    by (vm_compute; reflexivity).
  assert (Eo : (toy_program toy_cut [LateTake] [LatePacket 0] true).1 = Exited 0) by (vm_compute; reflexivity).
  pose proof (@program_leaves_nothing toy_openssl (@toy_mysql plain_text) toy_view toy_protocol
    sample_kernel toy_sockets default_config "2024-01-01 12:00:00" "2024-01-01 12:00:09" toy_cut
    [LateTake] [LatePacket 0] tt toy_os (toy_client empty_database true) eq_refl) as (_ & _ & Hh & _).
  pose proof (@program_leaves_nothing toy_openssl (@toy_mysql plain_text) toy_view toy_protocol
    sample_kernel toy_sockets default_config "2024-01-01 12:00:00" "2024-01-01 12:00:09" toy_polls
    [] [] tt toy_os (toy_client empty_database false) eq_refl) as (Hc & _).
  cbv zeta. rewrite Eo in Hh. split; [split; [exact Eo|apply Hh]|]. by apply Hc.
Defined.
